(** * ERP local data engine: storage core, ledgers, backup and merge

    A shallow embedding of the JavaScript sources under [update/]:
    [storage/validate.js], [storage/schema.js], [storage/db_core.js],
    [storage/backup.js], [services/ops_stock_events.js],
    [services/ops_cashier.js], [services/ops_sales_refund.js] and
    [integrations/server_sync.js].

    Conventions of the embedding.
    - JavaScript values are the inductive [JValue]; objects are association
      lists in insertion order.
    - Numbers are exact decimals [Dec m e] (meaning m * 10^-e) together with
      [NaN] and the two infinities; binary64 rounding, overflow and the
      negative zero are not represented.
    - Strings are [string]: a character is a code unit below 256.
    - Mutation is explicit: a JavaScript function that mutates an object and
      returns it becomes a function returning the updated value.
    - The host (localStorage, the clock, Math.random, the signed-in user)
      is the record [World], threaded by the monad [M], which also carries
      thrown exceptions. *)

From Stdlib Require Import ZArith NArith List String Ascii Bool Lia.
Import ListNotations.

Local Open Scope string_scope.
Local Open Scope Z_scope.

(* ================================================================== *)
(** * Numbers *)
(* ================================================================== *)

Module Num.

Inductive jsnum : Type :=
| NaN
| Inf (negative : bool)
| Dec (m : Z) (e : nat).

Definition int (z : Z) : jsnum := Dec z 0.

Definition pow10 (e : nat) : Z := 10 ^ Z.of_nat e.

(** Canonical form: no trailing zero among the [e] fractional digits. *)
Fixpoint norm (m : Z) (e : nat) : jsnum :=
  match e with
  | O => Dec m 0
  | S e' => if m mod 10 =? 0 then norm (m / 10) e' else Dec m e
  end.

Definition canonical (x : jsnum) : bool :=
  match x with
  | Dec m O => true
  | Dec m (S _) => negb (m mod 10 =? 0)
  | _ => false
  end.

(** [m * 10^p] for a signed power. *)
Definition scaled (m : Z) (p : Z) : jsnum :=
  if 0 <=? p then Dec (m * 10 ^ p) 0 else norm m (Z.to_nat (- p)).

Definition isFinite (x : jsnum) : bool :=
  match x with Dec _ _ => true | _ => false end.

Definition trunc (x : jsnum) : jsnum :=
  match x with
  | Dec m e => Dec (Z.quot m (pow10 e)) 0
  | _ => x
  end.

Definition abs (x : jsnum) : jsnum :=
  match x with
  | Dec m e => Dec (Z.abs m) e
  | Inf _ => Inf false
  | NaN => NaN
  end.

Definition neg (x : jsnum) : jsnum :=
  match x with
  | Dec m e => Dec (- m) e
  | Inf b => Inf (negb b)
  | NaN => NaN
  end.

(** [x + y], exact on the decimal numbers of the model: it is the sum of
    the engine wherever that one is exact, as it is for whole numbers
    whose sum stays within 2^53. *)
Definition add (x y : jsnum) : jsnum :=
  match x, y with
  | NaN, _ | _, NaN => NaN
  | Inf a, Inf b => if Bool.eqb a b then Inf a else NaN
  | Inf a, Dec _ _ => Inf a
  | Dec _ _, Inf b => Inf b
  | Dec m1 e1, Dec m2 e2 =>
      let e := Nat.max e1 e2 in
      Dec (m1 * pow10 (e - e1) + m2 * pow10 (e - e2)) e
  end.

Definition sub (x y : jsnum) : jsnum := add x (neg y).

(** Three-way comparison; [None] when a NaN is involved. *)
Definition cmp (x y : jsnum) : option comparison :=
  match x, y with
  | NaN, _ | _, NaN => None
  | Inf a, Inf b => Some (if a then (if b then Eq else Lt) else (if b then Gt else Eq))
  | Inf a, Dec _ _ => Some (if a then Lt else Gt)
  | Dec _ _, Inf b => Some (if b then Gt else Lt)
  | Dec m1 e1, Dec m2 e2 =>
      let e := Nat.max e1 e2 in
      Some (Z.compare (m1 * pow10 (e - e1)) (m2 * pow10 (e - e2)))
  end.

Definition ltb (x y : jsnum) : bool :=
  match cmp x y with Some Lt => true | _ => false end.
Definition leb (x y : jsnum) : bool :=
  match cmp x y with Some Lt | Some Eq => true | _ => false end.
Definition gtb (x y : jsnum) : bool := ltb y x.
Definition geb (x y : jsnum) : bool := leb y x.
Definition eqb (x y : jsnum) : bool :=
  match cmp x y with Some Eq => true | _ => false end.

(** [Math.max(x, y)]. *)
Definition max (x y : jsnum) : jsnum :=
  match cmp x y with
  | None => NaN
  | Some Lt => y
  | Some _ => x
  end.

(** A number is falsy when it is zero or NaN. *)
Definition truthy (x : jsnum) : bool :=
  match x with
  | NaN => false
  | Inf _ => true
  | Dec m _ => negb (m =? 0)
  end.

Definition toZ (x : jsnum) : Z :=
  match trunc x with Dec z _ => z | _ => 0 end.

End Num.
Export Num.

(* ================================================================== *)
(** * Strings *)
(* ================================================================== *)

Module Str.

Definition code (c : ascii) : Z := Z.of_N (N_of_ascii c).

Definition chr (n : Z) : ascii := ascii_of_N (Z.to_N n).

(** White space and line terminators removed by [String.prototype.trim]. *)
Definition isWhite (c : ascii) : bool :=
  let n := code c in
  ((9 <=? n) && (n <=? 13)) || (n =? 32) || (n =? 160).

Fixpoint trimStart (s : string) : string :=
  match s with
  | String c r => if isWhite c then trimStart r else s
  | EmptyString => EmptyString
  end.

Fixpoint trimEnd (s : string) : string :=
  match s with
  | EmptyString => EmptyString
  | String c r =>
      match trimEnd r with
      | EmptyString => if isWhite c then EmptyString else String c EmptyString
      | r' => String c r'
      end
  end.

Definition trim (s : string) : string := trimEnd (trimStart s).

(** [s.replace(/\./g, '')] *)
Fixpoint removeDots (s : string) : string :=
  match s with
  | EmptyString => EmptyString
  | String c r => if Ascii.eqb c "." then removeDots r else String c (removeDots r)
  end.

(** [s.replace(',', '.')]: the first comma only. *)
Fixpoint commaToDot (s : string) : string :=
  match s with
  | EmptyString => EmptyString
  | String c r => if Ascii.eqb c "," then String "." r else String c (commaToDot r)
  end.

Definition isEmpty (s : string) : bool :=
  match s with EmptyString => true | _ => false end.

Fixpoint join (sep : string) (l : list string) : string :=
  match l with
  | [] => EmptyString
  | [x] => x
  | x :: r => x ++ sep ++ join sep r
  end.

Fixpoint replicate (n : nat) (c : ascii) : string :=
  match n with O => EmptyString | S k => String c (replicate k c) end.

(** ** Decimal digits *)

Definition isDigit (c : ascii) : bool := (48 <=? code c) && (code c <=? 57).
Definition digitVal (c : ascii) : Z := code c - 48.
Definition digitChar (d : Z) : ascii := chr (48 + d).

(** Longest prefix of digits, and what follows it. *)
Fixpoint takeDigits (s : string) : string * string :=
  match s with
  | String c r =>
      if isDigit c then let (ds, rest) := takeDigits r in (String c ds, rest)
      else (EmptyString, s)
  | EmptyString => (EmptyString, EmptyString)
  end.

(** Value of a digit string, most significant digit first. *)
Fixpoint readNat (s : string) (acc : Z) : Z :=
  match s with
  | EmptyString => acc
  | String c r => readNat r (10 * acc + digitVal c)
  end.

Fixpoint showNat_aux (fuel : nat) (n : Z) (acc : string) : string :=
  match fuel with
  | O => acc
  | S f =>
      let acc' := String (digitChar (n mod 10)) acc in
      if n <? 10 then acc' else showNat_aux f (n / 10) acc'
  end.

(** Decimal digits of a non-negative integer, without leading zeros. *)
Definition showNat (n : Z) : string :=
  showNat_aux (S (Z.to_nat (Z.log2 n))) n EmptyString.

Definition showInt (z : Z) : string :=
  if z <? 0 then String "-" (showNat (- z)) else showNat z.

(** Left-pad with zeros to a width. *)
Definition padZeros (width : nat) (s : string) : string :=
  replicate (width - String.length s) "0" ++ s.

(** [Number.prototype.toString] for the modelled numbers, in positional
    notation (the exponent notation JavaScript switches to below 1e-6 and
    from 1e21 on is not modelled). *)
Definition numToString (x : jsnum) : string :=
  match x with
  | NaN => "NaN"
  | Inf b => if b then "-Infinity" else "Infinity"
  | Dec m e =>
      match norm m e with
      | Dec m' O => showInt m'
      | Dec m' e' =>
          let ds := padZeros (S e') (showNat (Z.abs m')) in
          let k := (String.length ds - e')%nat in
          (if m' <? 0 then "-" else EmptyString) ++
          substring 0 k ds ++ "." ++ substring k e' ds
      | _ => "NaN"
      end
  end.

End Str.
Export Str.

(* ================================================================== *)
(** * Numeric literals *)
(* ================================================================== *)

Module Lit.

Definition startsWith (p s : string) : bool := String.prefix p s.

Definition dropN (n : nat) (s : string) : string :=
  substring n (String.length s - n) s.

(** An optional sign: the sign as a factor, and what follows. *)
Definition takeSign (s : string) : Z * string :=
  match s with
  | String "-" r => (-1, r)
  | String "+" r => (1, r)
  | _ => (1, s)
  end.

(** The exponent part [e±ddd] that must end the string. *)
Definition finalExponent (s : string) : option Z :=
  match s with
  | EmptyString => Some 0
  | String c r =>
      if Ascii.eqb c "e" || Ascii.eqb c "E" then
        let (sg, r1) := takeSign r in
        let (ds, r2) := takeDigits r1 in
        if isEmpty ds || negb (isEmpty r2) then None
        else Some (sg * readNat ds 0)
      else None
  end.

(** [StrDecimalLiteral]: sign, digits, optional fraction, optional
    exponent, nothing else. *)
Definition decimalLiteral (s : string) : jsnum :=
  let (sg, s1) := takeSign s in
  let (ip, s2) := takeDigits s1 in
  let '(fp, s3) :=
    match s2 with
    | String "." r => takeDigits r
    | _ => (EmptyString, s2)
    end in
  if isEmpty ip && isEmpty fp then NaN
  else
    match finalExponent s3 with
    | None => NaN
    | Some x =>
        scaled (sg * readNat (ip ++ fp) 0) (x - Z.of_nat (String.length fp))
    end.

Definition radixDigit (radix : Z) (c : ascii) : option Z :=
  let n := code c in
  let v := if (48 <=? n) && (n <=? 57) then n - 48
           else if (97 <=? n) && (n <=? 102) then n - 87
           else if (65 <=? n) && (n <=? 70) then n - 55
           else 99 in
  if v <? radix then Some v else None.

Fixpoint readRadix (radix : Z) (s : string) (acc : Z) : option Z :=
  match s with
  | EmptyString => Some acc
  | String c r =>
      match radixDigit radix c with
      | Some d => readRadix radix r (radix * acc + d)
      | None => None
      end
  end.

Definition radixLiteral (radix : Z) (body : string) : jsnum :=
  if isEmpty body then NaN
  else match readRadix radix body 0 with
       | Some v => int v
       | None => NaN
       end.

(** [Number(s)] on a string. *)
Definition StringToNumber (s : string) : jsnum :=
  let t := trim s in
  if isEmpty t then int 0
  else if String.eqb t "Infinity" || String.eqb t "+Infinity" then Inf false
  else if String.eqb t "-Infinity" then Inf true
  else if startsWith "0x" t || startsWith "0X" t then radixLiteral 16 (dropN 2 t)
  else if startsWith "0o" t || startsWith "0O" t then radixLiteral 8 (dropN 2 t)
  else if startsWith "0b" t || startsWith "0B" t then radixLiteral 2 (dropN 2 t)
  else decimalLiteral t.

(** [Number.parseInt(s, 10)] on a string: the longest signed digit prefix
    after leading white space. *)
Definition parseIntString (s : string) : jsnum :=
  let (sg, s1) := takeSign (trimStart s) in
  let (ds, _) := takeDigits s1 in
  if isEmpty ds then NaN else int (sg * readNat ds 0).

End Lit.
Export Lit.

(* ================================================================== *)
(** * Values *)
(* ================================================================== *)

Module Val.

Unset Elimination Schemes.

Inductive JValue : Type :=
| JUndefined
| JNull
| JBool (b : bool)
| JNum (x : jsnum)
| JStr (s : string)
| JArr (items : list JValue)
| JObj (fields : list (string * JValue)).

Set Elimination Schemes.

Definition JInt (z : Z) : JValue := JNum (int z).

Definition isArray (v : JValue) : bool :=
  match v with JArr _ => true | _ => false end.

(** [x && typeof x === 'object' && !Array.isArray(x)] *)
Definition isObj (v : JValue) : bool :=
  match v with JObj _ => true | _ => false end.

(** [typeof x === 'object'], which holds of null too. *)
Definition typeofObject (v : JValue) : bool :=
  match v with JNull | JArr _ | JObj _ => true | _ => false end.

Definition isNullish (v : JValue) : bool :=
  match v with JUndefined | JNull => true | _ => false end.

Definition truthy (v : JValue) : bool :=
  match v with
  | JUndefined | JNull => false
  | JBool b => b
  | JNum x => Num.truthy x
  | JStr s => negb (isEmpty s)
  | JArr _ | JObj _ => true
  end.

(** [a || b] and [a ?? b] *)
Definition or_else (a b : JValue) : JValue := if truthy a then a else b.
Definition coalesce (a b : JValue) : JValue := if isNullish a then b else a.

(** ** Own properties, in insertion order *)

Fixpoint lookup (k : string) (fs : list (string * JValue)) : option JValue :=
  match fs with
  | [] => None
  | (k', v) :: r => if String.eqb k k' then Some v else lookup k r
  end.

Fixpoint assign (k : string) (v : JValue) (fs : list (string * JValue))
  : list (string * JValue) :=
  match fs with
  | [] => [(k, v)]
  | (k', v') :: r =>
      if String.eqb k k' then (k', v) :: r else (k', v') :: assign k v r
  end.

Fixpoint remove (k : string) (fs : list (string * JValue))
  : list (string * JValue) :=
  match fs with
  | [] => []
  | (k', v') :: r =>
      if String.eqb k k' then r else (k', v') :: remove k r
  end.

(** [o.k] where [o] is known not to be null or undefined. *)
Definition get (k : string) (o : JValue) : JValue :=
  match o with
  | JObj fs => match lookup k fs with Some v => v | None => JUndefined end
  | JArr l => if String.eqb k "length" then JInt (Z.of_nat (List.length l)) else JUndefined
  | JStr s => if String.eqb k "length" then JInt (Z.of_nat (String.length s)) else JUndefined
  | _ => JUndefined
  end.

(** [o.k = v] on an object. *)
Definition set (k : string) (v : JValue) (o : JValue) : JValue :=
  match o with
  | JObj fs => JObj (assign k v fs)
  | _ => o
  end.

(** [o.k = f(o.k)] on an object. *)
Definition update (k : string) (f : JValue -> JValue) (o : JValue) : JValue :=
  set k (f (get k o)) o.

(** [delete o.k] *)
Definition del (k : string) (o : JValue) : JValue :=
  match o with
  | JObj fs => JObj (remove k fs)
  | _ => o
  end.

(** [k in o] *)
Definition has (k : string) (o : JValue) : bool :=
  match o with
  | JObj fs => match lookup k fs with Some _ => true | None => false end
  | _ => false
  end.

Definition keys (o : JValue) : list string :=
  match o with JObj fs => map fst fs | _ => [] end.

Definition items (v : JValue) : list JValue :=
  match v with JArr l => l | _ => [] end.

(** ** Conversions *)

(** [String(v)].  On an object with a field of its own named toString the
    engine throws a TypeError instead; the conversion of the model does
    not, and the theorems about code that converts its input say so. *)
Fixpoint ToString (v : JValue) : string :=
  match v with
  | JUndefined => "undefined"
  | JNull => "null"
  | JBool b => if b then "true" else "false"
  | JNum x => numToString x
  | JStr s => s
  | JArr l =>
      join "," (map (fun x => if isNullish x then EmptyString else ToString x) l)
  | JObj _ => "[object Object]"
  end.

(** [Number(v)] *)
Definition ToNumber (v : JValue) : jsnum :=
  match v with
  | JUndefined => NaN
  | JNull => int 0
  | JBool b => if b then int 1 else int 0
  | JNum x => x
  | JStr s => StringToNumber s
  | JArr _ => StringToNumber (ToString v)
  | JObj _ => NaN
  end.

(** [a === b] on primitives.  Two objects or arrays are equal only when
    they are the same object, which the embedding cannot express: the
    comparison is used where both sides are distinct copies. *)
Definition strictEq (a b : JValue) : bool :=
  match a, b with
  | JUndefined, JUndefined => true
  | JNull, JNull => true
  | JBool x, JBool y => Bool.eqb x y
  | JNum x, JNum y => Num.eqb x y
  | JStr x, JStr y => String.eqb x y
  | _, _ => false
  end.

End Val.
Export Val.

(* ================================================================== *)
(** * JSON text *)
(* ================================================================== *)

Module JSON.

(** ** [JSON.stringify] *)

Definition hexChar (d : Z) : ascii :=
  if d <? 10 then chr (48 + d) else chr (87 + d).

Definition dquote : ascii := chr 34.
Definition backslash : ascii := chr 92.
Definition newline : ascii := chr 10.

Definition esc (c : ascii) : string := String backslash (String c EmptyString).

Definition escapeChar (c : ascii) : string :=
  let n := code c in
  if n =? 34 then esc dquote
  else if n =? 92 then esc backslash
  else if n =? 8 then esc "b"
  else if n =? 12 then esc "f"
  else if n =? 10 then esc "n"
  else if n =? 13 then esc "r"
  else if n =? 9 then esc "t"
  else if n <? 32 then
    String backslash
      ("u00" ++ String (hexChar (n / 16)) (String (hexChar (n mod 16)) EmptyString))
  else String c EmptyString.

Fixpoint escape (s : string) : string :=
  match s with
  | EmptyString => EmptyString
  | String c r => escapeChar c ++ escape r
  end.

Definition quote (s : string) : string :=
  String dquote (escape s ++ String dquote EmptyString).

(** Line break and indentation, present only when a gap is in use. *)
Definition breakLine (gap cur : nat) : string :=
  match gap with
  | O => EmptyString
  | _ => String newline (replicate cur " ")
  end.

Definition colon (gap : nat) : string :=
  match gap with O => ":" | _ => ": " end.

Definition serNum (x : jsnum) : string :=
  if isFinite x then numToString x else "null".

(** Serialisation of a defined value with indentation step [gap] at
    current indentation [cur].  Undefined array items print as null and
    undefined properties are skipped. *)
Fixpoint ser (gap cur : nat) (v : JValue) : string :=
  match v with
  | JUndefined => "null"
  | JNull => "null"
  | JBool b => if b then "true" else "false"
  | JNum x => serNum x
  | JStr s => quote s
  | JArr l =>
      match l with
      | [] => "[]"
      | _ =>
          let inner := (cur + gap)%nat in
          "[" ++ breakLine gap inner
          ++ join ("," ++ breakLine gap inner) (map (ser gap inner) l)
          ++ breakLine gap cur ++ "]"
      end
  | JObj fs =>
      let inner := (cur + gap)%nat in
      let members :=
        (fix go (fs : list (string * JValue)) : list string :=
           match fs with
           | [] => []
           | (k, JUndefined) :: r => go r
           | (k, x) :: r => (quote k ++ colon gap ++ ser gap inner x) :: go r
           end) fs in
      match members with
      | [] => "{}"
      | _ =>
          "{" ++ breakLine gap inner
          ++ join ("," ++ breakLine gap inner) members
          ++ breakLine gap cur ++ "}"
      end
  end.

(** [JSON.stringify(v, null, gap)]; [None] stands for the result
    [undefined] at an undefined value. *)
Definition stringify (gap : nat) (v : JValue) : option string :=
  match v with
  | JUndefined => None
  | _ => Some (ser gap 0 v)
  end.

(** ** [JSON.parse]: a lexer followed by a parser on tokens *)

Inductive token : Type :=
| TLBrace | TRBrace | TLBracket | TRBracket | TComma | TColon
| TString (s : string)
| TNumber (x : jsnum)
| TTrue | TFalse | TNull.

(** The JSON number grammar on a complete lexeme: an optional minus sign,
    an integer part without superfluous leading zero, an optional fraction
    with at least one digit, an optional exponent. *)
Definition jsonNumber (t : string) : option jsnum :=
  let (sg, s1) := match t with String "-" r => (-1, r) | _ => (1, t) end in
  let (ip, s2) := takeDigits s1 in
  let leadingZero :=
    match ip with String "0" (String _ _) => true | _ => false end in
  if isEmpty ip || leadingZero then None
  else
    let '(fp, s3, fracOk) :=
      match s2 with
      | String "." r =>
          let (fp, s3) := takeDigits r in (fp, s3, negb (isEmpty fp))
      | _ => (EmptyString, s2, true)
      end in
    if negb fracOk then None
    else
      match finalExponent s3 with
      | None => None
      | Some x =>
          Some (scaled (sg * readNat (ip ++ fp) 0)
                       (x - Z.of_nat (String.length fp)))
      end.

Definition jsonWord (t : string) : option token :=
  if String.eqb t "true" then Some TTrue
  else if String.eqb t "false" then Some TFalse
  else if String.eqb t "null" then Some TNull
  else None.

Inductive mode : Type :=
| Idle
| InString (acc : string)
| InEscape (acc : string)
| InUnicode (acc : string) (hex : list Z)
| InNumber (text : string)
| InWord (text : string).

Definition isJsonWhite (c : ascii) : bool :=
  let n := code c in (n =? 32) || (n =? 9) || (n =? 10) || (n =? 13).

Definition isNumberChar (c : ascii) : bool :=
  isDigit c || Ascii.eqb c "-" || Ascii.eqb c "+" || Ascii.eqb c "."
  || Ascii.eqb c "e" || Ascii.eqb c "E".

Definition isWordChar (c : ascii) : bool :=
  (97 <=? code c) && (code c <=? 122).

Definition snoc (s : string) (c : ascii) : string := s ++ String c EmptyString.

(** A character met between tokens. *)
Definition idleStep (c : ascii) : option (mode * list token) :=
  if isJsonWhite c then Some (Idle, [])
  else if Ascii.eqb c "{" then Some (Idle, [TLBrace])
  else if Ascii.eqb c "}" then Some (Idle, [TRBrace])
  else if Ascii.eqb c "[" then Some (Idle, [TLBracket])
  else if Ascii.eqb c "]" then Some (Idle, [TRBracket])
  else if Ascii.eqb c "," then Some (Idle, [TComma])
  else if Ascii.eqb c ":" then Some (Idle, [TColon])
  else if Ascii.eqb c dquote then Some (InString EmptyString, [])
  else if isDigit c || Ascii.eqb c "-" then Some (InNumber (String c EmptyString), [])
  else if isWordChar c then Some (InWord (String c EmptyString), [])
  else None.

Definition unescape (c : ascii) : option ascii :=
  let n := code c in
  if n =? 34 then Some c
  else if n =? 92 then Some c
  else if n =? 47 then Some c
  else if n =? 98 then Some (chr 8)
  else if n =? 102 then Some (chr 12)
  else if n =? 110 then Some (chr 10)
  else if n =? 114 then Some (chr 13)
  else if n =? 116 then Some (chr 9)
  else None.

(** One character of input: the next mode and the tokens completed. *)
Definition step (m : mode) (c : ascii) : option (mode * list token) :=
  match m with
  | Idle => idleStep c
  | InString acc =>
      if Ascii.eqb c dquote then Some (Idle, [TString acc])
      else if Ascii.eqb c backslash then Some (InEscape acc, [])
      else if code c <? 32 then None
      else Some (InString (snoc acc c), [])
  | InEscape acc =>
      if Ascii.eqb c "u" then Some (InUnicode acc [], [])
      else match unescape c with
           | Some d => Some (InString (snoc acc d), [])
           | None => None
           end
  | InUnicode acc hex =>
      match radixDigit 16 c with
      | None => None
      | Some d =>
          match hex with
          | [a; b; c'] =>
              let n := ((a * 16 + b) * 16 + c') * 16 + d in
              (* code units from 256 on are outside the alphabet *)
              if n <? 256 then Some (InString (snoc acc (chr n)), []) else None
          | _ => Some (InUnicode acc (hex ++ [d]), [])
          end
      end
  | InNumber t =>
      if isNumberChar c then Some (InNumber (snoc t c), [])
      else
        match jsonNumber t, idleStep c with
        | Some x, Some (m', ts) => Some (m', TNumber x :: ts)
        | _, _ => None
        end
  | InWord t =>
      if isWordChar c then Some (InWord (snoc t c), [])
      else
        match jsonWord t, idleStep c with
        | Some w, Some (m', ts) => Some (m', w :: ts)
        | _, _ => None
        end
  end.

(** End of input. *)
Definition finish (m : mode) : option (list token) :=
  match m with
  | Idle => Some []
  | InNumber t => option_map (fun x => [TNumber x]) (jsonNumber t)
  | InWord t => option_map (fun w => [w]) (jsonWord t)
  | _ => None
  end.

Fixpoint lexFrom (m : mode) (s : string) : option (list token) :=
  match s with
  | EmptyString => finish m
  | String c r =>
      match step m c with
      | None => None
      | Some (m', ts) => option_map (app ts) (lexFrom m' r)
      end
  end.

Definition lex (s : string) : option (list token) := lexFrom Idle s.

(** Objects are built by successive assignment: a repeated key keeps its
    first position and its last value. *)
Definition build (ms : list (string * JValue)) : list (string * JValue) :=
  fold_left (fun fs kv => assign (fst kv) (snd kv) fs) ms [].

Fixpoint parseValue (fuel : nat) (ts : list token)
  : option (JValue * list token) :=
  match fuel with
  | O => None
  | S f =>
      match ts with
      | TNull :: r => Some (JNull, r)
      | TTrue :: r => Some (JBool true, r)
      | TFalse :: r => Some (JBool false, r)
      | TNumber x :: r => Some (JNum x, r)
      | TString s :: r => Some (JStr s, r)
      | TLBracket :: TRBracket :: r => Some (JArr [], r)
      | TLBracket :: r =>
          match parseItems f r with
          | Some (vs, r') => Some (JArr vs, r')
          | None => None
          end
      | TLBrace :: TRBrace :: r => Some (JObj [], r)
      | TLBrace :: r =>
          match parseMembers f r with
          | Some (ms, r') => Some (JObj (build ms), r')
          | None => None
          end
      | _ => None
      end
  end

with parseItems (fuel : nat) (ts : list token)
  : option (list JValue * list token) :=
  match fuel with
  | O => None
  | S f =>
      match parseValue f ts with
      | Some (v, TComma :: r) =>
          match parseItems f r with
          | Some (vs, r') => Some (v :: vs, r')
          | None => None
          end
      | Some (v, TRBracket :: r) => Some ([v], r)
      | _ => None
      end
  end

with parseMembers (fuel : nat) (ts : list token)
  : option (list (string * JValue) * list token) :=
  match fuel with
  | O => None
  | S f =>
      match ts with
      | TString k :: TColon :: r =>
          match parseValue f r with
          | Some (v, TComma :: r') =>
              match parseMembers f r' with
              | Some (ms, r'') => Some ((k, v) :: ms, r'')
              | None => None
              end
          | Some (v, TRBrace :: r') => Some ([(k, v)], r')
          | _ => None
          end
      | _ => None
      end
  end.

(** [JSON.parse(s)]; [None] stands for the SyntaxError.  The reader takes
    the escapes of one-byte characters only: an escape from U+0100 on,
    which the engine reads, is refused. *)
Definition parse (s : string) : option JValue :=
  match lex s with
  | None => None
  | Some ts =>
      match parseValue (S (2 * List.length ts)) ts with
      | Some (v, []) => Some v
      | _ => None
      end
  end.

(** What a value becomes when written as JSON text and read back. *)
Fixpoint clone (v : JValue) : JValue :=
  match v with
  | JUndefined => JNull
  | JNull => JNull
  | JBool b => JBool b
  | JNum (Dec m e) => JNum (norm m e)
  | JNum _ => JNull
  | JStr s => JStr s
  | JArr l => JArr (map clone l)
  | JObj fs =>
      JObj (build
        ((fix go (fs : list (string * JValue)) : list (string * JValue) :=
            match fs with
            | [] => []
            | (k, JUndefined) :: r => go r
            | (k, x) :: r => (k, clone x) :: go r
            end) fs))
  end.

(** Every object of the value has pairwise distinct keys, as every
    JavaScript object has. *)
Fixpoint uniqueKeys (v : JValue) : bool :=
  match v with
  | JArr l => forallb uniqueKeys l
  | JObj fs =>
      (fix go (fs : list (string * JValue)) : bool :=
         match fs with
         | [] => true
         | (k, x) :: r =>
             negb (existsb (fun kv => String.eqb k (fst kv)) r)
             && uniqueKeys x && go r
         end) fs
  | _ => true
  end.

End JSON.

(** [JSON.parse(JSON.stringify(v ?? null))] *)
Definition deepClone (v : JValue) : JValue :=
  match JSON.stringify 0 (coalesce v JNull) with
  | Some s => match JSON.parse s with Some x => x | None => JUndefined end
  | None => JUndefined
  end.

(* ================================================================== *)
(** * The host: storage, clock, randomness, module state *)
(* ================================================================== *)

Module Host.

(** A thrown value, reduced to its name and message. *)
Record Exn : Type := { exnName : string; exnMessage : string }.

(** [e?.message || String(e)] on an exception without message gives its
    name. *)
Definition describe (e : Exn) : string :=
  if isEmpty (exnMessage e) then exnName e else exnMessage e.

(** What a localStorage key holds: the text of a document written by
    [JSON.stringify], kept as the document itself, or any other text. *)
Inductive Raw : Type :=
| Doc (v : JValue)
| Text (s : string).

(** [!raw] on a stored text *)
Definition rawEmpty (r : Raw) : bool :=
  match r with Text s => isEmpty s | Doc _ => false end.

(** [JSON.parse(raw)] *)
Definition parseRaw (r : Raw) : option JValue :=
  match r with
  | Doc v => Some v
  | Text s => JSON.parse s
  end.

(** [_recovery] of db_core.js *)
Record Recovery : Type := {
  active : bool;
  reason : string;
  details : JValue;
  since : JValue
}.

(** The report object of normalizeDB. *)
Record Report : Type := {
  rep_ok : bool;
  warnings : list string;
  fixed : list string;
  rep_at : string
}.

Record World : Type := {
  (* localStorage *)
  ls : string -> option Raw;
  (* whether setItem of a value under a key exceeds the quota *)
  quota : string -> Raw -> bool;
  (* Date.now(): the readings to come and how many were taken *)
  clock : nat -> Z;
  ticks : nat;
  (* Math.random().toString(16).slice(2, 8) *)
  random : nat -> string;
  draws : nat;
  (* window.CoreUsers.auth.currentUser(), null when there is none *)
  user : JValue;
  (* _cfg of db_core.js *)
  storageKey : string;
  maxSnapshots : nat;
  cooldownMs : Z;
  (* _lastSnapshotAt, _recovery and normalizeDB.lastReport *)
  lastSnapshotAt : Z;
  recovery : Recovery;
  lastReport : option Report
}.

Definition with_ls (f : string -> option Raw) (w : World) : World :=
  {| ls := f; quota := quota w; clock := clock w; ticks := ticks w;
     random := random w; draws := draws w; user := user w;
     storageKey := storageKey w; maxSnapshots := maxSnapshots w;
     cooldownMs := cooldownMs w; lastSnapshotAt := lastSnapshotAt w;
     recovery := recovery w; lastReport := lastReport w |}.

Definition with_ticks (n : nat) (w : World) : World :=
  {| ls := ls w; quota := quota w; clock := clock w; ticks := n;
     random := random w; draws := draws w; user := user w;
     storageKey := storageKey w; maxSnapshots := maxSnapshots w;
     cooldownMs := cooldownMs w; lastSnapshotAt := lastSnapshotAt w;
     recovery := recovery w; lastReport := lastReport w |}.

Definition with_draws (n : nat) (w : World) : World :=
  {| ls := ls w; quota := quota w; clock := clock w; ticks := ticks w;
     random := random w; draws := n; user := user w;
     storageKey := storageKey w; maxSnapshots := maxSnapshots w;
     cooldownMs := cooldownMs w; lastSnapshotAt := lastSnapshotAt w;
     recovery := recovery w; lastReport := lastReport w |}.

Definition with_lastSnapshotAt (t : Z) (w : World) : World :=
  {| ls := ls w; quota := quota w; clock := clock w; ticks := ticks w;
     random := random w; draws := draws w; user := user w;
     storageKey := storageKey w; maxSnapshots := maxSnapshots w;
     cooldownMs := cooldownMs w; lastSnapshotAt := t;
     recovery := recovery w; lastReport := lastReport w |}.

Definition with_recovery (r : Recovery) (w : World) : World :=
  {| ls := ls w; quota := quota w; clock := clock w; ticks := ticks w;
     random := random w; draws := draws w; user := user w;
     storageKey := storageKey w; maxSnapshots := maxSnapshots w;
     cooldownMs := cooldownMs w; lastSnapshotAt := lastSnapshotAt w;
     recovery := r; lastReport := lastReport w |}.

Definition with_lastReport (r : option Report) (w : World) : World :=
  {| ls := ls w; quota := quota w; clock := clock w; ticks := ticks w;
     random := random w; draws := draws w; user := user w;
     storageKey := storageKey w; maxSnapshots := maxSnapshots w;
     cooldownMs := cooldownMs w; lastSnapshotAt := lastSnapshotAt w;
     recovery := recovery w; lastReport := r |}.

(** ** The monad of effects *)

Inductive Outcome (A : Type) : Type :=
| Ok (a : A) (w : World)
| Thrown (e : Exn) (w : World).

Arguments Ok {A} a w.
Arguments Thrown {A} e w.

Definition M (A : Type) : Type := World -> Outcome A.

Definition ret {A} (a : A) : M A := fun w => Ok a w.

Definition bind {A B} (m : M A) (k : A -> M B) : M B :=
  fun w =>
    match m w with
    | Ok a w' => k a w'
    | Thrown e w' => Thrown e w'
    end.

Definition throw {A} (e : Exn) : M A := fun w => Thrown e w.

(** [try { m } catch (e) { h e }] *)
Definition tryCatch {A} (m : M A) (h : Exn -> M A) : M A :=
  fun w =>
    match m w with
    | Ok a w' => Ok a w'
    | Thrown e w' => h e w'
    end.

Definition gets {A} (f : World -> A) : M A := fun w => Ok (f w) w.
Definition modify (f : World -> World) : M unit := fun w => Ok tt (f w).

Definition worldOf {A} (o : Outcome A) : World :=
  match o with Ok _ w => w | Thrown _ w => w end.

(** The value an operation returned, if it returned. *)
Definition result {A} (o : Outcome A) : option A :=
  match o with Ok a _ => Some a | Thrown _ _ => None end.

Definition TypeError (msg : string) : Exn :=
  {| exnName := "TypeError"; exnMessage := msg |}.

End Host.
Export Host.

Declare Scope monad_scope.
Delimit Scope monad_scope with monad.
Notation "x <- c ;; k" := (bind c (fun x => k))
  (at level 61, c at next level, right associativity) : monad_scope.
Notation "c ;;; k" := (bind c (fun _ => k))
  (at level 61, right associativity) : monad_scope.
Local Open Scope monad_scope.

(* ================================================================== *)
(** * Clock and identifiers *)
(* ================================================================== *)

Module Clock.

Definition pad (width : nat) (n : Z) : string := padZeros width (showNat n).

(** [new Date(ms).toISOString()], by the usual conversion of a day count
    to a civil date. *)
Definition toISOString (ms : Z) : string :=
  let days := ms / 86400000 in
  let rest := ms mod 86400000 in
  let z := days + 719468 in
  let era := z / 146097 in
  let doe := z - era * 146097 in
  let yoe := (doe - doe / 1460 + doe / 36524 - doe / 146096) / 365 in
  let doy := doe - (365 * yoe + yoe / 4 - yoe / 100) in
  let mp := (5 * doy + 2) / 153 in
  let d := doy - (153 * mp + 2) / 5 + 1 in
  let m := if mp <? 10 then mp + 3 else mp - 9 in
  let y := yoe + era * 400 + (if m <=? 2 then 1 else 0) in
  let year :=
    if (0 <=? y) && (y <=? 9999) then pad 4 y
    else (if y <? 0 then "-" else "+") ++ pad 6 (Z.abs y) in
  year ++ "-" ++ pad 2 m ++ "-" ++ pad 2 d ++ "T"
  ++ pad 2 (rest / 3600000) ++ ":" ++ pad 2 (rest / 60000 mod 60) ++ ":"
  ++ pad 2 (rest / 1000 mod 60) ++ "." ++ pad 3 (rest mod 1000) ++ "Z".

(** [Date.now()] *)
Definition dateNow : M Z :=
  fun w => Ok (clock w (ticks w)) (with_ticks (S (ticks w)) w).

(** [nowIso()], the same helper in every module. *)
Definition nowIso : M string :=
  t <- dateNow ;; ret (toISOString t).

(** [Math.random().toString(16).slice(2, 8)] *)
Definition randomHex : M string :=
  fun w => Ok (random w (draws w)) (with_draws (S (draws w)) w).

(** utils/ids.js: [uid(prefix)] *)
Definition uid (prefix : string) : M string :=
  t <- dateNow ;;
  r <- randomHex ;;
  ret (prefix ++ "_" ++ showInt t ++ "_" ++ r).

Definition generateId := uid.

End Clock.
Export Clock.

(* ================================================================== *)
(** * storage/schema.js *)
(* ================================================================== *)

Module Schema.

Definition SCHEMA_VERSION : Z := 1.

Definition emptyCaixa : JValue :=
  JObj [("aberto", JBool false); ("movimentos", JArr []); ("aberturas", JArr [])].

(** The object literal of defaultDB, given its two timestamps. *)
Definition freshDB (created updated : string) : JValue :=
  JObj [
    ("schemaVersion", JInt SCHEMA_VERSION);
    ("meta", JObj [("createdAt", JStr created); ("updatedAt", JStr updated)]);
    ("users", JArr []);
    ("settings", JObj []);
    ("estoque", JArr []);
    ("vendas", JArr []);
    ("caixa", emptyCaixa);
    ("devedores", JArr []);
    ("auditLog", JArr [])
  ].

Definition defaultDB : M JValue :=
  created <- nowIso ;;
  updated <- nowIso ;;
  ret (freshDB created updated).

End Schema.

(* ================================================================== *)
(** * storage/validate.js *)
(* ================================================================== *)

Module Validate.

Definition asStr (x : JValue) : string :=
  if isNullish x then EmptyString else ToString x.

Definition asNum (x : JValue) (dflt : jsnum) : jsnum :=
  match x with
  | JNum n => if isFinite n then n else dflt
  | JStr s =>
      let n := StringToNumber (commaToDot (removeDots (trim s))) in
      if isFinite n then n else dflt
  | _ => dflt
  end.

Definition asInt (x : JValue) (dflt : jsnum) : jsnum :=
  let n := asNum x dflt in
  let i := trunc n in
  if isFinite i then i else dflt.

(** ** checksum32 *)

(** [ToInt32]: the value modulo 2^32, read as a signed 32-bit integer. *)
Definition toInt32 (z : Z) : Z :=
  let u := z mod 4294967296 in
  if u <? 2147483648 then u else u - 4294967296.

(** [x >>> 0] *)
Definition toUint32 (z : Z) : Z := z mod 4294967296.

(** [Math.imul(a, b)] *)
Definition imul (a b : Z) : Z := toInt32 (toInt32 a * toInt32 b).

(** [a ^ b] on numbers *)
Definition xor32 (a b : Z) : Z := Z.lxor (toInt32 a) (toInt32 b).

Fixpoint checksumLoop (s : string) (h : Z) : Z :=
  match s with
  | EmptyString => h
  | String c r => checksumLoop r (imul (xor32 h (code c)) 16777619)
  end.

Fixpoint hexDigits (n : nat) (z : Z) (acc : string) : string :=
  match n with
  | O => acc
  | S k => hexDigits k (z / 16) (String (JSON.hexChar (z mod 16)) acc)
  end.

(** [(h >>> 0).toString(16).padStart(8, '0')]: a value below 2^32 has at
    most eight hexadecimal digits. *)
Definition hex8 (h : Z) : string := hexDigits 8 (toUint32 h) EmptyString.

Definition checksum32 (str : string) : string :=
  hex8 (checksumLoop str 2166136261).

(** ** normalizeDB *)

Fixpoint mapM {A B} (f : A -> M B) (l : list A) : M (list B) :=
  match l with
  | [] => ret []
  | x :: r => y <- f x ;; ys <- mapM f r ;; ret (y :: ys)
  end.

Definition arrayOr (v : JValue) : JValue := if isArray v then v else JArr [].
Definition objectOr (dflt v : JValue) : JValue := if isObj v then v else dflt.

(** The code to show in a warning: [p.cod || '(sem cod)'] *)
Definition codOr (p : JValue) : string :=
  ToString (or_else (get "cod" p) (JStr "(sem cod)")).

(** A numeric field below zero is reset to zero, with a warning. *)
Definition clampField (k : string) (msg : string) (pw : JValue * list string)
  : JValue * list string :=
  let (p, ws) := pw in
  if Num.ltb (ToNumber (get k p)) (int 0)
  then (set k (JInt 0) p, List.app ws [msg ++ codOr p])
  else (p, ws).

(** [asStr(x).trim()], [asInt(x, 0)] and [asNum(x, 0)] as field updates *)
Definition trimmed (x : JValue) : JValue := JStr (trim (asStr x)).
Definition asInt0 (x : JValue) : JValue := JNum (asInt x (int 0)).
Definition asNum0 (x : JValue) : JValue := JNum (asNum x (int 0)).

(** [const lp = asNum(p.lucro_p, 0); p.lucro_p = Number.isFinite(lp) ? lp : 0] *)
Definition finiteOr0 (x : JValue) : JValue :=
  let lp := asNum x (int 0) in JNum (if isFinite lp then lp else int 0).

(** Body of the loop over [db.estoque]. *)
Definition normProduct (p : JValue) : JValue * list string :=
  if negb (isObj p) then (p, [])
  else
    let p := update "cod" trimmed p in
    let p := update "nome" trimmed p in
    let p := update "qtd" asInt0 p in
    let p := update "min" asInt0 p in
    let p := update "custo_c" asInt0 p in
    let p := update "preco_c" asInt0 p in
    let p := update "lucro_p" finiteOr0 p in
    let w1 :=
      if negb (truthy (get "cod" p)) && truthy (get "nome" p)
      then ["Produto sem código: " ++ String JSON.dquote
              (ToString (get "nome" p) ++ String JSON.dquote EmptyString)]
      else [] in
    let w2 :=
      if negb (truthy (get "nome" p)) && truthy (get "cod" p)
      then ["Produto sem nome: código " ++ ToString (get "cod" p)]
      else [] in
    clampField "custo_c" "Custo negativo corrigido em "
      (clampField "preco_c" "Preço negativo corrigido em "
        (clampField "qtd" "Estoque negativo corrigido em " (p, List.app w1 w2))).

(** Body of the loop over [v.itens]. *)
Definition normItem (i : JValue) : JValue :=
  if negb (isObj i) then i
  else
    let i := update "cod" trimmed i in
    let i := update "nome" trimmed i in
    let i := update "qtd" asNum0 i in
    update "preco_c" asInt0 i.

(** [v.total_c = asInt(v.total_c, Math.max(0, v.subtotal_c - v.desconto_c))] *)
Definition withTotal (v : JValue) : JValue :=
  let dflt :=
    Num.max (int 0)
      (Num.sub (ToNumber (get "subtotal_c" v)) (ToNumber (get "desconto_c" v))) in
  update "total_c" (fun t => JNum (asInt t dflt)) v.

(** Body of the loop over [db.vendas]. *)
Definition normSale (v : JValue) : M (JValue * list string) :=
  if negb (isObj v) then ret (v, [])
  else
    let v := update "id" (fun x => or_else (trimmed x) x) v in
    dataIso <- (if truthy (get "dataIso" v) then ret (get "dataIso" v)
                else t <- nowIso ;; ret (JStr t)) ;;
    let v := set "dataIso" dataIso v in
    let v := update "itens" arrayOr v in
    let v := update "itens" (fun a => JArr (map normItem (items a))) v in
    let v := update "subtotal_c" asInt0 v in
    let v := update "desconto_c" asInt0 v in
    let v := withTotal v in
    if Num.ltb (ToNumber (get "total_c" v)) (int 0)
    then ret (set "total_c" (JInt 0) v,
              ["Venda " ++ ToString (or_else (get "id" v) (JStr "(sem id)"))
               ++ " com total negativo corrigido."])
    else ret (v, []).

(** The caixa object as normalizeDB leaves it. *)
Definition normCaixa (c : JValue) : JValue :=
  let c := objectOr Schema.emptyCaixa c in
  let c := update "aberto" (fun a => JBool (truthy a)) c in
  let c := update "movimentos" arrayOr c in
  update "aberturas" arrayOr c.

Definition normalizeDB (db : JValue) : M JValue :=
  at_ <- nowIso ;;
  if negb (isObj db) then
    fresh <- Schema.defaultDB ;;
    modify (with_lastReport (Some
      {| rep_ok := true;
         warnings := ["DB inválido: substituído por defaults."];
         fixed := ["replaced_with_defaults"];
         rep_at := at_ |})) ;;;
    ret fresh
  else
    let db := update "schemaVersion"
                (fun x => JNum (asInt x (int Schema.SCHEMA_VERSION))) db in
    let db := update "meta" (objectOr (JObj [])) db in
    createdAt <- (if truthy (get "createdAt" (get "meta" db))
                  then ret (get "createdAt" (get "meta" db))
                  else t <- nowIso ;; ret (JStr t)) ;;
    let db := update "meta" (set "createdAt" createdAt) db in
    updatedAt <- nowIso ;;
    let db := update "meta" (set "updatedAt" (JStr updatedAt)) db in
    let db := update "users" arrayOr db in
    let db := update "settings" (objectOr (JObj [])) db in
    let db := update "estoque" arrayOr db in
    let db := update "vendas" arrayOr db in
    let db := update "caixa" normCaixa db in
    let db := update "devedores" arrayOr db in
    let db := update "auditLog" arrayOr db in
    let ps := map normProduct (items (get "estoque" db)) in
    let db := set "estoque" (JArr (map fst ps)) db in
    vs <- mapM normSale (items (get "vendas" db)) ;;
    let db := set "vendas" (JArr (map fst vs)) db in
    modify (with_lastReport (Some
      {| rep_ok := true;
         warnings := List.app (List.concat (map snd ps)) (List.concat (map snd vs));
         fixed := [];
         rep_at := at_ |})) ;;;
    ret db.

End Validate.
Export Validate.

(* ================================================================== *)
(** * localStorage *)
(* ================================================================== *)

Module LocalStorage.

Definition QuotaExceededError : Exn :=
  {| exnName := "QuotaExceededError";
     exnMessage := "The quota has been exceeded." |}.

Definition getItem (k : string) : M (option Raw) := gets (fun w => ls w k).

Definition setItem (k : string) (r : Raw) : M unit :=
  fun w =>
    if quota w k r then Thrown QuotaExceededError w
    else Ok tt (with_ls (fun k' => if String.eqb k' k then Some r else ls w k') w).

Definition removeItem (k : string) : M unit :=
  modify (fun w => with_ls (fun k' => if String.eqb k' k then None else ls w k') w).

(** The text [JSON.stringify(v)] as stored content. *)
Definition document (v : JValue) : Raw :=
  match v with
  | JUndefined => Text "undefined"
  | _ => Doc v
  end.

End LocalStorage.
Export LocalStorage.

(* ================================================================== *)
(** * storage/backup.js *)
(* ================================================================== *)

Module Backup.

Definition snapKey (storageKey : string) : string := storageKey ++ "__snapshots".

Definition loadSnapshots (storageKey : string) : M (list JValue) :=
  raw <- getItem (snapKey storageKey) ;;
  match raw with
  | None => ret []
  | Some r =>
      if rawEmpty r then ret []
      else match parseRaw r with
           | Some (JArr a) => ret a
           | _ => ret []
           end
  end.

Definition saveSnapshots (storageKey : string) (arr : list JValue) : M unit :=
  setItem (snapKey storageKey) (document (JArr arr)).

(** [v?.k] *)
Definition optGet (k : string) (v : JValue) : JValue :=
  if isNullish v then JUndefined else get k v.

(** [Array.isArray(v?.k) ? v.k.length : 0] *)
Definition countOf (k : string) (v : JValue) : JValue :=
  match optGet k v with
  | JArr l => JInt (Z.of_nat (List.length l))
  | _ => JInt 0
  end.

(** [while (snaps.length > maxSnapshots) snaps.pop()], run for at most
    [n] rounds, for a cap that is a natural number (with a negative cap
    the loop of the source does not end). *)
Fixpoint popWhile (n : nat) (cap : nat) (snaps : list JValue) : list JValue :=
  match n with
  | O => snaps
  | S n' =>
      if (cap <? List.length snaps)%nat then popWhile n' cap (removelast snaps)
      else snaps
  end.

Definition DEFAULT_MAX_SNAPSHOTS : nat := 20.

Definition createSnapshot (storageKey : string) (db : JValue)
    (maxSnapshots : option nat) : M string :=
  let cap := match maxSnapshots with Some n => n | None => DEFAULT_MAX_SNAPSHOTS end in
  snaps <- loadSnapshots storageKey ;;
  t <- dateNow ;;
  r <- randomHex ;;
  let id := showInt t ++ "_" ++ r in
  at_ <- nowIso ;;
  let snap := JObj [
    ("id", JStr id);
    ("at", JStr at_);
    ("schemaVersion", or_else (optGet "schemaVersion" db) (JInt Schema.SCHEMA_VERSION));
    ("counts", JObj [("estoque", countOf "estoque" db); ("vendas", countOf "vendas" db)]);
    ("data", db)
  ] in
  let snaps := snap :: snaps in
  let snaps := popWhile (List.length snaps) cap snaps in
  saveSnapshots storageKey snaps ;;;
  ret id.

(** ** Export and import preview *)

Definition exportDB (db : JValue) (pretty : bool) : M string :=
  exportedAt <- nowIso ;;
  let payload := JObj [
    ("__meta", JObj [
       ("type", JStr "erp_backup");
       ("schemaVersion", or_else (optGet "schemaVersion" db) (JInt Schema.SCHEMA_VERSION));
       ("exportedAt", JStr exportedAt)]);
    ("db", db)
  ] in
  let jsonNoChecksum := JSON.ser 0 0 payload in
  let checksum := checksum32 jsonNoChecksum in
  let payload :=
    set "__meta" (set "checksum32" (JStr checksum) (get "__meta" payload)) payload in
  ret (JSON.ser (if pretty then 2 else 0) 0 payload).

Record Preview : Type := {
  pv_ok : bool;
  pv_warnings : list string;
  pv_summary : JValue
}.

(** The message of the SyntaxError raised by JSON.parse; its wording is
    the engine's. *)
Definition syntaxErrorMessage : string := "Unexpected token in JSON".

Definition CHECKSUM_MISMATCH : string :=
  "Checksum não confere (arquivo pode ter sido alterado).".

Definition failed (msg : string) : Preview :=
  {| pv_ok := false; pv_warnings := [msg]; pv_summary := JNull |}.

(** The inner try block: the warning to add when the checksum recomputed
    over a copy without the checksum field differs from the recorded one. *)
Definition checksumWarning (obj : JValue) : list string :=
  match JSON.stringify 0 obj with
  | None => []
  | Some s =>
      match JSON.parse s with
      | None => []
      | Some clone =>
          let clone :=
            if truthy (get "__meta" clone)
            then set "__meta" (del "checksum32" (get "__meta" clone)) clone
            else clone in
          match JSON.stringify 0 clone with
          | None => []
          | Some tmp =>
              let cs := checksum32 tmp in
              if strictEq (JStr cs) (get "checksum32" (get "__meta" obj))
              then [] else [CHECKSUM_MISMATCH]
          end
      end
  end.

Definition previewImport (jsonString : string) : Preview :=
  match JSON.parse jsonString with
  | None => failed syntaxErrorMessage
  | Some obj =>
      if negb (truthy obj) || negb (typeofObject obj)
      then failed "Arquivo não é JSON válido."
      else if negb (truthy (get "db" obj)) || negb (typeofObject (get "db" obj))
      then failed "Arquivo não contém campo db."
      else
        let meta := get "__meta" obj in
        let w1 :=
          if negb (truthy meta) || negb (strictEq (get "type" meta) (JStr "erp_backup"))
          then ["Meta ausente ou tipo desconhecido."] else [] in
        let w2 :=
          if truthy meta && truthy (get "checksum32" meta)
          then checksumWarning obj else [] in
        let db := get "db" obj in
        {| pv_ok := true;
           pv_warnings := List.app w1 w2;
           pv_summary := JObj [
             ("schemaVersion", coalesce (get "schemaVersion" db) JNull);
             ("counts", JObj [
                ("estoque", countOf "estoque" db);
                ("vendas", countOf "vendas" db);
                ("devedores", countOf "devedores" db);
                ("auditLog", countOf "auditLog" db)]);
             ("exportedAt", or_else (optGet "exportedAt" meta) JNull)] |}
  end.

End Backup.

(* ================================================================== *)
(** * storage/db_core.js *)
(* ================================================================== *)

Module DbCore.

Definition setRecovery (act : bool) (why : string) (det : JValue) : M unit :=
  sinceV <- (if act then t <- nowIso ;; ret (JStr t) else ret JNull) ;;
  modify (with_recovery
    {| active := act; reason := why;
       details := or_else det JNull; since := sinceV |}).

Definition messageObject (e : Exn) : JValue :=
  JObj [("message", JStr (describe e))].

Record SaveResult : Type := {
  sv_ok : bool;
  sv_warnings : list string;
  snapshotCreated : bool
}.

Definition lastWarnings (w : World) : list string :=
  match lastReport w with Some r => warnings r | None => [] end.

(** The try block of safeSave. *)
Definition safeSaveBody (db : JValue) (forceSnapshot skipNormalize : bool)
  : M SaveResult :=
  fixed <- (if skipNormalize then ret db else normalizeDB db) ;;
  key <- gets storageKey ;;
  let tmpKey := key ++ "__tmp" in
  setItem tmpKey (document fixed) ;;;
  tmp <- getItem tmpKey ;;
  setItem key (match tmp with Some r => r | None => Text "null" end) ;;;
  removeItem tmpKey ;;;
  now <- dateNow ;;
  last <- gets lastSnapshotAt ;;
  cooldown <- gets cooldownMs ;;
  cap <- gets maxSnapshots ;;
  snapCreated <-
    (if forceSnapshot || (cooldown <=? now - last)
     then Backup.createSnapshot key fixed (Some cap) ;;;
          modify (with_lastSnapshotAt now) ;;;
          ret true
     else ret false) ;;
  ws <- gets lastWarnings ;;
  ret {| sv_ok := true; sv_warnings := ws; snapshotCreated := snapCreated |}.

(** The catch block of safeSave. *)
Definition safeSaveFailed (e : Exn) : M SaveResult :=
  setRecovery true "storage_error" (messageObject e) ;;;
  ret {| sv_ok := false; sv_warnings := [describe e];
         snapshotCreated := false |}.

Definition safeSave (db : JValue) (forceSnapshot skipNormalize : bool)
  : M SaveResult :=
  tryCatch (safeSaveBody db forceSnapshot skipNormalize) safeSaveFailed.

(** [get()].  The try block of the source covers normalizeDB as well;
    the normalizeDB of the model never throws, so the catch block is
    entered from the reader only. *)
Definition get : M JValue :=
  key <- gets storageKey ;;
  raw <- getItem key ;;
  match raw with
  | None => Schema.defaultDB
  | Some r =>
      if rawEmpty r then Schema.defaultDB
      else
        match parseRaw r with
        | Some db => normalizeDB db
        | None =>
            setRecovery true "db_corrompido_json"
              (JObj [("message", JStr Backup.syntaxErrorMessage)]) ;;;
            db <- Schema.defaultDB ;;
            safeSave db true true ;;;
            ret db
        end
  end.

End DbCore.

(* ================================================================== *)
(** * Arrays of records *)
(* ================================================================== *)

Module Arr.

(** [arr.find(pred)] *)
Fixpoint find (pred : JValue -> bool) (l : list JValue) : option JValue :=
  match l with
  | [] => None
  | x :: r => if pred x then Some x else find pred r
  end.

(** The array after mutating in place the element [find] returned. *)
Fixpoint updateFirst (pred : JValue -> bool) (f : JValue -> JValue)
    (l : list JValue) : list JValue :=
  match l with
  | [] => []
  | x :: r => if pred x then f x :: r else x :: updateFirst pred f r
  end.

(** [db.k.push(x)] on an array field. *)
Definition push (k : string) (x : JValue) (db : JValue) : JValue :=
  update k (fun a => JArr (List.app (items a) [x])) db.

(** The [user ? { id, username, role } : null] of the ledgers. *)
Definition actor (u : JValue) : JValue :=
  if truthy u
  then JObj [("id", get "id" u); ("username", get "username" u); ("role", get "role" u)]
  else JNull.

(** A parameter with a default value: [function f({ x = d })]. *)
Definition defaultTo (d : JValue) (v : JValue) : JValue :=
  match v with JUndefined => d | _ => v end.

(** [{ ok: false, error }] *)
Definition failure (msg : string) : JValue :=
  JObj [("ok", JBool false); ("error", JStr msg)].

End Arr.
Export Arr.

(* ================================================================== *)
(** * services/ops_stock_events.js *)
(* ================================================================== *)

Module Stock.

Definition ensureCollections (db : JValue) : JValue :=
  let db := update "estoque" arrayOr db in
  let db := update "stockMovements" arrayOr db in
  let db := update "saleVoids" arrayOr db in
  update "cashSessions" arrayOr db.

(** [p && String(p.cod || '').trim() === code] *)
Definition hasCode (code : string) (p : JValue) : bool :=
  truthy p &&
  String.eqb (trim (ToString (or_else (get "cod" p) (JStr EmptyString)))) code.

Definition findProduct (db : JValue) (productCod : JValue) : option JValue :=
  let code := trim (ToString (or_else productCod (JStr EmptyString))) in
  find (hasCode code) (items (get "estoque" db)).

(** The quantity [applyDeltaToProduct] leaves in the product. *)
Definition newQuantity (prod : JValue) (qtyDelta : jsnum) : jsnum :=
  let q := Num.add (asInt (get "qtd" prod) (int 0)) (asInt (JNum qtyDelta) (int 0)) in
  if Num.ltb q (int 0) then int 0 else q.

Definition applyDeltaToProduct (prod : JValue) (qtyDelta : jsnum) : JValue :=
  set "qtd" (JNum (newQuantity prod qtyDelta)) prod.

Record MovementArgs : Type := {
  type : JValue;
  productCod : JValue;
  qty : JValue;
  qtyDelta : JValue;
  reason : JValue;
  meta : JValue
}.

Definition PRODUCT_NOT_FOUND : string := "Produto não encontrado pelo código.".

Definition isOneOf (l : list string) (t : string) : bool :=
  existsb (String.eqb t) l.

(** The delta after the sign convention of the movement type. *)
Definition signedDelta (t : string) (delta : jsnum) : jsnum :=
  let delta :=
    if isOneOf ["saida"; "perda"] t && Num.gtb delta (int 0)
    then Num.neg delta else delta in
  if isOneOf ["entrada"; "devolucao"] t && Num.ltb delta (int 0)
  then Num.neg delta else delta.

Definition addMovement (a : MovementArgs) : M JValue :=
  db0 <- DbCore.get ;;
  let db := ensureCollections db0 in
  match findProduct db (productCod a) with
  | None => ret (failure PRODUCT_NOT_FOUND)
  | Some prod =>
      let delta :=
        match qtyDelta a with
        | JUndefined => asInt (qty a) (int 0)
        | d => asInt d (int 0)
        end in
      let t := ToString (or_else (type a) (JStr "ajuste")) in
      let delta := signedDelta t delta in
      u <- gets user ;;
      id <- generateId "sm" ;;
      atIso <- nowIso ;;
      let code := trim (ToString (or_else (productCod a) (JStr EmptyString))) in
      let mv := JObj [
        ("id", JStr id);
        ("atIso", JStr atIso);
        ("type", JStr t);
        ("productCod", JStr code);
        ("qtyDelta", JNum delta);
        ("reason", or_else (reason a) (JStr EmptyString));
        ("user", actor u);
        ("meta", or_else (meta a) JNull)
      ] in
      (* assigning a property to a primitive throws in module code; on an
         array it is lost when the database is written *)
      match prod with
      | JObj _ | JArr _ =>
          let db := update "estoque"
                      (fun a => JArr (updateFirst (hasCode code)
                                        (fun p => applyDeltaToProduct p delta)
                                        (items a))) db in
          let db := push "stockMovements" mv db in
          DbCore.safeSave db false false ;;;
          (* [prod.qtd], read after safeSave has normalised the database
             in place: the whole number just stored, not negative, which
             normalizeDB leaves as it is *)
          ret (JObj [("ok", JBool true); ("movementId", JStr id);
                     ("newQty", JNum (newQuantity prod delta))])
      | _ => throw (TypeError "Cannot create property 'qtd'")
      end
  end.

End Stock.

(* ================================================================== *)
(** * services/ops_cashier.js *)
(* ================================================================== *)

Module Cashier.

(** The caixa object as ensureCollections leaves it. *)
Definition ensureCaixa (c : JValue) : JValue :=
  let c :=
    if truthy c && typeofObject c then c
    else JObj [("aberto", JBool false); ("currentSessionId", JNull)] in
  let c := update "aberto" (fun a => JBool (truthy a)) c in
  update "currentSessionId" (fun i => or_else i JNull) c.

Definition ensureCollections (db : JValue) : JValue :=
  let db := update "cashSessions" arrayOr db in
  update "caixa" ensureCaixa db.

(** [s && s.id === id] *)
Definition hasId (id : JValue) (s : JValue) : bool :=
  truthy s && strictEq (get "id" s) id.

Definition currentSession (db : JValue) : option JValue :=
  let db := ensureCollections db in
  let id := get "currentSessionId" (get "caixa" db) in
  if negb (truthy id) then None
  else find (hasId id) (items (get "cashSessions" db)).

Definition REGISTER_NOT_OPEN : string := "Caixa não está aberto.".
Definition REGISTER_ALREADY_OPEN : string := "Caixa já está aberto.".

(** The session record [sess] of open. *)
Definition session (id openedAt : string) (u initial_c note : JValue) : JValue :=
  JObj [
    ("id", JStr id);
    ("openedAtIso", JStr openedAt);
    ("closedAtIso", JNull);
    ("openedBy", actor u);
    ("closedBy", JNull);
    ("initial_c", JNum (asInt initial_c (int 0)));
    ("expected_c", JNum (asInt initial_c (int 0)));
    ("counted_c", JNull);
    ("diff_c", JNull);
    ("note", or_else note (JStr EmptyString));
    ("movements", JArr [])
  ].

Definition open (initial_c : JValue) (note : JValue) : M JValue :=
  db0 <- DbCore.get ;;
  let db := ensureCollections db0 in
  if truthy (get "aberto" (get "caixa" db)) then ret (failure REGISTER_ALREADY_OPEN)
  else
    u <- gets user ;;
    id <- generateId "cs" ;;
    openedAt <- nowIso ;;
    let sess := session id openedAt u initial_c note in
    let db := push "cashSessions" sess db in
    let db := update "caixa" (set "aberto" (JBool true)) db in
    let db := update "caixa" (set "currentSessionId" (JStr id)) db in
    DbCore.safeSave db false false ;;;
    ret (JObj [("ok", JBool true); ("sessionId", JStr id)]).

(** The session after [sess.movements.push(mv)] and the update of
    [expected_c]. *)
Definition withMovement (mv : JValue) (sess : JValue) : JValue :=
  let sess := push "movements" mv sess in
  update "expected_c"
    (fun e => JNum (Num.add (asInt e (int 0)) (ToNumber (get "amount_c" mv)))) sess.

(** The movement record [mv] of addMovement. *)
Definition movement (id atIso type : string) (amount_c : jsnum) (meta : JValue)
  : JValue :=
  JObj [
    ("id", JStr id);
    ("atIso", JStr atIso);
    ("type", JStr type);
    ("amount_c", JNum (asInt (JNum amount_c) (int 0)));
    ("meta", or_else meta JNull)
  ].

Definition addMovement (type : string) (amount_c : jsnum) (meta : JValue)
  : M JValue :=
  db0 <- DbCore.get ;;
  let db := ensureCollections db0 in
  match currentSession db with
  | None => ret (failure REGISTER_NOT_OPEN)
  | Some sess =>
      id <- generateId "cm" ;;
      atIso <- nowIso ;;
      let mv := movement id atIso type amount_c meta in
      if negb (isArray (get "movements" sess))
      then throw (TypeError "sess.movements.push is not a function")
      else
        let sid := get "currentSessionId" (get "caixa" db) in
        let db := update "cashSessions"
                    (fun a => JArr (updateFirst (hasId sid) (withMovement mv)
                                      (items a))) db in
        DbCore.safeSave db false false ;;;
        ret (JObj [("ok", JBool true); ("movementId", JStr id);
                   ("expected_c", get "expected_c" (withMovement mv sess))])
  end.

(** [{ k: v, ...more }] for [more] a plain object, null or undefined
    (the indexed properties that spreading an array or a text gives are
    not represented). *)
Definition spread (first : list (string * JValue)) (more : JValue) : JValue :=
  match more with
  | JObj fs => JObj (fold_left (fun acc kv => assign (fst kv) (snd kv) acc) fs first)
  | _ => JObj first
  end.

Definition addSale (saleId amount_c meta : JValue) : M JValue :=
  addMovement "venda" (Num.abs (asInt amount_c (int 0)))
    (spread [("saleId", saleId)] meta).

Definition addVoid (saleId amount_c reason : JValue) : M JValue :=
  let amt := Num.neg (Num.abs (asInt amount_c (int 0))) in
  addMovement "estorno" amt
    (JObj [("saleId", saleId); ("reason", defaultTo (JStr EmptyString) reason)]).



(** The session as [close] leaves it. *)
Definition closed (closedAt : string) (u : JValue) (counted_c note : JValue)
    (sess : JValue) : JValue :=
  let sess := set "closedAtIso" (JStr closedAt) sess in
  let sess := set "closedBy" (actor u) sess in
  let sess := set "counted_c" (JNum (asInt counted_c (int 0))) sess in
  let sess := set "diff_c"
                (JNum (Num.sub (asInt (get "counted_c" sess) (int 0))
                               (asInt (get "expected_c" sess) (int 0)))) sess in
  update "note" (fun n => or_else note (or_else n (JStr EmptyString))) sess.

Definition close (counted_c note : JValue) : M JValue :=
  db0 <- DbCore.get ;;
  let db := ensureCollections db0 in
  match currentSession db with
  | None => ret (failure REGISTER_NOT_OPEN)
  | Some sess =>
      u <- gets user ;;
      closedAt <- nowIso ;;
      let sess' := closed closedAt u counted_c note sess in
      let sid := get "currentSessionId" (get "caixa" db) in
      let db := update "cashSessions"
                  (fun a => JArr (updateFirst (hasId sid)
                                    (closed closedAt u counted_c note) (items a))) db in
      let db := update "caixa" (set "aberto" (JBool false)) db in
      let db := update "caixa" (set "currentSessionId" JNull) db in
      DbCore.safeSave db false false ;;;
      ret (JObj [("ok", JBool true); ("sessionId", get "id" sess');
                 ("expected_c", get "expected_c" sess');
                 ("counted_c", get "counted_c" sess');
                 ("diff_c", get "diff_c" sess')])
  end.

End Cashier.

(* ================================================================== *)
(** * services/ops_sales_refund.js *)
(* ================================================================== *)

Module SalesRefund.

Definition ensureCollections (db : JValue) : JValue :=
  let db := update "vendas" arrayOr db in
  update "saleVoids" arrayOr db.

(** [v && String(v.id || '').trim() === id] *)
Definition hasSaleId (id : string) (v : JValue) : bool :=
  truthy v &&
  String.eqb (trim (ToString (or_else (get "id" v) (JStr EmptyString)))) id.

Definition findSale (db : JValue) (saleId : JValue) : option JValue :=
  let id := trim (ToString (or_else saleId (JStr EmptyString))) in
  find (hasSaleId id) (items (get "vendas" db)).

(** [x && x.saleId === saleId] *)
Definition voids (saleId : JValue) (x : JValue) : bool :=
  truthy x && strictEq (get "saleId" x) saleId.

Definition SALE_NOT_FOUND : string := "Venda não encontrada.".
Definition ALREADY_VOIDED : string := "Venda já cancelada anteriormente.".

(** The loop over the sale lines: one devolucao movement per line with a
    code and a positive quantity; the identifiers of those that
    succeeded. *)
Fixpoint restockLines (saleId : JValue) (reason : JValue) (voidId : string)
    (itens : list JValue) : M (list JValue) :=
  match itens with
  | [] => ret []
  | it :: rest =>
      if isNullish it
      then throw (TypeError "Cannot read properties of null (reading 'cod')")
      else
        let code := trim (ToString (or_else (get "cod" it) (JStr EmptyString))) in
        let qty :=
          let n := ToNumber (get "qtd" it) in
          if Num.truthy n then n else int 0 in
        if isEmpty code || Num.leb qty (int 0) then
          restockLines saleId reason voidId rest
        else
          r <- Stock.addMovement
                 {| Stock.type := JStr "devolucao";
                    Stock.productCod := JStr code;
                    Stock.qty := JUndefined;
                    Stock.qtyDelta := JNum (trunc qty);
                    Stock.reason :=
                      JStr ("Estorno venda " ++ ToString saleId ++ ": "
                            ++ ToString reason);
                    Stock.meta :=
                      JObj [("saleId", saleId); ("voidId", JStr voidId)] |} ;;
          ids <- restockLines saleId reason voidId rest ;;
          ret (if truthy (get "ok" r) then get "movementId" r :: ids else ids)
  end.

(** The sale as cancellation leaves it. *)
Definition cancelled (reason : JValue) (at_ : string) (by_ : JValue)
    (sale : JValue) : JValue :=
  let sale := set "status" (JStr "cancelada") sale in
  let sale := set "cancelReason" (or_else reason (JStr EmptyString)) sale in
  let sale := set "canceledAtIso" (JStr at_) sale in
  set "canceledBy" by_ sale.

Definition cancelSale (saleId reason restock : JValue) : M JValue :=
  let reason := defaultTo (JStr "Cancelado") reason in
  let restock := defaultTo (JBool true) restock in
  db0 <- DbCore.get ;;
  let db := ensureCollections db0 in
  match findSale db saleId with
  | None => ret (failure SALE_NOT_FOUND)
  | Some sale =>
      match find (voids saleId) (items (get "saleVoids" db)) with
      | Some _ => ret (failure ALREADY_VOIDED)
      | None =>
          u <- gets user ;;
          voidId <- generateId "void" ;;
          createdMovs <-
            (if truthy restock
             then restockLines saleId reason voidId
                    (items (arrayOr (get "itens" sale)))
             else ret []) ;;
          at1 <- nowIso ;;
          let entry := JObj [
            ("id", JStr voidId);
            ("atIso", JStr at1);
            ("saleId", JStr (ToString saleId));
            ("reason", or_else reason (JStr EmptyString));
            ("createdBy", actor u);
            ("stockMovementsCreated", JArr createdMovs)
          ] in
          let db := push "saleVoids" entry db in
          match sale with
          | JObj _ | JArr _ =>
              at2 <- nowIso ;;
              let id := trim (ToString (or_else saleId (JStr EmptyString))) in
              let db := update "vendas"
                          (fun a => JArr (updateFirst (hasSaleId id)
                                            (cancelled reason at2 (actor u))
                                            (items a))) db in
              (* the estorno in the cash register, inside try/catch *)
              tryCatch
                (Cashier.addVoid saleId
                   (JNum (Num.neg (Num.abs (asInt (get "total_c" sale) (int 0)))))
                   reason ;;; ret tt)
                (fun _ => ret tt) ;;;
              DbCore.safeSave db false false ;;;
              ret (JObj [("ok", JBool true); ("voidId", JStr voidId);
                         ("stockMovements", JArr createdMovs)])
          | _ => throw (TypeError "Cannot create property 'status'")
          end
      end
  end.

End SalesRefund.

(* ================================================================== *)
(** * integrations/server_sync.js: the merge *)
(* ================================================================== *)

Module ServerSync.

Definition isPlainObject (v : JValue) : bool := isObj v.


(** [Number.parseInt(v, 10)], finite or the default, read from the
    positional text of a number (the engine writes a number from 1e21 on,
    or below 1e-6, with an exponent, of which parseInt reads the digits
    before it). *)
Definition asInt (v : JValue) (def : jsnum) : jsnum :=
  let n := parseIntString (ToString v) in
  if isFinite n then n else def.





Record Report : Type := {
  atIso : string;
  added : list (string * Z);
  updated : list (string * Z);
  conflicts : list JValue;
  warnings : list string
}.





(** [(x && typeof x === "object") ? x : null] *)
Definition norm (x : JValue) : JValue :=
  if truthy x && typeofObject x then x else JNull.









Definition stamp (metaKey field : string) (out : JValue) : M JValue :=
  if isPlainObject (get metaKey out)
  then t <- nowIso ;; ret (set metaKey (set field (JStr t) (get metaKey out)) out)
  else ret out.


End ServerSync.

(* ================================================================== *)
(** * storage/schema.js: safe parsing and migration *)
(* ================================================================== *)

Module Migration.

(** The error [JSON.parse] throws. *)
Definition SyntaxError : Exn :=
  {| exnName := "SyntaxError"; exnMessage := Backup.syntaxErrorMessage |}.

(** [{ ok: true, value }] or [{ ok: false, error }] *)
Inductive Parsed : Type :=
| ParsedOk (value : JValue)
| ParsedError (error : Exn).

Definition safeParseJSON (txt : Raw) : Parsed :=
  match parseRaw txt with
  | Some v => ParsedOk v
  | None => ParsedError SyntaxError
  end.

(** [v && typeof v === 'object' ? v : dflt].  An array passes the test;
    the named properties the code then assigns to it are not represented
    and are lost when the value is written as JSON text. *)
Definition objectLike (dflt v : JValue) : JValue :=
  if truthy v && typeofObject v then v else dflt.

(** The body of [if (next === 1)], without the report. *)
Definition toVersion1 (cur : JValue) : M JValue :=
  let cur := objectLike (JObj []) cur in
  let cur := set "schemaVersion" (JInt 1) cur in
  let cur := update "meta" (objectLike (JObj [])) cur in
  createdAt <- (if truthy (get "createdAt" (get "meta" cur))
                then ret (get "createdAt" (get "meta" cur))
                else t <- nowIso ;; ret (JStr t)) ;;
  let cur := update "meta" (set "createdAt" createdAt) cur in
  updatedAt <- nowIso ;;
  let cur := update "meta" (set "updatedAt" (JStr updatedAt)) cur in
  let cur := update "users" arrayOr cur in
  let cur := update "settings" (objectLike (JObj [])) cur in
  let cur := update "estoque" arrayOr cur in
  let cur := update "vendas" arrayOr cur in
  let cur := update "caixa" (objectLike Schema.emptyCaixa) cur in
  let cur := update "caixa" (update "movimentos" arrayOr) cur in
  let cur := update "caixa" (update "aberturas" arrayOr) cur in
  let cur := update "devedores" arrayOr cur in
  let cur := update "auditLog" arrayOr cur in
  ret cur.

(** [{ from: 0, to: 1, at }] *)
Definition migrationEntry (at_ : string) : JValue :=
  JObj [("from", JInt 0); ("to", JInt 1); ("at", JStr at_)].

(** [while (v < toVersion) { ...; v = next }] for at most [fuel] rounds;
    [None] when the rounds are used up before the loop ends.  Of the
    report the loop touches [report.migrations] only, which is threaded
    along. *)
Fixpoint migrateLoop (fuel : nat) (v toVersion : jsnum) (cur migrations : JValue)
  : M (option (JValue * JValue)) :=
  if negb (Num.ltb v toVersion) then ret (Some (cur, migrations))
  else
    match fuel with
    | O => ret None
    | S fuel' =>
        let next := Num.add v (int 1) in
        if Num.eqb next (int 1) then
          cur' <- toVersion1 cur ;;
          at_ <- nowIso ;;
          match migrations with
          | JArr l =>
              migrateLoop fuel' next toVersion cur'
                (JArr (List.app l [migrationEntry at_]))
          | _ => throw (TypeError "report.migrations.push is not a function")
          end
        else migrateLoop fuel' next toVersion cur migrations
    end.

(** [migrate(db, fromVersion, toVersion, report)]: the migrated database
    and [report.migrations]; the argument [migrations] is what
    [report.migrations] holds at the call. *)
Definition migrate (fuel : nat) (db : JValue) (fromVersion toVersion : jsnum)
    (migrations : JValue) : M (option (JValue * JValue)) :=
  let v := if Num.truthy fromVersion then fromVersion else int 0 in
  let cur := or_else db (JObj []) in
  migrateLoop fuel v toVersion cur (or_else migrations (JArr [])).

(** [Number(db.schemaVersion || 0)] *)
Definition fromV (db : JValue) : jsnum :=
  ToNumber (or_else (get "schemaVersion" db) (JInt 0)).

(** [if (fromV !== SCHEMA_VERSION) db = migrate(db, fromV, SCHEMA_VERSION, report)]
    with the report [{ warnings: [] }] of the callers. *)
Definition migrateIfNeeded (fuel : nat) (db : JValue) : M (option JValue) :=
  let from := fromV db in
  if negb (Num.eqb from (int Schema.SCHEMA_VERSION)) then
    r <- migrate fuel db from (int Schema.SCHEMA_VERSION) JUndefined ;;
    ret (option_map fst r)
  else ret (Some db).

End Migration.

(* ================================================================== *)
(** * storage/db_core.js: start-up and recovery switches *)
(* ================================================================== *)

Module DbInit.
Import Migration.

(** [status()]: a copy of [_recovery] *)
Definition status : M Recovery := gets recovery.

(** [recovery.enable] and [recovery.disable] *)
Definition enable (why : string) (det : JValue) : M unit :=
  DbCore.setRecovery true why det.

Definition disable : M unit := DbCore.setRecovery false EmptyString JNull.

(** [normalize(db)] *)
Definition normalize (db : JValue) : M JValue := normalizeDB db.

(** [{ ok: true, value }] or [{ ok: false, error, raw }] *)
Inductive Loaded : Type :=
| LoadedOk (value : JValue)
| LoadedError (error : Exn) (raw : Raw).

Definition loadRaw : M Loaded :=
  key <- gets storageKey ;;
  raw <- getItem key ;;
  match raw with
  | None => ret (LoadedOk JNull)
  | Some r =>
      if rawEmpty r then ret (LoadedOk JNull)
      else match safeParseJSON r with
           | ParsedOk v => ret (LoadedOk v)
           | ParsedError e => ret (LoadedError e r)
           end
  end.

(** The [backup] option of init, with entries that are a count (a
    natural number) and a number of milliseconds; an entry left out keeps
    the configured one. *)
Record BackupCfg : Type := {
  cfgMaxSnapshots : option nat;
  cfgCooldownMs : option Z
}.

Definition with_config (key : string) (cap : nat) (cooldown : Z) (w : World)
  : World :=
  {| ls := ls w; quota := quota w; clock := clock w; ticks := ticks w;
     random := random w; draws := draws w; user := user w;
     storageKey := key; maxSnapshots := cap; cooldownMs := cooldown;
     lastSnapshotAt := lastSnapshotAt w;
     recovery := recovery w; lastReport := lastReport w |}.

(** The first lines of init: [_cfg] after the options. *)
Definition configure (key : JValue) (backupCfg : option BackupCfg) : M unit :=
  modify (fun w =>
    with_config
      (if truthy key then ToString key else storageKey w)
      (match backupCfg with
       | Some {| cfgMaxSnapshots := Some n |} => n
       | _ => maxSnapshots w
       end)
      (match backupCfg with
       | Some {| cfgCooldownMs := Some c |} => c
       | _ => cooldownMs w
       end)
      w).

Record InitResult : Type := {
  in_ok : bool;
  in_storageKey : string;
  versionFrom : JValue;
  versionTo : Z;
  repaired : bool;
  in_warnings : list string
}.

Definition CORRUPTED_WARNING : string :=
  "DB corrompido: restaurado para defaults (recovery).".

(** [init({ storageKey, backup })]; [None] when the migration loop does
    not end within [fuel] rounds. *)
Definition init (fuel : nat) (key : JValue) (backupCfg : option BackupCfg)
  : M (option InitResult) :=
  configure key backupCfg ;;;
  k <- gets storageKey ;;
  rawRes <- loadRaw ;;
  match rawRes with
  | LoadedError e _ =>
      DbCore.setRecovery true "db_corrompido_json" (DbCore.messageObject e) ;;;
      db <- Schema.defaultDB ;;
      DbCore.safeSave db true false ;;;
      ret (Some {| in_ok := true; in_storageKey := k; versionFrom := JNull;
                   versionTo := Schema.SCHEMA_VERSION; repaired := true;
                   in_warnings := [CORRUPTED_WARNING] |})
  | LoadedOk value =>
      if negb (truthy value) then
        db <- Schema.defaultDB ;;
        DbCore.safeSave db false false ;;;
        ret (Some {| in_ok := true; in_storageKey := k; versionFrom := JInt 0;
                     versionTo := Schema.SCHEMA_VERSION; repaired := false;
                     in_warnings := [] |})
      else
        migrated <- migrateIfNeeded fuel value ;;
        match migrated with
        | None => ret None
        | Some db =>
            db <- normalizeDB db ;;
            ws <- gets DbCore.lastWarnings ;;
            DbCore.safeSave db false true ;;;
            ret (Some {| in_ok := true; in_storageKey := k;
                         versionFrom := JNum (fromV value);
                         versionTo := Schema.SCHEMA_VERSION;
                         repaired := negb (Nat.eqb (List.length ws) 0);
                         in_warnings := ws |})
        end
  end.

End DbInit.

(* ================================================================== *)
(** * storage/backup.js: import and snapshot history *)
(* ================================================================== *)

Module Restore.
Import Migration.

Record BackupResult : Type := {
  rs_ok : bool;
  rs_warnings : list string
}.

Definition MERGE_UNSUPPORTED : string :=
  "merge=true ainda não implementado nesta versão.".

Definition INVALID_BACKUP : Exn :=
  {| exnName := "Error"; exnMessage := "Backup inválido." |}.


(** The try block of importDB. *)
Definition importBody (fuel : nat) (jsonString : string) : M (option BackupResult) :=
  match JSON.parse jsonString with
  | None => throw SyntaxError
  | Some obj =>
      if negb (truthy obj) || negb (typeofObject obj) || negb (truthy (get "db" obj))
      then throw INVALID_BACKUP
      else
        migrated <- migrateIfNeeded fuel (get "db" obj) ;;
        match migrated with
        | None => ret None
        | Some db =>
            db <- normalizeDB db ;;
            DbCore.safeSave db false false ;;;
            ws <- gets DbCore.lastWarnings ;;
            ret (Some {| rs_ok := true; rs_warnings := ws |})
        end
  end.

(** [importDB(jsonString, { merge })]; [None] when the migration loop does
    not end within [fuel] rounds. *)
Definition importDB (fuel : nat) (jsonString : string) (merge : JValue)
  : M (option BackupResult) :=
  if truthy merge
  then ret (Some {| rs_ok := false; rs_warnings := [MERGE_UNSUPPORTED] |})
  else
    tryCatch (importBody fuel jsonString)
      (fun e => ret (Some {| rs_ok := false; rs_warnings := [describe e] |})).





End Restore.

(* ================================================================== *)
(** * Listings of the ledgers (ops_stock_events.js, ops_cashier.js) *)
(* ================================================================== *)

Module Listing.







End Listing.

(* ================================================================== *)
(** * fiscal/queue.js *)
(* ================================================================== *)

Module FiscalQueue.

(** The functions of this module take any value as the database.  [None]
    stands for a call that throws a TypeError: the database is null,
    undefined or a primitive, or [db.fiscalQueue] holds something that is
    not an array.  A database that is an array is left out too: it would
    receive a named property. *)

(** [ensureFiscalQueue(db)]: the database after the assignment and the
    queue returned. *)
Definition ensureFiscalQueue (db : JValue) : option (JValue * JValue) :=
  match db with
  | JObj _ =>
      let db' := update "fiscalQueue" (fun q => or_else q (JArr [])) db in
      Some (db', get "fiscalQueue" db')
  | _ => None
  end.

(** [enqueueFiscal(db, item)]: the database after [q.push(item)]. *)
Definition enqueueFiscal (db item : JValue) : option JValue :=
  match ensureFiscalQueue db with
  | Some (db', JArr q) => Some (set "fiscalQueue" (JArr (List.app q [item])) db')
  | _ => None
  end.

(** [x.key === keyOrId || x.saleId === keyOrId] *)
Definition queued (keyOrId x : JValue) : bool :=
  strictEq (get "key" x) keyOrId || strictEq (get "saleId" x) keyOrId.

(** [findIndex] followed by [splice(idx, 1)] *)
Fixpoint removeFirst (keyOrId : JValue) (q : list JValue) : option (list JValue) :=
  match q with
  | [] => Some []
  | x :: r =>
      if isNullish x then None
      else if queued keyOrId x then Some r
      else option_map (cons x) (removeFirst keyOrId r)
  end.

Definition removeFromQueue (db keyOrId : JValue) : option JValue :=
  match ensureFiscalQueue db with
  | Some (db', JArr q) =>
      option_map (fun q' => set "fiscalQueue" (JArr q') db') (removeFirst keyOrId q)
  | _ => None
  end.

(** [x.status === 'pending' || x.status === 'offline_queue' || x.status === 'error'] *)
Definition isPending (x : JValue) : bool :=
  strictEq (get "status" x) (JStr "pending")
  || strictEq (get "status" x) (JStr "offline_queue")
  || strictEq (get "status" x) (JStr "error").

Record Summary : Type := {
  total : nat;
  pending : nat;
  last : JValue
}.

(** [queueSummary(db)]: the database after the call and the summary. *)
Definition queueSummary (db : JValue) : option (JValue * Summary) :=
  match ensureFiscalQueue db with
  | Some (db', JArr q) =>
      if existsb isNullish q then None
      else Some (db',
                 {| total := List.length q;
                    pending := List.length (filter isPending q);
                    last := or_else (List.last q JUndefined) JNull |})
  | _ => None
  end.

End FiscalQueue.

(* ================================================================== *)
(** * whatsapp.js: telephone numbers *)
(* ================================================================== *)

Module WhatsApp.

(** [s.replace(/\D/g, '')] *)
Fixpoint digitsOnly (s : string) : string :=
  match s with
  | EmptyString => EmptyString
  | String c r => if isDigit c then String c (digitsOnly r) else digitsOnly r
  end.

Definition normalizePhoneE164 (phone : JValue) : string :=
  let s := digitsOnly (ToString (or_else phone (JStr EmptyString))) in
  if isEmpty s then EmptyString
  else if startsWith "55" s then s
  else "55" ++ s.

End WhatsApp.

(* ================================================================== *)
(** * utils/money.js *)
(* ================================================================== *)

Module Money.

(** [x * y], as the exact product of the decimal numbers of the model:
    the product JavaScript computes whenever that one is exact, as it is
    for whole numbers of safe size. *)
Definition mul (x y : jsnum) : jsnum :=
  match x, y with
  | NaN, _ | _, NaN => NaN
  | Inf a, Inf b => Inf (xorb a b)
  | Inf a, Dec m _ =>
      if m =? 0 then NaN else Inf (xorb a (m <? 0))
  | Dec m _, Inf b =>
      if m =? 0 then NaN else Inf (xorb (m <? 0) b)
  | Dec m1 e1, Dec m2 e2 => Dec (m1 * m2) (e1 + e2)
  end.

(** [Math.round(x)]: the integer nearest to [x], halves rounded up. *)
Definition mathRound (x : jsnum) : jsnum :=
  match x with
  | Dec m e => Dec ((2 * m + pow10 e) / (2 * pow10 e)) 0
  | _ => x
  end.

(** [Number.isInteger(x)] *)
Definition isInteger (x : jsnum) : bool :=
  match x with
  | Dec m e => m mod pow10 e =? 0
  | _ => false
  end.

(** [x / 100] *)
Definition div100 (x : jsnum) : jsnum :=
  match x with
  | Dec m e => Dec m (e + 2)
  | _ => x
  end.

Definition moneyToCentsBR (v : JValue) : jsnum :=
  match v with
  | JNum x =>
      if isInteger x && Num.gtb (Num.abs x) (int 999) then x
      else mathRound (mul x (int 100))
  | JStr s =>
      let n := StringToNumber (commaToDot (removeDots (trim s))) in
      if isFinite n then mathRound (mul n (int 100)) else int 0
  | _ => int 0
  end.

Definition toCents (v : JValue) : jsnum := moneyToCentsBR v.

(** [Number(c) || 0] *)
Definition numberOr0 (c : JValue) : jsnum :=
  let n := ToNumber c in if Num.truthy n then n else int 0.

Definition fromCents (c : JValue) : jsnum := div100 (numberOr0 c).

(** [values.reduce((acc, v) => acc + (Number.isFinite(Number(v)) ? Number(v) : 0), 0)] *)
Definition sumCents (values : list JValue) : jsnum :=
  fold_left
    (fun acc v =>
       let n := ToNumber v in Num.add acc (if isFinite n then n else int 0))
    values (int 0).

Definition mulCents (unitCents qty : JValue) : jsnum :=
  let unit := ToNumber unitCents in
  let q := ToNumber qty in
  let safeUnit := if isFinite unit then unit else int 0 in
  let safeQty := if isFinite q then q else int 0 in
  mathRound (mul safeUnit safeQty).

End Money.

(* ================================================================== *)
(** * services/ops_inventory.js *)
(* ================================================================== *)

Module Inventory.





Definition ensureCollections (db : JValue) : JValue := update "estoque" arrayOr db.



















End Inventory.

(* ================================================================== *)
(** * integrations: product lookup and receipt text *)
(* ================================================================== *)

Module Integracoes.



(** The [map] of [escapeHtml]'s callback. *)
Definition entityOf (c : ascii) : option string :=
  if Ascii.eqb c "&" then Some "&amp;"
  else if Ascii.eqb c "<" then Some "&lt;"
  else if Ascii.eqb c ">" then Some "&gt;"
  else if Ascii.eqb c "'" then Some "&#39;"
  else if Ascii.eqb c JSON.dquote then Some "&quot;"
  else None.

(** The characters the pattern of [escapeHtml] matches. *)
Definition special (c : ascii) : bool :=
  Ascii.eqb c "&" || Ascii.eqb c "<" || Ascii.eqb c ">" || Ascii.eqb c "'"
  || Ascii.eqb c JSON.dquote.

Fixpoint replaceSpecial (s : string) : string :=
  match s with
  | EmptyString => EmptyString
  | String c r =>
      (if special c
       then match entityOf c with Some e => e | None => String c EmptyString end
       else String c EmptyString) ++ replaceSpecial r
  end.

Definition escapeHtml (s : JValue) : string :=
  replaceSpecial (ToString (or_else s (JStr EmptyString))).

End Integracoes.

(* ================================================================== *)
(** * db_core.js: the call of safeSave *)
(* ================================================================== *)

Module DbApi.

Definition NULL_OPTIONS : Exn :=
  TypeError "Cannot destructure property 'forceSnapshot' of 'object null' as it is null.".

(** [safeSave(db, { forceSnapshot = false, skipNormalize = false } = {})].
    The options are taken apart before the try block is entered: left out
    they are the empty object, null makes the call throw a TypeError, and
    any other value gives the two fields it has, or their defaults.
    [DbCore.safeSave] is the function from its try block on. *)
Definition safeSave (db options : JValue) : M DbCore.SaveResult :=
  match defaultTo (JObj []) options with
  | JNull => throw NULL_OPTIONS
  | opts =>
      DbCore.safeSave db
        (truthy (defaultTo (JBool false) (get "forceSnapshot" opts)))
        (truthy (defaultTo (JBool false) (get "skipNormalize" opts)))
  end.

End DbApi.

(* ================================================================== *)
(** * Where the embedding is the code *)
(* ================================================================== *)

(** The embedding computes with exact decimal numbers, converts every
    value to a text, and reads JSON text over one-byte characters.  The
    predicates of this module name the inputs on which that is what the
    JavaScript engine does; the theorems that depend on it carry them as
    hypotheses. *)
Module Exact.

(** [String(x)] and [Number(x)] throw a TypeError on an object with a
    field of its own named toString: the field, which no JSON value makes
    callable, hides the inherited method.  A value is [stringable] when no
    object in it has such a field. *)
Fixpoint stringable (v : JValue) : bool :=
  match v with
  | JArr l => forallb stringable l
  | JObj fs =>
      (fix go (fs : list (string * JValue)) : bool :=
         match fs with
         | [] => true
         | (k, x) :: r => negb (String.eqb k "toString") && stringable x && go r
         end) fs
  | _ => true
  end.

(** Whole numbers up to 10^15 in absolute value are numbers of binary64,
    and so is the sum, the difference and the product of two of them when
    it stays below 2^53: on them the arithmetic of the embedding is the
    arithmetic of the engine. *)
Definition modest (z : Z) : Prop := Z.abs z <= 10 ^ 15.

(** A decimal number of at most fifteen digits, with at most fifteen of
    them after the point, is the shortest decimal of one binary64 number,
    which has the same integer part. *)
Definition shortDecimal (x : jsnum) : bool :=
  match x with
  | Dec m e => (Z.abs m <=? 10 ^ 15) && (e <=? 15)%nat
  | _ => true
  end.

(** The JSON reader of the embedding refuses an escape [\uXXXX] from
    U+0100 on, which the engine reads.  A text is [narrow] when every
    backslash followed by u is followed by 00. *)
Fixpoint narrowFrom (escaped : bool) (s : string) : bool :=
  match s with
  | EmptyString => true
  | String c r =>
      if escaped && Ascii.eqb c "u"
      then match r with
           | String a (String b _) => Ascii.eqb a "0" && Ascii.eqb b "0"
           | _ => true
           end && narrowFrom false r
      else narrowFrom (Ascii.eqb c JSON.backslash && negb escaped) r
  end.

Definition narrow (s : string) : bool := narrowFrom false s.

(** What a localStorage key holds is read as the engine reads it when it
    is the document of a stringable value that JSON text represents
    exactly (writing it and reading it back gives the value), or a narrow
    text that is not JSON or is the text of a stringable value. *)
Definition faithfulRaw (r : option Raw) : Prop :=
  match r with
  | None => True
  | Some (Doc v) => stringable v = true /\ JSON.clone v = v
  | Some (Text s) =>
      narrow s = true
      /\ match JSON.parse s with Some v => stringable v = true | None => True end
  end.

End Exact.

(* ================================================================== *)
(** * Properties of the value model *)
(* ================================================================== *)

Section ValueInduction.

Variable P : JValue -> Prop.
Hypothesis Hundef : P JUndefined.
Hypothesis Hnull : P JNull.
Hypothesis Hbool : forall b, P (JBool b).
Hypothesis Hnum : forall x, P (JNum x).
Hypothesis Hstr : forall s, P (JStr s).
Hypothesis Harr : forall l, Forall P l -> P (JArr l).
Hypothesis Hobj : forall fs, Forall (fun kv => P (snd kv)) fs -> P (JObj fs).

Fixpoint JValue_ind (v : JValue) : P v :=
  match v with
  | JUndefined => Hundef
  | JNull => Hnull
  | JBool b => Hbool b
  | JNum x => Hnum x
  | JStr s => Hstr s
  | JArr l =>
      Harr l ((fix go (l : list JValue) : Forall P l :=
                 match l with
                 | [] => Forall_nil _
                 | x :: r => Forall_cons _ (JValue_ind x) (go r)
                 end) l)
  | JObj fs =>
      Hobj fs ((fix go (fs : list (string * JValue))
                  : Forall (fun kv => P (snd kv)) fs :=
                  match fs with
                  | [] => Forall_nil _
                  | kv :: r => Forall_cons _ (JValue_ind (snd kv)) (go r)
                  end) fs)
  end.

End ValueInduction.

Lemma lookup_assign (k k' : string) (v : JValue) (fs : list (string * JValue)) :
  lookup k (assign k' v fs) = if String.eqb k k' then Some v else lookup k fs.
Proof.
  induction fs as [|[k0 v0] r IH]; simpl.
  - destruct (String.eqb k k'); reflexivity.
  - destruct (String.eqb k' k0) eqn:E0; simpl.
    + apply String.eqb_eq in E0; subst k0.
      destruct (String.eqb k k'); reflexivity.
    + destruct (String.eqb k k0) eqn:E1.
      * apply String.eqb_eq in E1; subst k0.
        rewrite String.eqb_sym in E0. rewrite E0. reflexivity.
      * exact IH.
Qed.

Lemma isObj_set (k : string) (v o : JValue) : isObj (set k v o) = isObj o.
Proof. destruct o; reflexivity. Qed.

Lemma get_set_eq (k : string) (v o : JValue) :
  isObj o = true -> get k (set k v o) = v.
Proof.
  destruct o; try discriminate; intros _; simpl.
  rewrite lookup_assign, String.eqb_refl. reflexivity.
Qed.

Lemma get_set_ne (k k' : string) (v o : JValue) :
  String.eqb k k' = false -> get k (set k' v o) = get k o.
Proof.
  intros Hne. destruct o; try reflexivity; simpl.
  rewrite lookup_assign, Hne. reflexivity.
Qed.

Lemma has_set_eq (k : string) (v o : JValue) :
  isObj o = true -> has k (set k v o) = true.
Proof.
  destruct o; try discriminate; intros _; simpl.
  rewrite lookup_assign, String.eqb_refl. reflexivity.
Qed.

Lemma set_not_obj (k : string) (v o : JValue) :
  isObj o = false -> set k v o = o.
Proof. destruct o; try reflexivity; discriminate. Qed.


Lemma isObj_truthy (o : JValue) : isObj o = true -> truthy o = true.
Proof. destruct o; try discriminate; reflexivity. Qed.

Lemma isObj_typeofObject (o : JValue) : isObj o = true -> typeofObject o = true.
Proof. destruct o; try discriminate; reflexivity. Qed.

Lemma isArray_arrayOr (v : JValue) : isArray (arrayOr v) = true.
Proof. unfold arrayOr. destruct (isArray v) eqn:E; [exact E | reflexivity]. Qed.

Lemma arrayOr_array (v : JValue) : isArray v = true -> arrayOr v = v.
Proof. unfold arrayOr. intros ->. reflexivity. Qed.

Lemma arrayOr_idem (v : JValue) : arrayOr (arrayOr v) = arrayOr v.
Proof. apply arrayOr_array, isArray_arrayOr. Qed.

Lemma JArr_items (v : JValue) : isArray v = true -> JArr (items v) = v.
Proof. destruct v; try discriminate; reflexivity. Qed.

Lemma find_app (pred : JValue -> bool) (l1 l2 : list JValue) :
  find pred (List.app l1 l2) =
  match find pred l1 with Some x => Some x | None => find pred l2 end.
Proof.
  induction l1 as [|x r IH]; simpl; [reflexivity|].
  destruct (pred x); [reflexivity | exact IH].
Qed.

Lemma updateFirst_app_miss (pred : JValue -> bool) (f : JValue -> JValue)
    (l1 l2 : list JValue) :
  find pred l1 = None ->
  updateFirst pred f (List.app l1 l2) = List.app l1 (updateFirst pred f l2).
Proof.
  induction l1 as [|x r IH]; simpl; [reflexivity|].
  destruct (pred x); [discriminate|]. intros H. rewrite IH by exact H. reflexivity.
Qed.

(* ================================================================== *)
(** * Running the effects *)
(* ================================================================== *)

Lemma bind_Ok {A B} (m : M A) (k : A -> M B) (w w' : World) (a : A) :
  m w = Ok a w' -> bind m k w = k a w'.
Proof. unfold bind. intros ->. reflexivity. Qed.

Lemma bind_Thrown {A B} (m : M A) (k : A -> M B) (w w' : World) (e : Exn) :
  m w = Thrown e w' -> bind m k w = Thrown e w'.
Proof. unfold bind. intros ->. reflexivity. Qed.

Lemma bind_inv {A B} (m : M A) (k : A -> M B) (w w' : World) (b : B) :
  bind m k w = Ok b w' -> exists a w1, m w = Ok a w1 /\ k a w1 = Ok b w'.
Proof.
  unfold bind. destruct (m w) as [a w1|e w1]; [|discriminate].
  intros H. exists a, w1. auto.
Qed.

Lemma dateNow_run (w : World) :
  dateNow w = Ok (clock w (ticks w)) (with_ticks (S (ticks w)) w).
Proof. reflexivity. Qed.

Lemma nowIso_run (w : World) :
  nowIso w = Ok (toISOString (clock w (ticks w))) (with_ticks (S (ticks w)) w).
Proof. reflexivity. Qed.


(* ================================================================== *)
(** * The estoque merge (server_sync.js) *)
(* ================================================================== *)

Module MergeFacts.
Import ServerSync.


















End MergeFacts.

(* ================================================================== *)
(** * A sample host *)
(* ================================================================== *)

Module Sample.

(** Empty storage without quota, a clock that advances by one millisecond
    per reading, nobody signed in, the default backup policy. *)
Definition quietWorld : World :=
  {| ls := fun _ => None;
     quota := fun _ _ => false;
     clock := fun n => 1762128000000 + Z.of_nat n;
     ticks := 0;
     random := fun _ => "a1b2c3";
     draws := 0;
     user := JNull;
     storageKey := "erp_db";
     maxSnapshots := 20;
     cooldownMs := 3000;
     lastSnapshotAt := 0;
     recovery := {| active := false; reason := EmptyString;
                    details := JNull; since := JNull |};
     lastReport := None |}.

(** The same host with a database stored under the storage key. *)
Definition worldWith (db : JValue) : World :=
  with_ls (fun k => if String.eqb k "erp_db" then Some (Doc db) else None)
    quietWorld.

(** The database a key holds, when it holds one. *)
Definition persisted (w : World) : JValue :=
  match ls w (storageKey w) with
  | Some (Doc v) => v
  | _ => JUndefined
  end.

End Sample.
Export Sample.

(* ================================================================== *)
(** * Snapshots (backup.js) *)
(* ================================================================== *)

Module SnapshotFacts.
Import Backup.

Lemma removelast_firstn_len {A} (l : list A) :
  removelast l = firstn (List.length l - 1) l.
Proof.
  induction l as [|x r IH]; [reflexivity|].
  destruct r as [|y r']; [reflexivity|].
  change (removelast (x :: y :: r')) with (x :: removelast (y :: r')).
  rewrite IH. cbn [List.length]. 
  replace (S (S (List.length r')) - 1)%nat with (S (S (List.length r') - 1)) by lia.
  reflexivity.
Qed.

Lemma popWhile_firstn (n cap : nat) (l : list JValue) :
  (List.length l <= n + cap)%nat -> popWhile n cap l = firstn cap l.
Proof.
  revert l. induction n as [|n IH]; intros l Hl; cbn [popWhile].
  - symmetry. apply firstn_all2. lia.
  - destruct (Nat.ltb_spec cap (List.length l)) as [Hlt|Hge].
    + rewrite IH.
      * rewrite removelast_firstn_len, firstn_firstn.
        f_equal. lia.
      * rewrite removelast_firstn_len, length_firstn. lia.
    + symmetry. apply firstn_all2. lia.
Qed.

Definition snapshotsOf (w : World) (key : string) : list JValue :=
  match ls w (snapKey key) with
  | Some (Doc (JArr l)) => l
  | _ => []
  end.

Lemma loadSnapshots_run (key : string) (w : World) :
  exists l, loadSnapshots key w = Ok l w.
Proof.
  unfold loadSnapshots, getItem, gets, bind.
  destruct (ls w (snapKey key)) as [r|]; [|eexists; reflexivity].
  destruct (rawEmpty r); [eexists; reflexivity|].
  destruct (parseRaw r) as [[]|]; eexists; reflexivity.
Qed.

(** C8, amended.  Every createSnapshot call that the storage accepts
    leaves a stored snapshot list no longer than the cap (maxSnapshots,
    20 by default); when the cap is at least 1 the snapshot just created
    is at index 0 of that list. *)
Theorem snapshot_list_capped (w : World) (key : string) (db : JValue)
    (maxSnapshots : option nat) :
  (forall r, quota w (snapKey key) r = false) ->
  let cap := match maxSnapshots with Some n => n | None => DEFAULT_MAX_SNAPSHOTS end in
  exists id w',
    createSnapshot key db maxSnapshots w = Ok id w'
    /\ (List.length (snapshotsOf w' key) <= cap)%nat
    /\ ((1 <= cap)%nat ->
        exists snap rest,
          snapshotsOf w' key = snap :: rest
          /\ get "id" snap = JStr id /\ get "data" snap = db).
Proof.
  intros Hq cap.
  unfold createSnapshot.
  destruct (loadSnapshots_run key w) as [l0 Hl0].
  rewrite (bind_Ok _ _ _ _ _ Hl0).
  rewrite (bind_Ok _ _ _ _ _ (dateNow_run w)).
  unfold randomHex at 1. unfold bind at 1.
  rewrite (bind_Ok _ _ _ _ _ (nowIso_run _)).
  fold cap.
  match goal with
  | |- context [popWhile _ cap (?s :: l0)] => set (snap := s)
  end.
  rewrite popWhile_firstn by lia.
  unfold saveSnapshots, setItem, bind.
  cbn [quota with_ticks with_draws]. rewrite Hq. cbn [ret].
  eexists. eexists. split; [reflexivity|].
  unfold snapshotsOf. cbn [ls with_ls]. rewrite String.eqb_refl.
  cbn [document]. split.
  - apply firstn_le_length.
  - intros Hcap. destruct cap as [|c]; [lia|].
    cbn [firstn]. eexists. eexists. split; [reflexivity|].
    split; reflexivity.
Qed.

Lemma snapshot_list_capped_witness :
  exists id w',
    createSnapshot "erp_db" (JObj []) (Some 2%nat) quietWorld = Ok id w'
    /\ (List.length (snapshotsOf w' "erp_db") <= 2)%nat
    /\ ((1 <= 2)%nat ->
        exists snap rest,
          snapshotsOf w' "erp_db" = snap :: rest
          /\ get "id" snap = JStr id /\ get "data" snap = JObj []).
Proof.
  apply (snapshot_list_capped quietWorld "erp_db" (JObj []) (Some 2%nat)).
  intros r. reflexivity.
Defined.

(** With a cap of 0 the call empties the stored list: the snapshot just
    created is not at index 0, against C8 as stated. *)
Lemma snapshot_lost_with_cap_zero :
  let o := createSnapshot "erp_db" (JObj []) (Some 0%nat) quietWorld in
  result o = Some "1762128000000_a1b2c3"
  /\ ls (worldOf o) (snapKey "erp_db") = Some (Doc (JArr [])).
Proof. vm_compute. split; reflexivity. Qed.

End SnapshotFacts.

(* ================================================================== *)
(** * The try and catch blocks of safeSave (db_core.js) *)
(* ================================================================== *)

Module SaveFacts.
Import DbCore.

Lemma setRecovery_run (act : bool) (why : string) (det : JValue) (w : World) :
  exists w',
    setRecovery act why det w = Ok tt w'
    /\ active (recovery w') = act /\ reason (recovery w') = why
    /\ details (recovery w') = or_else det JNull.
Proof.
  unfold setRecovery, bind, nowIso, dateNow, bind, ret, modify.
  destruct act; eexists; (split; [reflexivity|]); repeat split.
Qed.

Lemma safeSaveBody_result (db : JValue) (forceSnapshot skipNormalize : bool)
    (w w' : World) (res : SaveResult) :
  safeSaveBody db forceSnapshot skipNormalize w = Ok res w' ->
  sv_ok res = true /\ sv_warnings res = lastWarnings w'.
Proof.
  unfold safeSaveBody. intros H.
  repeat (apply bind_inv in H; destruct H as (? & ? & ? & H)).
  match goal with
  | Hg : gets lastWarnings _ = Ok _ _ |- _ => unfold gets in Hg; inversion Hg; subst
  end.
  unfold ret in H. inversion H; subst. split; reflexivity.
Qed.

(** The function from its try block on returns a result on every host:
    that of the block when the block runs to its end, and otherwise the
    failure the catch block builds after setting recovery mode. *)
Lemma safeSave_cases (db : JValue) (forceSnapshot skipNormalize : bool)
    (w : World) :
  exists res w',
    safeSave db forceSnapshot skipNormalize w = Ok res w'
    /\ ( (sv_ok res = true
          /\ safeSaveBody db forceSnapshot skipNormalize w = Ok res w'
          /\ sv_warnings res = lastWarnings w')
        \/ (exists e w1,
              safeSaveBody db forceSnapshot skipNormalize w = Thrown e w1
              /\ res = {| sv_ok := false; sv_warnings := [describe e];
                          snapshotCreated := false |}
              /\ active (recovery w') = true
              /\ reason (recovery w') = "storage_error"
              /\ details (recovery w') = JObj [("message", JStr (describe e))]) ).
Proof.
  unfold safeSave, tryCatch.
  destruct (safeSaveBody db forceSnapshot skipNormalize w) as [res w'|e w1] eqn:Hbody.
  - exists res, w'. split; [reflexivity|]. left.
    destruct (safeSaveBody_result _ _ _ _ _ _ Hbody) as [H1 H2]. auto.
  - destruct (setRecovery_run true "storage_error" (messageObject e) w1)
      as (w' & Hrun & Ha & Hr & Hd).
    eexists. exists w'. unfold safeSaveFailed.
    rewrite (bind_Ok _ _ _ _ _ Hrun). split; [reflexivity|]. right.
    exists e, w1. repeat split; assumption.
Qed.

(** A refused write: the result is ok:false and recovery mode is on. *)
Example safeSave_quota_exceeded :
  let w := {| ls := ls quietWorld; quota := fun _ _ => true;
              clock := clock quietWorld; ticks := 0;
              random := random quietWorld; draws := 0; user := JNull;
              storageKey := "erp_db"; maxSnapshots := 20; cooldownMs := 3000;
              lastSnapshotAt := 0; recovery := recovery quietWorld;
              lastReport := None |} in
  let o := safeSave (JObj []) false false w in
  result o = Some {| sv_ok := false;
                     sv_warnings := ["The quota has been exceeded."];
                     snapshotCreated := false |}
  /\ reason (recovery (worldOf o)) = "storage_error"
  /\ active (recovery (worldOf o)) = true.
Proof. vm_compute. repeat split. Qed.

End SaveFacts.

(* ================================================================== *)
(** * What normalizeDB keeps and what it rewrites *)
(* ================================================================== *)

(** The host is the same but for the number of clock readings and the
    last normalisation report. *)
Definition frame (w w' : World) : Prop :=
  ls w' = ls w /\ quota w' = quota w /\ clock w' = clock w
  /\ random w' = random w /\ draws w' = draws w /\ user w' = user w
  /\ storageKey w' = storageKey w /\ maxSnapshots w' = maxSnapshots w
  /\ cooldownMs w' = cooldownMs w /\ lastSnapshotAt w' = lastSnapshotAt w
  /\ recovery w' = recovery w.

Lemma bind_step {A B} (m : M A) (k : A -> M B) (w w1 : World) (a : A)
    (R : Outcome B) :
  m w = Ok a w1 -> k a w1 = R -> bind m k w = R.
Proof. unfold bind. intros -> H. exact H. Qed.

Lemma get_update_ne (k k' : string) (f : JValue -> JValue) (o : JValue) :
  String.eqb k k' = false -> get k (update k' f o) = get k o.
Proof. apply get_set_ne. Qed.

Lemma get_update_eq (k : string) (f : JValue -> JValue) (o : JValue) :
  isObj o = true -> get k (update k f o) = f (get k o).
Proof. apply get_set_eq. Qed.

Lemma isObj_update (k : string) (f : JValue -> JValue) (o : JValue) :
  isObj (update k f o) = isObj o.
Proof. apply isObj_set. Qed.

Lemma frame_refl (w : World) : frame w w.
Proof. repeat split. Qed.

Lemma frame_trans (w1 w2 w3 : World) : frame w1 w2 -> frame w2 w3 -> frame w1 w3.
Proof.
  unfold frame. intros H1 H2.
  repeat match goal with H : _ /\ _ |- _ => destruct H end.
  repeat split; congruence.
Qed.

Lemma frame_ticks (n : nat) (w : World) : frame w (with_ticks n w).
Proof. repeat split. Qed.

Lemma frame_lastReport (r : option Report) (w : World) : frame w (with_lastReport r w).
Proof. repeat split. Qed.

Lemma nowIso_frame (w : World) :
  exists t w', nowIso w = Ok t w' /\ frame w w'.
Proof. eexists. eexists. split; [apply nowIso_run | apply frame_ticks]. Qed.

Lemma stamp_or_keep (c : bool) (v : JValue) (w : World) :
  exists x w',
    (if c then ret v else t <- nowIso ;; ret (JStr t)) w = Ok x w' /\ frame w w'.
Proof.
  destruct c.
  - eexists. eexists. split; [reflexivity | apply frame_refl].
  - eexists. eexists. split; [reflexivity | apply frame_ticks].
Qed.

Lemma normSale_run (v : JValue) (w : World) :
  exists r w', normSale v w = Ok r w' /\ frame w w'.
Proof.
  unfold normSale. destruct (isObj v); cbn [negb].
  2:{ eexists. eexists. split; [reflexivity | apply frame_refl]. }
  match goal with
  | |- context [bind (if ?c then ret ?a else _) _] =>
      destruct (stamp_or_keep c a w) as (x & w1 & H1 & F1)
  end.
  rewrite (bind_Ok _ _ _ _ _ H1).
  match goal with
  | |- context [if ?c then _ else _] => destruct c
  end; eexists; eexists; (split; [reflexivity | exact F1]).
Qed.

Lemma mapM_normSale_run (l : list JValue) (w : World) :
  exists rs w', mapM normSale l w = Ok rs w' /\ frame w w'.
Proof.
  revert w. induction l as [|v r IH]; intros w.
  - eexists. eexists. split; [reflexivity | apply frame_refl].
  - destruct (normSale_run v w) as (x & w1 & H1 & F1).
    destruct (IH w1) as (xs & w2 & H2 & F2).
    cbn [mapM]. rewrite (bind_Ok _ _ _ _ _ H1), (bind_Ok _ _ _ _ _ H2).
    eexists. eexists. split; [reflexivity | eapply frame_trans; eassumption].
Qed.

(** The keys normalizeDB assigns. *)
Definition touched : list string :=
  ["schemaVersion"; "meta"; "users"; "settings"; "estoque"; "vendas";
   "caixa"; "devedores"; "auditLog"].

Definition untouched (k : string) : bool :=
  forallb (fun t => negb (String.eqb k t)) touched.

Ltac field_ne :=
  first [ rewrite get_update_ne by (reflexivity || assumption)
        | rewrite get_set_ne by (reflexivity || assumption) ].
Ltac field_eq :=
  first [ rewrite get_update_eq by (rewrite ?isObj_update, ?isObj_set; assumption)
        | rewrite get_set_eq by (rewrite ?isObj_update, ?isObj_set; assumption) ].

Lemma normalizeDB_obj (db : JValue) (w : World) :
  isObj db = true ->
  exists N w',
    normalizeDB db w = Ok N w' /\ frame w w' /\ isObj N = true
    /\ (forall k, untouched k = true -> get k N = get k db)
    /\ get "estoque" N
       = JArr (map (fun p => fst (normProduct p)) (items (arrayOr (get "estoque" db))))
    /\ get "caixa" N = normCaixa (get "caixa" db).
Proof.
  intros Hobj. unfold normalizeDB.
  set (w1 := with_ticks (S (ticks w)) w).
  assert (F1 : frame w w1) by apply frame_ticks.
  set (db1 := update "meta" (objectOr (JObj []))
                (update "schemaVersion"
                   (fun x => JNum (asInt x (int Schema.SCHEMA_VERSION))) db)).
  destruct (stamp_or_keep (truthy (get "createdAt" (get "meta" db1)))
              (get "createdAt" (get "meta" db1)) w1) as (cv & w2 & Hc & F2).
  set (w3 := with_ticks (S (ticks w2)) w2).
  assert (F3 : frame w2 w3) by apply frame_ticks.
  set (db2 :=
    update "auditLog" arrayOr (update "devedores" arrayOr
      (update "caixa" normCaixa (update "vendas" arrayOr
        (update "estoque" arrayOr (update "settings" (objectOr (JObj []))
          (update "users" arrayOr
            (update "meta" (set "updatedAt" (JStr (toISOString (clock w2 (ticks w2)))))
              (update "meta" (set "createdAt" cv) db1))))))))).
  set (db3 := set "estoque" (JArr (map fst (map normProduct (items (get "estoque" db2))))) db2).
  destruct (mapM_normSale_run (items (get "vendas" db3)) w3) as (vs & w4 & Hvs & F4).
  exists (set "vendas" (JArr (map fst vs)) db3). eexists.
  split.
  { eapply bind_step; [apply nowIso_run|]. rewrite Hobj. cbn [negb].
    eapply bind_step; [exact Hc|].
    eapply bind_step; [apply nowIso_run|].
    eapply bind_step; [exact Hvs|].
    reflexivity. }
  assert (O1 : isObj db1 = true) by (unfold db1; rewrite !isObj_update; exact Hobj).
  assert (O2 : isObj db2 = true) by (unfold db2; rewrite !isObj_update; exact O1).
  assert (O3 : isObj db3 = true) by (unfold db3; rewrite isObj_set; exact O2).
  split.
  { eapply frame_trans; [exact F1|]. eapply frame_trans; [exact F2|].
    eapply frame_trans; [exact F3|]. eapply frame_trans; [exact F4|].
    apply frame_lastReport. }
  split; [rewrite isObj_set; exact O3|].
  split.
  { intros k Hk. unfold untouched, touched in Hk. cbn [forallb] in Hk.
    repeat (apply andb_prop in Hk; destruct Hk as [? Hk]).
    repeat match goal with
           | H : negb _ = true |- _ => apply negb_true_iff in H
           end.
    unfold db3, db2, db1. repeat field_ne. reflexivity. }
  split.
  { field_ne. unfold db3. field_eq. rewrite map_map.
    unfold db2, db1. repeat field_ne. field_eq. repeat field_ne. reflexivity. }
  field_ne. unfold db3. field_ne. unfold db2. repeat field_ne. field_eq.
  unfold db1. repeat field_ne. reflexivity.
Qed.

(* ================================================================== *)
(** * What every operation leaves alone *)
(* ================================================================== *)

(** The parts of the host no operation writes: the quota, the clock and
    the random source, the signed-in user, the configuration. *)
Definition sameHost (w w' : World) : Prop :=
  quota w' = quota w /\ clock w' = clock w /\ random w' = random w
  /\ user w' = user w /\ storageKey w' = storageKey w
  /\ maxSnapshots w' = maxSnapshots w /\ cooldownMs w' = cooldownMs w.

Definition preserving {A} (m : M A) : Prop :=
  forall w, sameHost w (worldOf (m w)).

Lemma sameHost_refl (w : World) : sameHost w w.
Proof. repeat split. Qed.

Lemma sameHost_trans (w1 w2 w3 : World) :
  sameHost w1 w2 -> sameHost w2 w3 -> sameHost w1 w3.
Proof.
  unfold sameHost. intros H1 H2.
  repeat match goal with H : _ /\ _ |- _ => destruct H end.
  repeat split; congruence.
Qed.

Lemma frame_sameHost (w w' : World) : frame w w' -> sameHost w w'.
Proof.
  unfold frame, sameHost. intros H.
  repeat match goal with H : _ /\ _ |- _ => destruct H end.
  repeat split; assumption.
Qed.

Lemma preserving_ret {A} (a : A) : preserving (ret a).
Proof. intros w. apply sameHost_refl. Qed.

Lemma preserving_throw {A} (e : Exn) : preserving (@throw A e).
Proof. intros w. apply sameHost_refl. Qed.

Lemma preserving_bind {A B} (m : M A) (k : A -> M B) :
  preserving m -> (forall a, preserving (k a)) -> preserving (bind m k).
Proof.
  intros Hm Hk w. unfold bind. specialize (Hm w).
  destruct (m w) as [a w1|e w1]; cbn [worldOf] in *; [|exact Hm].
  eapply sameHost_trans; [exact Hm | apply Hk].
Qed.

Lemma preserving_tryCatch {A} (m : M A) (h : Exn -> M A) :
  preserving m -> (forall e, preserving (h e)) -> preserving (tryCatch m h).
Proof.
  intros Hm Hh w. unfold tryCatch. specialize (Hm w).
  destruct (m w) as [a w1|e w1]; cbn [worldOf] in *; [exact Hm|].
  eapply sameHost_trans; [exact Hm | apply Hh].
Qed.

Lemma preserving_gets {A} (f : World -> A) : preserving (gets f).
Proof. intros w. apply sameHost_refl. Qed.

Lemma preserving_modify (f : World -> World) :
  (forall w, sameHost w (f w)) -> preserving (modify f).
Proof. intros H w. apply H. Qed.

Lemma preserving_getItem (k : string) : preserving (getItem k).
Proof. intros w. apply sameHost_refl. Qed.

Lemma preserving_setItem (k : string) (r : Raw) : preserving (setItem k r).
Proof.
  intros w. unfold setItem. destruct (quota w k r); repeat split.
Qed.

Lemma preserving_removeItem (k : string) : preserving (removeItem k).
Proof. intros w. repeat split. Qed.

Lemma preserving_dateNow : preserving dateNow.
Proof. intros w. repeat split. Qed.

Lemma preserving_nowIso : preserving nowIso.
Proof. intros w. repeat split. Qed.

Lemma preserving_randomHex : preserving randomHex.
Proof. intros w. repeat split. Qed.

Lemma preserving_if {A} (c : bool) (m1 m2 : M A) :
  preserving m1 -> preserving m2 -> preserving (if c then m1 else m2).
Proof. destruct c; auto. Qed.

Lemma preserving_mapM {A B} (f : A -> M B) (l : list A) :
  (forall a, preserving (f a)) -> preserving (mapM f l).
Proof.
  intros Hf. induction l as [|x r IH]; cbn [mapM].
  - apply preserving_ret.
  - apply preserving_bind; [apply Hf|]. intros y.
    apply preserving_bind; [exact IH|]. intros ys. apply preserving_ret.
Qed.

Create HintDb preserving.
#[export] Hint Resolve preserving_ret preserving_throw preserving_gets
  preserving_getItem preserving_setItem preserving_removeItem
  preserving_dateNow preserving_nowIso preserving_randomHex : preserving.

(** Decomposes a program along its binds and branches. *)
Ltac preserve_step :=
  lazymatch goal with
  | |- preserving (bind _ _) => apply preserving_bind; [|intros]
  | |- preserving (tryCatch _ _) => apply preserving_tryCatch; [|intros]
  | |- preserving (mapM _ _) => apply preserving_mapM; intros
  | |- preserving (modify _) => apply preserving_modify; intros; repeat split
  | |- preserving (if _ then _ else _) => apply preserving_if
  | |- preserving (match ?x with _ => _ end) => destruct x
  | |- preserving (let _ := _ in _) => cbv zeta
  | |- preserving _ => solve [auto with preserving]
  end.

Ltac preserve := repeat preserve_step.

Lemma preserving_uid (prefix : string) : preserving (uid prefix).
Proof. unfold uid. preserve. Qed.

Lemma preserving_defaultDB : preserving Schema.defaultDB.
Proof. unfold Schema.defaultDB. preserve. Qed.

Lemma preserving_normSale (v : JValue) : preserving (normSale v).
Proof. unfold normSale. preserve. Qed.

Lemma preserving_normalizeDB (db : JValue) : preserving (normalizeDB db).
Proof.
  unfold normalizeDB. pose proof preserving_defaultDB. pose proof preserving_normSale.
  preserve.
Qed.

Lemma preserving_loadSnapshots (key : string) : preserving (Backup.loadSnapshots key).
Proof. unfold Backup.loadSnapshots. preserve. Qed.

Lemma preserving_createSnapshot (key : string) (db : JValue) (cap : option nat) :
  preserving (Backup.createSnapshot key db cap).
Proof.
  unfold Backup.createSnapshot, Backup.saveSnapshots.
  pose proof preserving_loadSnapshots. preserve.
Qed.

Lemma preserving_setRecovery (a : bool) (why : string) (det : JValue) :
  preserving (DbCore.setRecovery a why det).
Proof. unfold DbCore.setRecovery. preserve. Qed.

Lemma preserving_safeSave (db : JValue) (force skip : bool) :
  preserving (DbCore.safeSave db force skip).
Proof.
  unfold DbCore.safeSave, DbCore.safeSaveBody, DbCore.safeSaveFailed.
  pose proof preserving_normalizeDB. pose proof preserving_createSnapshot.
  pose proof preserving_setRecovery. preserve.
Qed.

Lemma preserving_get : preserving DbCore.get.
Proof.
  unfold DbCore.get.
  pose proof preserving_normalizeDB. pose proof preserving_defaultDB.
  pose proof preserving_setRecovery. pose proof preserving_safeSave. preserve.
Qed.

(* ================================================================== *)
(** * Reading and writing the database when the storage accepts writes *)
(* ================================================================== *)

(** No write exceeds the quota. *)
Definition calm (w : World) : Prop := forall k r, quota w k r = false.

Lemma calm_sameHost (w w' : World) : sameHost w w' -> calm w -> calm w'.
Proof. intros (Hq & _) Hc k r. rewrite Hq. apply Hc. Qed.

Lemma append_length (s1 s2 : string) :
  String.length (s1 ++ s2) = (String.length s1 + String.length s2)%nat.
Proof. induction s1 as [|c r IH]; cbn; [reflexivity | rewrite IH; reflexivity]. Qed.

Lemma eqb_append_self (k s : string) :
  s <> EmptyString -> String.eqb (k ++ s) k = false.
Proof.
  intros Hs. apply String.eqb_neq. intros H.
  apply (f_equal String.length) in H. rewrite append_length in H.
  destruct s; [congruence | cbn in H; lia].
Qed.

Lemma eqb_self_append (k s : string) :
  s <> EmptyString -> String.eqb k (k ++ s) = false.
Proof. intros Hs. rewrite String.eqb_sym. apply eqb_append_self. exact Hs. Qed.

Lemma append_inj_l (k s1 s2 : string) : k ++ s1 = k ++ s2 -> s1 = s2.
Proof. induction k as [|c r IH]; cbn; intros H; [exact H | inversion H; auto]. Qed.

Lemma setItem_calm (k : string) (r : Raw) (w : World) :
  calm w ->
  setItem k r w
  = Ok tt (with_ls (fun k' => if String.eqb k' k then Some r else ls w k') w).
Proof. intros Hc. unfold setItem. rewrite Hc. reflexivity. Qed.

Lemma createSnapshot_calm (key : string) (db : JValue) (cap : option nat)
    (w : World) :
  calm w ->
  exists id w',
    Backup.createSnapshot key db cap w = Ok id w'
    /\ sameHost w w'
    /\ (forall k, String.eqb k (Backup.snapKey key) = false -> ls w' k = ls w k).
Proof.
  intros Hc.
  pose proof (preserving_createSnapshot key db cap w) as Hp.
  unfold Backup.createSnapshot in *.
  destruct (SnapshotFacts.loadSnapshots_run key w) as [l0 Hl0].
  eexists. eexists. split.
  { eapply bind_step; [exact Hl0|].
    eapply bind_step; [apply dateNow_run|].
    eapply bind_step; [reflexivity|].
    eapply bind_step; [apply nowIso_run|].
    eapply bind_step.
    - unfold Backup.saveSnapshots. apply setItem_calm.
      intros k r. apply Hc.
    - reflexivity. }
  split.
  - repeat split.
  - intros k Hk. cbn [ls with_ls with_ticks with_draws]. rewrite Hk. reflexivity.
Qed.

Lemma document_obj (v : JValue) : isObj v = true -> document v = Doc v.
Proof. destruct v; try discriminate; reflexivity. Qed.

(** In a calm host safeSave writes the normalised database under the
    storage key. *)
Lemma safeSave_calm (db : JValue) (force : bool) (w : World) :
  calm w -> isObj db = true ->
  exists N w1 res w',
    normalizeDB db w = Ok N w1 /\ frame w w1
    /\ DbCore.safeSave db force false w = Ok res w'
    /\ DbCore.sv_ok res = true
    /\ ls w' (storageKey w) = Some (Doc N)
    /\ sameHost w w'.
Proof.
  intros Hc Hobj.
  destruct (normalizeDB_obj db w Hobj) as (N & w1 & HN & F1 & ON & _).
  pose proof (preserving_safeSave db force false w) as Hp.
  assert (Hc1 : calm w1) by (eapply calm_sameHost; [apply frame_sameHost|]; eassumption).
  assert (Hk : storageKey w1 = storageKey w) by apply F1.
  set (key := storageKey w) in *.
  set (tmpKey := (key ++ "__tmp")%string).
  set (w2 := with_ls (fun k' => if String.eqb k' tmpKey then Some (Doc N) else ls w1 k') w1).
  set (w3 := with_ls (fun k' => if String.eqb k' key then Some (Doc N) else ls w2 k') w2).
  set (w4 := with_ls (fun k' => if String.eqb k' tmpKey then None else ls w3 k') w3).
  assert (Hc4 : calm w4) by (intros k r; apply Hc1).
  set (w5 := with_ticks (S (ticks w4)) w4).
  assert (Hc5 : calm w5) by (intros k r; apply Hc1).
  destruct (createSnapshot_calm key N (Some (maxSnapshots w5)) w5 Hc5)
    as (sid & w6 & Hsnap & S6 & L6).
  assert (Hbody : exists res w',
             DbCore.safeSaveBody db force false w = Ok res w'
             /\ DbCore.sv_ok res = true /\ ls w' key = Some (Doc N)).
  { unfold DbCore.safeSaveBody.
    destruct (force || (cooldownMs w5 <=? clock w4 (ticks w4) - lastSnapshotAt w5)%Z) eqn:Hsn.
    - eexists. eexists. split.
      { eapply bind_step; [exact HN|].
        eapply bind_step; [reflexivity|]. rewrite Hk. fold key.
        cbv zeta. fold tmpKey.
        eapply bind_step; [rewrite (document_obj N ON); apply setItem_calm; exact Hc1|].
        eapply bind_step; [reflexivity|].
        fold w2. cbn [ls with_ls w2]. rewrite String.eqb_refl.
        eapply bind_step; [apply setItem_calm; intros k r; apply Hc1|].
        fold w3.
        eapply bind_step; [reflexivity|]. fold w4.
        eapply bind_step; [apply dateNow_run|]. fold w5.
        eapply bind_step; [reflexivity|].
        eapply bind_step; [reflexivity|].
        eapply bind_step; [reflexivity|].
        rewrite Hsn.
        eapply bind_step.
        { eapply bind_step; [exact Hsnap|].
          eapply bind_step; [reflexivity|]. reflexivity. }
        eapply bind_step; [reflexivity|]. reflexivity. }
      split; [reflexivity|].
      cbn [ls with_lastSnapshotAt]. rewrite L6.
      + cbn [ls with_ticks with_ls w5 w4 w3]. unfold tmpKey.
        rewrite eqb_self_append by discriminate. rewrite String.eqb_refl. reflexivity.
      + unfold Backup.snapKey. rewrite eqb_self_append by discriminate. reflexivity.
    - eexists. eexists. split.
      { eapply bind_step; [exact HN|].
        eapply bind_step; [reflexivity|]. rewrite Hk. fold key.
        cbv zeta. fold tmpKey.
        eapply bind_step; [rewrite (document_obj N ON); apply setItem_calm; exact Hc1|].
        eapply bind_step; [reflexivity|].
        fold w2. cbn [ls with_ls w2]. rewrite String.eqb_refl.
        eapply bind_step; [apply setItem_calm; intros k r; apply Hc1|].
        fold w3.
        eapply bind_step; [reflexivity|]. fold w4.
        eapply bind_step; [apply dateNow_run|]. fold w5.
        eapply bind_step; [reflexivity|].
        eapply bind_step; [reflexivity|].
        eapply bind_step; [reflexivity|].
        rewrite Hsn.
        eapply bind_step; [reflexivity|].
        eapply bind_step; [reflexivity|]. reflexivity. }
      split; [reflexivity|].
      cbn [ls with_ticks with_ls w5 w4 w3]. unfold tmpKey.
      rewrite eqb_self_append by discriminate. rewrite String.eqb_refl. reflexivity. }
  destruct Hbody as (res & w' & Hb & Hok & Hls).
  exists N, w1, res, w'. split; [exact HN|]. split; [exact F1|].
  unfold DbCore.safeSave, tryCatch in *. rewrite Hb in *. cbn [worldOf] in Hp.
  repeat split; try assumption; apply Hp.
Qed.

(** What every database returned by normalizeDB satisfies, as far as the
    ledgers rely on it. *)
Definition normal (db : JValue) : Prop :=
  isObj db = true /\ isObj (get "caixa" db) = true.

Lemma isObj_objectOr (d v : JValue) : isObj d = true -> isObj (objectOr d v) = true.
Proof. unfold objectOr. intros Hd. destruct (isObj v) eqn:E; assumption. Qed.

Lemma isObj_normCaixa (c : JValue) : isObj (normCaixa c) = true.
Proof.
  unfold normCaixa. rewrite !isObj_update. apply isObj_objectOr. reflexivity.
Qed.

Lemma normalizeDB_nonobj (db : JValue) (w : World) :
  isObj db = false ->
  exists t1 t2 w',
    normalizeDB db w = Ok (Schema.freshDB t1 t2) w' /\ frame w w'.
Proof.
  intros Hobj. unfold normalizeDB, Schema.defaultDB.
  eexists. eexists. eexists. split.
  { eapply bind_step; [apply nowIso_run|]. rewrite Hobj. cbn [negb].
    eapply bind_step.
    { eapply bind_step; [apply nowIso_run|].
      eapply bind_step; [apply nowIso_run|]. reflexivity. }
    eapply bind_step; [reflexivity|]. reflexivity. }
  repeat split.
Qed.

Lemma normalizeDB_normal (db N : JValue) (w w' : World) :
  normalizeDB db w = Ok N w' -> normal N.
Proof.
  intros H. destruct (isObj db) eqn:Hobj.
  - destruct (normalizeDB_obj db w Hobj) as (N' & w2 & HN & _ & ON & _ & _ & Hcx).
    rewrite HN in H. inversion H; subst. split; [exact ON|].
    rewrite Hcx. apply isObj_normCaixa.
  - destruct (normalizeDB_nonobj db w Hobj) as (t1 & t2 & w2 & HN & _).
    rewrite HN in H. inversion H; subst. split; reflexivity.
Qed.

Lemma get_doc (v : JValue) (w : World) :
  ls w (storageKey w) = Some (Doc v) -> DbCore.get w = normalizeDB v w.
Proof.
  intros H. unfold DbCore.get.
  eapply bind_step; [reflexivity|].
  eapply bind_step; [reflexivity|].
  rewrite H. reflexivity.
Qed.

Lemma defaultDB_run (w : World) :
  exists t1 t2 w', Schema.defaultDB w = Ok (Schema.freshDB t1 t2) w' /\ frame w w'.
Proof.
  unfold Schema.defaultDB. eexists. eexists. eexists. split.
  { eapply bind_step; [apply nowIso_run|].
    eapply bind_step; [apply nowIso_run|]. reflexivity. }
  repeat split.
Qed.

Lemma get_normal (db : JValue) (w w1 : World) :
  DbCore.get w = Ok db w1 -> normal db.
Proof.
  unfold DbCore.get. intros H.
  apply bind_inv in H. destruct H as (key & w0 & Hk & H).
  apply bind_inv in H. destruct H as (raw & w0' & Hr & H).
  destruct raw as [r|].
  2:{ destruct (defaultDB_run w0') as (t1 & t2 & w2 & Hd & _).
      rewrite Hd in H. inversion H; subst. split; reflexivity. }
  destruct (rawEmpty r).
  { destruct (defaultDB_run w0') as (t1 & t2 & w2 & Hd & _).
    rewrite Hd in H. inversion H; subst. split; reflexivity. }
  destruct (parseRaw r) as [v|].
  { eapply normalizeDB_normal. exact H. }
  apply bind_inv in H. destruct H as (u & w2 & _ & H).
  apply bind_inv in H. destruct H as (d & w3 & Hd & H).
  apply bind_inv in H. destruct H as (sr & w4 & _ & H).
  unfold ret in H. inversion H; subst.
  destruct (defaultDB_run w2) as (t1 & t2 & w5 & Hd' & _).
  rewrite Hd' in Hd. inversion Hd; subst. split; reflexivity.
Qed.

Lemma get_sameHost (db : JValue) (w w1 : World) :
  DbCore.get w = Ok db w1 -> sameHost w w1.
Proof.
  intros H. pose proof (preserving_get w) as Hp. rewrite H in Hp. exact Hp.
Qed.

Local Open Scope Z_scope.

(** ** Integers among the numbers *)

Lemma pow10_0 : pow10 0 = 1.
Proof. reflexivity. Qed.

Lemma add_int (a b : Z) : Num.add (int a) (int b) = int (a + b).
Proof. unfold Num.add, int. cbn [Nat.max Nat.sub]. rewrite pow10_0. f_equal. lia. Qed.

Lemma neg_int (a : Z) : Num.neg (int a) = int (- a).
Proof. reflexivity. Qed.


Lemma sub_int (a b : Z) : Num.sub (int a) (int b) = int (a - b).
Proof. unfold Num.sub. rewrite neg_int, add_int. f_equal. Qed.

Lemma trunc_int (a : Z) : trunc (int a) = int a.
Proof. unfold trunc, int. rewrite pow10_0, Z.quot_1_r. reflexivity. Qed.

Lemma ltb_int (a b : Z) : Num.ltb (int a) (int b) = (a <? b).
Proof.
  unfold Num.ltb, Num.cmp, int. cbn [Nat.max Nat.sub]. rewrite pow10_0, !Z.mul_1_r.
  unfold Z.ltb. destruct (a ?= b); reflexivity.
Qed.

Lemma gtb_int (a b : Z) : Num.gtb (int a) (int b) = (b <? a).
Proof. apply ltb_int. Qed.

Lemma leb_int (a b : Z) : Num.leb (int a) (int b) = (a <=? b).
Proof.
  unfold Num.leb, Num.cmp, int. cbn [Nat.max Nat.sub]. rewrite pow10_0, !Z.mul_1_r.
  unfold Z.leb. destruct (a ?= b); reflexivity.
Qed.

Lemma toZ_int (z : Z) : toZ (int z) = z.
Proof. unfold toZ. rewrite trunc_int. reflexivity. Qed.

(** asInt with an integer default returns an integer. *)
Lemma asInt_int (x : JValue) (d : Z) : asInt x (int d) = int (toZ (asInt x (int d))).
Proof.
  unfold asInt.
  destruct (asNum x (int d)) as [| |m e] eqn:En; cbn [trunc isFinite].
  - rewrite toZ_int. reflexivity.
  - rewrite toZ_int. reflexivity.
  - fold (int (m ÷ pow10 e)). rewrite toZ_int. reflexivity.
Qed.

Lemma asInt_of_int (z d : Z) : asInt (JNum (int z)) (int d) = int z.
Proof. unfold asInt, asNum. cbn [isFinite int]. apply trunc_int. Qed.

(** ** Finding and updating one record *)


Lemma find_updateFirst (pred : JValue -> bool) (f : JValue -> JValue)
    (l : list JValue) (x : JValue) :
  find pred l = Some x -> pred (f x) = true ->
  find pred (updateFirst pred f l) = Some (f x).
Proof.
  induction l as [|y r IH]; cbn; [discriminate|].
  destruct (pred y) eqn:E.
  - intros H Hf. inversion H; subst. cbn. rewrite Hf. reflexivity.
  - intros H Hf. cbn. rewrite E. apply IH; assumption.
Qed.


Lemma In_updateFirst (pred : JValue -> bool) (f : JValue -> JValue)
    (l : list JValue) (y : JValue) :
  In y (updateFirst pred f l) -> In y l \/ exists x, In x l /\ pred x = true /\ y = f x.
Proof.
  induction l as [|x r IH]; cbn; [tauto|].
  destruct (pred x) eqn:E; cbn.
  - intros [H|H]; [right; exists x; auto | left; auto].
  - intros [H|H]; [left; auto|].
    destruct (IH H) as [H'|(x' & H1 & H2 & H3)]; [left; auto|].
    right. exists x'. auto.
Qed.

(** ** Persisting an updated database *)

Lemma persist_spec (db : JValue) (r : JValue) (w : World) :
  calm w -> isObj db = true ->
  exists N w',
    (DbCore.safeSave db false false ;;; ret r) w = Ok r w'
    /\ ls w' (storageKey w') = Some (Doc N) /\ sameHost w w'
    /\ isObj N = true
    /\ (forall k, untouched k = true -> get k N = get k db)
    /\ get "estoque" N
       = JArr (map (fun p => fst (normProduct p)) (items (arrayOr (get "estoque" db))))
    /\ get "caixa" N = normCaixa (get "caixa" db).
Proof.
  intros Hc Hobj.
  destruct (safeSave_calm db false w Hc Hobj)
    as (N & w1 & res & w' & HN & F1 & Hs & Hok & Hls & Hsame).
  destruct (normalizeDB_obj db w Hobj) as (N' & w1' & HN' & _ & ON & Hk & He & Hcx).
  rewrite HN in HN'. inversion HN'; subst N' w1'.
  exists N, w'. split.
  { eapply bind_step; [exact Hs|]. reflexivity. }
  assert (Hkey : storageKey w' = storageKey w) by apply Hsame.
  rewrite Hkey.
  split; [exact Hls|]. split; [exact Hsame|]. split; [exact ON|].
  split; [exact Hk|]. split; [exact He | exact Hcx].
Qed.

(* ================================================================== *)
(** * Running the ledgers *)
(* ================================================================== *)

Lemma uid_run (prefix : string) (w : World) :
  uid prefix w
  = Ok (prefix ++ "_" ++ showInt (clock w (ticks w)) ++ "_" ++ random w (draws w))
       (with_draws (S (draws w)) (with_ticks (S (ticks w)) w)).
Proof. reflexivity. Qed.

Lemma outcome_eta {A} (o : Outcome A) (a : A) :
  result o = Some a -> o = Ok a (worldOf o).
Proof. destruct o; cbn; intros H; inversion H; reflexivity. Qed.

(** What [DbCore.get] hands out on a host. *)
Definition readOf (w : World) : JValue :=
  match result (DbCore.get w) with Some d => d | None => JUndefined end.


Lemma calm_quietWorld : calm quietWorld.
Proof. intros k r. reflexivity. Qed.


(* ================================================================== *)
(** * The cash ledger *)
(* ================================================================== *)

Module CashFacts.
Import Cashier.

(** The open-session pointer and the sessions, as the operations see
    them. *)
Definition pointer (db : JValue) : JValue :=
  or_else (get "currentSessionId" (get "caixa" db)) JNull.

Definition sessions (db : JValue) : list JValue :=
  items (arrayOr (get "cashSessions" db)).

Lemma ensureCaixa_obj (c : JValue) :
  isObj c = true ->
  ensureCaixa c
  = update "currentSessionId" (fun i => or_else i JNull)
      (update "aberto" (fun a => JBool (truthy a)) c).
Proof.
  intros Hc. unfold ensureCaixa.
  rewrite (isObj_truthy c Hc), (isObj_typeofObject c Hc). reflexivity.
Qed.

Lemma isObj_ensureCaixa (c : JValue) : isObj c = true -> isObj (ensureCaixa c) = true.
Proof. intros Hc. rewrite (ensureCaixa_obj c Hc), !isObj_update. exact Hc. Qed.

Lemma ensure_facts (db : JValue) :
  normal db ->
  isObj (ensureCollections db) = true
  /\ get "cashSessions" (ensureCollections db) = arrayOr (get "cashSessions" db)
  /\ get "caixa" (ensureCollections db) = ensureCaixa (get "caixa" db)
  /\ get "currentSessionId" (get "caixa" (ensureCollections db)) = pointer db
  /\ get "aberto" (get "caixa" (ensureCollections db))
     = JBool (truthy (get "aberto" (get "caixa" db))).
Proof.
  intros [Hobj Hcx]. unfold ensureCollections.
  assert (H1 : get "caixa" (update "caixa" ensureCaixa (update "cashSessions" arrayOr db))
               = ensureCaixa (get "caixa" db)).
  { field_eq. field_ne. reflexivity. }
  split; [rewrite !isObj_update; exact Hobj|].
  split; [field_ne; field_eq; reflexivity|].
  split; [exact H1|].
  rewrite H1, (ensureCaixa_obj _ Hcx).
  split.
  - field_eq. field_ne. reflexivity.
  - field_ne. field_eq. reflexivity.
Qed.

Lemma or_else_idem (a : JValue) : or_else (or_else a JNull) JNull = or_else a JNull.
Proof. unfold or_else. destruct (truthy a) eqn:E; [rewrite E|]; reflexivity. Qed.

Lemma currentSession_ensure (db : JValue) :
  normal db ->
  currentSession (ensureCollections db)
  = if truthy (pointer db) then find (hasId (pointer db)) (sessions db) else None.
Proof.
  intros Hn. destruct (ensure_facts db Hn) as (HE & Hs & Hc & Hp & Ha).
  assert (Hn' : normal (ensureCollections db)).
  { split; [exact HE|]. rewrite Hc. apply isObj_ensureCaixa. apply Hn. }
  destruct (ensure_facts _ Hn') as (_ & Hs' & _ & Hp' & _).
  unfold currentSession. rewrite Hp', Hs'.
  unfold pointer at 1 2. rewrite Hp. unfold pointer. rewrite or_else_idem.
  rewrite Hs, arrayOr_idem. fold (pointer db). fold (sessions db).
  destruct (truthy (pointer db)); reflexivity.
Qed.


(** What a movement does to the persisted database. *)
Lemma addMovement_spec (type : string) (amount_c : jsnum) (meta : JValue)
    (w w1 : World) (db sess : JValue) :
  calm w ->
  DbCore.get w = Ok db w1 ->
  currentSession (ensureCollections db) = Some sess ->
  isArray (get "movements" sess) = true ->
  exists id atIso N w',
    let mv := movement id atIso type amount_c meta in
    addMovement type amount_c meta w
    = Ok (JObj [("ok", JBool true); ("movementId", JStr id);
                ("expected_c", get "expected_c" (withMovement mv sess))]) w'
    /\ ls w' (storageKey w') = Some (Doc N) /\ sameHost w w' /\ isObj N = true
    /\ get "cashSessions" N
       = JArr (updateFirst (hasId (pointer db)) (withMovement mv) (sessions db))
    /\ get "caixa" N = normCaixa (ensureCaixa (get "caixa" db)).
Proof.
  intros Hc Hget Hcur Harr.
  pose proof (get_normal _ _ _ Hget) as Hn.
  pose proof (get_sameHost _ _ _ Hget) as S1.
  destruct (ensure_facts db Hn) as (HE & Hs & Hcx & Hp & Ha).
  set (w2 := with_draws (S (draws w1)) (with_ticks (S (ticks w1)) w1)).
  set (w3 := with_ticks (S (ticks w2)) w2).
  set (id := ("cm" ++ "_" ++ showInt (clock w1 (ticks w1)) ++ "_" ++ random w1 (draws w1))%string).
  set (atIso := toISOString (clock w2 (ticks w2))).
  set (mv := movement id atIso type amount_c meta).
  set (db' := update "cashSessions"
                (fun a => JArr (updateFirst (hasId (pointer db)) (withMovement mv) (items a)))
                (ensureCollections db)).
  assert (Hc3 : calm w3).
  { eapply calm_sameHost; [|exact Hc].
    eapply sameHost_trans; [exact S1|]. repeat split. }
  assert (O' : isObj db' = true) by (unfold db'; rewrite isObj_update; exact HE).
  destruct (persist_spec db'
              (JObj [("ok", JBool true); ("movementId", JStr id);
                     ("expected_c", get "expected_c" (withMovement mv sess))])
              w3 Hc3 O')
    as (N & w' & Hrun & Hls & S3 & ON & Hk & _ & HNc).
  exists id, atIso, N, w'. cbv zeta. fold mv.
  split.
  { unfold addMovement.
    eapply bind_step; [exact Hget|]. cbv zeta.
    rewrite Hcur.
    eapply bind_step; [apply uid_run|].
    eapply bind_step; [apply nowIso_run|].
    fold w2. fold atIso. fold id. fold mv.
    rewrite Harr. cbn [negb]. rewrite Hp. exact Hrun. }
  split; [exact Hls|].
  split.
  { eapply sameHost_trans; [exact S1|].
    eapply sameHost_trans; [|exact S3]. repeat split. }
  split; [exact ON|].
  split.
  - rewrite Hk by reflexivity. unfold db'. field_eq. rewrite Hs. reflexivity.
  - rewrite HNc. unfold db'. field_ne. rewrite Hcx. reflexivity.
Qed.

Lemma withMovement_facts (mv sess : JValue) :
  isObj sess = true ->
  isObj (withMovement mv sess) = true
  /\ get "id" (withMovement mv sess) = get "id" sess
  /\ get "movements" (withMovement mv sess)
     = JArr (List.app (items (get "movements" sess)) [mv])
  /\ get "expected_c" (withMovement mv sess)
     = JNum (Num.add (asInt (get "expected_c" sess) (int 0))
                     (ToNumber (get "amount_c" mv))).
Proof.
  intros Hs. unfold withMovement, push.
  split; [rewrite !isObj_update; exact Hs|].
  split; [repeat field_ne; reflexivity|].
  split; [field_ne; field_eq; reflexivity|].
  field_eq. field_ne. reflexivity.
Qed.




(** ** Opening and closing *)




(** A host whose storage refuses every write. *)
Definition refusing (w : World) : World :=
  {| ls := ls w; quota := fun _ _ => true;
     clock := clock w; ticks := ticks w;
     random := random w; draws := draws w; user := user w;
     storageKey := storageKey w; maxSnapshots := maxSnapshots w;
     cooldownMs := cooldownMs w; lastSnapshotAt := lastSnapshotAt w;
     recovery := recovery w; lastReport := lastReport w |}.


Lemma objectOr_obj (d c : JValue) : isObj c = true -> objectOr d c = c.
Proof. unfold objectOr. intros ->. reflexivity. Qed.

Lemma normCaixa_pointer (c : JValue) :
  isObj c = true ->
  get "currentSessionId" (normCaixa c) = get "currentSessionId" c
  /\ get "aberto" (normCaixa c) = JBool (truthy (get "aberto" c)).
Proof.
  intros Hc. unfold normCaixa. rewrite (objectOr_obj _ _ Hc).
  split.
  - repeat field_ne. reflexivity.
  - repeat field_ne. field_eq. reflexivity.
Qed.

(** The database read back after a write of [N]. *)
Lemma read_back (N : JValue) (w : World) :
  ls w (storageKey w) = Some (Doc N) -> isObj N = true ->
  exists db w1,
    DbCore.get w = Ok db w1
    /\ get "cashSessions" db = get "cashSessions" N
    /\ get "caixa" db = normCaixa (get "caixa" N)
    /\ get "estoque" db
       = JArr (map (fun p => fst (normProduct p)) (items (arrayOr (get "estoque" N)))).
Proof.
  intros Hls ON.
  destruct (normalizeDB_obj N w ON) as (db & w1 & HN & _ & _ & Hk & He & Hc).
  exists db, w1. rewrite (get_doc N w Hls).
  split; [exact HN|]. split; [apply Hk; reflexivity|]. split; assumption.
Qed.

Lemma open_spec (initial_c note : JValue) (w w1 : World) (db : JValue) :
  calm w ->
  DbCore.get w = Ok db w1 ->
  truthy (get "aberto" (get "caixa" db)) = false ->
  exists atIso N w',
    let id := ("cs" ++ "_" ++ showInt (clock w1 (ticks w1)) ++ "_"
               ++ random w1 (draws w1))%string in
    let sess := session id atIso (user w1) initial_c note in
    open initial_c note w = Ok (JObj [("ok", JBool true); ("sessionId", JStr id)]) w'
    /\ ls w' (storageKey w') = Some (Doc N) /\ sameHost w w' /\ isObj N = true
    /\ get "cashSessions" N = JArr (List.app (sessions db) [sess])
    /\ get "caixa" N
       = normCaixa (set "currentSessionId" (JStr id)
                      (set "aberto" (JBool true) (ensureCaixa (get "caixa" db)))).
Proof.
  intros Hc Hget Hab.
  pose proof (get_normal _ _ _ Hget) as Hn.
  pose proof (get_sameHost _ _ _ Hget) as S1.
  destruct (ensure_facts db Hn) as (HE & Hs & Hcx & Hp & Ha).
  set (w2 := with_draws (S (draws w1)) (with_ticks (S (ticks w1)) w1)).
  set (w3 := with_ticks (S (ticks w2)) w2).
  set (id := ("cs" ++ "_" ++ showInt (clock w1 (ticks w1)) ++ "_" ++ random w1 (draws w1))%string).
  set (atIso := toISOString (clock w2 (ticks w2))).
  set (sess := session id atIso (user w1) initial_c note).
  set (db' := update "caixa" (set "currentSessionId" (JStr id))
                (update "caixa" (set "aberto" (JBool true))
                   (push "cashSessions" sess (ensureCollections db)))).
  assert (Hc3 : calm w3).
  { eapply calm_sameHost; [|exact Hc].
    eapply sameHost_trans; [exact S1|]. repeat split. }
  assert (O' : isObj db' = true)
    by (unfold db', push; rewrite !isObj_update; exact HE).
  destruct (persist_spec db' (JObj [("ok", JBool true); ("sessionId", JStr id)])
              w3 Hc3 O')
    as (N & w' & Hrun & Hls & S3 & ON & Hk & _ & HNc).
  exists atIso, N, w'. cbv zeta. fold id. fold sess.
  split.
  { unfold open.
    eapply bind_step; [exact Hget|]. cbv zeta.
    rewrite Ha, Hab. cbn [truthy].
    eapply bind_step; [reflexivity|].
    eapply bind_step; [apply uid_run|].
    eapply bind_step; [apply nowIso_run|].
    exact Hrun. }
  split; [exact Hls|].
  split.
  { eapply sameHost_trans; [exact S1|].
    eapply sameHost_trans; [|exact S3]. repeat split. }
  split; [exact ON|].
  split.
  - rewrite Hk by reflexivity. unfold db', push. repeat field_ne. field_eq.
    rewrite Hs. reflexivity.
  - rewrite HNc. unfold db', push. field_eq. field_eq. field_ne. rewrite Hcx.
    reflexivity.
Qed.

Lemma closed_facts (at_ : string) (u counted_c note sess : JValue) :
  isObj sess = true ->
  let c := toZ (asInt counted_c (int 0)) in
  let e := toZ (asInt (get "expected_c" sess) (int 0)) in
  isObj (closed at_ u counted_c note sess) = true
  /\ get "id" (closed at_ u counted_c note sess) = get "id" sess
  /\ get "expected_c" (closed at_ u counted_c note sess) = get "expected_c" sess
  /\ get "counted_c" (closed at_ u counted_c note sess) = JInt c
  /\ get "diff_c" (closed at_ u counted_c note sess) = JInt (c - e)
  /\ get "closedAtIso" (closed at_ u counted_c note sess) = JStr at_.
Proof.
  intros Hs c e. unfold closed.
  split; [rewrite isObj_update, !isObj_set; exact Hs|].
  split; [repeat field_ne; reflexivity|].
  split; [repeat field_ne; reflexivity|].
  split.
  { repeat field_ne. field_eq. rewrite (asInt_int counted_c 0). reflexivity. }
  split.
  { field_ne. field_eq. field_eq. repeat field_ne.
    rewrite (asInt_int counted_c 0). fold c.
    rewrite asInt_of_int.
    remember (toZ (asInt (get "expected_c" sess) (int 0))) as e0 eqn:He0.
    rewrite (asInt_int (get "expected_c" sess) 0), <- He0, sub_int.
    subst e. reflexivity. }
  repeat field_ne. field_eq. reflexivity.
Qed.

Lemma close_spec (counted_c note : JValue) (w w1 : World) (db sess : JValue) :
  calm w ->
  DbCore.get w = Ok db w1 ->
  currentSession (ensureCollections db) = Some sess ->
  exists atIso N w',
    let sess' := closed atIso (user w1) counted_c note sess in
    close counted_c note w
    = Ok (JObj [("ok", JBool true); ("sessionId", get "id" sess');
                ("expected_c", get "expected_c" sess');
                ("counted_c", get "counted_c" sess');
                ("diff_c", get "diff_c" sess')]) w'
    /\ ls w' (storageKey w') = Some (Doc N) /\ sameHost w w' /\ isObj N = true
    /\ get "cashSessions" N
       = JArr (updateFirst (hasId (pointer db))
                 (closed atIso (user w1) counted_c note) (sessions db))
    /\ get "caixa" N
       = normCaixa (set "currentSessionId" JNull
                      (set "aberto" (JBool false) (ensureCaixa (get "caixa" db)))).
Proof.
  intros Hc Hget Hcur.
  pose proof (get_normal _ _ _ Hget) as Hn.
  pose proof (get_sameHost _ _ _ Hget) as S1.
  destruct (ensure_facts db Hn) as (HE & Hs & Hcx & Hp & Ha).
  set (w2 := with_ticks (S (ticks w1)) w1).
  set (atIso := toISOString (clock w1 (ticks w1))).
  set (sess' := closed atIso (user w1) counted_c note sess).
  set (db' := update "caixa" (set "currentSessionId" JNull)
                (update "caixa" (set "aberto" (JBool false))
                   (update "cashSessions"
                      (fun a => JArr (updateFirst (hasId (pointer db))
                                        (closed atIso (user w1) counted_c note)
                                        (items a)))
                      (ensureCollections db)))).
  assert (Hc2 : calm w2).
  { eapply calm_sameHost; [|exact Hc].
    eapply sameHost_trans; [exact S1|]. repeat split. }
  assert (O' : isObj db' = true) by (unfold db'; rewrite !isObj_update; exact HE).
  destruct (persist_spec db'
              (JObj [("ok", JBool true); ("sessionId", get "id" sess');
                     ("expected_c", get "expected_c" sess');
                     ("counted_c", get "counted_c" sess');
                     ("diff_c", get "diff_c" sess')])
              w2 Hc2 O')
    as (N & w' & Hrun & Hls & S3 & ON & Hk & _ & HNc).
  exists atIso, N, w'. cbv zeta. fold sess'.
  split.
  { unfold close.
    eapply bind_step; [exact Hget|]. cbv zeta.
    rewrite Hcur.
    eapply bind_step; [reflexivity|].
    eapply bind_step; [apply nowIso_run|].
    fold atIso. fold sess'. rewrite Hp. exact Hrun. }
  split; [exact Hls|].
  split.
  { eapply sameHost_trans; [exact S1|].
    eapply sameHost_trans; [|exact S3]. repeat split. }
  split; [exact ON|].
  split.
  - rewrite Hk by reflexivity. unfold db'. repeat field_ne. field_eq.
    rewrite Hs. reflexivity.
  - rewrite HNc. unfold db'. field_eq. field_eq. field_ne. rewrite Hcx.
    reflexivity.
Qed.

(** What the next operation sees after a write whose caixa was the
    normalisation of [c]. *)
Lemma view_after (N c : JValue) (w : World) :
  ls w (storageKey w) = Some (Doc N) -> isObj N = true ->
  get "caixa" N = normCaixa c -> isObj c = true ->
  exists db w1,
    DbCore.get w = Ok db w1
    /\ pointer db = or_else (get "currentSessionId" c) JNull
    /\ sessions db = items (arrayOr (get "cashSessions" N))
    /\ get "caixa" db = normCaixa (normCaixa c).
Proof.
  intros Hls ON HNc Hc.
  destruct (read_back N w Hls ON) as (db & w1 & Hget & Hcs & Hcx & _).
  exists db, w1. split; [exact Hget|].
  unfold pointer, sessions. rewrite Hcx, Hcs, HNc.
  destruct (normCaixa_pointer c Hc) as [H1 _].
  destruct (normCaixa_pointer (normCaixa c) (isObj_normCaixa c)) as [H2 _].
  rewrite H2, H1. repeat split.
Qed.

Lemma ensureCaixa_pointer (c : JValue) :
  isObj c = true ->
  get "currentSessionId" (ensureCaixa c) = or_else (get "currentSessionId" c) JNull.
Proof.
  intros Hc. rewrite (ensureCaixa_obj c Hc). field_eq. field_ne. reflexivity.
Qed.

Lemma hasId_session (id at_ : string) (u i n : JValue) :
  hasId (JStr id) (session id at_ u i n) = true.
Proof.
  unfold hasId, session. cbn [truthy andb get lookup String.eqb Ascii.eqb Bool.eqb strictEq].
  apply String.eqb_refl.
Qed.

Lemma hasId_withMovement (id mv sess : JValue) :
  isObj sess = true -> hasId id sess = true -> hasId id (withMovement mv sess) = true.
Proof.
  intros Hs H. destruct (withMovement_facts mv sess Hs) as (Ho & Hi & _).
  unfold hasId in *. rewrite Hi, (isObj_truthy _ Ho).
  apply andb_prop in H. destruct H as [_ H]. rewrite H. reflexivity.
Qed.

(** The session with the id of [r] in the stored database [N]. *)
Definition storedSession (N r : JValue) : option JValue :=
  find (hasId (get "sessionId" r)) (items (get "cashSessions" N)).

Lemma closed_movements (at_ : string) (u counted_c note sess : JValue) :
  get "movements" (closed at_ u counted_c note sess) = get "movements" sess.
Proof. unfold closed. repeat field_ne. reflexivity. Qed.

(** C5, amended.  On a storage that accepts every write, from any
    database (one the engine reads as the embedding does) with no open cash
    session and no session that already carries the id generated for the
    new one: open with initial_c = 1000 succeeds, addSale of 500 brings
    expected_c to 1500, and close, for a counted amount within 10^15,
    records the counted amount in the stored session, computes and stores
    diff_c = counted_c - expected_c with expected_c = 1500 (0 when 1500 is
    counted, -100 when 1400 is counted), returns the three, and clears the
    open-session pointer of the persisted database; the stored session
    holds the one sale of 500. *)
Theorem cash_session_scenario (w w1 : World) (db saleId meta note : JValue) :
  calm w ->
  Exact.faithfulRaw (ls w (storageKey w)) ->
  DbCore.get w = Ok db w1 ->
  truthy (get "aberto" (get "caixa" db)) = false ->
  find (hasId (JStr ("cs" ++ "_" ++ showInt (clock w1 (ticks w1)) ++ "_"
                     ++ random w1 (draws w1))))
       (sessions db) = None ->
  exists r1 wa r2 wb,
    open (JInt 1000) note w = Ok r1 wa /\ get "ok" r1 = JBool true
    /\ addSale saleId (JInt 500) meta wa = Ok r2 wb
    /\ get "ok" r2 = JBool true /\ get "expected_c" r2 = JInt 1500
    /\ (forall counted_c note',
          Exact.shortDecimal (asNum counted_c (int 0)) = true ->
          exists r3 wc N sess3 mv,
            close counted_c note' wb = Ok r3 wc
            /\ get "ok" r3 = JBool true
            /\ get "expected_c" r3 = JInt 1500
            /\ get "counted_c" r3 = JInt (toZ (asInt counted_c (int 0)))
            /\ get "diff_c" r3 = JInt (toZ (asInt counted_c (int 0)) - 1500)
            /\ ls wc (storageKey wc) = Some (Doc N)
            /\ get "currentSessionId" (get "caixa" N) = JNull
            /\ get "aberto" (get "caixa" N) = JBool false
            /\ storedSession N r1 = Some sess3
            /\ get "initial_c" sess3 = JInt 1000
            /\ get "expected_c" sess3 = JInt 1500
            /\ get "counted_c" sess3 = JInt (toZ (asInt counted_c (int 0)))
            /\ get "diff_c" sess3 = JInt (toZ (asInt counted_c (int 0)) - 1500)
            /\ get "movements" sess3 = JArr [mv]
            /\ get "type" mv = JStr "venda" /\ get "amount_c" mv = JInt 500)
    /\ (exists r3 wc, close (JInt 1500) note wb = Ok r3 wc
                      /\ get "expected_c" r3 = JInt 1500
                      /\ get "diff_c" r3 = JInt 0)
    /\ (exists r3 wc, close (JInt 1400) note wb = Ok r3 wc
                      /\ get "diff_c" r3 = JInt (-100)).
Proof.
  intros Hc _ Hget Hab Hfresh.
  pose proof (get_normal _ _ _ Hget) as Hn.
  assert (Hcx0 : isObj (get "caixa" db) = true) by apply Hn.
  (* open *)
  destruct (open_spec (JInt 1000) note w w1 db Hc Hget Hab)
    as (at1 & N1 & wa & Hopen & Hls1 & S1 & ON1 & Hcs1 & Hcx1).
  cbv zeta in Hopen, Hcs1, Hcx1.
  set (id := ("cs" ++ "_" ++ showInt (clock w1 (ticks w1)) ++ "_"
              ++ random w1 (draws w1))%string) in *.
  set (sess := session id at1 (user w1) (JInt 1000) note) in *.
  set (X := set "currentSessionId" (JStr id)
              (set "aberto" (JBool true) (ensureCaixa (get "caixa" db)))) in *.
  assert (OE : isObj (ensureCaixa (get "caixa" db)) = true)
    by (apply isObj_ensureCaixa; exact Hcx0).
  assert (OX : isObj X = true) by (unfold X; rewrite !isObj_set; exact OE).
  assert (Hca : calm wa) by (eapply calm_sameHost; eassumption).
  destruct (view_after N1 X wa Hls1 ON1 Hcx1 OX)
    as (db2 & w2 & Hget2 & Hp2 & Hs2 & Hcx2).
  assert (HpX : or_else (get "currentSessionId" X) JNull = JStr id).
  { unfold X. field_eq. reflexivity. }
  rewrite HpX in Hp2. rewrite Hcs1 in Hs2. cbn [arrayOr isArray items] in Hs2.
  pose proof (get_normal _ _ _ Hget2) as Hn2.
  assert (Ht : truthy (JStr id) = true) by reflexivity.
  assert (Hh : hasId (JStr id) sess = true) by apply hasId_session.
  assert (Hcur2 : currentSession (ensureCollections db2) = Some sess).
  { rewrite (currentSession_ensure db2 Hn2), Hp2, Hs2, Ht.
    rewrite find_app, Hfresh. cbn [find]. rewrite Hh. reflexivity. }
  (* addSale *)
  set (mt := spread [("saleId", saleId)] meta).
  destruct (addMovement_spec "venda" (Num.abs (asInt (JInt 500) (int 0))) mt
              wa w2 db2 sess Hca Hget2 Hcur2 eq_refl)
    as (id2 & at2 & N2 & wb & Hsale & Hls2 & S2 & ON2 & Hcs2 & Hcx2').
  cbv zeta in Hsale, Hcs2.
  set (mv := movement id2 at2 "venda" (Num.abs (asInt (JInt 500) (int 0))) mt) in *.
  set (sess2 := withMovement mv sess) in *.
  assert (Os : isObj sess = true) by reflexivity.
  destruct (withMovement_facts mv sess Os) as (Os2 & Hi2 & Hm2 & He2).
  fold sess2 in Os2, Hi2, Hm2, He2.
  assert (Hexp2 : get "expected_c" sess2 = JInt 1500).
  { rewrite He2. reflexivity. }
  assert (Hini2 : get "initial_c" sess2 = JInt 1000).
  { unfold sess2, withMovement, push. repeat field_ne. reflexivity. }
  assert (Hcb : calm wb) by (eapply calm_sameHost; eassumption).
  assert (OY : isObj (ensureCaixa (get "caixa" db2)) = true)
    by (apply isObj_ensureCaixa; apply Hn2).
  destruct (view_after N2 _ wb Hls2 ON2 Hcx2' OY)
    as (db3 & w3 & Hget3 & Hp3 & Hs3 & Hcx3).
  rewrite (ensureCaixa_pointer _ (proj2 Hn2)), or_else_idem in Hp3.
  fold (pointer db2) in Hp3. rewrite Hp2 in Hp3.
  rewrite Hcs2, Hp2, Hs2 in Hs3. cbn [arrayOr isArray items] in Hs3.
  rewrite (updateFirst_app_miss _ _ _ _ Hfresh) in Hs3.
  cbn [updateFirst] in Hs3. rewrite Hh in Hs3. fold sess2 in Hs3.
  pose proof (get_normal _ _ _ Hget3) as Hn3.
  pose proof (hasId_withMovement _ mv sess Os Hh) as Hh2. fold sess2 in Hh2.
  assert (Hfind3 : find (hasId (JStr id)) (sessions db3) = Some sess2).
  { rewrite Hs3, find_app, Hfresh. cbn [find]. rewrite Hh2. reflexivity. }
  assert (Hcur3 : currentSession (ensureCollections db3) = Some sess2).
  { rewrite (currentSession_ensure db3 Hn3), Hp3, Ht. exact Hfind3. }
  (* close, for any counted amount *)
  assert (Hclose : forall counted_c note',
    exists r3 wc N sess3 mv,
      close counted_c note' wb = Ok r3 wc
      /\ get "ok" r3 = JBool true
      /\ get "expected_c" r3 = JInt 1500
      /\ get "counted_c" r3 = JInt (toZ (asInt counted_c (int 0)))
      /\ get "diff_c" r3 = JInt (toZ (asInt counted_c (int 0)) - 1500)
      /\ ls wc (storageKey wc) = Some (Doc N)
      /\ get "currentSessionId" (get "caixa" N) = JNull
      /\ get "aberto" (get "caixa" N) = JBool false
      /\ find (hasId (JStr id)) (items (get "cashSessions" N)) = Some sess3
      /\ get "initial_c" sess3 = JInt 1000
      /\ get "expected_c" sess3 = JInt 1500
      /\ get "counted_c" sess3 = JInt (toZ (asInt counted_c (int 0)))
      /\ get "diff_c" sess3 = JInt (toZ (asInt counted_c (int 0)) - 1500)
      /\ get "movements" sess3 = JArr [mv]
      /\ get "type" mv = JStr "venda" /\ get "amount_c" mv = JInt 500).
  { intros counted_c note'.
    destruct (close_spec counted_c note' wb w3 db3 sess2 Hcb Hget3 Hcur3)
      as (at3 & N3 & wc & Hcl & Hls3 & S3 & ON3 & Hcs3 & Hcx3').
    cbv zeta in Hcl.
    destruct (closed_facts at3 (user w3) counted_c note' sess2 Os2)
      as (Oc & Hci & Hce & Hcc & Hcd & _).
    rewrite Hexp2 in Hcd. change (toZ (asInt (JInt 1500) (int 0))) with 1500 in Hcd.
    eexists. exists wc, N3, (closed at3 (user w3) counted_c note' sess2), mv.
    split; [exact Hcl|].
    cbn [get lookup String.eqb Ascii.eqb Bool.eqb].
    split; [reflexivity|]. split; [rewrite Hce; exact Hexp2|].
    split; [exact Hcc|]. split; [exact Hcd|]. split; [exact Hls3|].
    rewrite Hcx3'.
    set (Z3 := set "currentSessionId" JNull
                 (set "aberto" (JBool false) (ensureCaixa (get "caixa" db3)))).
    assert (OE3 : isObj (ensureCaixa (get "caixa" db3)) = true)
      by (apply isObj_ensureCaixa; apply Hn3).
    assert (OZ : isObj Z3 = true) by (unfold Z3; rewrite !isObj_set; exact OE3).
    destruct (normCaixa_pointer Z3 OZ) as [H1 H2]. rewrite H1, H2.
    unfold Z3. split; [field_eq; reflexivity|].
    split; [field_ne; field_eq; reflexivity|].
    split.
    { rewrite Hcs3, Hp3. cbn [items].
      apply find_updateFirst; [exact Hfind3|].
      unfold hasId in *. rewrite Hci, (isObj_truthy _ Oc).
      apply andb_prop in Hh2. destruct Hh2 as [_ Hh2]. rewrite Hh2. reflexivity. }
    split.
    { unfold closed. repeat field_ne. exact Hini2. }
    split; [rewrite Hce; exact Hexp2|].
    split; [exact Hcc|]. split; [exact Hcd|].
    split; [rewrite closed_movements, Hm2; reflexivity|].
    split; reflexivity. }
  eexists. exists wa. eexists. exists wb.
  split; [exact Hopen|]. split; [reflexivity|].
  split; [exact Hsale|]. split; [reflexivity|].
  split; [cbn [get lookup String.eqb Ascii.eqb Bool.eqb]; exact Hexp2|].
  split.
  { intros counted_c note' _. unfold storedSession.
    cbn [get lookup String.eqb Ascii.eqb Bool.eqb]. apply Hclose. }
  split.
  - destruct (Hclose (JInt 1500) note)
      as (r3 & wc & N & s3 & m3 & H1 & _ & H2 & _ & H3 & _).
    exists r3, wc. auto.
  - destruct (Hclose (JInt 1400) note)
      as (r3 & wc & N & s3 & m3 & H1 & _ & _ & _ & H3 & _).
    exists r3, wc. auto.
Qed.

Lemma cash_session_scenario_witness :
  exists r1 wa r2 wb,
    open (JInt 1000) JUndefined quietWorld = Ok r1 wa /\ get "ok" r1 = JBool true
    /\ addSale (JStr "s1") (JInt 500) JUndefined wa = Ok r2 wb
    /\ get "ok" r2 = JBool true /\ get "expected_c" r2 = JInt 1500
    /\ (exists r3 wc N sess3,
          close (JInt 1400) JUndefined wb = Ok r3 wc
          /\ get "diff_c" r3 = JInt (-100)
          /\ ls wc (storageKey wc) = Some (Doc N)
          /\ get "currentSessionId" (get "caixa" N) = JNull
          /\ storedSession N r1 = Some sess3
          /\ get "counted_c" sess3 = JInt 1400
          /\ get "diff_c" sess3 = JInt (-100)).
Proof.
  destruct (cash_session_scenario quietWorld (worldOf (DbCore.get quietWorld))
              (readOf quietWorld) (JStr "s1") JUndefined JUndefined)
    as (r1 & wa & r2 & wb & H1 & H2 & H3 & H4 & H5 & Hcl & _).
  - exact calm_quietWorld.
  - exact I.
  - apply outcome_eta. vm_compute. reflexivity.
  - vm_compute. reflexivity.
  - vm_compute. reflexivity.
  - exists r1, wa, r2, wb.
    split; [exact H1|]. split; [exact H2|]. split; [exact H3|].
    split; [exact H4|]. split; [exact H5|].
    destruct (Hcl (JInt 1400) JUndefined eq_refl)
      as (r3 & wc & N & s3 & m3 & Ha & _ & _ & _ & Hd & Hls & Hp & _ & Hs & _ & _
          & Hc3 & Hd3 & _).
    exists r3, wc, N, s3.
    split; [exact Ha|]. split; [exact Hd|]. split; [exact Hls|].
    split; [exact Hp|]. split; [exact Hs|]. split; [exact Hc3 | exact Hd3].
Defined.

(** A stored database whose only session carries the id that the sample
    host generates next. *)
Definition twinDb : JValue :=
  JObj [("cashSessions",
         JArr [JObj [("id", JStr "cs_1762128000003_a1b2c3");
                     ("expected_c", JInt 7); ("movements", JArr [])]])].

(** The scenario of C5 where it does not give 1500: on a storage that
    refuses every write open answers ok and the sale that follows finds no
    open register, since the operations do not look at what safeSave
    returns; and where a stored session already carries the generated id,
    the sale is added to that session. *)
Lemma cash_scenario_not_reached :
  (let o1 := open (JInt 1000) JUndefined (refusing quietWorld) in
   let o2 := addSale (JStr "s1") (JInt 500) JUndefined (worldOf o1) in
   let o3 := close (JInt 1500) JUndefined (worldOf o2) in
   (exists id, result o1 = Some (JObj [("ok", JBool true); ("sessionId", JStr id)]))
   /\ result o2 = Some (failure REGISTER_NOT_OPEN)
   /\ result o3 = Some (failure REGISTER_NOT_OPEN))
  /\ (let o1 := open (JInt 1000) JUndefined (worldWith twinDb) in
      let o2 := addSale (JStr "s1") (JInt 500) JUndefined (worldOf o1) in
      let o3 := close (JInt 1500) JUndefined (worldOf o2) in
      truthy (get "aberto" (get "caixa" (readOf (worldWith twinDb)))) = false
      /\ (exists id, result o1 = Some (JObj [("ok", JBool true); ("sessionId", JStr id)]))
      /\ (exists r2, result o2 = Some r2 /\ get "expected_c" r2 = JInt 507)
      /\ (exists r3, result o3 = Some r3 /\ get "expected_c" r3 = JInt 507
                     /\ get "diff_c" r3 = JInt 993)).
Proof.
  split.
  - vm_compute. split; [eexists; reflexivity|]. split; reflexivity.
  - vm_compute. split; [reflexivity|]. split; [eexists; reflexivity|].
    split; eexists; repeat split; reflexivity.
Qed.

End CashFacts.

(* ================================================================== *)
(** * The stock ledger *)
(* ================================================================== *)

Module StockFacts.
Import Stock.

Lemma clampField_fst (k msg : string) (pw : JValue * list string) :
  fst (clampField k msg pw)
  = if Num.ltb (ToNumber (get k (fst pw))) (int 0)
    then set k (JInt 0) (fst pw) else fst pw.
Proof.
  destruct pw as [p ws]. unfold clampField. cbn [fst].
  destruct (Num.ltb (ToNumber (get k p)) (int 0)); reflexivity.
Qed.

Lemma isObj_clampField (k msg : string) (pw : JValue * list string) :
  isObj (fst (clampField k msg pw)) = isObj (fst pw).
Proof.
  rewrite clampField_fst.
  destruct (Num.ltb _ _); [apply isObj_set | reflexivity].
Qed.

Lemma clampField_other (k k' msg : string) (pw : JValue * list string) :
  String.eqb k k' = false ->
  get k (fst (clampField k' msg pw)) = get k (fst pw).
Proof.
  intros Hne. rewrite clampField_fst.
  destruct (Num.ltb _ _); [apply get_set_ne; exact Hne | reflexivity].
Qed.

Lemma isObj_normProduct (p : JValue) : isObj (fst (normProduct p)) = isObj p.
Proof.
  unfold normProduct. destruct (isObj p) eqn:Hp; cbn [negb fst]; [|exact Hp].
  rewrite !isObj_clampField. cbn [fst]. rewrite !isObj_update. exact Hp.
Qed.

















End StockFacts.

(* ================================================================== *)
(** * Cancelling a sale *)
(* ================================================================== *)

Module RefundFacts.
Import SalesRefund.

(** Ten units of product "X" in stock and one active sale "s1" of three
    units of it. *)
Definition saleDb : JValue :=
  JObj [("estoque",
         JArr [JObj [("cod", JStr "X"); ("nome", JStr "Item"); ("qtd", JInt 10)]]);
        ("vendas",
         JArr [JObj [("id", JStr "s1"); ("status", JStr "ativa");
                     ("itens", JArr [JObj [("cod", JStr "X"); ("nome", JStr "Item");
                                           ("qtd", JInt 3); ("preco_c", JInt 500)]]);
                     ("subtotal_c", JInt 1500); ("desconto_c", JInt 0);
                     ("total_c", JInt 1500)]])].

(** The persisted quantity of a product. *)
Definition stockOf (code : string) (db : JValue) : JValue :=
  match find (Stock.hasCode code) (items (get "estoque" db)) with
  | Some p => get "qtd" p
  | None => JUndefined
  end.

Definition firstCancel : Outcome JValue :=
  cancelSale (JStr "s1") JUndefined (JBool true) (worldWith saleDb).

Definition secondCancel : Outcome JValue :=
  cancelSale (JStr "s1") JUndefined (JBool true) (worldOf firstCancel).

Definition okOf (o : Outcome JValue) : JValue :=
  match result o with Some r => get "ok" r | None => JUndefined end.

(** The stock movement of the restock alone, on the same host. *)
Definition restockAlone : Outcome JValue :=
  Stock.addMovement
    {| Stock.type := JStr "devolucao"; Stock.productCod := JStr "X";
       Stock.qty := JUndefined; Stock.qtyDelta := JInt 3;
       Stock.reason := JUndefined; Stock.meta := JUndefined |}
    (worldWith saleDb).

(** What the first call reports as created stock movements. *)
Definition reportedMovements (o : Outcome JValue) : list JValue :=
  match result o with Some r => items (get "stockMovements" r) | None => [] end.

(** C1.  Cancelling sale "s1" (three units of "X", ten in stock) with
    restock succeeds, reports one stock movement and leaves exactly one
    SaleVoid, but the persisted quantity of "X" is still 10 and the
    persisted database holds no stock movement: the final safeSave of
    cancelSale writes the copy it read before the restock.  The restock
    movement alone does persist 13.  A second call returns the
    already-voided failure and leaves the persisted database as it was. *)
Theorem cancelSale_restock_is_overwritten :
  stockOf "X" (persisted (worldWith saleDb)) = JInt 10
  /\ okOf firstCancel = JBool true
  /\ List.length (reportedMovements firstCancel) = 1%nat
  /\ stockOf "X" (persisted (worldOf firstCancel)) = JInt 10
  /\ get "stockMovements" (persisted (worldOf firstCancel)) = JUndefined
  /\ List.length (filter (voids (JStr "s1"))
                    (items (get "saleVoids" (persisted (worldOf firstCancel)))))
     = 1%nat
  /\ stockOf "X" (persisted (worldOf restockAlone)) = JInt 13
  /\ result secondCancel = Some (failure ALREADY_VOIDED)
  /\ persisted (worldOf secondCancel) = persisted (worldOf firstCancel).
Proof.
  repeat (apply conj; [vm_compute; reflexivity|]).
  vm_compute. reflexivity.
Qed.

End RefundFacts.

(* ================================================================== *)
(** * Normalisation twice *)
(* ================================================================== *)

Module NormalFacts.

(** ** Trimming twice *)

Lemma trimEnd_idem (s : string) : trimEnd (trimEnd s) = trimEnd s.
Proof.
  induction s as [|c r IH]; [reflexivity|].
  cbn [trimEnd]. destruct (trimEnd r) as [|c' r'] eqn:E.
  - destruct (isWhite c) eqn:W; [reflexivity|].
    cbn [trimEnd]. rewrite W. reflexivity.
  - cbn [trimEnd] in *. rewrite IH. reflexivity.
Qed.

Lemma trimEnd_head (c : ascii) (r : string) :
  isWhite c = false -> exists r', trimEnd (String c r) = String c r'.
Proof.
  intros W. cbn [trimEnd]. destruct (trimEnd r).
  - rewrite W. eexists. reflexivity.
  - eexists. reflexivity.
Qed.

Lemma trimStart_head (s : string) :
  trimStart s = EmptyString
  \/ exists c r, trimStart s = String c r /\ isWhite c = false.
Proof.
  induction s as [|c r IH]; [left; reflexivity|].
  cbn [trimStart]. destruct (isWhite c) eqn:W; [exact IH|].
  right. exists c, r. split; [reflexivity | exact W].
Qed.

Lemma trim_idem (s : string) : trim (trim s) = trim s.
Proof.
  unfold trim.
  assert (H : trimStart (trimEnd (trimStart s)) = trimEnd (trimStart s)).
  { destruct (trimStart_head s) as [E|(c & r & E & W)]; rewrite E.
    - reflexivity.
    - destruct (trimEnd_head c r W) as (r' & E'). rewrite E'.
      cbn [trimStart]. rewrite W. reflexivity. }
  rewrite H. apply trimEnd_idem.
Qed.

(** ** Assignments that change nothing *)

Lemma assign_same (k : string) (v : JValue) (fs : list (string * JValue)) :
  lookup k fs = Some v -> assign k v fs = fs.
Proof.
  induction fs as [|[k' v'] r IH]; cbn [lookup assign]; [discriminate|].
  destruct (String.eqb k k') eqn:E.
  - intros H. inversion H. reflexivity.
  - intros H. rewrite (IH H). reflexivity.
Qed.

Definition defined (v : JValue) : bool :=
  match v with JUndefined => false | _ => true end.

Lemma set_same (k : string) (o : JValue) :
  has k o = true -> set k (get k o) o = o.
Proof.
  destruct o as [| | | | | |fs]; try reflexivity.
  cbn [get set has]. destruct (lookup k fs) as [v|] eqn:E; [|discriminate].
  intros _. rewrite (assign_same _ _ _ E). reflexivity.
Qed.

Lemma defined_has (k : string) (o : JValue) :
  isObj o = true -> defined (get k o) = true -> has k o = true.
Proof.
  destruct o as [| | | | | |fs]; try discriminate. intros _.
  cbn [get has]. destruct (lookup k fs); [reflexivity | discriminate].
Qed.

Lemma update_fixed (k : string) (f : JValue -> JValue) (o : JValue) :
  has k o = true -> f (get k o) = get k o -> update k f o = o.
Proof. intros Hd Hf. unfold update. rewrite Hf. apply set_same. exact Hd. Qed.

Lemma update_defined (k : string) (f : JValue -> JValue) (o : JValue) :
  isObj o = true -> defined (get k o) = true -> f (get k o) = get k o ->
  update k f o = o.
Proof. intros Ho Hd. apply update_fixed, defined_has; assumption. Qed.

Lemma has_set (k k' : string) (v o : JValue) :
  has k (set k' v o) = isObj o && (String.eqb k k' || has k o).
Proof.
  destruct o as [| | | | | |fs]; try reflexivity.
  cbn [set has isObj andb]. rewrite lookup_assign.
  destruct (String.eqb k k'); [reflexivity|]. cbn [orb]. reflexivity.
Qed.

Lemma set_set (k : string) (v v' : JValue) (o : JValue) :
  set k v (set k v' o) = set k v o.
Proof.
  destruct o as [| | | | | |fs]; try reflexivity.
  cbn [set]. f_equal.
  induction fs as [|[k' x] r IH]; cbn [assign].
  - rewrite String.eqb_refl. reflexivity.
  - destruct (String.eqb k k') eqn:E; cbn [assign]; rewrite E; [reflexivity|].
    rewrite IH. reflexivity.
Qed.

(** ** Numbers that are already what asInt and asNum return *)

Definition whole (v : JValue) : bool :=
  match v with JNum (Dec _ O) => true | _ => false end.

Definition count (v : JValue) : bool :=
  match v with JNum (Dec m O) => 0 <=? m | _ => false end.

Definition finite (v : JValue) : bool :=
  match v with JNum n => isFinite n | _ => false end.

Definition trimmedText (v : JValue) : bool :=
  match v with JStr s => String.eqb (trim s) s | _ => false end.

Lemma count_defined (v : JValue) : count v = true -> defined v = true.
Proof. destruct v; try discriminate; reflexivity. Qed.

Lemma whole_defined (v : JValue) : whole v = true -> defined v = true.
Proof. destruct v; try discriminate; reflexivity. Qed.

Lemma count_whole (v : JValue) : count v = true -> whole v = true.
Proof. destruct v as [| | |[| |m [|e]]| | |]; try discriminate; reflexivity. Qed.

Lemma finite_defined (v : JValue) : finite v = true -> defined v = true.
Proof. destruct v; try discriminate; reflexivity. Qed.

Lemma trimmedText_defined (v : JValue) : trimmedText v = true -> defined v = true.
Proof. destruct v; try discriminate; reflexivity. Qed.

Lemma asInt_whole (v : JValue) (d : jsnum) : whole v = true -> JNum (asInt v d) = v.
Proof.
  destruct v as [| | |[| |m [|e]]| | |]; try discriminate. intros _.
  unfold asInt, asNum. cbn [isFinite trunc]. unfold pow10.
  cbn [Z.of_nat]. rewrite Z.pow_0_r, Z.quot_1_r. reflexivity.
Qed.

Lemma asInt0_whole (v : JValue) : whole v = true -> asInt0 v = v.
Proof. apply asInt_whole. Qed.

Lemma asInt0_count (v : JValue) : count v = true -> asInt0 v = v.
Proof. intros H. apply asInt0_whole, count_whole, H. Qed.

Lemma asInt_is_whole (v : JValue) (d : Z) : whole (JNum (asInt v (int d))) = true.
Proof. rewrite asInt_int. reflexivity. Qed.

Lemma asNum_finite (v : JValue) (d : jsnum) : finite v = true -> JNum (asNum v d) = v.
Proof.
  destruct v as [| | |n| | |]; try discriminate. cbn [finite asNum].
  intros ->. reflexivity.
Qed.

Lemma asNum_is_finite (v : JValue) (d : Z) : isFinite (asNum v (int d)) = true.
Proof.
  unfold asNum. destruct v as [| | |n|s| |]; try reflexivity.
  - destruct (isFinite n) eqn:E; [exact E | reflexivity].
  - cbv zeta.
    destruct (isFinite (StringToNumber (commaToDot (removeDots (trim s))))) eqn:E;
      [exact E | reflexivity].
Qed.

Lemma trimmed_text (v : JValue) : trimmedText v = true -> trimmed v = v.
Proof.
  destruct v; try discriminate. cbn [trimmedText]. intros H.
  apply String.eqb_eq in H. unfold trimmed, asStr. cbn [isNullish ToString].
  rewrite H. reflexivity.
Qed.

Lemma trimmed_is_text (v : JValue) : trimmedText (trimmed v) = true.
Proof. unfold trimmed. cbn [trimmedText]. rewrite trim_idem. apply String.eqb_refl. Qed.

Lemma truthy_defined (v : JValue) : truthy v = true -> defined v = true.
Proof. destruct v; try discriminate; reflexivity. Qed.

Lemma isArray_defined (v : JValue) : isArray v = true -> defined v = true.
Proof. destruct v; try discriminate; reflexivity. Qed.

Lemma isObj_defined (v : JValue) : isObj v = true -> defined v = true.
Proof. destruct v; try discriminate; reflexivity. Qed.

Lemma count_not_negative (v : JValue) :
  count v = true -> Num.ltb (ToNumber v) (int 0) = false.
Proof.
  destruct v as [| | |[| |m [|e]]| | |]; try discriminate.
  cbn [count ToNumber]. intros H. fold (int m). rewrite (ltb_int m 0). lia.
Qed.

Lemma clampField_count (k msg : string) (pw : JValue * list string) :
  isObj (fst pw) = true -> whole (get k (fst pw)) = true ->
  count (get k (fst (clampField k msg pw))) = true.
Proof.
  intros Ho Hw. rewrite StockFacts.clampField_fst.
  destruct (get k (fst pw)) as [| | |[| |m [|e]]| | |] eqn:E; try discriminate.
  cbn [ToNumber]. fold (int m). rewrite (ltb_int m 0).
  destruct (Z.ltb_spec m 0).
  - rewrite (get_set_eq _ _ _ Ho). reflexivity.
  - rewrite E. cbn [count]. lia.
Qed.

Lemma clampField_settled (k msg : string) (p : JValue) (ws : list string) :
  count (get k p) = true -> clampField k msg (p, ws) = (p, ws).
Proof.
  intros H. unfold clampField. rewrite (count_not_negative _ H). reflexivity.
Qed.

(** ** Products *)

Definition settledProduct (p : JValue) : bool :=
  negb (isObj p)
  || (trimmedText (get "cod" p) && trimmedText (get "nome" p)
      && count (get "qtd" p) && whole (get "min" p)
      && count (get "custo_c" p) && count (get "preco_c" p)
      && finite (get "lucro_p" p)).

Lemma finiteOr0_finite (v : JValue) : finite v = true -> finiteOr0 v = v.
Proof.
  destruct v as [| | |n| | |]; try discriminate. cbn [finite]. intros H.
  unfold finiteOr0, asNum. rewrite H, H. reflexivity.
Qed.

Lemma finiteOr0_is_finite (v : JValue) : finite (finiteOr0 v) = true.
Proof.
  unfold finiteOr0. cbn [finite].
  destruct (isFinite (asNum v (int 0))) eqn:E; [exact E | reflexivity].
Qed.

Ltac split_ands H :=
  repeat match type of H with
         | (_ && _)%bool = true =>
             let H' := fresh "S" in
             apply andb_prop in H; destruct H as [H H']
         end.

(** A settled product passes through the loop body unchanged. *)
Lemma product_fixed (p : JValue) :
  settledProduct p = true -> fst (normProduct p) = p.
Proof.
  unfold settledProduct, normProduct.
  destruct (isObj p) eqn:Ho; cbn [negb orb fst]; [|reflexivity].
  intros H. split_ands H.
  rewrite (update_defined "cod" trimmed p Ho)
    by (auto using trimmedText_defined, trimmed_text).
  rewrite (update_defined "nome" trimmed p Ho)
    by (auto using trimmedText_defined, trimmed_text).
  rewrite (update_defined "qtd" asInt0 p Ho)
    by (auto using count_defined, asInt0_count).
  rewrite (update_defined "min" asInt0 p Ho)
    by (auto using whole_defined, asInt0_whole).
  rewrite (update_defined "custo_c" asInt0 p Ho)
    by (auto using count_defined, asInt0_count).
  rewrite (update_defined "preco_c" asInt0 p Ho)
    by (auto using count_defined, asInt0_count).
  rewrite (update_defined "lucro_p" finiteOr0 p Ho)
    by (auto using finite_defined, finiteOr0_finite).
  rewrite !clampField_settled by assumption. reflexivity.
Qed.

(** The loop body leaves a settled product. *)
Lemma product_settles (p : JValue) : settledProduct (fst (normProduct p)) = true.
Proof.
  unfold settledProduct. rewrite StockFacts.isObj_normProduct.
  destruct (isObj p) eqn:Ho; cbn [negb orb]; [|reflexivity].
  unfold normProduct. rewrite Ho. cbn [negb].
  set (U := update "lucro_p" finiteOr0 (update "preco_c" asInt0
              (update "custo_c" asInt0 (update "min" asInt0
                (update "qtd" asInt0 (update "nome" trimmed
                  (update "cod" trimmed p))))))).
  assert (OU : isObj U = true) by (unfold U; rewrite !isObj_update; exact Ho).
  match goal with
  | |- context [clampField "qtd" ?m (U, ?ws)] =>
      set (c1 := clampField "qtd" m (U, ws))
  end.
  match goal with
  | |- context [clampField "preco_c" ?m c1] => set (c2 := clampField "preco_c" m c1)
  end.
  assert (O1 : isObj (fst c1) = true)
    by (unfold c1; rewrite StockFacts.isObj_clampField; exact OU).
  assert (O2 : isObj (fst c2) = true)
    by (unfold c2; rewrite StockFacts.isObj_clampField; exact O1).
  assert (Hcod : trimmedText (get "cod" U) = true).
  { unfold U. repeat field_ne. field_eq. apply trimmed_is_text. }
  assert (Hnome : trimmedText (get "nome" U) = true).
  { unfold U. repeat field_ne. field_eq. apply trimmed_is_text. }
  assert (Hqtd : whole (get "qtd" U) = true).
  { unfold U. repeat field_ne. field_eq. apply (asInt_is_whole _ 0). }
  assert (Hmin : whole (get "min" U) = true).
  { unfold U. repeat field_ne. field_eq. apply (asInt_is_whole _ 0). }
  assert (Hcusto : whole (get "custo_c" U) = true).
  { unfold U. repeat field_ne. field_eq. apply (asInt_is_whole _ 0). }
  assert (Hpreco : whole (get "preco_c" U) = true).
  { unfold U. repeat field_ne. field_eq. apply (asInt_is_whole _ 0). }
  assert (Hlucro : finite (get "lucro_p" U) = true).
  { unfold U. field_eq. apply finiteOr0_is_finite. }
  repeat (apply andb_true_intro; split).
  - unfold c2, c1. rewrite !StockFacts.clampField_other by reflexivity. exact Hcod.
  - unfold c2, c1. rewrite !StockFacts.clampField_other by reflexivity. exact Hnome.
  - unfold c2. rewrite !StockFacts.clampField_other by reflexivity.
    unfold c1. apply clampField_count; [exact OU | exact Hqtd].
  - unfold c2, c1. rewrite !StockFacts.clampField_other by reflexivity. exact Hmin.
  - apply clampField_count; [exact O2|].
    unfold c2, c1. rewrite !StockFacts.clampField_other by reflexivity. exact Hcusto.
  - rewrite StockFacts.clampField_other by reflexivity.
    unfold c2. apply clampField_count; [exact O1|].
    unfold c1. rewrite StockFacts.clampField_other by reflexivity. exact Hpreco.
  - unfold c2, c1. rewrite !StockFacts.clampField_other by reflexivity. exact Hlucro.
Qed.

(** ** Sale lines *)

Definition settledItem (i : JValue) : bool :=
  negb (isObj i)
  || (trimmedText (get "cod" i) && trimmedText (get "nome" i)
      && finite (get "qtd" i) && whole (get "preco_c" i)).

Lemma asNum0_finite (v : JValue) : finite v = true -> asNum0 v = v.
Proof. apply asNum_finite. Qed.

Lemma item_fixed (i : JValue) : settledItem i = true -> normItem i = i.
Proof.
  unfold settledItem, normItem.
  destruct (isObj i) eqn:Ho; cbn [negb orb]; [|reflexivity].
  intros H. split_ands H.
  rewrite (update_defined "cod" trimmed i Ho)
    by (auto using trimmedText_defined, trimmed_text).
  rewrite (update_defined "nome" trimmed i Ho)
    by (auto using trimmedText_defined, trimmed_text).
  rewrite (update_defined "qtd" asNum0 i Ho)
    by (auto using finite_defined, asNum0_finite).
  apply (update_defined "preco_c" asInt0 i Ho);
    auto using whole_defined, asInt0_whole.
Qed.

Lemma isObj_normItem (i : JValue) : isObj (normItem i) = isObj i.
Proof.
  unfold normItem. destruct (isObj i) eqn:Ho; cbn [negb]; [|exact Ho].
  rewrite !isObj_update. exact Ho.
Qed.

Lemma item_settles (i : JValue) : settledItem (normItem i) = true.
Proof.
  unfold settledItem. rewrite isObj_normItem.
  destruct (isObj i) eqn:Ho; cbn [negb orb]; [|reflexivity].
  unfold normItem. rewrite Ho. cbn [negb].
  repeat (apply andb_true_intro; split).
  - repeat field_ne. field_eq. apply trimmed_is_text.
  - repeat field_ne. field_eq. apply trimmed_is_text.
  - repeat field_ne. field_eq. apply (asNum_is_finite _ 0).
  - field_eq. apply (asInt_is_whole _ 0).
Qed.

Lemma map_fixed {A} (f : A -> A) (ok : A -> bool) (l : list A) :
  (forall x, ok x = true -> f x = x) -> forallb ok l = true -> map f l = l.
Proof.
  intros Hf. induction l as [|x r IH]; cbn [forallb map]; [reflexivity|].
  intros H. apply andb_prop in H. destruct H as [Hx Hr].
  rewrite (Hf x Hx), (IH Hr). reflexivity.
Qed.

Lemma forallb_map_settled {A} (f : A -> A) (ok : A -> bool) (l : list A) :
  (forall x, ok (f x) = true) -> forallb ok (map f l) = true.
Proof.
  intros Hf. induction l as [|x r IH]; cbn [forallb map]; [reflexivity|].
  rewrite Hf, IH. reflexivity.
Qed.

(** ** The caixa object *)

Definition isBoolean (v : JValue) : bool :=
  match v with JBool _ => true | _ => false end.

Definition settledCaixa (c : JValue) : bool :=
  isObj c && isBoolean (get "aberto" c)
  && isArray (get "movimentos" c) && isArray (get "aberturas" c).

Lemma caixa_fixed (c : JValue) : settledCaixa c = true -> normCaixa c = c.
Proof.
  unfold settledCaixa, normCaixa. intros H. split_ands H.
  unfold objectOr. rewrite H.
  rewrite (update_defined "aberto" _ c H).
  - rewrite (update_defined "movimentos" arrayOr c H)
      by (auto using isArray_defined, arrayOr_array).
    apply (update_defined "aberturas" arrayOr c H);
      auto using isArray_defined, arrayOr_array.
  - destruct (get "aberto" c); try discriminate; reflexivity.
  - destruct (get "aberto" c) as [| |b| | | |]; try discriminate.
    destruct b; reflexivity.
Qed.

Lemma caixa_settles (c : JValue) : settledCaixa (normCaixa c) = true.
Proof.
  unfold settledCaixa. rewrite isObj_normCaixa. cbn [andb].
  unfold normCaixa.
  assert (Ho : isObj (objectOr Schema.emptyCaixa c) = true)
    by (apply isObj_objectOr; reflexivity).
  repeat (apply andb_true_intro; split).
  - repeat field_ne. field_eq. reflexivity.
  - field_ne. field_eq. apply isArray_arrayOr.
  - field_eq. apply isArray_arrayOr.
Qed.

(** ** Sales *)

(** [v.id = asStr(v.id).trim() || v.id] keeps an id that is its own trimmed
    text, or whose trimmed text is empty. *)
Definition keepsId (x : JValue) : bool :=
  negb (truthy (trimmed x)) || trimmedText x.

Definition settledSale (v : JValue) : bool :=
  negb (isObj v)
  || (has "id" v && keepsId (get "id" v)
      && truthy (get "dataIso" v)
      && isArray (get "itens" v)
      && forallb settledItem (items (get "itens" v))
      && whole (get "subtotal_c" v) && whole (get "desconto_c" v)
      && count (get "total_c" v)).

Lemma keepsId_fixed (x : JValue) : keepsId x = true -> or_else (trimmed x) x = x.
Proof.
  unfold keepsId, or_else. destruct (truthy (trimmed x)); cbn [negb orb].
  - apply trimmed_text.
  - reflexivity.
Qed.

Lemma keepsId_settles (x : JValue) : keepsId (or_else (trimmed x) x) = true.
Proof.
  unfold or_else. destruct (truthy (trimmed x)) eqn:E.
  - unfold keepsId. rewrite trimmed_is_text. apply orb_true_r.
  - unfold keepsId. rewrite E. reflexivity.
Qed.

Lemma max_int (x y : Z) : Num.max (int x) (int y) = int (Z.max x y).
Proof.
  unfold Num.max, Num.cmp, int. cbn [Nat.max Nat.sub]. rewrite pow10_0, !Z.mul_1_r.
  unfold Z.max. destruct (x ?= y); reflexivity.
Qed.

Lemma whole_int (v : JValue) : whole v = true -> exists z, v = JNum (int z).
Proof.
  destruct v as [| | |[| |m [|e]]| | |]; try discriminate.
  intros _. exists m. reflexivity.
Qed.

(** A settled sale passes through the loop body unchanged, without a look
    at the clock and without a warning. *)
Lemma sale_fixed (v : JValue) (w : World) :
  settledSale v = true -> normSale v w = Ok (v, []) w.
Proof.
  unfold settledSale, normSale.
  destruct (isObj v) eqn:Ho; cbn [negb orb]; [|reflexivity].
  intros H. rewrite !andb_true_iff in H.
  destruct H as (((((((Hid & Hkeep) & Hdata) & Harr) & Hitems) & Hsub) & Hdesc) & Htot).
  rewrite (update_fixed "id" (fun x => or_else (trimmed x) x) v Hid
             (keepsId_fixed _ Hkeep)).
  rewrite Hdata. unfold bind at 1, ret at 1.
  rewrite (set_same "dataIso" v)
    by (apply defined_has; [exact Ho | apply truthy_defined; exact Hdata]).
  rewrite (update_defined "itens" arrayOr v Ho)
    by (auto using isArray_defined, arrayOr_array).
  rewrite (update_defined "itens" _ v Ho).
  2:{ apply isArray_defined; exact Harr. }
  2:{ rewrite (map_fixed normItem settledItem _ item_fixed Hitems).
      apply JArr_items. exact Harr. }
  rewrite (update_defined "subtotal_c" asInt0 v Ho)
    by (auto using whole_defined, asInt0_whole).
  rewrite (update_defined "desconto_c" asInt0 v Ho)
    by (auto using whole_defined, asInt0_whole).
  unfold withTotal. cbv zeta.
  rewrite (update_defined "total_c" _ v Ho).
  2:{ apply count_defined; exact Htot. }
  2:{ apply asInt_whole, count_whole; exact Htot. }
  rewrite (count_not_negative _ Htot). reflexivity.
Qed.

Lemma has_update (k k' : string) (f : JValue -> JValue) (o : JValue) :
  has k (update k' f o) = isObj o && (String.eqb k k' || has k o).
Proof. apply has_set. Qed.

Lemma isEmpty_app (a : string) (c : ascii) (b : string) :
  isEmpty (a ++ String c b) = false.
Proof. destruct a; reflexivity. Qed.

Lemma iso_shape (ms : Z) : exists a b, toISOString ms = a ++ String "-" b.
Proof. unfold toISOString. eexists. eexists. reflexivity. Qed.

Lemma iso_truthy (ms : Z) : truthy (JStr (toISOString ms)) = true.
Proof.
  destruct (iso_shape ms) as (a & b & E). rewrite E. cbn [truthy].
  rewrite isEmpty_app. reflexivity.
Qed.

(** The loop body leaves a settled sale. *)
Lemma sale_settles (v : JValue) (w : World) :
  exists r w', normSale v w = Ok r w' /\ settledSale (fst r) = true.
Proof.
  unfold normSale.
  destruct (isObj v) eqn:Ho; cbn [negb].
  2:{ exists (v, []), w. split; [reflexivity|]. unfold settledSale. cbn [fst].
      rewrite Ho. reflexivity. }
  set (v1 := update "id" (fun x => or_else (trimmed x) x) v).
  assert (O1 : isObj v1 = true) by (unfold v1; rewrite isObj_update; exact Ho).
  assert (Hd : exists d w1,
             (if truthy (get "dataIso" v1) then ret (get "dataIso" v1)
              else t <- nowIso ;; ret (JStr t)) w = Ok d w1
             /\ truthy d = true).
  { destruct (truthy (get "dataIso" v1)) eqn:E.
    - eexists. eexists. split; [reflexivity | exact E].
    - eexists. eexists. split; [reflexivity | apply iso_truthy]. }
  destruct Hd as (d & w1 & Hrun & Hd).
  set (v6 := update "desconto_c" asInt0 (update "subtotal_c" asInt0
               (update "itens" (fun a => JArr (map normItem (items a)))
                 (update "itens" arrayOr (set "dataIso" d v1))))).
  assert (O6 : isObj v6 = true)
    by (unfold v6; rewrite !isObj_update, isObj_set; exact O1).
  assert (Hsub : exists a, get "subtotal_c" v6 = JNum (int a)).
  { apply whole_int. unfold v6. field_ne. field_eq. apply (asInt_is_whole _ 0). }
  assert (Hdesc : exists b, get "desconto_c" v6 = JNum (int b)).
  { apply whole_int. unfold v6. field_eq. apply (asInt_is_whole _ 0). }
  destruct Hsub as (a & Hsub). destruct Hdesc as (b & Hdesc).
  set (v7 := withTotal v6).
  assert (E7 : v7 = update "total_c"
                     (fun t => JNum (asInt t (int (Z.max 0 (a - b))))) v6).
  { unfold v7, withTotal. cbv zeta. rewrite Hsub, Hdesc. cbn [ToNumber].
    rewrite sub_int, max_int. reflexivity. }
  assert (O7 : isObj v7 = true) by (rewrite E7, isObj_update; exact O6).
  assert (Hid : has "id" v7 = true).
  { rewrite E7. unfold v6, v1.
    rewrite !has_update, has_set, has_update, !isObj_update, isObj_set, isObj_update, Ho.
    reflexivity. }
  assert (Hkeep : keepsId (get "id" v7) = true).
  { rewrite E7. unfold v6. repeat field_ne. unfold v1. field_eq.
    apply keepsId_settles. }
  assert (Hdata : truthy (get "dataIso" v7) = true).
  { rewrite E7. unfold v6. repeat field_ne. field_eq. exact Hd. }
  assert (Hitens : get "itens" v7
                   = JArr (map normItem (items (arrayOr (get "itens" v1))))).
  { rewrite E7. unfold v6. repeat field_ne. field_eq. field_eq. field_ne.
    reflexivity. }
  assert (Hs : whole (get "subtotal_c" v7) = true).
  { rewrite E7. field_ne. rewrite Hsub. reflexivity. }
  assert (Hds : whole (get "desconto_c" v7) = true).
  { rewrite E7. field_ne. rewrite Hdesc. reflexivity. }
  assert (Ht : whole (get "total_c" v7) = true).
  { rewrite E7. field_eq. apply asInt_is_whole. }
  destruct (Num.ltb (ToNumber (get "total_c" v7)) (int 0)) eqn:Neg.
  - eexists. exists w1. split.
    { eapply bind_step; [exact Hrun|]. fold v6. fold v7. rewrite Neg. reflexivity. }
    cbn [fst]. unfold settledSale. rewrite isObj_set, O7. cbn [negb orb].
    rewrite has_set, O7, Hid. repeat field_ne.
    rewrite (get_set_eq _ _ _ O7), Hkeep, Hdata, Hitens, Hs, Hds.
    cbn [isArray items andb]. rewrite (forallb_map_settled _ _ _ item_settles).
    reflexivity.
  - eexists. exists w1. split.
    { eapply bind_step; [exact Hrun|]. fold v6. fold v7. rewrite Neg. reflexivity. }
    cbn [fst]. unfold settledSale. rewrite O7. cbn [negb orb].
    rewrite Hid, Hkeep, Hdata, Hitens, Hs, Hds.
    cbn [isArray items andb]. rewrite (forallb_map_settled _ _ _ item_settles).
    cbn [andb].
    destruct (get "total_c" v7) as [| | |[| |m [|e]]| | |]; try discriminate.
    cbn [ToNumber] in Neg. fold (int m) in Neg. rewrite (ltb_int m 0) in Neg.
    cbn [count]. lia.
Qed.

Lemma sales_fixed (l : list JValue) (w : World) :
  forallb settledSale l = true ->
  mapM normSale l w = Ok (map (fun v => (v, [])) l) w.
Proof.
  induction l as [|v r IH]; cbn [forallb mapM map]; [reflexivity|].
  intros H. apply andb_prop in H. destruct H as [Hv Hr].
  eapply bind_step; [apply sale_fixed; exact Hv|].
  eapply bind_step; [apply IH; exact Hr|]. reflexivity.
Qed.

Lemma sales_settle (l : list JValue) (w : World) :
  exists rs w',
    mapM normSale l w = Ok rs w' /\ forallb settledSale (map fst rs) = true.
Proof.
  revert w. induction l as [|v r IH]; intros w.
  - exists [], w. split; reflexivity.
  - destruct (sale_settles v w) as (x & w1 & H1 & S1).
    destruct (IH w1) as (xs & w2 & H2 & S2).
    exists (x :: xs), w2. split.
    + cbn [mapM]. eapply bind_step; [exact H1|].
      eapply bind_step; [exact H2|]. reflexivity.
    + cbn [map forallb]. rewrite S1, S2. reflexivity.
Qed.

Lemma map_fst_plain (l : list JValue) :
  map fst (map (fun v : JValue => (v, @nil string)) l) = l.
Proof. rewrite map_map. cbn [fst]. apply map_id. Qed.

(** ** The database *)

Definition settledDB (db : JValue) : bool :=
  isObj db
  && whole (get "schemaVersion" db)
  && isObj (get "meta" db)
  && truthy (get "createdAt" (get "meta" db))
  && isArray (get "users" db)
  && isObj (get "settings" db)
  && isArray (get "estoque" db)
  && isArray (get "vendas" db)
  && settledCaixa (get "caixa" db)
  && isArray (get "devedores" db)
  && isArray (get "auditLog" db)
  && forallb settledProduct (items (get "estoque" db))
  && forallb settledSale (items (get "vendas" db)).

(** The database with the time of last normalisation replaced. *)
Definition restamped (t : string) (db : JValue) : JValue :=
  update "meta" (set "updatedAt" (JStr t)) db.

Lemma objectOr_keep (d v : JValue) : isObj v = true -> objectOr d v = v.
Proof. unfold objectOr. intros ->. reflexivity. Qed.

Lemma stamp_truthy (v : JValue) (w : World) :
  exists x w',
    (if truthy v then ret v else t <- nowIso ;; ret (JStr t)) w = Ok x w'
    /\ truthy x = true.
Proof.
  destruct (truthy v) eqn:E.
  - eexists. eexists. split; [reflexivity | exact E].
  - eexists. eexists. split; [reflexivity | apply iso_truthy].
Qed.

(** A settled database comes back from normalizeDB with nothing but the time
    of last normalisation replaced: the second reading of the clock. *)
Lemma db_fixed (N : JValue) (w : World) :
  settledDB N = true ->
  exists w',
    normalizeDB N w
    = Ok (restamped (toISOString (clock w (S (ticks w)))) N) w'.
Proof.
  unfold settledDB. intros H. rewrite !andb_true_iff in H.
  destruct H as ((((((((((((Ho & Hv) & Hm) & Hc) & Hu) & Hs) & He) & Hvs) & Hcx)
                      & Hd) & Ha) & Hps) & Hss).
  unfold normalizeDB.
  eexists.
  eapply bind_step; [apply nowIso_run|]. rewrite Ho. cbn [negb]. cbv zeta.
  rewrite (update_defined "schemaVersion"
             (fun x => JNum (asInt x (int Schema.SCHEMA_VERSION))) N Ho)
    by (auto using whole_defined, asInt_whole).
  rewrite (update_defined "meta" (objectOr (JObj [])) N Ho)
    by (auto using isObj_defined, objectOr_keep).
  rewrite Hc.
  eapply bind_step; [reflexivity|].
  rewrite (update_defined "meta" (set "createdAt" (get "createdAt" (get "meta" N))) N Ho).
  2:{ apply isObj_defined; exact Hm. }
  2:{ apply set_same, defined_has; [exact Hm | apply truthy_defined; exact Hc]. }
  eapply bind_step; [apply nowIso_run|].
  cbn [clock ticks with_ticks].
  fold (restamped (toISOString (clock w (S (ticks w)))) N).
  set (N' := restamped (toISOString (clock w (S (ticks w)))) N).
  assert (O' : isObj N' = true) by (unfold N', restamped; rewrite isObj_update; exact Ho).
  assert (G : forall k, String.eqb k "meta" = false -> get k N' = get k N).
  { intros k Hk. unfold N', restamped. apply get_update_ne. exact Hk. }
  rewrite (update_defined "users" arrayOr N' O')
    by (rewrite G by reflexivity; auto using isArray_defined, arrayOr_array).
  rewrite (update_defined "settings" (objectOr (JObj [])) N' O')
    by (rewrite G by reflexivity; auto using isObj_defined, objectOr_keep).
  rewrite (update_defined "estoque" arrayOr N' O')
    by (rewrite G by reflexivity; auto using isArray_defined, arrayOr_array).
  rewrite (update_defined "vendas" arrayOr N' O')
    by (rewrite G by reflexivity; auto using isArray_defined, arrayOr_array).
  rewrite (update_defined "caixa" normCaixa N' O').
  2:{ rewrite G by reflexivity. apply isObj_defined.
      unfold settledCaixa in Hcx. rewrite !andb_true_iff in Hcx. apply Hcx. }
  2:{ rewrite G by reflexivity. apply caixa_fixed. exact Hcx. }
  rewrite (update_defined "devedores" arrayOr N' O')
    by (rewrite G by reflexivity; auto using isArray_defined, arrayOr_array).
  rewrite (update_defined "auditLog" arrayOr N' O')
    by (rewrite G by reflexivity; auto using isArray_defined, arrayOr_array).
  assert (Hest : set "estoque"
                   (JArr (map fst (map normProduct (items (get "estoque" N'))))) N'
                 = N').
  { rewrite map_map, (G "estoque") by reflexivity.
    rewrite (map_fixed _ settledProduct _ product_fixed Hps).
    rewrite (JArr_items _ He), <- (G "estoque") by reflexivity.
    apply set_same, defined_has; [exact O'|].
    rewrite G by reflexivity. apply isArray_defined. exact He. }
  rewrite Hest.
  eapply bind_step.
  { apply sales_fixed. rewrite G by reflexivity. exact Hss. }
  rewrite map_fst_plain, (G "vendas") by reflexivity.
  rewrite (JArr_items _ Hvs), <- (G "vendas") by reflexivity.
  rewrite set_same
    by (apply defined_has; [exact O'|];
        rewrite G by reflexivity; apply isArray_defined; exact Hvs).
  eapply bind_step; [reflexivity|]. reflexivity.
Qed.

Lemma fresh_settled (c u : string) :
  truthy (JStr c) = true -> settledDB (Schema.freshDB c u) = true.
Proof.
  intros H. unfold settledDB, Schema.freshDB.
  cbn [get lookup String.eqb Ascii.eqb Bool.eqb isObj andb].
  rewrite H. reflexivity.
Qed.

(** Whatever it is given, normalizeDB returns a settled database. *)
Lemma db_settles (x : JValue) (w : World) :
  exists N w', normalizeDB x w = Ok N w' /\ settledDB N = true.
Proof.
  destruct (isObj x) eqn:Hobj.
  2:{ unfold normalizeDB, Schema.defaultDB.
      eexists. eexists. split.
      { eapply bind_step; [apply nowIso_run|]. rewrite Hobj. cbn [negb].
        eapply bind_step.
        { eapply bind_step; [apply nowIso_run|].
          eapply bind_step; [apply nowIso_run|]. reflexivity. }
        eapply bind_step; [reflexivity|]. reflexivity. }
      apply fresh_settled, iso_truthy. }
  unfold normalizeDB.
  set (w1 := with_ticks (S (ticks w)) w).
  set (db1 := update "meta" (objectOr (JObj []))
                (update "schemaVersion"
                   (fun x => JNum (asInt x (int Schema.SCHEMA_VERSION))) x)).
  destruct (stamp_truthy (get "createdAt" (get "meta" db1)) w1)
    as (cv & w2 & Hc & Tc).
  set (w3 := with_ticks (S (ticks w2)) w2).
  set (db2 :=
    update "auditLog" arrayOr (update "devedores" arrayOr
      (update "caixa" normCaixa (update "vendas" arrayOr
        (update "estoque" arrayOr (update "settings" (objectOr (JObj []))
          (update "users" arrayOr
            (update "meta" (set "updatedAt" (JStr (toISOString (clock w2 (ticks w2)))))
              (update "meta" (set "createdAt" cv) db1))))))))).
  set (db3 := set "estoque" (JArr (map fst (map normProduct (items (get "estoque" db2))))) db2).
  destruct (sales_settle (items (get "vendas" db3)) w3) as (vs & w4 & Hvs & Svs).
  exists (set "vendas" (JArr (map fst vs)) db3). eexists.
  split.
  { eapply bind_step; [apply nowIso_run|]. rewrite Hobj. cbn [negb].
    eapply bind_step; [exact Hc|].
    eapply bind_step; [apply nowIso_run|].
    eapply bind_step; [exact Hvs|].
    reflexivity. }
  assert (O1 : isObj db1 = true) by (unfold db1; rewrite !isObj_update; exact Hobj).
  assert (O2 : isObj db2 = true) by (unfold db2; rewrite !isObj_update; exact O1).
  assert (O3 : isObj db3 = true) by (unfold db3; rewrite isObj_set; exact O2).
  assert (Om : isObj (objectOr (JObj []) (get "meta" x)) = true)
    by (apply isObj_objectOr; reflexivity).
  assert (Hmeta : get "meta" db2
                  = set "updatedAt" (JStr (toISOString (clock w2 (ticks w2))))
                      (set "createdAt" cv (objectOr (JObj []) (get "meta" x)))).
  { unfold db2. repeat field_ne. field_eq. field_eq. unfold db1. field_eq.
    field_ne. reflexivity. }
  unfold settledDB. rewrite isObj_set, O3. cbn [andb].
  rewrite !andb_true_iff. repeat apply conj.
  - field_ne. unfold db3. field_ne. unfold db2. repeat field_ne.
    unfold db1. field_ne. field_eq. apply asInt_is_whole.
  - field_ne. unfold db3. field_ne. rewrite Hmeta, !isObj_set. exact Om.
  - field_ne. unfold db3. field_ne. rewrite Hmeta. field_ne.
    rewrite (get_set_eq _ _ _ Om). exact Tc.
  - field_ne. unfold db3. field_ne. unfold db2. repeat field_ne. field_eq.
    apply isArray_arrayOr.
  - field_ne. unfold db3. field_ne. unfold db2. repeat field_ne. field_eq.
    apply isObj_objectOr. reflexivity.
  - field_ne. unfold db3. field_eq. reflexivity.
  - field_eq. reflexivity.
  - field_ne. unfold db3. field_ne. unfold db2. repeat field_ne. field_eq.
    apply caixa_settles.
  - field_ne. unfold db3. field_ne. unfold db2. repeat field_ne. field_eq.
    apply isArray_arrayOr.
  - field_ne. unfold db3. field_ne. unfold db2. field_eq.
    apply isArray_arrayOr.
  - field_ne. unfold db3. field_eq. cbn [items]. rewrite map_map.
    apply forallb_map_settled. apply product_settles.
  - field_eq. cbn [items]. exact Svs.
Qed.

(** ** Once and twice *)

Definition once (x : JValue) (w : World) : Outcome JValue := normalizeDB x w.

Definition twice (x : JValue) (w : World) : Outcome JValue :=
  match normalizeDB x w with
  | Ok N w1 => normalizeDB N w1
  | Thrown e w1 => Thrown e w1
  end.

Definition serialized (o : Outcome JValue) : option string :=
  match result o with Some v => JSON.stringify 0 v | None => None end.

(** C3, as stated, fails: on an empty object and a clock that advances, the
    second application stamps a later meta.updatedAt, and the serialized
    results differ. *)
Lemma normalizeDB_restamps :
  result (twice (JObj []) quietWorld) <> result (once (JObj []) quietWorld)
  /\ serialized (twice (JObj []) quietWorld)
     <> serialized (once (JObj []) quietWorld).
Proof.
  split; intros H.
  - apply (f_equal (fun r => match r with
                             | Some v => get "updatedAt" (get "meta" v)
                             | None => JUndefined
                             end)) in H.
    vm_compute in H. discriminate H.
  - vm_compute in H. discriminate H.
Qed.

(** C3, amended.  For every host and every input on which the text
    conversions of normalizeDB do not throw (no object in it has a field of
    its own named toString), normalizeDB returns, and a second application
    returns the first result with only meta.updatedAt replaced by the time
    of the second call: every other top-level field and every other field
    of meta is the same, and when the clock shows at the second call the
    time already stamped, the two results are equal and so are their
    serializations. *)
Theorem normalizeDB_twice (x : JValue) (w : World) :
  Exact.stringable x = true ->
  exists N1 w1 N2 w2,
    normalizeDB x w = Ok N1 w1
    /\ normalizeDB N1 w1 = Ok N2 w2
    /\ N2 = restamped (toISOString (clock w1 (S (ticks w1)))) N1
    /\ (forall k, String.eqb k "meta" = false -> get k N2 = get k N1)
    /\ (forall k, String.eqb k "updatedAt" = false ->
          get k (get "meta" N2) = get k (get "meta" N1))
    /\ (get "updatedAt" (get "meta" N1)
        = JStr (toISOString (clock w1 (S (ticks w1)))) ->
        N2 = N1 /\ JSON.stringify 0 N2 = JSON.stringify 0 N1).
Proof.
  intros _.
  destruct (db_settles x w) as (N1 & w1 & H1 & S1).
  destruct (db_fixed N1 w1 S1) as (w2 & H2).
  exists N1, w1. eexists. exists w2.
  split; [exact H1|]. split; [exact H2|]. split; [reflexivity|].
  unfold settledDB in S1. rewrite !andb_true_iff in S1.
  destruct S1 as ((((((((((((Ho & _) & Hm) & _) & _) & _) & _) & _) & _) & _) & _) & _) & _).
  split; [|split].
  - intros k Hk. unfold restamped. apply get_update_ne. exact Hk.
  - intros k Hk. unfold restamped. rewrite (get_update_eq _ _ _ Ho).
    apply get_set_ne. exact Hk.
  - intros Hsame.
    assert (E : restamped (toISOString (clock w1 (S (ticks w1)))) N1 = N1).
    { unfold restamped. apply update_defined; [exact Ho | |].
      - apply isObj_defined. exact Hm.
      - rewrite <- Hsame. apply set_same, defined_has; [exact Hm|].
        rewrite Hsame. reflexivity. }
    rewrite E. split; reflexivity.
Qed.

(** A database with a product to trim and a negative quantity. *)
Definition untidyDb : JValue :=
  JObj [("estoque",
         JArr [JObj [("cod", JStr " X "); ("nome", JStr "Item"); ("qtd", JInt (-4))]])].

Lemma normalizeDB_twice_witness :
  Exact.stringable untidyDb = true
  /\ exists N1 w1 N2 w2,
       normalizeDB untidyDb quietWorld = Ok N1 w1
       /\ normalizeDB N1 w1 = Ok N2 w2
       /\ (forall k, String.eqb k "meta" = false -> get k N2 = get k N1).
Proof.
  split; [reflexivity|].
  destruct (normalizeDB_twice untidyDb quietWorld eq_refl)
    as (N1 & w1 & N2 & w2 & H1 & H2 & _ & H3 & _).
  exists N1, w1, N2, w2. split; [exact H1|]. split; [exact H2 | exact H3].
Defined.

End NormalFacts.

(* ================================================================== *)
(** * JSON text read back *)
(* ================================================================== *)

Module JsonFacts.
Import JSON.

(** ** Characters and digits *)

Lemma code_chr (n : Z) : 0 <= n < 256 -> code (chr n) = n.
Proof.
  intros H. unfold code, chr. rewrite N_ascii_embedding by lia. lia.
Qed.

Lemma chr_code (c : ascii) : chr (code c) = c.
Proof. unfold code, chr. rewrite N2Z.id. apply ascii_N_embedding. Qed.

Lemma code_range (c : ascii) : 0 <= code c < 256.
Proof.
  unfold code. pose proof (N_ascii_bounded c). lia.
Qed.

Lemma code_inj (c d : ascii) : code c = code d -> c = d.
Proof. intros H. rewrite <- (chr_code c), <- (chr_code d), H. reflexivity. Qed.

Lemma digit_roundtrip (d : Z) :
  0 <= d < 10 -> isDigit (digitChar d) = true /\ digitVal (digitChar d) = d.
Proof.
  intros H. unfold isDigit, digitVal, digitChar. rewrite code_chr by lia.
  split; lia.
Qed.

Fixpoint allDigits (s : string) : bool :=
  match s with
  | EmptyString => true
  | String c r => isDigit c && allDigits r
  end.

Lemma allDigits_app (s t : string) :
  allDigits (s ++ t) = allDigits s && allDigits t.
Proof.
  induction s as [|c r IH]; cbn [append allDigits]; [reflexivity|].
  rewrite IH. apply andb_assoc.
Qed.

Lemma readNat_app (s t : string) (a : Z) :
  readNat (s ++ t) a = readNat t (readNat s a).
Proof.
  revert a. induction s as [|c r IH]; intros a; cbn [append readNat]; [reflexivity|].
  apply IH.
Qed.

Lemma string_app_assoc (s t u : string) : (s ++ t) ++ u = s ++ (t ++ u).
Proof. induction s as [|c r IH]; cbn; [reflexivity | rewrite IH; reflexivity]. Qed.

Lemma string_app_nil (s : string) : s ++ EmptyString = s.
Proof. induction s as [|c r IH]; cbn; [reflexivity | rewrite IH; reflexivity]. Qed.

Lemma readNat_shift (s : string) (a : Z) :
  readNat s a = a * 10 ^ Z.of_nat (String.length s) + readNat s 0.
Proof.
  revert a. induction s as [|c r IH]; intros a.
  - cbn. lia.
  - cbn [readNat String.length]. rewrite IH, (IH (10 * 0 + digitVal c)).
    rewrite Nat2Z.inj_succ, Z.pow_succ_r by lia. ring.
Qed.

(** The digits [showNat_aux] puts in front of its accumulator. *)
Record digitsOf (d : string) (n : Z) : Prop := {
  dg_all : allDigits d = true;
  dg_value : readNat d 0 = n;
  dg_head : match d with
            | EmptyString => False
            | String c r => c = "0"%char -> r = EmptyString /\ n = 0
            end
}.

Lemma showNat_aux_digits (fuel : nat) (n : Z) (acc : string) :
  (0 < fuel)%nat -> 0 <= n < 10 ^ Z.of_nat fuel ->
  exists d, showNat_aux fuel n acc = d ++ acc /\ digitsOf d n.
Proof.
  revert n acc. induction fuel as [|f IH]; intros n acc Hf Hn.
  - lia.
  - cbn [showNat_aux].
    destruct (Z.ltb_spec n 10) as [Hlt|Hge].
    + exists (String (digitChar n) EmptyString).
      rewrite Z.mod_small by lia. split; [reflexivity|].
      destruct (digit_roundtrip n) as [Hd Hv]; [lia|].
      split.
      * cbn [allDigits]. rewrite Hd. reflexivity.
      * cbn [readNat]. rewrite Hv. lia.
      * intros Hc. split; [reflexivity|].
        rewrite <- Hv, Hc. reflexivity.
    + rewrite Nat2Z.inj_succ, Z.pow_succ_r in Hn by lia.
      destruct (IH (n / 10) (String (digitChar (n mod 10)) acc)) as (d & Hd & [Da Dv Dh]).
      { destruct f; [cbn in Hn; lia | lia]. }
      { split; [apply Z.div_pos; lia|]. apply Z.div_lt_upper_bound; lia. }
      exists (d ++ String (digitChar (n mod 10)) EmptyString).
      rewrite Hd, string_app_assoc. split; [reflexivity|].
      destruct (digit_roundtrip (n mod 10)) as [Hd0 Hv0];
        [apply Z.mod_pos_bound; lia|].
      split.
      * rewrite allDigits_app, Da. cbn [allDigits]. rewrite Hd0. reflexivity.
      * rewrite readNat_app, Dv. cbn [readNat]. rewrite Hv0.
        pose proof (Z.div_mod n 10). lia.
      * destruct d as [|c r]; [contradiction|]. cbn [append].
        intros Hc. destruct (Dh Hc) as [_ H0].
        assert (1 <= n / 10) by (apply Z.div_le_lower_bound; lia). lia.
Qed.

Lemma showNat_digits (n : Z) : 0 <= n -> digitsOf (showNat n) n.
Proof.
  intros Hn. unfold showNat.
  destruct (showNat_aux_digits (S (Z.to_nat (Z.log2 n))) n EmptyString) as (d & Hd & D).
  - lia.
  - split; [exact Hn|].
    rewrite Nat2Z.inj_succ, Z2Nat.id by apply Z.log2_nonneg.
    destruct (Z.eq_dec n 0) as [->|Hz]; [cbn; lia|].
    pose proof (Z.log2_spec n ltac:(lia)) as [_ Hl].
    eapply Z.lt_le_trans; [exact Hl|].
    apply Z.pow_le_mono_l. lia.
  - rewrite Hd, string_app_nil. exact D.
Qed.

(** ** Numbers *)

Definition startsNoDigit (s : string) : bool :=
  match s with EmptyString => true | String c _ => negb (isDigit c) end.

Lemma takeDigits_app (d rest : string) :
  allDigits d = true -> startsNoDigit rest = true ->
  takeDigits (d ++ rest) = (d, rest).
Proof.
  intros Hd Hr. induction d as [|c r IH]; cbn [append].
  - destruct rest as [|c r]; [reflexivity|]. cbn [takeDigits startsNoDigit] in *.
    apply negb_true_iff in Hr. rewrite Hr. reflexivity.
  - cbn [allDigits] in Hd. apply andb_prop in Hd. destruct Hd as [Hc Hd].
    cbn [takeDigits]. rewrite Hc, (IH Hd). reflexivity.
Qed.

Lemma takeDigits_all (d : string) :
  allDigits d = true -> takeDigits d = (d, EmptyString).
Proof.
  intros Hd. rewrite <- (string_app_nil d) at 1. apply takeDigits_app; [exact Hd | reflexivity].
Qed.

Lemma norm_canonical (m : Z) (e : nat) : canonical (norm m e) = true.
Proof.
  revert m. induction e as [|e IH]; intros m; cbn [norm]; [reflexivity|].
  destruct (m mod 10 =? 0) eqn:E; [apply IH|].
  cbn [canonical]. rewrite E. reflexivity.
Qed.

Lemma norm_fixed (m : Z) (e : nat) : canonical (Dec m e) = true -> norm m e = Dec m e.
Proof.
  destruct e as [|e]; [reflexivity|]. cbn [canonical norm]. intros H.
  apply negb_true_iff in H. rewrite H. reflexivity.
Qed.

Lemma sign_digit (c : ascii) (r : string) :
  isDigit c = true ->
  match String c r with
  | String "-"%char r0 => (-1, r0)
  | _ => (1, String c r)
  end = (1, String c r).
Proof.
  destruct c as [[] [] [] [] [] [] [] []]; try reflexivity; discriminate.
Qed.

Lemma leading_zero_false (c : ascii) (r : string) :
  (c = "0"%char -> r = EmptyString) ->
  match String c r with
  | String "0"%char (String _ _) => true
  | _ => false
  end = false.
Proof.
  intros H. destruct r as [|c' r'].
  - destruct c as [[] [] [] [] [] [] [] []]; reflexivity.
  - destruct (Ascii.eqb_spec c "0"%char) as [E|E]; [discriminate (H E)|].
    destruct c as [[] [] [] [] [] [] [] []]; try reflexivity.
    exfalso. apply E. reflexivity.
Qed.

(** A digit string standing for a whole number. *)
Definition plain (ip : string) : Prop :=
  allDigits ip = true
  /\ match ip with
     | EmptyString => False
     | String c r => c = "0"%char -> r = EmptyString
     end.

Lemma digitsOf_plain (d : string) (n : Z) : digitsOf d n -> plain d.
Proof.
  intros [Da _ Dh]. split; [exact Da|].
  destruct d as [|c r]; [exact Dh|]. intros Hc. apply (Dh Hc).
Qed.

Lemma plain_head (ip : string) :
  plain ip -> exists c r, ip = String c r /\ isDigit c = true.
Proof.
  intros [Ha Hh]. destruct ip as [|c r]; [contradiction|].
  exists c, r. split; [reflexivity|].
  cbn [allDigits] in Ha. apply andb_prop in Ha. apply Ha.
Qed.

Lemma sign_minus (r : string) :
  match String "-"%char r with
  | String "-"%char r0 => (-1, r0)
  | _ => (1, String "-"%char r)
  end = (-1, r).
Proof. reflexivity. Qed.

Definition minus (neg : bool) : string := if neg then "-" else EmptyString.
Definition signOf (neg : bool) : Z := if neg then -1 else 1.

Lemma jsonNumber_sign (neg : bool) (c : ascii) (r : string) :
  isDigit c = true ->
  match minus neg ++ String c r with
  | String "-"%char r0 => (-1, r0)
  | _ => (1, minus neg ++ String c r)
  end = (signOf neg, String c r).
Proof.
  intros Hc. destruct neg; cbn [minus append signOf].
  - apply sign_minus.
  - apply sign_digit. exact Hc.
Qed.

Lemma jsonNumber_whole (neg : bool) (ip : string) :
  plain ip ->
  jsonNumber (minus neg ++ ip) = Some (Dec (signOf neg * readNat ip 0) 0).
Proof.
  intros Hp. destruct (plain_head ip Hp) as (c & r & -> & Hc).
  destruct Hp as [Ha Hh].
  unfold jsonNumber. rewrite (jsonNumber_sign neg c r Hc).
  rewrite (takeDigits_all _ Ha).
  rewrite (leading_zero_false c r Hh). cbn [isEmpty orb negb finalExponent].
  rewrite string_app_nil. unfold scaled. cbn [String.length Z.of_nat].
  change (0 - 0) with 0. cbn [Z.leb Z.compare]. rewrite Z.pow_0_r.
  do 2 f_equal. lia.
Qed.

Lemma jsonNumber_fraction (neg : bool) (ip fp : string) :
  plain ip -> allDigits fp = true -> fp <> EmptyString ->
  jsonNumber (minus neg ++ ip ++ String "." fp)
  = Some (scaled (signOf neg * readNat (ip ++ fp) 0)
                 (- Z.of_nat (String.length fp))).
Proof.
  intros Hp Hf Hne. destruct (plain_head ip Hp) as (c & r & -> & Hc).
  destruct Hp as [Ha Hh].
  unfold jsonNumber. cbn [append].
  rewrite (jsonNumber_sign neg c _ Hc).
  change (String c (r ++ String "." fp)) with (String c r ++ String "." fp).
  rewrite (takeDigits_app (String c r) (String "." fp) Ha eq_refl).
  rewrite (leading_zero_false c r Hh). cbn [isEmpty orb].
  rewrite (takeDigits_all _ Hf).
  destruct fp as [|f0 fr]; [congruence|]. cbn [isEmpty negb finalExponent].
  reflexivity.
Qed.

(** *** Padding and cutting the digits *)

Lemma allDigits_replicate (n : nat) : allDigits (replicate n "0") = true.
Proof. induction n as [|n IH]; [reflexivity|]. cbn [replicate allDigits]. exact IH. Qed.

Lemma readNat_replicate (n : nat) (d : string) :
  readNat (replicate n "0" ++ d) 0 = readNat d 0.
Proof. induction n as [|n IH]; [reflexivity|]. cbn [replicate append readNat]. exact IH. Qed.

Lemma length_replicate (n : nat) (c : ascii) : String.length (replicate n c) = n.
Proof. induction n as [|n IH]; cbn; [reflexivity | rewrite IH; reflexivity]. Qed.

Lemma substring_split (s : string) (k : nat) :
  (k <= String.length s)%nat ->
  substring 0 k s ++ substring k (String.length s - k) s = s.
Proof.
  revert k. induction s as [|c r IH]; intros k Hk.
  - cbn in Hk. assert (k = 0)%nat by lia. subst. reflexivity.
  - destruct k as [|k].
    + cbn [substring append String.length Nat.sub]. f_equal.
      clear. induction r as [|c r IH]; [reflexivity|].
      cbn [String.length substring]. f_equal. exact IH.
    + cbn [substring append String.length Nat.sub]. f_equal.
      apply IH. cbn in Hk. lia.
Qed.

Lemma substring_length (s : string) (n k : nat) :
  (n + k <= String.length s)%nat -> String.length (substring n k s) = k.
Proof.
  revert n k. induction s as [|c r IH]; intros n k H.
  - cbn in H. assert (n = 0 /\ k = 0)%nat as [-> ->] by lia. reflexivity.
  - destruct n as [|n].
    + destruct k as [|k]; [reflexivity|].
      cbn [substring String.length]. f_equal. apply IH. cbn in H. lia.
    + cbn [substring]. apply IH. cbn in H. lia.
Qed.

Lemma allDigits_substring (s : string) (n k : nat) :
  allDigits s = true -> allDigits (substring n k s) = true.
Proof.
  revert n k. induction s as [|c r IH]; intros n k H.
  - destruct n, k; reflexivity.
  - cbn [allDigits] in H. apply andb_prop in H. destruct H as [Hc Hr].
    destruct n as [|n].
    + destruct k as [|k]; [reflexivity|].
      cbn [substring allDigits]. rewrite Hc. apply IH. exact Hr.
    + cbn [substring]. apply IH. exact Hr.
Qed.

Fixpoint allChars (p : ascii -> bool) (s : string) : bool :=
  match s with
  | EmptyString => true
  | String c r => p c && allChars p r
  end.

Lemma allChars_app (p : ascii -> bool) (s t : string) :
  allChars p (s ++ t) = allChars p s && allChars p t.
Proof.
  induction s as [|c r IH]; cbn [append allChars]; [reflexivity|].
  rewrite IH. apply andb_assoc.
Qed.

Lemma digits_numberChars (d : string) :
  allDigits d = true -> allChars isNumberChar d = true.
Proof.
  induction d as [|c r IH]; [reflexivity|]. cbn [allDigits allChars].
  intros H. apply andb_prop in H. destruct H as [Hc Hr].
  unfold isNumberChar at 1. rewrite Hc, (IH Hr). reflexivity.
Qed.

(** What the lexer takes for a number: digits, with an optional minus sign
    in front and an optional fraction. *)
Record numeral (t : string) (x : jsnum) : Prop := {
  nm_chars : allChars isNumberChar t = true;
  nm_head : exists c r, t = String c r /\ (isDigit c || Ascii.eqb c "-") = true;
  nm_value : jsonNumber t = Some x
}.

Lemma minus_chars (neg : bool) : allChars isNumberChar (minus neg) = true.
Proof. destruct neg; reflexivity. Qed.

Lemma minus_head (neg : bool) (c : ascii) (r : string) :
  isDigit c = true ->
  exists c' r', minus neg ++ String c r = String c' r'
                /\ (isDigit c' || Ascii.eqb c' "-") = true.
Proof.
  intros Hc. destruct neg; cbn [minus append].
  - eexists. eexists. split; reflexivity.
  - exists c, r. split; [reflexivity|]. rewrite Hc. reflexivity.
Qed.

Lemma sign_abs (m : Z) : signOf (m <? 0) * Z.abs m = m.
Proof. unfold signOf. destruct (Z.ltb_spec m 0); lia. Qed.

Lemma numToString_numeral (m : Z) (e : nat) :
  numeral (numToString (Dec m e)) (norm m e).
Proof.
  unfold numToString.
  pose proof (norm_canonical m e) as Hcan.
  destruct (norm m e) as [| |m' e'] eqn:En; try discriminate.
  destruct e' as [|e''].
  - (* a whole number *)
    assert (Hs : showInt m' = minus (m' <? 0) ++ showNat (Z.abs m')).
    { unfold showInt, minus. destruct (Z.ltb_spec m' 0).
      - rewrite Z.abs_neq by lia. reflexivity.
      - rewrite Z.abs_eq by lia. reflexivity. }
    rewrite Hs.
    pose proof (showNat_digits (Z.abs m') (Z.abs_nonneg m')) as D.
    pose proof (digitsOf_plain _ _ D) as P.
    destruct (plain_head _ P) as (c & r & E & Hc).
    split.
    + rewrite allChars_app, minus_chars. apply digits_numberChars, D.
    + rewrite E. apply minus_head. exact Hc.
    + rewrite (jsonNumber_whole _ _ P), (dg_value _ _ D), sign_abs. reflexivity.
  - (* a fraction *)
    set (e' := S e'') in *.
    set (sh := showNat (Z.abs m')).
    pose proof (showNat_digits (Z.abs m') (Z.abs_nonneg m')) as D. fold sh in D.
    assert (Hm : m' mod 10 <> 0).
    { cbn [canonical] in Hcan. apply negb_true_iff in Hcan. lia. }
    assert (Ha : Z.abs m' <> 0) by (intros H0; apply Hm; assert (m' = 0) by lia; subst; reflexivity).
    cbv zeta.
    set (ds := padZeros (S e') sh).
    assert (Eds : ds = replicate (S e' - String.length sh) "0" ++ sh) by reflexivity.
    assert (HL : (S e' <= String.length ds)%nat).
    { rewrite Eds, append_length, length_replicate. lia. }
    set (k := (String.length ds - e')%nat).
    assert (Hall : allDigits ds = true).
    { rewrite Eds, allDigits_app, allDigits_replicate. apply D. }
    set (ip := substring 0 k ds). set (fp := substring k e' ds).
    assert (Hsplit : ip ++ fp = ds).
    { unfold ip, fp.
      assert (Ee : e' = (String.length ds - k)%nat) by (unfold k; lia).
      rewrite Ee at 1. apply substring_split. unfold k. lia. }
    assert (Hlen : String.length fp = e').
    { unfold fp. apply substring_length. unfold k. lia. }
    assert (Hfp : allDigits fp = true) by (apply allDigits_substring; exact Hall).
    assert (Hip : plain ip).
    { split; [apply allDigits_substring; exact Hall|].
      destruct (Nat.le_gt_cases (S e') (String.length sh)) as [Hge|Hlt].
      - (* no padding: the digits of a positive number *)
        assert (Esh : ds = sh).
        { rewrite Eds. replace (S e' - String.length sh)%nat with 0%nat by lia.
          reflexivity. }
        unfold ip. rewrite Esh.
        destruct D as [_ _ Dh]. destruct sh as [|c r]; [contradiction|].
        assert (Hk : exists k', k = S k').
        { exists (String.length ds - e' - 1)%nat. unfold k. lia. }
        destruct Hk as (k' & ->). cbn [substring].
        intros Hc. destruct (Dh Hc) as [_ H0]. contradiction.
      - (* padded to one digit before the point *)
        assert (Hk : k = 1%nat).
        { unfold k. rewrite Eds, append_length, length_replicate. lia. }
        unfold ip. rewrite Hk.
        destruct ds as [|c r]; [cbn in HL; lia|].
        cbn [substring]. destruct r; intros _; reflexivity. }
    change ("." ++ fp) with (String "." fp).
    fold (minus (m' <? 0)).
    destruct (plain_head _ Hip) as (c & r & E & Hc).
    split.
    + rewrite !allChars_app, minus_chars. cbn [allChars andb].
      rewrite (digits_numberChars _ (proj1 Hip)), (digits_numberChars _ Hfp).
      reflexivity.
    + rewrite E. cbn [append]. apply minus_head. exact Hc.
    + rewrite (jsonNumber_fraction _ _ _ Hip Hfp).
      2:{ intros H0. rewrite H0 in Hlen. discriminate. }
      rewrite Hsplit, Hlen, Eds, readNat_replicate, (dg_value _ _ D), sign_abs.
      unfold scaled, e'. 
      replace (0 <=? - Z.of_nat (S e'')) with false by (symmetry; apply Z.leb_gt; lia).
      replace (Z.to_nat (- - Z.of_nat (S e''))) with (S e'') by lia.
      fold e'. rewrite (norm_fixed _ _ Hcan). reflexivity.
Qed.

(** ** The lexer on serialised text *)

Lemma prepend_nil (X : option (list token)) : option_map (app []) X = X.
Proof. destruct X; reflexivity. Qed.

Lemma prepend_app (a b : list token) (X : option (list token)) :
  option_map (app a) (option_map (app b) X) = option_map (app (a ++ b)) X.
Proof. destruct X; cbn; [rewrite app_assoc|]; reflexivity. Qed.

(** Text that ends a pending number or word. *)
Definition delimited (rest : string) : bool :=
  match rest with
  | EmptyString => true
  | String c _ => negb (isNumberChar c) && negb (isWordChar c)
  end.

Lemma lex_number_chars (t s rest : string) :
  allChars isNumberChar s = true ->
  lexFrom (InNumber t) (s ++ rest) = lexFrom (InNumber (t ++ s)) rest.
Proof.
  revert t. induction s as [|c r IH]; intros t H.
  - rewrite string_app_nil. reflexivity.
  - cbn [allChars] in H. apply andb_prop in H. destruct H as [Hc Hr].
    cbn [append lexFrom step]. rewrite Hc, prepend_nil, (IH _ Hr).
    unfold snoc. rewrite string_app_assoc. reflexivity.
Qed.

Lemma lex_number_end (t rest : string) (x : jsnum) :
  jsonNumber t = Some x -> delimited rest = true ->
  lexFrom (InNumber t) rest = option_map (app [TNumber x]) (lexFrom Idle rest).
Proof.
  intros Hx Hd. destruct rest as [|c r].
  - cbn [lexFrom finish]. rewrite Hx. reflexivity.
  - cbn [delimited] in Hd. apply andb_prop in Hd. destruct Hd as [Hn _].
    apply negb_true_iff in Hn.
    cbn [lexFrom step]. rewrite Hn, Hx.
    destruct (idleStep c) as [[m' ts]|]; [|reflexivity].
    rewrite prepend_app. reflexivity.
Qed.

Lemma idle_number (c : ascii) :
  (isDigit c || Ascii.eqb c "-") = true ->
  idleStep c = Some (InNumber (String c EmptyString), []).
Proof.
  destruct c as [[] [] [] [] [] [] [] []]; intros H;
    first [ reflexivity | vm_compute in H; discriminate H ].
Qed.

Lemma lex_number (t rest : string) (x : jsnum) :
  numeral t x -> delimited rest = true ->
  lexFrom Idle (t ++ rest) = option_map (app [TNumber x]) (lexFrom Idle rest).
Proof.
  intros [Hc (c & r & -> & Hh) Hv] Hd.
  cbn [allChars] in Hc. apply andb_prop in Hc. destruct Hc as [_ Hr].
  cbn [append lexFrom step]. rewrite (idle_number c Hh), prepend_nil.
  rewrite (lex_number_chars _ _ _ Hr). cbn [append].
  apply lex_number_end; assumption.
Qed.

Lemma lex_word_end (t rest : string) (w : token) :
  jsonWord t = Some w -> delimited rest = true ->
  lexFrom (InWord t) rest = option_map (app [w]) (lexFrom Idle rest).
Proof.
  intros Hx Hd. destruct rest as [|c r].
  - cbn [lexFrom finish]. rewrite Hx. reflexivity.
  - cbn [delimited] in Hd. apply andb_prop in Hd. destruct Hd as [_ Hn].
    apply negb_true_iff in Hn.
    cbn [lexFrom step]. rewrite Hn, Hx.
    destruct (idleStep c) as [[m' ts]|]; [|reflexivity].
    rewrite prepend_app. reflexivity.
Qed.

Lemma lex_null (rest : string) :
  delimited rest = true ->
  lexFrom Idle ("null" ++ rest) = option_map (app [TNull]) (lexFrom Idle rest).
Proof.
  intros Hd.
  change (lexFrom Idle ("null" ++ rest))
    with (option_map (app []) (option_map (app []) (option_map (app [])
           (option_map (app []) (lexFrom (InWord "null") rest))))).
  rewrite !prepend_nil. apply lex_word_end; [reflexivity | exact Hd].
Qed.

Lemma lex_true (rest : string) :
  delimited rest = true ->
  lexFrom Idle ("true" ++ rest) = option_map (app [TTrue]) (lexFrom Idle rest).
Proof.
  intros Hd.
  change (lexFrom Idle ("true" ++ rest))
    with (option_map (app []) (option_map (app []) (option_map (app [])
           (option_map (app []) (lexFrom (InWord "true") rest))))).
  rewrite !prepend_nil. apply lex_word_end; [reflexivity | exact Hd].
Qed.

Lemma lex_false (rest : string) :
  delimited rest = true ->
  lexFrom Idle ("false" ++ rest) = option_map (app [TFalse]) (lexFrom Idle rest).
Proof.
  intros Hd.
  change (lexFrom Idle ("false" ++ rest))
    with (option_map (app []) (option_map (app []) (option_map (app [])
           (option_map (app []) (option_map (app [])
             (lexFrom (InWord "false") rest)))))).
  rewrite !prepend_nil. apply lex_word_end; [reflexivity | exact Hd].
Qed.

(** *** Strings *)

(** The mode reached and the tokens completed by a piece of text. *)
Fixpoint run (m : mode) (s : string) : option (mode * list token) :=
  match s with
  | EmptyString => Some (m, [])
  | String c r =>
      match step m c with
      | None => None
      | Some (m', ts) =>
          match run m' r with
          | None => None
          | Some (m'', ts') => Some (m'', List.app ts ts')
          end
      end
  end.

Lemma lexFrom_run (m : mode) (s r : string) :
  lexFrom m (s ++ r)
  = match run m s with
    | None => None
    | Some (m', ts) => option_map (app ts) (lexFrom m' r)
    end.
Proof.
  revert m. induction s as [|c s IH]; intros m; cbn [append run lexFrom].
  - rewrite prepend_nil. reflexivity.
  - destruct (step m c) as [[m' ts]|]; [|reflexivity].
    rewrite IH. destruct (run m' s) as [[m'' ts']|]; [|reflexivity].
    apply prepend_app.
Qed.

Lemma run_escapeChar (c : ascii) (acc : string) :
  run (InString acc) (escapeChar c) = Some (InString (snoc acc c), []).
Proof.
  destruct c as [[] [] [] [] [] [] [] []]; vm_compute; reflexivity.
Qed.

Lemma lex_escapeChar (c : ascii) (acc r : string) :
  lexFrom (InString acc) (escapeChar c ++ r) = lexFrom (InString (snoc acc c)) r.
Proof. rewrite lexFrom_run, run_escapeChar. apply prepend_nil. Qed.

Lemma lex_escape (s acc r : string) :
  lexFrom (InString acc) (escape s ++ r) = lexFrom (InString (acc ++ s)) r.
Proof.
  revert acc. induction s as [|c s IH]; intros acc; cbn [escape append].
  - rewrite string_app_nil. reflexivity.
  - rewrite string_app_assoc, lex_escapeChar, IH. unfold snoc.
    rewrite string_app_assoc. reflexivity.
Qed.

Lemma lex_string (s rest : string) :
  lexFrom Idle (quote s ++ rest)
  = option_map (app [TString s]) (lexFrom Idle rest).
Proof.
  unfold quote. cbn [append].
  change (lexFrom Idle (String dquote ((escape s ++ String dquote EmptyString) ++ rest)))
    with (option_map (app [])
            (lexFrom (InString EmptyString)
               ((escape s ++ String dquote EmptyString) ++ rest))).
  rewrite prepend_nil, string_app_assoc, lex_escape. reflexivity.
Qed.

(** *** Values *)

Fixpoint sepToks (l : list (list token)) : list token :=
  match l with
  | [] => []
  | [x] => x
  | x :: r => List.app x (TComma :: sepToks r)
  end.

(** The tokens of the text of a value. *)
Fixpoint toks (v : JValue) : list token :=
  match v with
  | JUndefined | JNull => [TNull]
  | JBool b => [if b then TTrue else TFalse]
  | JNum (Dec m e) => [TNumber (norm m e)]
  | JNum _ => [TNull]
  | JStr s => [TString s]
  | JArr l =>
      match l with
      | [] => [TLBracket; TRBracket]
      | _ => TLBracket :: List.app (sepToks (map toks l)) [TRBracket]
      end
  | JObj fs =>
      let ms :=
        (fix go (fs : list (string * JValue)) : list (list token) :=
           match fs with
           | [] => []
           | (k, JUndefined) :: r => go r
           | (k, x) :: r => (TString k :: TColon :: toks x) :: go r
           end) fs in
      match ms with
      | [] => [TLBrace; TRBrace]
      | _ => TLBrace :: List.app (sepToks ms) [TRBrace]
      end
  end.

(** The properties that are written: those with a defined value. *)
Definition written (v : JValue) : bool :=
  match v with JUndefined => false | _ => true end.

Definition present (fs : list (string * JValue)) : list (string * JValue) :=
  filter (fun kv => written (snd kv)) fs.

Definition memberText (gap inner : nat) (kv : string * JValue) : string :=
  quote (fst kv) ++ colon gap ++ ser gap inner (snd kv).

Definition memberToks (kv : string * JValue) : list token :=
  TString (fst kv) :: TColon :: toks (snd kv).

Lemma ser_object (gap cur : nat) (fs : list (string * JValue)) :
  ser gap cur (JObj fs)
  = match map (memberText gap (cur + gap)) (present fs) with
    | [] => "{}"
    | ms => "{" ++ breakLine gap (cur + gap)
            ++ join ("," ++ breakLine gap (cur + gap)) ms
            ++ breakLine gap cur ++ "}"
    end.
Proof.
  cbn [ser].
  match goal with
  | |- match ?a with _ => _ end = match ?b with _ => _ end =>
      assert (E : a = b); [|rewrite E; destruct b; reflexivity]
  end.
  induction fs as [|[k x] r IH]; [reflexivity|].
  destruct x; cbn [present filter snd written map]; rewrite IH; reflexivity.
Qed.

Lemma toks_object (fs : list (string * JValue)) :
  toks (JObj fs)
  = match map memberToks (present fs) with
    | [] => [TLBrace; TRBrace]
    | ms => TLBrace :: List.app (sepToks ms) [TRBrace]
    end.
Proof.
  cbn [toks].
  match goal with
  | |- match ?a with _ => _ end = match ?b with _ => _ end =>
      assert (E : a = b); [|rewrite E; destruct b; reflexivity]
  end.
  induction fs as [|[k x] r IH]; [reflexivity|].
  destruct x; cbn [present filter snd written map]; rewrite IH; reflexivity.
Qed.

(** A piece of text that the lexer turns into given tokens, whatever
    delimited text follows. *)
Definition lexes (text : string) (ts : list token) : Prop :=
  forall rest, delimited rest = true ->
    lexFrom Idle (text ++ rest) = option_map (app ts) (lexFrom Idle rest).

Lemma lex_breakLine (gap cur : nat) (r : string) :
  lexFrom Idle (breakLine gap cur ++ r) = lexFrom Idle r.
Proof.
  destruct gap as [|g]; [reflexivity|]. cbn [breakLine append].
  change (lexFrom Idle (String newline (replicate cur " " ++ r)))
    with (option_map (app []) (lexFrom Idle (replicate cur " " ++ r))).
  rewrite prepend_nil.
  induction cur as [|n IH]; [reflexivity|]. cbn [replicate append].
  change (lexFrom Idle (String " " (replicate n " " ++ r)))
    with (option_map (app []) (lexFrom Idle (replicate n " " ++ r))).
  rewrite prepend_nil. exact IH.
Qed.

Lemma lex_separator (gap cur : nat) (r : string) :
  lexFrom Idle (("," ++ breakLine gap cur) ++ r)
  = option_map (app [TComma]) (lexFrom Idle r).
Proof.
  cbn [append].
  change (lexFrom Idle (String "," (breakLine gap cur ++ r)))
    with (option_map (app [TComma]) (lexFrom Idle (breakLine gap cur ++ r))).
  rewrite lex_breakLine. reflexivity.
Qed.

Lemma lex_colon (gap : nat) (r : string) :
  lexFrom Idle (colon gap ++ r) = option_map (app [TColon]) (lexFrom Idle r).
Proof.
  destruct gap; cbn [colon append].
  - reflexivity.
  - change (lexFrom Idle (String ":" (String " " r)))
      with (option_map (app [TColon]) (option_map (app []) (lexFrom Idle r))).
    rewrite prepend_nil. reflexivity.
Qed.

Lemma delimited_breakLine (gap cur : nat) (c : ascii) (r : string) :
  delimited (String c r) = true ->
  delimited (breakLine gap cur ++ String c r) = true.
Proof. intros H. destruct gap; [exact H | reflexivity]. Qed.

Lemma lex_joined (sep close : string) (L : list (string * list token)) :
  Forall (fun e => lexes (fst e) (snd e)) L ->
  (forall r, lexFrom Idle (sep ++ r) = option_map (app [TComma]) (lexFrom Idle r)) ->
  (forall r, delimited (sep ++ r) = true) ->
  delimited close = true ->
  L <> [] ->
  lexFrom Idle (join sep (map fst L) ++ close)
  = option_map (app (sepToks (map snd L))) (lexFrom Idle close).
Proof.
  intros HL Hsep Hdel Hclose. induction HL as [|[t ts] L Ht HL IH]; [congruence|].
  intros _. cbn [map fst snd] in *.
  destruct L as [|e L'].
  - cbn [map join sepToks]. apply Ht. exact Hclose.
  - change (join sep (t :: map fst (e :: L')))
      with (t ++ sep ++ join sep (map fst (e :: L'))).
    change (sepToks (ts :: map snd (e :: L')))
      with (List.app ts (TComma :: sepToks (map snd (e :: L')))).
    rewrite !string_app_assoc, (Ht _ (Hdel _)), Hsep, IH by discriminate.
    rewrite !prepend_app, <- app_assoc. reflexivity.
Qed.

Lemma lexes_member (gap inner : nat) (kv : string * JValue) :
  lexes (ser gap inner (snd kv)) (toks (snd kv)) ->
  lexes (memberText gap inner kv) (memberToks kv).
Proof.
  intros H rest Hd. unfold memberText, memberToks.
  rewrite !string_app_assoc, lex_string, lex_colon, (H _ Hd), !prepend_app.
  reflexivity.
Qed.

Lemma lex_close (gap cur : nat) (c : ascii) (t : token) (rest : string) :
  lexFrom Idle (String c rest) = option_map (app [t]) (lexFrom Idle rest) ->
  lexFrom Idle (breakLine gap cur ++ String c rest)
  = option_map (app [t]) (lexFrom Idle rest).
Proof. intros H. rewrite lex_breakLine. exact H. Qed.

Lemma delimited_separator (gap cur : nat) (r : string) :
  delimited (("," ++ breakLine gap cur) ++ r) = true.
Proof. reflexivity. Qed.

(** The lexer reads the text of a value as the tokens of the value. *)
Lemma lex_ser (v : JValue) :
  forall gap cur, lexes (ser gap cur v) (toks v).
Proof.
  induction v as [| |b|x|s|l IH|fs IH] using JValue_ind; intros gap cur rest Hd.
  - apply lex_null. exact Hd.
  - apply lex_null. exact Hd.
  - destruct b; [apply lex_true | apply lex_false]; exact Hd.
  - destruct x as [| |m e]; cbn [ser serNum isFinite toks].
    + apply lex_null. exact Hd.
    + apply lex_null. exact Hd.
    + apply lex_number; [apply numToString_numeral | exact Hd].
  - apply lex_string.
  - destruct l as [|x l'].
    + cbn [ser toks append].
      change (lexFrom Idle (String "[" (String "]" rest)))
        with (option_map (app [TLBracket])
                (option_map (app [TRBracket]) (lexFrom Idle rest))).
      apply prepend_app.
    + set (l := x :: l') in *.
      change (ser gap cur (JArr l))
        with ("[" ++ breakLine gap (cur + gap)
              ++ join ("," ++ breakLine gap (cur + gap))
                   (map (ser gap (cur + gap)) l)
              ++ breakLine gap cur ++ "]").
      change (toks (JArr l))
        with (TLBracket :: List.app (sepToks (map toks l)) [TRBracket]).
      rewrite !string_app_assoc. cbn [append].
      change (lexFrom Idle (String "[" ?r))
        with (option_map (app [TLBracket]) (lexFrom Idle r)).
      rewrite lex_breakLine.
      set (L := map (fun v => (ser gap (cur + gap) v, toks v)) l).
      assert (E1 : map (ser gap (cur + gap)) l = map fst L)
        by (unfold L; rewrite map_map; reflexivity).
      assert (E2 : map toks l = map snd L)
        by (unfold L; rewrite map_map; reflexivity).
      rewrite E1, E2.
      rewrite (lex_joined _ (breakLine gap cur ++ String "]" rest) L).
      * rewrite (lex_close gap cur "]" TRBracket rest eq_refl), !prepend_app.
        reflexivity.
      * unfold L. apply Forall_map. cbn [fst snd].
        eapply Forall_impl; [|exact IH]. intros v Hv. apply Hv.
      * intros r. apply lex_separator.
      * intros r. apply delimited_separator.
      * apply delimited_breakLine. reflexivity.
      * unfold L, l. discriminate.
  - rewrite ser_object, toks_object.
    assert (HP : Forall (fun kv => lexes (memberText gap (cur + gap) kv) (memberToks kv))
                   (present fs)).
    { unfold present. apply Forall_forall. intros kv Hin.
      apply filter_In in Hin. destruct Hin as [Hin _].
      apply lexes_member. rewrite Forall_forall in IH. apply (IH kv Hin). }
    destruct (present fs) as [|kv ms] eqn:Ep.
    + cbn [map append].
      change (lexFrom Idle (String "{" (String "}" rest)))
        with (option_map (app [TLBrace])
                (option_map (app [TRBrace]) (lexFrom Idle rest))).
      apply prepend_app.
    + cbn [map].
      set (L := map (fun kv => (memberText gap (cur + gap) kv, memberToks kv))
                  (kv :: ms)).
      assert (E1 : memberText gap (cur + gap) kv
                   :: map (memberText gap (cur + gap)) ms = map fst L)
        by (unfold L; cbn [map fst]; rewrite map_map; reflexivity).
      assert (E2 : memberToks kv :: map memberToks ms = map snd L)
        by (unfold L; cbn [map snd]; rewrite map_map; reflexivity).
      rewrite E1, E2.
      rewrite !string_app_assoc. cbn [append].
      change (lexFrom Idle (String "{" ?r))
        with (option_map (app [TLBrace]) (lexFrom Idle r)).
      rewrite lex_breakLine.
      rewrite (lex_joined _ (breakLine gap cur ++ String "}" rest) L).
      * rewrite (lex_close gap cur "}" TRBrace rest eq_refl), !prepend_app.
        reflexivity.
      * unfold L. apply Forall_map. cbn [fst snd]. exact HP.
      * intros r. apply lex_separator.
      * intros r. apply delimited_separator.
      * apply delimited_breakLine. reflexivity.
      * unfold L. discriminate.
Qed.

Lemma lex_text (gap : nat) (v : JValue) : lex (ser gap 0 v) = Some (toks v).
Proof.
  unfold lex. rewrite <- (string_app_nil (ser gap 0 v)).
  rewrite (lex_ser v gap 0 EmptyString eq_refl). cbn [lexFrom finish option_map].
  rewrite app_nil_r. reflexivity.
Qed.

(** ** The parser on the tokens of a value *)

Lemma clone_object (fs : list (string * JValue)) :
  clone (JObj fs)
  = JObj (build (map (fun kv => (fst kv, clone (snd kv))) (present fs))).
Proof.
  cbn [clone]. do 2 f_equal.
  induction fs as [|[k x] r IH]; [reflexivity|].
  destruct x; cbn [present filter snd fst written map]; rewrite IH; reflexivity.
Qed.

Lemma toks_head (v : JValue) :
  exists t ts, toks v = t :: ts /\ t <> TRBracket.
Proof.
  destruct v as [| |b|x|s|l|fs].
  - eexists. eexists. split; [reflexivity | discriminate].
  - eexists. eexists. split; [reflexivity | discriminate].
  - eexists. eexists. split; [reflexivity | destruct b; discriminate].
  - destruct x; (eexists; eexists; split; [reflexivity | discriminate]).
  - eexists. eexists. split; [reflexivity | discriminate].
  - destruct l; (eexists; eexists; split; [reflexivity | discriminate]).
  - rewrite toks_object. destruct (map memberToks (present fs));
      (eexists; eexists; split; [reflexivity | discriminate]).
Qed.

Lemma parse_array (f : nat) (t : token) (r : list token) :
  t <> TRBracket ->
  parseValue (S f) (TLBracket :: t :: r)
  = match parseItems f (t :: r) with
    | Some (vs, r') => Some (JArr vs, r')
    | None => None
    end.
Proof. intros H. destruct t; try reflexivity. congruence. Qed.

(** A value whose tokens the parser reads back as its copy, given fuel for
    them. *)
Definition parses (v : JValue) : Prop :=
  forall fuel rest, (List.length (toks v) <= fuel)%nat ->
    parseValue fuel (List.app (toks v) rest) = Some (clone v, rest).

Lemma sepToks_cons (x : list token) (y : list token) (r : list (list token)) :
  sepToks (x :: y :: r) = List.app x (TComma :: sepToks (y :: r)).
Proof. reflexivity. Qed.

Lemma parse_items (l : list JValue) :
  Forall parses l -> l <> [] ->
  forall fuel rest,
    (List.length (sepToks (map toks l)) + 1 <= fuel)%nat ->
    parseItems fuel (List.app (sepToks (map toks l)) (TRBracket :: rest))
    = Some (map clone l, rest).
Proof.
  intros H. induction H as [|v l Hv Hl IH]; [congruence|]. intros _ fuel rest Hf.
  destruct fuel as [|f]; [lia|].
  destruct l as [|v' l'].
  - cbn [map sepToks] in *. cbn [parseItems].
    rewrite (Hv f (TRBracket :: rest)) by lia. reflexivity.
  - cbn [map] in *. rewrite sepToks_cons in *. rewrite length_app in Hf.
    cbn [List.length] in Hf.
    rewrite <- app_assoc. cbn [parseItems].
    rewrite (Hv f) by lia. cbn [List.app].
    rewrite IH by (try discriminate; lia). reflexivity.
Qed.

Lemma parse_members (pf : list (string * JValue)) :
  Forall (fun kv => parses (snd kv)) pf -> pf <> [] ->
  forall fuel rest,
    (List.length (sepToks (map memberToks pf)) + 1 <= fuel)%nat ->
    parseMembers fuel (List.app (sepToks (map memberToks pf)) (TRBrace :: rest))
    = Some (map (fun kv => (fst kv, clone (snd kv))) pf, rest).
Proof.
  intros H. induction H as [|[k x] l Hv Hl IH]; [congruence|]. intros _ fuel rest Hf.
  destruct fuel as [|f]; [lia|]. cbn [snd fst] in Hv.
  destruct l as [|kv' l'].
  - cbn [map sepToks] in *. unfold memberToks in *.
    cbn [fst snd List.length app] in *. cbn [parseMembers].
    rewrite (Hv f (TRBrace :: rest)) by lia. reflexivity.
  - cbn [map] in *. rewrite sepToks_cons in *. rewrite length_app in Hf.
    unfold memberToks at 1 in Hf. unfold memberToks at 1.
    cbn [List.length fst snd] in Hf. cbn [fst snd].
    rewrite <- app_assoc. cbn [app]. cbn [parseMembers].
    rewrite (Hv f) by lia.
    rewrite IH by (try discriminate; lia). reflexivity.
Qed.

Lemma parse_object (f : nat) (k : string) (r : list token) :
  parseValue (S f) (TLBrace :: TString k :: r)
  = match parseMembers f (TString k :: r) with
    | Some (ms, r') => Some (JObj (build ms), r')
    | None => None
    end.
Proof. reflexivity. Qed.

Lemma sepToks_head (x : list token) (r : list (list token)) :
  exists tl, sepToks (x :: r) = List.app x tl.
Proof.
  destruct r as [|y r].
  - exists []. cbn [sepToks]. rewrite app_nil_r. reflexivity.
  - eexists. apply sepToks_cons.
Qed.

Lemma toks_length (v : JValue) : (1 <= List.length (toks v))%nat.
Proof. destruct (toks_head v) as (t & ts & E & _). rewrite E. cbn. lia. Qed.

(** The parser reads the tokens of a value back as its copy. *)
Lemma parse_toks (v : JValue) : parses v.
Proof.
  induction v as [| |b|x|s|l IH|fs IH] using JValue_ind; intros fuel rest Hf.
  - destruct fuel; [cbn in Hf; lia | reflexivity].
  - destruct fuel; [cbn in Hf; lia | reflexivity].
  - destruct fuel; [cbn in Hf; lia | destruct b; reflexivity].
  - destruct fuel; [pose proof (toks_length (JNum x)); lia|].
    destruct x; reflexivity.
  - destruct fuel; [cbn in Hf; lia | reflexivity].
  - destruct l as [|x l'].
    + destruct fuel; [cbn in Hf; lia | reflexivity].
    + set (l := x :: l') in *.
      change (toks (JArr l))
        with (TLBracket :: List.app (sepToks (map toks l)) [TRBracket]) in *.
      cbn [List.length] in Hf. rewrite length_app in Hf. cbn [List.length] in Hf.
      destruct fuel as [|f]; [lia|].
      cbn [app]. rewrite <- app_assoc. cbn [app].
      destruct (toks_head x) as (t & ts & Ex & Ht).
      destruct (sepToks_head (toks x) (map toks l')) as (tl & Es).
      assert (E : List.app (sepToks (map toks l)) (TRBracket :: rest)
                  = t :: List.app (List.app ts tl) (TRBracket :: rest)).
      { unfold l. cbn [map]. rewrite Es, Ex. cbn [app].
        rewrite <- !app_assoc. reflexivity. }
      rewrite E, (parse_array f t _ Ht), <- E.
      rewrite (parse_items l IH) by (try (unfold l; discriminate); lia).
      reflexivity.
  - rewrite toks_object in *. rewrite clone_object.
    assert (HP : Forall (fun kv => parses (snd kv)) (present fs)).
    { unfold present. apply Forall_forall. intros kv Hin.
      apply filter_In in Hin. destruct Hin as [Hin _].
      rewrite Forall_forall in IH. apply (IH kv Hin). }
    destruct (present fs) as [|kv ms] eqn:Ep.
    + destruct fuel; [cbn in Hf; lia | reflexivity].
    + cbn [map] in *.
      cbn [List.length] in Hf. rewrite length_app in Hf. cbn [List.length] in Hf.
      destruct fuel as [|f]; [lia|].
      cbn [app]. rewrite <- app_assoc. cbn [app].
      destruct (sepToks_head (memberToks kv) (map memberToks ms)) as (tl & Es).
      assert (E : List.app (sepToks (memberToks kv :: map memberToks ms))
                    (TRBrace :: rest)
                  = TString (fst kv)
                    :: List.app (List.app (TColon :: toks (snd kv)) tl)
                         (TRBrace :: rest)).
      { rewrite Es. unfold memberToks. cbn [app]. rewrite <- !app_assoc.
        reflexivity. }
      rewrite E, parse_object, <- E.
      change (memberToks kv :: map memberToks ms)
        with (map memberToks (kv :: ms)).
      rewrite (parse_members (kv :: ms) HP) by (try discriminate; cbn [map]; lia).
      reflexivity.
Qed.

(** JSON.parse of the text of a value returns a copy of the value. *)
Theorem parse_ser (gap : nat) (v : JValue) :
  parse (ser gap 0 v) = Some (clone v).
Proof.
  unfold parse. rewrite lex_text.
  rewrite <- (app_nil_r (toks v)) at 2.
  rewrite (parse_toks v) by lia. reflexivity.
Qed.

(** ** Copies of values with distinct keys *)

Definition absent (k : string) (fs : list (string * JValue)) : bool :=
  negb (existsb (fun kv => String.eqb k (fst kv)) fs).

Fixpoint distinct (fs : list (string * JValue)) : bool :=
  match fs with
  | [] => true
  | (k, _) :: r => absent k r && distinct r
  end.



Lemma absent_app (k : string) (a b : list (string * JValue)) :
  absent k (List.app a b) = absent k a && absent k b.
Proof. unfold absent. rewrite existsb_app, negb_orb. reflexivity. Qed.

Lemma assign_absent (k : string) (v : JValue) (fs : list (string * JValue)) :
  absent k fs = true -> assign k v fs = List.app fs [(k, v)].
Proof.
  induction fs as [|[k' v'] r IH]; [reflexivity|].
  unfold absent. cbn [existsb fst assign]. rewrite negb_orb, andb_true_iff.
  intros [Hk Hr]. apply negb_true_iff in Hk. rewrite Hk.
  cbn [app]. f_equal. apply IH. exact Hr.
Qed.

Lemma absent_in (k : string) (fs : list (string * JValue)) (kv : string * JValue) :
  absent k fs = true -> In kv fs -> String.eqb k (fst kv) = false.
Proof.
  unfold absent. intros H Hin. apply negb_true_iff in H.
  destruct (String.eqb k (fst kv)) eqn:E; [|reflexivity].
  assert (existsb (fun kv => String.eqb k (fst kv)) fs = true)
    by (apply existsb_exists; exists kv; split; assumption).
  congruence.
Qed.

Lemma build_from (ms acc : list (string * JValue)) :
  distinct ms = true ->
  (forall kv, In kv ms -> absent (fst kv) acc = true) ->
  fold_left (fun fs kv => assign (fst kv) (snd kv) fs) ms acc = List.app acc ms.
Proof.
  revert acc. induction ms as [|[k v] r IH]; intros acc Hd Hf.
  - rewrite app_nil_r. reflexivity.
  - cbn [distinct] in Hd. apply andb_prop in Hd. destruct Hd as [Hk Hr].
    cbn [fold_left fst snd].
    rewrite (assign_absent k v acc) by (apply (Hf (k, v)); left; reflexivity).
    rewrite IH.
    + rewrite <- app_assoc. reflexivity.
    + exact Hr.
    + intros kv Hin. rewrite absent_app, (Hf kv) by (right; exact Hin).
      unfold absent. cbn [existsb fst]. rewrite orb_false_r.
      rewrite String.eqb_sym, (absent_in k r kv Hk Hin). reflexivity.
Qed.

Lemma build_distinct (ms : list (string * JValue)) :
  distinct ms = true -> build ms = ms.
Proof.
  intros H. unfold build. rewrite build_from; [reflexivity | exact H |].
  intros kv _. reflexivity.
Qed.

Lemma absent_filter (k : string) (p : string * JValue -> bool)
    (fs : list (string * JValue)) :
  absent k fs = true -> absent k (filter p fs) = true.
Proof.
  unfold absent. intros H. apply negb_true_iff in H. apply negb_true_iff.
  destruct (existsb _ (filter p fs)) eqn:E; [|reflexivity].
  apply existsb_exists in E. destruct E as (kv & Hin & Hk).
  apply filter_In in Hin. destruct Hin as [Hin _].
  assert (existsb (fun kv => String.eqb k (fst kv)) fs = true)
    by (apply existsb_exists; exists kv; split; assumption).
  congruence.
Qed.

Lemma distinct_present (fs : list (string * JValue)) :
  distinct fs = true -> distinct (present fs) = true.
Proof.
  induction fs as [|[k x] r IH]; [reflexivity|].
  cbn [distinct]. intros H. apply andb_prop in H. destruct H as [Hk Hr].
  unfold present in *. cbn [filter snd].
  destruct (written x); [|apply IH; exact Hr].
  cbn [distinct]. rewrite (absent_filter _ _ _ Hk), (IH Hr). reflexivity.
Qed.

Lemma absent_map (k : string) (f : JValue -> JValue) (fs : list (string * JValue)) :
  absent k (map (fun kv => (fst kv, f (snd kv))) fs) = absent k fs.
Proof.
  unfold absent. f_equal. induction fs as [|[k' x] r IH]; [reflexivity|].
  cbn [map existsb fst]. rewrite IH. reflexivity.
Qed.

Lemma distinct_map (f : JValue -> JValue) (fs : list (string * JValue)) :
  distinct (map (fun kv => (fst kv, f (snd kv))) fs) = distinct fs.
Proof.
  induction fs as [|[k x] r IH]; [reflexivity|].
  cbn [map distinct fst snd]. rewrite IH, absent_map. reflexivity.
Qed.

Lemma written_clone (v : JValue) : written (clone v) = true.
Proof. destruct v as [| | |[| |m e]| | |]; reflexivity. Qed.




Lemma uniqueKeys_intro (fs : list (string * JValue)) :
  distinct fs = true -> Forall (fun kv => uniqueKeys (snd kv) = true) fs ->
  uniqueKeys (JObj fs) = true.
Proof.
  cbn [uniqueKeys]. induction fs as [|[k x] r IH]; [reflexivity|].
  cbn [distinct]. intros Hd Hf. apply andb_prop in Hd. destruct Hd as [Hk Hr].
  inversion Hf as [|? ? Hx Hf']; subst. cbn [snd] in Hx.
  unfold absent in Hk. cbn [fst]. rewrite Hk, Hx, (IH Hr Hf'). reflexivity.
Qed.



End JsonFacts.

(* ================================================================== *)
(** * The checksum *)
(* ================================================================== *)

Module ChecksumFacts.

Definition M32 : Z := 4294967296.

Lemma toInt32_mod (z : Z) : toInt32 z mod M32 = z mod M32.
Proof.
  unfold toInt32, M32. cbv zeta.
  destruct (z mod 4294967296 <? 2147483648).
  - apply Z.mod_mod. lia.
  - rewrite <- (Z.mod_add _ 1) by lia.
    replace (z mod 4294967296 - 4294967296 + 1 * 4294967296)
      with (z mod 4294967296) by lia.
    apply Z.mod_mod. lia.
Qed.

Lemma imul_mod (a b : Z) : imul a b mod M32 = (a * b) mod M32.
Proof.
  unfold imul. rewrite toInt32_mod, Z.mul_mod by (unfold M32; lia).
  rewrite !toInt32_mod, <- Z.mul_mod by (unfold M32; lia). reflexivity.
Qed.

Lemma lxor_mod (x y : Z) :
  Z.lxor x y mod M32 = Z.lxor (x mod M32) (y mod M32).
Proof.
  change M32 with (2 ^ 32). rewrite <- !Z.land_ones by lia.
  apply Z.bits_inj'. intros n Hn.
  rewrite Z.land_spec, !Z.lxor_spec, !Z.land_spec.
  destruct (Z.testbit x n), (Z.testbit y n), (Z.testbit (Z.ones 32) n); reflexivity.
Qed.

Lemma xor32_mod (a b : Z) :
  xor32 a b mod M32 = Z.lxor (a mod M32) (b mod M32).
Proof. unfold xor32. rewrite lxor_mod, !toInt32_mod. reflexivity. Qed.

(** One round of the loop. *)
Definition round (c : ascii) (h : Z) : Z := imul (xor32 h (code c)) 16777619.

Lemma code_small (c : ascii) : code c mod M32 = code c.
Proof.
  apply Z.mod_small. unfold code, M32. pose proof (N_ascii_bounded c). lia.
Qed.

Lemma round_mod (c : ascii) (h : Z) :
  round c h mod M32 = (Z.lxor (h mod M32) (code c) * 16777619) mod M32.
Proof.
  unfold round. rewrite imul_mod.
  rewrite <- Z.mul_mod_idemp_l by (unfold M32; lia).
  rewrite xor32_mod, code_small. reflexivity.
Qed.

Lemma lxor_range (x y : Z) :
  0 <= x < M32 -> 0 <= y < M32 -> 0 <= Z.lxor x y < M32.
Proof.
  intros Hx Hy.
  assert (E : Z.lxor x y mod M32 = Z.lxor x y).
  { rewrite lxor_mod, !Z.mod_small by assumption. reflexivity. }
  rewrite <- E. apply Z.mod_pos_bound. unfold M32. lia.
Qed.

(** 16777619 is odd, so multiplying by it modulo 2^32 is undone by
    multiplying by its inverse. *)
Lemma prime_cancel (a b : Z) :
  0 <= a < M32 -> 0 <= b < M32 ->
  (a * 16777619) mod M32 = (b * 16777619) mod M32 -> a = b.
Proof.
  intros Ha Hb H.
  assert (Inv : forall x, 0 <= x < M32 ->
                  ((x * 16777619) mod M32 * 899433627) mod M32 = x).
  { intros x Hx. rewrite Z.mul_mod_idemp_l by (unfold M32; lia).
    rewrite <- Z.mul_assoc.
    rewrite <- Z.mul_mod_idemp_r by (unfold M32; lia).
    change ((16777619 * 899433627) mod M32) with 1.
    rewrite Z.mul_1_r. apply Z.mod_small. exact Hx. }
  rewrite <- (Inv a Ha), <- (Inv b Hb), H. reflexivity.
Qed.

Lemma lxor_cancel_l (x a b : Z) : Z.lxor x a = Z.lxor x b -> a = b.
Proof.
  intros H. apply (f_equal (Z.lxor x)) in H.
  rewrite <- !Z.lxor_assoc, Z.lxor_nilpotent, !Z.lxor_0_l in H. exact H.
Qed.

Lemma lxor_cancel_r (x y a : Z) : Z.lxor x a = Z.lxor y a -> x = y.
Proof.
  intros H. rewrite (Z.lxor_comm x), (Z.lxor_comm y) in H.
  apply (lxor_cancel_l _ _ _ H).
Qed.

Lemma mod_range (z : Z) : 0 <= z mod M32 < M32.
Proof. apply Z.mod_pos_bound. unfold M32. lia. Qed.

Lemma code_bound (c : ascii) : 0 <= code c < M32.
Proof. unfold code, M32. pose proof (N_ascii_bounded c). lia. Qed.

Lemma round_state (c : ascii) (h1 h2 : Z) :
  round c h1 mod M32 = round c h2 mod M32 -> h1 mod M32 = h2 mod M32.
Proof.
  rewrite !round_mod. intros H.
  apply prime_cancel in H;
    try (apply lxor_range; [apply mod_range | apply code_bound]).
  apply (lxor_cancel_r _ _ _ H).
Qed.

Lemma round_char (c1 c2 : ascii) (h : Z) :
  round c1 h mod M32 = round c2 h mod M32 -> c1 = c2.
Proof.
  rewrite !round_mod. intros H.
  apply prime_cancel in H;
    try (apply lxor_range; [apply mod_range | apply code_bound]).
  apply lxor_cancel_l in H.
  unfold code in H. apply N2Z.inj in H.
  rewrite <- (ascii_N_embedding c1), <- (ascii_N_embedding c2), H.
  reflexivity.
Qed.

Lemma loop_app (a b : string) (h : Z) :
  checksumLoop (a ++ b) h = checksumLoop b (checksumLoop a h).
Proof.
  revert h. induction a as [|c a IH]; intros h; [reflexivity|].
  cbn [append checksumLoop]. apply IH.
Qed.

Lemma loop_state (s : string) (h1 h2 : Z) :
  checksumLoop s h1 mod M32 = checksumLoop s h2 mod M32 ->
  h1 mod M32 = h2 mod M32.
Proof.
  revert h1 h2. induction s as [|c s IH]; intros h1 h2 H; [exact H|].
  cbn [checksumLoop] in H. apply IH in H. apply (round_state c). exact H.
Qed.

(** ** Eight hexadecimal digits *)

Lemma hex_digit (d : Z) :
  0 <= d < 16 -> radixDigit 16 (JSON.hexChar d) = Some d.
Proof.
  intros H. rewrite <- (Z2Nat.id d) by lia.
  assert (Hn : (Z.to_nat d < 16)%nat) by lia.
  revert Hn. generalize (Z.to_nat d). intros n Hn.
  do 16 (destruct n as [|n]; [reflexivity|]). lia.
Qed.

Lemma hexDigits_read (n : nat) (z : Z) (acc : string) (a : Z) :
  0 <= z ->
  readRadix 16 (hexDigits n z acc) a
  = readRadix 16 acc (a * 16 ^ Z.of_nat n + z mod 16 ^ Z.of_nat n).
Proof.
  revert z acc a. induction n as [|n IH]; intros z acc a Hz.
  - cbn [hexDigits Z.of_nat]. rewrite Z.pow_0_r, Z.mod_1_r. f_equal. lia.
  - cbn [hexDigits]. rewrite IH by (apply Z.div_pos; lia).
    cbn [readRadix]. rewrite hex_digit by (apply Z.mod_pos_bound; lia).
    f_equal. rewrite Nat2Z.inj_succ, Z.pow_succ_r by lia.
    rewrite (Z.rem_mul_r z 16 (16 ^ Z.of_nat n)) by lia. ring.
Qed.

Lemma hex8_read (h : Z) : readRadix 16 (hex8 h) 0 = Some (h mod M32).
Proof.
  unfold hex8, toUint32. fold M32.
  rewrite hexDigits_read by apply mod_range.
  cbn [readRadix]. f_equal. change (16 ^ Z.of_nat 8) with M32.
  rewrite Z.mod_mod by (unfold M32; lia). lia.
Qed.

Lemma hex8_inj (h1 h2 : Z) : hex8 h1 = hex8 h2 -> h1 mod M32 = h2 mod M32.
Proof.
  intros H. pose proof (hex8_read h1) as R1. rewrite H, hex8_read in R1.
  inversion R1. reflexivity.
Qed.


End ChecksumFacts.

(* ================================================================== *)
(** * Export and import preview *)
(* ================================================================== *)

Module BackupFacts.
Import JSON Backup JsonFacts ChecksumFacts.

(** The backup object: its meta block, with or without the checksum, and
    the database. *)
Definition metaOf (sv : JValue) (t : string) (c : option string) : JValue :=
  JObj (List.app
          [("type", JStr "erp_backup"); ("schemaVersion", sv);
           ("exportedAt", JStr t)]
          match c with
          | Some c => [("checksum32", JStr c)]
          | None => []
          end).

Definition payload (sv : JValue) (t : string) (c : option string) (db : JValue)
  : JValue :=
  JObj [("__meta", metaOf sv t c); ("db", db)].

(** The schema version exportDB records. *)
Definition versionOf (db : JValue) : JValue :=
  or_else (optGet "schemaVersion" db) (JInt Schema.SCHEMA_VERSION).

Definition reference (db : JValue) (t : string) : string :=
  ser 0 0 (payload (versionOf db) t None db).

Lemma exportDB_run (db : JValue) (pretty : bool) (w : World) :
  exportDB db pretty w
  = Ok (ser (if pretty then 2 else 0) 0
          (payload (versionOf db) (toISOString (clock w (ticks w)))
             (Some (checksum32 (reference db (toISOString (clock w (ticks w))))))
             db))
       (with_ticks (S (ticks w)) w).
Proof. reflexivity. Qed.

Lemma clone_fields (fs : list (string * JValue)) :
  distinct fs = true ->
  clone (JObj fs) = JObj (map (fun kv => (fst kv, clone (snd kv))) (present fs)).
Proof.
  intros Hd. rewrite clone_object, build_distinct; [reflexivity|].
  rewrite distinct_map. apply distinct_present. exact Hd.
Qed.

Lemma clone_meta (sv : JValue) (t : string) (c : option string) :
  written sv = true -> clone (metaOf sv t c) = metaOf (clone sv) t c.
Proof.
  intros Hs. unfold metaOf. rewrite clone_fields by (destruct c; reflexivity).
  unfold present. destruct c; cbn [app filter snd written]; rewrite Hs; reflexivity.
Qed.

Lemma clone_payload (sv : JValue) (t : string) (c : option string) (db : JValue) :
  written sv = true -> written db = true ->
  clone (payload sv t c db) = payload (clone sv) t c (clone db).
Proof.
  intros Hs Hd. unfold payload. rewrite clone_fields by reflexivity.
  unfold present. cbn [filter snd]. rewrite Hd.
  change (written (metaOf sv t c)) with true. cbn [map fst snd].
  rewrite (clone_meta _ _ _ Hs). reflexivity.
Qed.




Lemma hexDigits_nonempty (n : nat) (z : Z) (acc : string) :
  isEmpty acc = false -> isEmpty (hexDigits n z acc) = false.
Proof.
  revert z acc. induction n as [|n IH]; intros z acc H; [exact H|].
  cbn [hexDigits]. apply IH. reflexivity.
Qed.











(** A sample database and its backup on the sample host. *)
Definition shelfDb : JValue :=
  JObj [("schemaVersion", JInt 1);
        ("estoque",
         JArr [JObj [("cod", JStr "X"); ("nome", JStr "Item"); ("qtd", JInt 3)]]);
        ("vendas", JArr [])].


(** ** Changing one byte of the text of the database *)

(** The text with the bits of [mask] flipped in its character at index
    [i]. *)
Fixpoint flipAt (i : nat) (mask : Z) (s : string) : string :=
  match s with
  | EmptyString => EmptyString
  | String c r =>
      match i with
      | O => String (chr (Z.lxor (code c) mask)) r
      | S j => String c (flipAt j mask r)
      end
  end.

(** The unformatted backup text around the text of the database. *)
Definition envelope (sv : JValue) (t c : string) (dbText : string) : string :=
  "{" ++ quote "__meta" ++ ":" ++ ser 0 0 (metaOf sv t (Some c))
  ++ "," ++ quote "db" ++ ":" ++ dbText ++ "}".

Lemma export_envelope (sv db : JValue) (t c : string) :
  written db = true ->
  ser 0 0 (payload sv t (Some c) db) = envelope sv t c (ser 0 0 db).
Proof.
  intros Hd. unfold payload, envelope. rewrite ser_object. unfold present.
  cbn [filter snd]. rewrite Hd.
  change (written (metaOf sv t (Some c))) with true.
  cbn [map]. unfold memberText. cbn [fst snd breakLine colon join Nat.add append].
  rewrite !string_app_assoc. reflexivity.
Qed.

(** A database holding a vertical tab in a string. *)
Definition tabDb : JValue :=
  JObj [("note", JStr (String (chr 11) EmptyString))].

Definition tabStamp : string := toISOString (clock quietWorld (ticks quietWorld)).

Definition tabText (dbText : string) : string :=
  envelope (versionOf tabDb) tabStamp (checksum32 (reference tabDb tabStamp)) dbText.


(** Flipping the lowest bit of the opening brace of the same text leaves
    something that is not JSON: previewImport fails with the parse error,
    not with a checksum warning. *)
Example flipped_byte_unparsable :
  previewImport (tabText (flipAt 0 1 (ser 0 0 tabDb))) = failed syntaxErrorMessage.
Proof. vm_compute. reflexivity. Qed.

(** Flipping the lowest bit of a digit is noticed: 3 becomes 2 in the
    quantity of the sample database. *)
Example flipped_digit_noticed :
  let text := ser 0 0 shelfDb in
  let stamp := toISOString (clock quietWorld (ticks quietWorld)) in
  let sent := envelope (versionOf shelfDb) stamp
                (checksum32 (reference shelfDb stamp)) in
  result (exportDB shelfDb false quietWorld) = Some (sent text)
  /\ substring 61 1 text = "3"
  /\ substring 61 1 (flipAt 61 1 text) = "2"
  /\ pv_warnings (previewImport (sent (flipAt 61 1 text))) = [CHECKSUM_MISMATCH].
Proof.
  cbv zeta. repeat (apply conj; [vm_compute; reflexivity|]).
  vm_compute. reflexivity.
Qed.

End BackupFacts.

(* ================================================================== *)
(** * The checksum as a fingerprint (validate.js) *)
(* ================================================================== *)

Module HashFacts.
Import ChecksumFacts.

(** The characters [toString(16)] writes. *)
Definition isHexChar (c : ascii) : bool :=
  existsb (Ascii.eqb c) (list_ascii_of_string "0123456789abcdef").

Fixpoint allHex (s : string) : bool :=
  match s with
  | EmptyString => true
  | String c r => isHexChar c && allHex r
  end.

Lemma hexChar_hex (d : Z) : 0 <= d < 16 -> isHexChar (JSON.hexChar d) = true.
Proof.
  intros H.
  assert (E : d = 0 \/ d = 1 \/ d = 2 \/ d = 3 \/ d = 4 \/ d = 5 \/ d = 6 \/ d = 7
              \/ d = 8 \/ d = 9 \/ d = 10 \/ d = 11 \/ d = 12 \/ d = 13 \/ d = 14
              \/ d = 15) by lia.
  repeat (destruct E as [->|E]; [vm_compute; reflexivity|]).
  subst d. vm_compute. reflexivity.
Qed.

Lemma hexDigits_shape (n : nat) (z : Z) (acc : string) :
  String.length (hexDigits n z acc) = (n + String.length acc)%nat
  /\ (allHex acc = true -> allHex (hexDigits n z acc) = true).
Proof.
  revert z acc. induction n as [|n IH]; intros z acc; cbn [hexDigits].
  - split; [reflexivity | auto].
  - destruct (IH (z / 16) (String (JSON.hexChar (z mod 16)) acc)) as [L H].
    split.
    + rewrite L. cbn [String.length]. lia.
    + intros Ha. apply H. cbn [allHex]. rewrite Ha, hexChar_hex; [reflexivity|].
      apply Z.mod_pos_bound. lia.
Qed.

Lemma loop_mod (s : string) (h1 h2 : Z) :
  h1 mod M32 = h2 mod M32 ->
  checksumLoop s h1 mod M32 = checksumLoop s h2 mod M32.
Proof.
  revert h1 h2. induction s as [|c s IH]; intros h1 h2 H; [exact H|].
  cbn [checksumLoop]. apply IH. fold (round c h1). fold (round c h2).
  rewrite !round_mod, H. reflexivity.
Qed.

Lemma hex8_mod (h1 h2 : Z) : h1 mod M32 = h2 mod M32 -> hex8 h1 = hex8 h2.
Proof. unfold hex8, toUint32. fold M32. intros ->. reflexivity. Qed.

(** X1. [checksum32] always returns eight characters, each one of
    [0-9a-f]: the unsigned 32-bit hash in hexadecimal, padded with zeros. *)
Theorem checksum32_eight_hex_digits (s : string) :
  String.length (checksum32 s) = 8%nat
  /\ allHex (checksum32 s) = true
  /\ readRadix 16 (checksum32 s) 0 = Some (checksumLoop s 2166136261 mod 4294967296).
Proof.
  unfold checksum32. split; [|split].
  - unfold hex8. apply (proj1 (hexDigits_shape 8 _ EmptyString)).
  - unfold hex8. apply (proj2 (hexDigits_shape 8 _ EmptyString)). reflexivity.
  - apply hex8_read.
Qed.

(** X2. Two texts that end in the same way have the same checksum exactly
    when the parts before the common ending have the same checksum; so
    replacing one character of a text by another always changes its
    checksum. *)
Theorem checksum32_common_suffix (p1 p2 b : string) :
  (checksum32 (p1 ++ b) = checksum32 (p2 ++ b) <-> checksum32 p1 = checksum32 p2)
  /\ (forall a c1 c2, c1 <> c2 ->
        checksum32 (a ++ String c1 b) <> checksum32 (a ++ String c2 b)).
Proof.
  split.
  - unfold checksum32. rewrite !loop_app. split; intros H.
    + apply hex8_mod. apply hex8_inj in H. apply (loop_state b). exact H.
    + apply hex8_mod. apply hex8_inj in H. apply loop_mod. exact H.
  - intros a c1 c2 Hne. unfold checksum32. rewrite !loop_app. cbn [checksumLoop].
    intros H. apply hex8_inj in H. apply loop_state in H.
    fold (round c1 (checksumLoop a 2166136261)) in H.
    fold (round c2 (checksumLoop a 2166136261)) in H.
    apply Hne. eapply round_char. exact H.
Qed.

End HashFacts.

(* ================================================================== *)
(** * Copies through JSON text (server_sync.js, ops_cashier.js) *)
(* ================================================================== *)

Module CopyFacts.
Import JSON JsonFacts.

Lemma absent_assign (k k' : string) (v : JValue) (fs : list (string * JValue)) :
  absent k' (assign k v fs) = absent k' fs && negb (String.eqb k' k).
Proof.
  unfold absent. induction fs as [|[k0 v0] r IH].
  - cbn [assign existsb fst]. rewrite orb_false_r. reflexivity.
  - cbn [assign]. destruct (String.eqb k k0) eqn:E.
    + apply String.eqb_eq in E. subst k0. cbn [existsb fst].
      destruct (String.eqb k' k); cbn [orb negb andb];
        [reflexivity | rewrite andb_true_r; reflexivity].
    + cbn [existsb fst]. rewrite !negb_orb in *. rewrite IH.
      rewrite andb_assoc. reflexivity.
Qed.

Lemma distinct_assign (k : string) (v : JValue) (fs : list (string * JValue)) :
  distinct fs = true -> distinct (assign k v fs) = true.
Proof.
  induction fs as [|[k0 v0] r IH]; [reflexivity|].
  cbn [distinct assign]. intros H. apply andb_prop in H. destruct H as [Hk Hr].
  destruct (String.eqb k k0) eqn:E; cbn [distinct].
  - rewrite Hk, Hr. reflexivity.
  - rewrite absent_assign, Hk, (IH Hr). cbn [andb].
    rewrite String.eqb_sym, E. reflexivity.
Qed.

Lemma distinct_build (ms : list (string * JValue)) : distinct (build ms) = true.
Proof.
  unfold build.
  assert (H : forall acc, distinct acc = true ->
                distinct (fold_left (fun fs kv => assign (fst kv) (snd kv) fs) ms acc)
                = true).
  { induction ms as [|kv r IH]; intros acc Ha; [exact Ha|].
    cbn [fold_left]. apply IH. apply distinct_assign. exact Ha. }
  apply H. reflexivity.
Qed.

Lemma assign_values (P : JValue -> Prop) (k : string) (v : JValue)
    (fs : list (string * JValue)) :
  P v -> Forall (fun kv => P (snd kv)) fs ->
  Forall (fun kv => P (snd kv)) (assign k v fs).
Proof.
  intros Hv H. induction H as [|[k0 v0] r H0 Hr IH].
  - constructor; [exact Hv | constructor].
  - cbn [assign]. destruct (String.eqb k k0); constructor; assumption.
Qed.

Lemma build_values (P : JValue -> Prop) (ms : list (string * JValue)) :
  Forall (fun kv => P (snd kv)) ms -> Forall (fun kv => P (snd kv)) (build ms).
Proof.
  unfold build. intros H.
  assert (G : forall acc, Forall (fun kv => P (snd kv)) acc ->
                Forall (fun kv => P (snd kv))
                  (fold_left (fun fs kv => assign (fst kv) (snd kv) fs) ms acc)).
  { induction H as [|kv r Hkv Hr IH]; intros acc Ha; [exact Ha|].
    cbn [fold_left]. apply IH. apply assign_values; assumption. }
  apply G. constructor.
Qed.

Lemma cloned_values (P : JValue -> Prop) (fs : list (string * JValue)) :
  Forall (fun kv => P (clone (snd kv))) fs ->
  Forall (fun kv => P (snd kv))
    (build (map (fun kv => (fst kv, clone (snd kv))) (present fs))).
Proof.
  intros H. apply build_values. apply Forall_forall. intros kv Hin.
  apply in_map_iff in Hin. destruct Hin as (kv0 & <- & Hin). cbn [snd].
  apply filter_In in Hin. destruct Hin as [Hin _].
  rewrite Forall_forall in H. apply (H kv0 Hin).
Qed.

(** The copy of any value has distinct keys throughout. *)
Lemma clone_distinct (v : JValue) : uniqueKeys (clone v) = true.
Proof.
  induction v as [| |b|x|s|l IH|fs IH] using JValue_ind; try reflexivity.
  - destruct x; reflexivity.
  - cbn [clone uniqueKeys]. apply forallb_forall. intros y Hin.
    apply in_map_iff in Hin. destruct Hin as (x & <- & Hin).
    rewrite Forall_forall in IH. apply (IH x Hin).
  - rewrite clone_object. apply uniqueKeys_intro; [apply distinct_build|].
    apply (cloned_values (fun v => uniqueKeys v = true)). exact IH.
Qed.

Lemma present_all (ms : list (string * JValue)) :
  Forall (fun kv => written (snd kv) = true) ms -> present ms = ms.
Proof.
  intros H. unfold present. induction H as [|kv r Hkv Hr IH]; [reflexivity|].
  cbn [filter]. rewrite Hkv, IH. reflexivity.
Qed.

Lemma map_values_fixed (f : JValue -> JValue) (ms : list (string * JValue)) :
  Forall (fun kv => f (snd kv) = snd kv) ms ->
  map (fun kv => (fst kv, f (snd kv))) ms = ms.
Proof.
  intros H. induction H as [|[k x] r Hkv Hr IH]; [reflexivity|].
  cbn [map fst snd] in *. rewrite Hkv, IH. reflexivity.
Qed.

(** Copying a copy changes nothing. *)
Lemma clone_idem (v : JValue) : clone (clone v) = clone v.
Proof.
  induction v as [| |b|x|s|l IH|fs IH] using JValue_ind; try reflexivity.
  - destruct x as [| |m e]; try reflexivity. cbn [clone].
    destruct (norm m e) as [| |m' e'] eqn:E.
    + pose proof (norm_canonical m e) as C. rewrite E in C. discriminate.
    + pose proof (norm_canonical m e) as C. rewrite E in C. discriminate.
    + cbn [clone]. f_equal. apply norm_fixed. rewrite <- E. apply norm_canonical.
  - cbn [clone]. rewrite map_map. f_equal. apply map_ext_in. intros x Hin.
    rewrite Forall_forall in IH. apply (IH x Hin).
  - rewrite clone_object.
    set (ms := build (map (fun kv => (fst kv, clone (snd kv))) (present fs))).
    rewrite clone_object.
    assert (W : Forall (fun kv => written (snd kv) = true) ms).
    { apply (cloned_values (fun v => written v = true)).
      apply Forall_forall. intros kv _. apply written_clone. }
    assert (C : Forall (fun kv => clone (snd kv) = snd kv) ms).
    { apply (cloned_values (fun v => clone v = v)). exact IH. }
    rewrite (present_all _ W), (map_values_fixed clone _ C).
    rewrite build_distinct; [reflexivity | apply distinct_build].
Qed.


Lemma deepClone_clone (v : JValue) : deepClone v = clone (coalesce v JNull).
Proof.
  unfold deepClone.
  assert (S : stringify 0 (coalesce v JNull) = Some (ser 0 0 (coalesce v JNull))).
  { destruct v; reflexivity. }
  rewrite S, parse_ser. reflexivity.
Qed.

Lemma deepClone_plain (v : JValue) : deepClone v = clone v.
Proof. rewrite deepClone_clone. destruct v; reflexivity. Qed.

(** X3. [deepClone(v)], which writes [v ?? null] as JSON text and parses the
    text, always returns: the result is the copy [JSON.clone] describes
    (fields holding undefined dropped, undefined and non-finite numbers in
    arrays turned into null), every object of it has distinct keys, and
    copying it again returns it unchanged. *)
Theorem deepClone_copy (v : JValue) :
  deepClone v = clone (coalesce v JNull)
  /\ uniqueKeys (deepClone v) = true
  /\ deepClone (deepClone v) = deepClone v.
Proof.
  split; [apply deepClone_clone|]. split.
  - rewrite deepClone_clone. apply clone_distinct.
  - rewrite !deepClone_plain. apply clone_idem.
Qed.

End CopyFacts.

(* ================================================================== *)
(** * The shape normalizeDB guarantees (validate.js) *)
(* ================================================================== *)

Module ShapeFacts.
Import NormalFacts.







End ShapeFacts.

(* ================================================================== *)
(** * Reading and writing the storage (db_core.js) *)
(* ================================================================== *)

Module StorageFacts.
Import Backup.

(** The snapshots a host holds for a key, as loadSnapshots reads them. *)
Definition snapshotsAt (w : World) (key : string) : list JValue :=
  match result (loadSnapshots key w) with Some l => l | None => [] end.

Lemma loadSnapshots_at (key : string) (w : World) :
  loadSnapshots key w = Ok (snapshotsAt w key) w.
Proof.
  unfold snapshotsAt.
  destruct (SnapshotFacts.loadSnapshots_run key w) as [l H]. rewrite H. reflexivity.
Qed.

Lemma snapshotsAt_ls (w w' : World) (key : string) :
  ls w' (snapKey key) = ls w (snapKey key) -> snapshotsAt w' key = snapshotsAt w key.
Proof.
  unfold snapshotsAt, loadSnapshots, getItem, gets, bind. intros ->.
  destruct (ls w (snapKey key)) as [r|]; [|reflexivity].
  destruct (rawEmpty r); [reflexivity|].
  destruct (parseRaw r) as [[]|]; reflexivity.
Qed.

Lemma snapshotsAt_doc (w : World) (key : string) (l : list JValue) :
  ls w (snapKey key) = Some (Doc (JArr l)) -> snapshotsAt w key = l.
Proof.
  unfold snapshotsAt, loadSnapshots, getItem, gets, bind. intros ->. reflexivity.
Qed.

(** What createSnapshot writes when the storage accepts it. *)
Lemma createSnapshot_writes (key : string) (db : JValue) (cap : nat) (w : World) :
  calm w ->
  exists id snap w',
    createSnapshot key db (Some cap) w = Ok id w'
    /\ get "id" snap = JStr id /\ get "data" snap = db
    /\ ls w' (snapKey key) = Some (Doc (JArr (firstn cap (snap :: snapshotsAt w key))))
    /\ (forall k, String.eqb k (snapKey key) = false -> ls w' k = ls w k)
    /\ recovery w' = recovery w /\ lastReport w' = lastReport w
    /\ lastSnapshotAt w' = lastSnapshotAt w
    /\ sameHost w w'.
Proof.
  intros Hc. unfold createSnapshot.
  rewrite (bind_Ok _ _ _ _ _ (loadSnapshots_at key w)).
  rewrite (bind_Ok _ _ _ _ _ (dateNow_run w)).
  unfold randomHex at 1. unfold bind at 1.
  rewrite (bind_Ok _ _ _ _ _ (nowIso_run _)).
  match goal with
  | |- context [popWhile _ cap (?s :: _)] => set (snap := s)
  end.
  rewrite SnapshotFacts.popWhile_firstn by lia.
  unfold saveSnapshots, setItem, bind.
  cbn [quota with_ticks with_draws]. rewrite Hc. cbn [ret].
  eexists. exists snap. eexists. split; [reflexivity|].
  split; [reflexivity|]. split; [reflexivity|]. split.
  { cbn [ls with_ls]. rewrite String.eqb_refl. reflexivity. }
  split.
  { intros k Hk. cbn [ls with_ls with_ticks with_draws]. rewrite Hk. reflexivity. }
  repeat split.
Qed.

(** The try block of safeSave on a database that needs no normalisation,
    when the storage accepts every write. *)
Lemma saveBody_calm (fixed : JValue) (force : bool) (w : World) :
  calm w -> isObj fixed = true ->
  let key := storageKey w in
  let now := clock w (ticks w) in
  let due := force || (cooldownMs w <=? now - lastSnapshotAt w) in
  exists w',
    DbCore.safeSaveBody fixed force true w
    = Ok {| DbCore.sv_ok := true; DbCore.sv_warnings := DbCore.lastWarnings w; DbCore.snapshotCreated := due |} w'
    /\ ls w' key = Some (Doc fixed)
    /\ ls w' (key ++ "__tmp") = None
    /\ (forall k, String.eqb k key = false -> String.eqb k (key ++ "__tmp") = false ->
          String.eqb k (snapKey key) = false -> ls w' k = ls w k)
    /\ recovery w' = recovery w /\ lastReport w' = lastReport w
    /\ sameHost w w'
    /\ (due = false ->
          ls w' (snapKey key) = ls w (snapKey key)
          /\ lastSnapshotAt w' = lastSnapshotAt w)
    /\ (due = true ->
          lastSnapshotAt w' = now
          /\ exists id snap,
               get "id" snap = JStr id /\ get "data" snap = fixed
               /\ ls w' (snapKey key)
                  = Some (Doc (JArr (firstn (maxSnapshots w)
                                       (snap :: snapshotsAt w key))))).
Proof.
  intros Hc Hobj key now due.
  set (tmpKey := (key ++ "__tmp")%string).
  set (w2 := with_ls (fun k' => if String.eqb k' tmpKey then Some (Doc fixed) else ls w k') w).
  set (w3 := with_ls (fun k' => if String.eqb k' key then Some (Doc fixed) else ls w2 k') w2).
  set (w4 := with_ls (fun k' => if String.eqb k' tmpKey then None else ls w3 k') w3).
  set (w5 := with_ticks (S (ticks w4)) w4).
  assert (Hc5 : calm w5) by (intros k r; apply Hc).
  assert (Ktmp : String.eqb key tmpKey = false)
    by (apply eqb_self_append; discriminate).
  assert (Ksnap : String.eqb (snapKey key) key = false)
    by (apply eqb_append_self; discriminate).
  assert (Ksnap2 : String.eqb (snapKey key) tmpKey = false).
  { apply String.eqb_neq. intros H. unfold snapKey, tmpKey in H.
    apply append_inj_l in H. discriminate. }
  assert (L5 : forall k, String.eqb k key = false -> String.eqb k tmpKey = false ->
                 ls w5 k = ls w k).
  { intros k H1 H2. cbn [ls with_ticks with_ls w5 w4 w3 w2]. rewrite H2, H1.
    reflexivity. }
  assert (Hprefix : forall (R : Outcome DbCore.SaveResult),
             ((snapCreated <-
                 (if due
                  then createSnapshot key fixed (Some (maxSnapshots w5)) ;;;
                       modify (with_lastSnapshotAt now) ;;; ret true
                  else ret false) ;;
               ws <- gets DbCore.lastWarnings ;;
               ret {| DbCore.sv_ok := true; DbCore.sv_warnings := ws;
                      DbCore.snapshotCreated := snapCreated |}) w5 = R) ->
             DbCore.safeSaveBody fixed force true w = R).
  { intros R HR. unfold DbCore.safeSaveBody.
    eapply bind_step; [reflexivity|].
    eapply bind_step; [reflexivity|]. fold key. cbv zeta. fold tmpKey.
    eapply bind_step; [rewrite (document_obj fixed Hobj); apply setItem_calm; exact Hc|].
    eapply bind_step; [reflexivity|].
    fold w2. cbn [ls with_ls w2]. rewrite String.eqb_refl.
    eapply bind_step; [apply setItem_calm; intros k r; apply Hc|].
    fold w3.
    eapply bind_step; [reflexivity|]. fold w4.
    eapply bind_step; [apply dateNow_run|]. fold w5.
    eapply bind_step; [reflexivity|].
    eapply bind_step; [reflexivity|].
    eapply bind_step; [reflexivity|].
    exact HR. }
  assert (Main : ls w5 key = Some (Doc fixed)).
  { cbn [ls with_ticks with_ls w5 w4 w3]. rewrite Ktmp, String.eqb_refl. reflexivity. }
  assert (Tmp : ls w5 tmpKey = None).
  { cbn [ls with_ticks with_ls w5 w4]. rewrite String.eqb_refl. reflexivity. }
  destruct due eqn:Hdue.
  - destruct (createSnapshot_writes key fixed (maxSnapshots w5) w5 Hc5)
      as (id & snap & w6 & Hsnap & Hid & Hdata & Hls & Hother & Hrec & Hrep & _ & S6).
    exists (with_lastSnapshotAt now w6). split.
    { apply Hprefix.
      eapply bind_step.
      { eapply bind_step; [exact Hsnap|].
        eapply bind_step; [reflexivity|]. reflexivity. }
      eapply bind_step; [reflexivity|].
      unfold DbCore.lastWarnings. cbn [lastReport with_lastSnapshotAt]. rewrite Hrep.
      reflexivity. }
    cbn [ls recovery lastReport lastSnapshotAt with_lastSnapshotAt].
    split; [rewrite Hother; [exact Main | rewrite String.eqb_sym; exact Ksnap]|].
    split; [rewrite Hother; [exact Tmp | rewrite String.eqb_sym; exact Ksnap2]|].
    split.
    { intros k H1 H2 H3. rewrite Hother by exact H3. apply L5; assumption. }
    split; [rewrite Hrec; reflexivity|]. split; [rewrite Hrep; reflexivity|].
    split.
    { destruct S6 as (Q & C & R & U & K & M & D). repeat split; assumption. }
    split; [discriminate|]. intros _. split; [reflexivity|].
    exists id, snap. split; [exact Hid|]. split; [exact Hdata|].
    rewrite Hls.
    rewrite (snapshotsAt_ls w w5 key) by (apply L5; [exact Ksnap | exact Ksnap2]).
    reflexivity.
  - exists w5. split.
    { apply Hprefix. reflexivity. }
    split; [exact Main|]. split; [exact Tmp|]. split.
    { intros k H1 H2 _. apply L5; assumption. }
    split; [reflexivity|]. split; [reflexivity|]. split; [repeat split|].
    split; [|discriminate]. intros _. split; [|reflexivity].
    apply L5; [exact Ksnap | exact Ksnap2].
Qed.


(** ** What leaves the recovery status alone *)

Definition steady {A} (m : M A) : Prop :=
  forall w, recovery (worldOf (m w)) = recovery w.

Lemma steady_ret {A} (a : A) : steady (ret a).
Proof. intros w. reflexivity. Qed.

Lemma steady_throw {A} (e : Exn) : steady (@throw A e).
Proof. intros w. reflexivity. Qed.

Lemma steady_bind {A B} (m : M A) (k : A -> M B) :
  steady m -> (forall a, steady (k a)) -> steady (bind m k).
Proof.
  intros Hm Hk w. unfold bind. specialize (Hm w).
  destruct (m w) as [a w1|e w1]; cbn [worldOf] in *; [|exact Hm].
  rewrite Hk. exact Hm.
Qed.

Lemma steady_gets {A} (f : World -> A) : steady (gets f).
Proof. intros w. reflexivity. Qed.

Lemma steady_modify (f : World -> World) :
  (forall w, recovery (f w) = recovery w) -> steady (modify f).
Proof. intros H w. apply H. Qed.

Lemma steady_getItem (k : string) : steady (getItem k).
Proof. intros w. reflexivity. Qed.

Lemma steady_setItem (k : string) (r : Raw) : steady (setItem k r).
Proof. intros w. unfold setItem. destruct (quota w k r); reflexivity. Qed.

Lemma steady_removeItem (k : string) : steady (removeItem k).
Proof. intros w. reflexivity. Qed.

Lemma steady_dateNow : steady dateNow.
Proof. intros w. reflexivity. Qed.

Lemma steady_nowIso : steady nowIso.
Proof. intros w. reflexivity. Qed.

Lemma steady_randomHex : steady randomHex.
Proof. intros w. reflexivity. Qed.

Lemma steady_if {A} (c : bool) (m1 m2 : M A) :
  steady m1 -> steady m2 -> steady (if c then m1 else m2).
Proof. destruct c; auto. Qed.

Lemma steady_mapM {A B} (f : A -> M B) (l : list A) :
  (forall a, steady (f a)) -> steady (mapM f l).
Proof.
  intros Hf. induction l as [|x r IH]; cbn [mapM].
  - apply steady_ret.
  - apply steady_bind; [apply Hf|]. intros y.
    apply steady_bind; [exact IH|]. intros ys. apply steady_ret.
Qed.

Create HintDb steady.
#[export] Hint Resolve steady_ret steady_throw steady_gets steady_getItem
  steady_setItem steady_removeItem steady_dateNow steady_nowIso
  steady_randomHex : steady.

Ltac steady_step :=
  lazymatch goal with
  | |- steady (bind _ _) => apply steady_bind; [|intros]
  | |- steady (mapM _ _) => apply steady_mapM; intros
  | |- steady (modify _) => apply steady_modify; intros; reflexivity
  | |- steady (if _ then _ else _) => apply steady_if
  | |- steady (match ?x with _ => _ end) => destruct x
  | |- steady (let _ := _ in _) => cbv zeta
  | |- steady _ => solve [auto with steady]
  end.

Ltac steadily := repeat steady_step.

Lemma steady_normalizeDB (db : JValue) : steady (normalizeDB db).
Proof.
  assert (S : forall v, steady (normSale v)) by (intros v; unfold normSale; steadily).
  unfold normalizeDB, Schema.defaultDB. steadily.
Qed.

Lemma steady_createSnapshot (key : string) (db : JValue) (cap : option nat) :
  steady (createSnapshot key db cap).
Proof. unfold createSnapshot, saveSnapshots, loadSnapshots. steadily. Qed.

Lemma steady_safeSaveBody (db : JValue) (force skip : bool) :
  steady (DbCore.safeSaveBody db force skip).
Proof.
  unfold DbCore.safeSaveBody.
  pose proof steady_normalizeDB. pose proof steady_createSnapshot. steadily.
Qed.


Lemma normalizeDB_runs (db : JValue) (w : World) :
  exists N w1, normalizeDB db w = Ok N w1 /\ isObj N = true /\ frame w w1.
Proof.
  destruct (isObj db) eqn:E.
  - destruct (normalizeDB_obj db w E) as (N & w1 & H & F & O & _).
    exists N, w1. auto.
  - destruct (normalizeDB_nonobj db w E) as (t1 & t2 & w1 & H & F).
    exists (Schema.freshDB t1 t2), w1. auto.
Qed.

Lemma saveBody_normalised (db N : JValue) (force : bool) (w w1 : World) :
  normalizeDB db w = Ok N w1 ->
  DbCore.safeSaveBody db force false w = DbCore.safeSaveBody N force true w1.
Proof.
  intros H. unfold DbCore.safeSaveBody.
  rewrite (bind_Ok _ _ _ _ _ H). reflexivity.
Qed.

(** A save that the storage accepts, in full. *)
Lemma save_calm (db : JValue) (force : bool) (w : World) :
  calm w ->
  let key := storageKey w in
  exists N w1 w',
    let due := force || (cooldownMs w <=? clock w (ticks w1) - lastSnapshotAt w) in
    normalizeDB db w = Ok N w1 /\ frame w w1 /\ isObj N = true
    /\ DbCore.safeSave db force false w
       = Ok {| DbCore.sv_ok := true; DbCore.sv_warnings := DbCore.lastWarnings w1;
               DbCore.snapshotCreated := due |} w'
    /\ ls w' key = Some (Doc N)
    /\ ls w' (key ++ "__tmp") = None
    /\ (forall k, String.eqb k key = false -> String.eqb k (key ++ "__tmp") = false ->
          String.eqb k (snapKey key) = false -> ls w' k = ls w k)
    /\ recovery w' = recovery w /\ lastReport w' = lastReport w1
    /\ sameHost w w'
    /\ (due = false -> ls w' (snapKey key) = ls w (snapKey key))
    /\ (due = true ->
          exists id snap,
            Val.get "id" snap = JStr id /\ Val.get "data" snap = N
            /\ ls w' (snapKey key)
               = Some (Doc (JArr (firstn (maxSnapshots w)
                                    (snap :: snapshotsAt w key))))).
Proof.
  intros Hc key.
  destruct (normalizeDB_runs db w) as (N & w1 & HN & ON & F).
  assert (Hc1 : calm w1) by (eapply calm_sameHost; [apply frame_sameHost|]; eassumption).
  pose proof F as F'.
  destruct F as (Fls & Fq & Fclock & Frandom & Fdraws & Fuser & Fkey & Fcap & Fcool
                 & Flast & Frec).
  destruct (saveBody_calm N force w1 Hc1 ON)
    as (w' & Hbody & Hmain & Htmp & Hother & Hrec & Hrep & Hsame & Hno & Hyes).
  rewrite Fkey, Fcool, Flast, Fclock, Fcap in *.
  fold key in Hbody, Hmain, Htmp, Hother, Hno, Hyes.
  exists N, w1, w'. cbv zeta. split; [exact HN|]. split; [exact F'|].
  split; [exact ON|]. split.
  { unfold DbCore.safeSave, tryCatch.
    rewrite (saveBody_normalised db N force w w1 HN), Hbody. reflexivity. }
  split; [exact Hmain|]. split; [exact Htmp|]. split.
  { intros k H1 H2 H3. rewrite (Hother k H1 H2 H3), Fls. reflexivity. }
  split; [rewrite Hrec; exact Frec|]. split; [exact Hrep|]. split.
  { eapply sameHost_trans; [apply frame_sameHost; exact F' | exact Hsame]. }
  split.
  - intros Hdue. rewrite (proj1 (Hno Hdue)), Fls. reflexivity.
  - intros Hdue. destruct (Hyes Hdue) as (_ & id & snap & Hid & Hdata & Hls).
    exists id, snap. split; [exact Hid|]. split; [exact Hdata|].
    rewrite Hls. rewrite (snapshotsAt_ls w w1 key) by (rewrite Fls; reflexivity).
    reflexivity.
Qed.

(** ** The call, with its options *)

(** The two flags the call reads from its options. *)
Definition forced (options : JValue) : bool :=
  truthy (defaultTo (JBool false)
            (Val.get "forceSnapshot" (defaultTo (JObj []) options))).

Definition skipped (options : JValue) : bool :=
  truthy (defaultTo (JBool false)
            (Val.get "skipNormalize" (defaultTo (JObj []) options))).

Lemma options_taken (db options : JValue) :
  options <> JNull ->
  DbApi.safeSave db options = DbCore.safeSave db (forced options) (skipped options).
Proof.
  intros Hn. unfold DbApi.safeSave, forced, skipped.
  destruct options; try reflexivity. contradiction.
Qed.

Lemma fixed_runs (db : JValue) (skip : bool) (w : World) :
  exists fixed w1,
    (if skip then ret db else normalizeDB db) w = Ok fixed w1 /\ frame w w1.
Proof.
  destruct skip.
  - exists db, w. split; [reflexivity | apply frame_refl].
  - destruct (normalizeDB_runs db w) as (N & w1 & HN & _ & F).
    exists N, w1. split; assumption.
Qed.

Definition quotaFailure : DbCore.SaveResult :=
  {| DbCore.sv_ok := false;
     DbCore.sv_warnings := [describe QuotaExceededError];
     DbCore.snapshotCreated := false |}.

(** The temporary key refused: nothing is written. *)
Lemma save_tmp_refused (db : JValue) (force skip : bool) (w : World) :
  (forall r, quota w (storageKey w ++ "__tmp") r = true) ->
  exists w',
    DbCore.safeSave db force skip w = Ok quotaFailure w'
    /\ ls w' = ls w
    /\ active (recovery w') = true /\ reason (recovery w') = "storage_error"
    /\ details (recovery w')
       = JObj [("message", JStr (describe QuotaExceededError))].
Proof.
  intros Hq.
  destruct (fixed_runs db skip w) as (fixed & w1 & Hf & F).
  destruct F as (Fls & Fq & _ & _ & _ & _ & Fkey & _).
  assert (Hbody : DbCore.safeSaveBody db force skip w
                  = Thrown QuotaExceededError w1).
  { unfold DbCore.safeSaveBody.
    eapply bind_step; [exact Hf|].
    eapply bind_step; [reflexivity|]. rewrite Fkey. cbv zeta.
    apply bind_Thrown. unfold setItem. rewrite Fq, Hq. reflexivity. }
  destruct (SaveFacts.setRecovery_run true "storage_error"
              (DbCore.messageObject QuotaExceededError) w1)
    as (w' & Hrun & Ha & Hr & Hd).
  exists w'. split.
  { unfold DbCore.safeSave, tryCatch. rewrite Hbody. unfold DbCore.safeSaveFailed.
    rewrite (bind_Ok _ _ _ _ _ Hrun). reflexivity. }
  split; [|split; [exact Ha | split; [exact Hr | exact Hd]]].
  unfold DbCore.setRecovery, bind, nowIso, dateNow, bind, ret, modify in Hrun.
  inversion Hrun. cbn [ls with_recovery with_ticks]. exact Fls.
Qed.

(** The temporary key accepted and the storage key refused: the stored
    database stays and the temporary key is left behind. *)
Lemma save_key_refused (db : JValue) (force : bool) (w : World) :
  (forall r, quota w (storageKey w ++ "__tmp") r = false) ->
  (forall r, quota w (storageKey w) r = true) ->
  exists N w1 w',
    normalizeDB db w = Ok N w1
    /\ DbCore.safeSave db force false w = Ok quotaFailure w'
    /\ ls w' (storageKey w) = ls w (storageKey w)
    /\ ls w' (storageKey w ++ "__tmp") = Some (Doc N)
    /\ active (recovery w') = true /\ reason (recovery w') = "storage_error".
Proof.
  intros Hq1 Hq2.
  set (key := storageKey w) in *. set (tmp := (key ++ "__tmp")%string) in *.
  destruct (normalizeDB_runs db w) as (N & w1 & HN & ON & F).
  destruct F as (Fls & Fq & Fclock & Frandom & Fdraws & Fuser & Fkey & Fcap & Fcool
                 & Flast & Frec).
  set (w2 := with_ls (fun k' => if String.eqb k' tmp then Some (Doc N) else ls w1 k') w1).
  assert (Hbody : DbCore.safeSaveBody db force false w
                  = Thrown QuotaExceededError w2).
  { unfold DbCore.safeSaveBody.
    eapply bind_step; [exact HN|].
    eapply bind_step; [reflexivity|]. rewrite Fkey. fold key. cbv zeta. fold tmp.
    eapply bind_step.
    { unfold setItem. rewrite Fq, Hq1. rewrite (document_obj N ON). reflexivity. }
    fold w2.
    eapply bind_step; [reflexivity|].
    cbn [ls with_ls w2]. rewrite String.eqb_refl.
    apply bind_Thrown. unfold setItem. cbn [quota with_ls w2]. rewrite Fq, Hq2.
    reflexivity. }
  destruct (SaveFacts.setRecovery_run true "storage_error"
              (DbCore.messageObject QuotaExceededError) w2)
    as (w' & Hrun & Ha & Hr & _).
  exists N, w1, w'. split; [exact HN|]. split.
  { unfold DbCore.safeSave, tryCatch. rewrite Hbody. unfold DbCore.safeSaveFailed.
    rewrite (bind_Ok _ _ _ _ _ Hrun). reflexivity. }
  unfold DbCore.setRecovery, bind, nowIso, dateNow, bind, ret, modify in Hrun.
  inversion Hrun. cbn [ls with_recovery with_ticks with_ls w2 active reason recovery].
  rewrite String.eqb_refl.
  assert (Kt : String.eqb key tmp = false) by (apply eqb_self_append; discriminate).
  rewrite Kt, Fls. repeat split.
Qed.

(** C7, as stated, fails: with null for its options the call throws a
    TypeError while it takes the options apart, before its try block. *)
Lemma safeSave_null_options_throws :
  exists e,
    DbApi.safeSave (JObj []) JNull quietWorld = Thrown e quietWorld
    /\ exnName e = "TypeError".
Proof. exists DbApi.NULL_OPTIONS. split; reflexivity. Qed.

(** C7, amended.  With options that are not null, on a host whose
    snapshot cap is a natural number, safeSave returns a result whatever
    the database and the state of the host, and never throws: either
    ok:true, with the recovery status untouched, or ok:false with one
    warning, the causing message, which is also recorded in recovery mode
    under the reason storage_error, and snapshotCreated false.  Both
    happen: a storage that accepts the writes gives ok:true and holds the
    normalised database afterwards (for a database on which the text
    conversions of normalizeDB do not throw), and a storage that refuses
    the temporary key gives ok:false and is left as it was. *)
Theorem safeSave_total (db options : JValue) (w : World) :
  options <> JNull ->
  (exists res w',
     DbApi.safeSave db options w = Ok res w'
     /\ ((DbCore.sv_ok res = true /\ recovery w' = recovery w)
         \/ (DbCore.sv_ok res = false
             /\ DbCore.snapshotCreated res = false
             /\ exists msg,
                  DbCore.sv_warnings res = [msg]
                  /\ active (recovery w') = true
                  /\ reason (recovery w') = "storage_error"
                  /\ details (recovery w') = JObj [("message", JStr msg)])))
  /\ (calm w -> skipped options = false -> Exact.stringable db = true ->
        exists N w1 res w',
          normalizeDB db w = Ok N w1
          /\ DbApi.safeSave db options w = Ok res w'
          /\ DbCore.sv_ok res = true
          /\ DbCore.sv_warnings res = DbCore.lastWarnings w1
          /\ ls w' (storageKey w) = Some (Doc N))
  /\ ((forall r, quota w (storageKey w ++ "__tmp") r = true) ->
        exists res w',
          DbApi.safeSave db options w = Ok res w'
          /\ DbCore.sv_ok res = false
          /\ ls w' = ls w
          /\ active (recovery w') = true
          /\ reason (recovery w') = "storage_error").
Proof.
  intros Hn. rewrite (options_taken db options Hn).
  split; [|split].
  - destruct (SaveFacts.safeSave_cases db (forced options) (skipped options) w)
      as (res & w' & Hs & Hcase).
    exists res, w'. split; [exact Hs|].
    destruct Hcase as [(Hok & Hb & _) | (e & w1 & _ & -> & Ha & Hr & Hd)].
    + left. split; [exact Hok|].
      pose proof (steady_safeSaveBody db (forced options) (skipped options) w) as Hst.
      rewrite Hb in Hst. exact Hst.
    + right. split; [reflexivity|]. split; [reflexivity|].
      exists (describe e). repeat split; assumption.
  - intros Hc Hskip _. rewrite Hskip.
    destruct (save_calm db (forced options) w Hc)
      as (N & w1 & w' & HN & _ & _ & Hsave & Hmain & _).
    cbv zeta in Hsave.
    eexists N, w1, _, w'. split; [exact HN|]. split; [exact Hsave|].
    split; [reflexivity|]. split; [reflexivity | exact Hmain].
  - intros Hq.
    destruct (save_tmp_refused db (forced options) (skipped options) w Hq)
      as (w' & Hs & Hls & Ha & Hr & _).
    exists quotaFailure, w'. split; [exact Hs|]. split; [reflexivity|].
    split; [exact Hls|]. split; assumption.
Qed.

Lemma safeSave_total_witness :
  JObj [("forceSnapshot", JBool true)] <> JNull
  /\ exists res w',
       DbApi.safeSave (JObj []) (JObj [("forceSnapshot", JBool true)]) quietWorld
       = Ok res w'
       /\ DbCore.sv_ok res = true
       /\ exists N, ls w' "erp_db" = Some (Doc N).
Proof.
  split; [discriminate|].
  destruct (safeSave_total (JObj []) (JObj [("forceSnapshot", JBool true)]) quietWorld)
    as (_ & Hcalm & _); [discriminate|].
  destruct (Hcalm calm_quietWorld eq_refl eq_refl)
    as (N & w1 & res & w' & _ & Hs & Hok & _ & Hls).
  exists res, w'. split; [exact Hs|]. split; [exact Hok|]. exists N. exact Hls.
Defined.

(** X5. When the storage accepts the writes, [safeSave(db, options)],
    with options that are not null and do not ask to skip the
    normalisation, on a database that [normalizeDB] can convert, stores
    the normalised database under the storage key, removes the temporary
    key, leaves every other key but the snapshot list alone, does not
    touch the recovery status, and takes a snapshot exactly when one is
    forced or the cooldown has passed since the last one; with room for at
    least one snapshot, the newest stored snapshot then holds the database
    just saved.  The snapshot cap of the host is a natural number. *)
Theorem safeSave_commits (db options : JValue) (w : World) :
  calm w -> options <> JNull -> skipped options = false ->
  Exact.stringable db = true ->
  let key := storageKey w in
  exists N w1 res w',
    normalizeDB db w = Ok N w1
    /\ DbApi.safeSave db options w = Ok res w'
    /\ DbCore.sv_ok res = true
    /\ ls w' key = Some (Doc N)
    /\ ls w' (key ++ "__tmp") = None
    /\ (forall k, String.eqb k key = false -> String.eqb k (key ++ "__tmp") = false ->
          String.eqb k (snapKey key) = false -> ls w' k = ls w k)
    /\ recovery w' = recovery w
    /\ DbCore.snapshotCreated res
       = (forced options || (cooldownMs w <=? clock w (ticks w1) - lastSnapshotAt w))
    /\ (DbCore.snapshotCreated res = true -> (1 <= maxSnapshots w)%nat ->
          exists snap rest,
            snapshotsAt w' key = snap :: rest /\ Val.get "data" snap = N)
    /\ (DbCore.snapshotCreated res = false -> snapshotsAt w' key = snapshotsAt w key).
Proof.
  intros Hc Hn Hskip _ key. rewrite (options_taken db options Hn), Hskip.
  destruct (save_calm db (forced options) w Hc)
    as (N & w1 & w' & HN & _ & _ & Hsave & Hmain & Htmp & Hother & Hrec & _ & _
        & Hno & Hyes).
  fold key in Hsave, Hmain, Htmp, Hother, Hno, Hyes.
  eexists N, w1, _, w'. split; [exact HN|]. split; [exact Hsave|].
  cbn [DbCore.sv_ok DbCore.snapshotCreated].
  split; [reflexivity|]. split; [exact Hmain|]. split; [exact Htmp|].
  split; [exact Hother|]. split; [exact Hrec|]. split; [reflexivity|]. split.
  - intros Hdue Hcap. destruct (Hyes Hdue) as (id & snap & _ & Hdata & Hls).
    rewrite (snapshotsAt_doc _ _ _ Hls).
    destruct (maxSnapshots w) as [|c]; [lia|]. cbn [firstn].
    eexists. eexists. split; [reflexivity | exact Hdata].
  - intros Hdue. apply snapshotsAt_ls. apply Hno. exact Hdue.
Qed.

Lemma safeSave_commits_witness :
  calm quietWorld /\
  exists N w1 res w',
    normalizeDB (JObj []) quietWorld = Ok N w1
    /\ DbApi.safeSave (JObj []) JUndefined quietWorld = Ok res w'
    /\ DbCore.sv_ok res = true
    /\ ls w' "erp_db" = Some (Doc N).
Proof.
  split; [intros k r; reflexivity|].
  destruct (safeSave_commits (JObj []) JUndefined quietWorld (fun k r => eq_refl))
    as (N & w1 & res & w' & H1 & H2 & H3 & H4 & _);
    [discriminate | reflexivity | reflexivity|].
  exists N, w1, res, w'. repeat split; assumption.
Defined.

(** X6. A refused write never leaves the stored database half written.
    With options that are not null, when the storage refuses the
    temporary key, [safeSave] changes nothing in the storage; when it
    accepts the temporary key and refuses the storage key (the options not
    asking to skip the normalisation, the database one that [normalizeDB]
    can convert), the stored database is the one from before and the
    temporary key is left behind holding the new one.  Either way the call
    returns ok:false with the message of the refusal as its only warning
    and turns recovery mode on with reason storage_error. *)
Theorem safeSave_refused (db options : JValue) (w : World) :
  options <> JNull ->
  let key := storageKey w in
  let tmp := (key ++ "__tmp")%string in
  ((forall r, quota w tmp r = true) ->
     exists res w',
       DbApi.safeSave db options w = Ok res w'
       /\ DbCore.sv_ok res = false
       /\ (exists msg, DbCore.sv_warnings res = [msg])
       /\ ls w' = ls w
       /\ active (recovery w') = true /\ reason (recovery w') = "storage_error")
  /\ ((forall r, quota w tmp r = false) -> (forall r, quota w key r = true) ->
      skipped options = false -> Exact.stringable db = true ->
        exists N w1 res w',
          normalizeDB db w = Ok N w1
          /\ DbApi.safeSave db options w = Ok res w'
          /\ DbCore.sv_ok res = false
          /\ (exists msg, DbCore.sv_warnings res = [msg])
          /\ ls w' key = ls w key
          /\ ls w' tmp = Some (Doc N)
          /\ active (recovery w') = true /\ reason (recovery w') = "storage_error").
Proof.
  intros Hn key tmp. rewrite (options_taken db options Hn). split.
  - intros Hq.
    destruct (save_tmp_refused db (forced options) (skipped options) w Hq)
      as (w' & Hs & Hls & Ha & Hr & _).
    exists quotaFailure, w'. split; [exact Hs|]. split; [reflexivity|].
    split; [eexists; reflexivity|]. split; [exact Hls|]. split; assumption.
  - intros Hq1 Hq2 Hskip _. rewrite Hskip.
    destruct (save_key_refused db (forced options) w Hq1 Hq2)
      as (N & w1 & w' & HN & Hs & H1 & H2 & H3 & H4).
    exists N, w1, quotaFailure, w'. split; [exact HN|]. split; [exact Hs|].
    split; [reflexivity|]. split; [eexists; reflexivity|].
    split; [exact H1|]. split; [exact H2|]. split; assumption.
Qed.

Lemma safeSave_refused_witness :
  let w := {| ls := ls quietWorld; quota := fun _ _ => true;
              clock := clock quietWorld; ticks := 0;
              random := random quietWorld; draws := 0; user := JNull;
              storageKey := "erp_db"; maxSnapshots := 20; cooldownMs := 3000;
              lastSnapshotAt := 0; recovery := recovery quietWorld;
              lastReport := None |} in
  JUndefined <> JNull
  /\ (forall r, quota w "erp_db__tmp" r = true)
  /\ exists res w',
       DbApi.safeSave (JObj []) JUndefined w = Ok res w'
       /\ DbCore.sv_ok res = false
       /\ ls w' = ls w
       /\ active (recovery w') = true /\ reason (recovery w') = "storage_error".
Proof.
  cbv zeta. split; [discriminate|]. split; [intros r; reflexivity|].
  destruct (proj1 (safeSave_refused (JObj []) JUndefined
                     {| ls := ls quietWorld; quota := fun _ _ => true;
                        clock := clock quietWorld; ticks := 0;
                        random := random quietWorld; draws := 0; user := JNull;
                        storageKey := "erp_db"; maxSnapshots := 20;
                        cooldownMs := 3000; lastSnapshotAt := 0;
                        recovery := recovery quietWorld; lastReport := None |}
                     ltac:(discriminate)) (fun r => eq_refl))
    as (res & w' & H1 & H2 & _ & H3 & H4 & H5).
  exists res, w'. repeat split; assumption.
Defined.








(** X8. When the text stored under the key is not JSON (a text without
    wide escapes that the reader refuses), [get()] returns a fresh default
    database and leaves recovery mode on; if the storage accepts the
    writes, the reason recorded is db_corrompido_json with the message of
    the reader, the default database replaces the unreadable text and a
    snapshot of it is forced. *)
Theorem get_corrupted (s : string) (w : World) :
  ls w (storageKey w) = Some (Text s) -> isEmpty s = false ->
  Exact.narrow s = true -> JSON.parse s = None ->
  exists t1 t2 w',
    DbCore.get w = Ok (Schema.freshDB t1 t2) w'
    /\ active (recovery w') = true
    /\ (calm w ->
          reason (recovery w') = "db_corrompido_json"
          /\ (exists msg, details (recovery w') = JObj [("message", JStr msg)])
          /\ ls w' (storageKey w) = Some (Doc (Schema.freshDB t1 t2))
          /\ ((1 <= maxSnapshots w)%nat ->
                exists snap rest,
                  snapshotsAt w' (storageKey w) = snap :: rest
                  /\ Val.get "data" snap = Schema.freshDB t1 t2)).
Proof.
  intros Hraw Hne _ Hbad.
  destruct (SaveFacts.setRecovery_run true "db_corrompido_json"
              (JObj [("message", JStr Backup.syntaxErrorMessage)]) w)
    as (w1 & H1 & A1 & R1 & D1).
  assert (F1 : ls w1 = ls w /\ quota w1 = quota w /\ storageKey w1 = storageKey w
               /\ maxSnapshots w1 = maxSnapshots w).
  { unfold DbCore.setRecovery, bind, nowIso, dateNow, bind, ret, modify in H1.
    inversion H1. repeat split. }
  destruct F1 as (L1 & Q1 & K1 & M1).
  set (db := Schema.freshDB (toISOString (clock w1 (ticks w1)))
               (toISOString (clock w1 (S (ticks w1))))).
  set (w2 := with_ticks (S (S (ticks w1))) w1).
  assert (Hget : forall o, (DbCore.safeSave db true true ;;; ret db) w2 = o ->
                   DbCore.get w = o).
  { intros o Ho. unfold DbCore.get.
    eapply bind_step; [reflexivity|]. eapply bind_step; [reflexivity|].
    rewrite Hraw. cbn [rawEmpty parseRaw]. rewrite Hne, Hbad.
    eapply bind_step; [exact H1|].
    eapply bind_step; [reflexivity|]. exact Ho. }
  destruct (SaveFacts.safeSave_cases db true true w2) as (res & w' & Hs & Hcase).
  exists (toISOString (clock w1 (ticks w1))), (toISOString (clock w1 (S (ticks w1)))), w'.
  split; [apply Hget; rewrite (bind_Ok _ _ _ _ _ Hs); reflexivity|].
  split.
  - destruct Hcase as [(_ & Hb & _) | (e & w3 & _ & _ & Ha & _)]; [|exact Ha].
    pose proof (steady_safeSaveBody db true true w2) as Hr.
    rewrite Hb in Hr. cbn [worldOf] in Hr.
    rewrite Hr. exact A1.
  - intros Hc.
    assert (Hc2 : calm w2) by (intros k r; cbn [quota with_ticks w2]; rewrite Q1; apply Hc).
    destruct (saveBody_calm db true w2 Hc2 eq_refl)
      as (w'' & Hb & Hmain & _ & _ & Hrec & _ & _ & _ & Hyes).
    unfold DbCore.safeSave, tryCatch in Hs. rewrite Hb in Hs. inversion Hs; subst w''.
    cbn [storageKey recovery with_ticks w2 maxSnapshots] in Hmain, Hrec, Hyes.
    rewrite K1 in Hmain, Hyes. rewrite M1 in Hyes.
    rewrite Hrec. split; [exact R1|]. split; [eexists; exact D1|].
    split; [exact Hmain|].
    intros Hcap. destruct (Hyes eq_refl) as (_ & id & snap & _ & Hdata & Hls).
    rewrite (snapshotsAt_doc _ _ _ Hls).
    destruct (maxSnapshots w) as [|c]; [lia|]. cbn [firstn].
    eexists. eexists. split; [reflexivity | exact Hdata].
Qed.

Lemma get_corrupted_witness :
  let w := with_ls (fun k => if String.eqb k "erp_db" then Some (Text "{oops") else None)
             quietWorld in
  ls w (storageKey w) = Some (Text "{oops") /\ isEmpty "{oops" = false
  /\ Exact.narrow "{oops" = true /\ JSON.parse "{oops" = None
  /\ exists t1 t2 w',
       DbCore.get w = Ok (Schema.freshDB t1 t2) w' /\ active (recovery w') = true.
Proof.
  cbv zeta. split; [reflexivity|]. split; [reflexivity|]. split; [reflexivity|].
  split; [vm_compute; reflexivity|].
  destruct (get_corrupted "{oops"
              (with_ls (fun k => if String.eqb k "erp_db" then Some (Text "{oops") else None)
                 quietWorld) eq_refl eq_refl eq_refl ltac:(vm_compute; reflexivity))
    as (t1 & t2 & w' & H & A & _).
  exists t1, t2, w'. split; assumption.
Defined.

End StorageFacts.

(* ================================================================== *)
(** * One open register at a time (ops_cashier.js) *)
(* ================================================================== *)

Module RegisterFacts.
Import Cashier CashFacts.











End RegisterFacts.

(* ================================================================== *)
(** * Arrays without repeated ids (server_sync.js) *)
(* ================================================================== *)

Module DedupFacts.
Import ServerSync.











End DedupFacts.

(* ================================================================== *)
(** * What a merge keeps (server_sync.js) *)
(* ================================================================== *)

Module UnionFacts.
Import ServerSync JsonFacts.













End UnionFacts.

(* ================================================================== *)
(** * Migration to schema version 1 (schema.js) *)
(* ================================================================== *)

Module MigrateFacts.
Import Migration.

Lemma objectLike_obj (d v : JValue) : isObj v = true -> objectLike d v = v.
Proof. destruct v; try discriminate. reflexivity. Qed.

Lemma isObj_objectLike (d v : JValue) :
  isObj d = true -> isArray v = false -> isObj (objectLike d v) = true.
Proof.
  intros Hd Hv. unfold objectLike.
  destruct v as [| |b|x|s|l|fs]; try exact Hd; try discriminate; try reflexivity.
  - destruct b; exact Hd.
  - cbn. destruct (Num.truthy x); exact Hd.
  - cbn. destruct (negb (isEmpty s)); exact Hd.
Qed.

(** The collections the step turns into arrays. *)
Definition collections : list string :=
  ["users"; "estoque"; "vendas"; "devedores"; "auditLog"].

(** The step to version 1 on a plain object. *)
Lemma toVersion1_run (cur : JValue) (w : World) :
  isObj cur = true ->
  exists N w',
    toVersion1 cur w = Ok N w' /\ frame w w' /\ isObj N = true
    /\ get "schemaVersion" N = JInt 1
    /\ (forall k, In k collections -> get k N = arrayOr (get k cur))
    /\ (forall k, untouched k = true -> get k N = get k cur)
    /\ get "settings" N = objectLike (JObj []) (get "settings" cur)
    /\ (isArray (get "meta" cur) = false ->
          isObj (get "meta" N) = true
          /\ truthy (get "createdAt" (get "meta" N)) = true
          /\ (isObj (get "meta" cur) = true ->
              truthy (get "createdAt" (get "meta" cur)) = true ->
              get "createdAt" (get "meta" N) = get "createdAt" (get "meta" cur)))
    /\ (isArray (get "caixa" cur) = false ->
          isObj (get "caixa" N) = true
          /\ isArray (get "movimentos" (get "caixa" N)) = true
          /\ isArray (get "aberturas" (get "caixa" N)) = true).
Proof.
  intros Hobj. unfold toVersion1. rewrite (objectLike_obj _ cur Hobj).
  set (c1 := update "meta" (objectLike (JObj [])) (set "schemaVersion" (JInt 1) cur)).
  assert (O1 : isObj c1 = true) by (unfold c1; rewrite isObj_update, isObj_set; exact Hobj).
  destruct (stamp_or_keep (truthy (get "createdAt" (get "meta" c1)))
              (get "createdAt" (get "meta" c1)) w) as (cv & w1 & Hc & F1).
  assert (Tcv : truthy cv = true).
  { destruct (truthy (get "createdAt" (get "meta" c1))) eqn:E.
    - unfold ret in Hc. inversion Hc; subst. exact E.
    - unfold bind, nowIso, bind, dateNow, ret in Hc. inversion Hc; subst.
      apply NormalFacts.iso_truthy. }
  set (w2 := with_ticks (S (ticks w1)) w1).
  set (c2 := update "meta" (set "updatedAt" (JStr (toISOString (clock w1 (ticks w1)))))
               (update "meta" (set "createdAt" cv) c1)).
  assert (O2 : isObj c2 = true) by (unfold c2; rewrite !isObj_update; exact O1).
  set (c3 := update "caixa" (update "aberturas" arrayOr)
               (update "caixa" (update "movimentos" arrayOr)
                  (update "caixa" (objectLike Schema.emptyCaixa)
                     (update "vendas" arrayOr
                        (update "estoque" arrayOr
                           (update "settings" (objectLike (JObj []))
                              (update "users" arrayOr c2))))))).
  assert (O3 : isObj c3 = true) by (unfold c3; rewrite !isObj_update; exact O2).
  exists (update "auditLog" arrayOr (update "devedores" arrayOr c3)), w2.
  split.
  { eapply bind_step; [exact Hc|].
    eapply bind_step; [apply nowIso_run|]. reflexivity. }
  split; [eapply frame_trans; [exact F1 | apply frame_ticks]|].
  split; [rewrite !isObj_update; exact O3|].
  split.
  { unfold c3, c2, c1. repeat field_ne. apply get_set_eq. exact Hobj. }
  split.
  { intros k Hk. unfold collections in Hk. cbn [In] in Hk.
    destruct Hk as [<-|[<-|[<-|[<-|[<-|[]]]]]].
    - repeat field_ne. unfold c3. repeat field_ne. field_eq.
      unfold c2, c1. repeat field_ne. reflexivity.
    - repeat field_ne. unfold c3. repeat field_ne. field_eq. repeat field_ne.
      unfold c2, c1. repeat field_ne. reflexivity.
    - repeat field_ne. unfold c3. repeat field_ne. field_eq. repeat field_ne.
      unfold c2, c1. repeat field_ne. reflexivity.
    - field_ne. field_eq. unfold c3, c2, c1. repeat field_ne. reflexivity.
    - field_eq. unfold c3, c2, c1. repeat field_ne. reflexivity. }
  split.
  { intros k Hk. unfold untouched, touched in Hk. cbn [forallb] in Hk.
    repeat (apply andb_prop in Hk; destruct Hk as [? Hk]).
    repeat match goal with
           | H : negb _ = true |- _ => apply negb_true_iff in H
           end.
    unfold c3, c2, c1. repeat field_ne. reflexivity. }
  split.
  { repeat field_ne. unfold c3. repeat field_ne. field_eq. repeat field_ne.
    unfold c2, c1. repeat field_ne. reflexivity. }
  split.
  - intros Hm.
    assert (M1 : get "meta" c1 = objectLike (JObj []) (get "meta" cur)).
    { unfold c1. field_eq. field_ne. reflexivity. }
    assert (OM1 : isObj (get "meta" c1) = true).
    { rewrite M1. apply isObj_objectLike; [reflexivity | exact Hm]. }
    assert (M2 : get "meta" c2
                 = set "updatedAt" (JStr (toISOString (clock w1 (ticks w1))))
                     (set "createdAt" cv (get "meta" c1))).
    { unfold c2. field_eq. field_eq. reflexivity. }
    assert (MN : get "meta" (update "auditLog" arrayOr (update "devedores" arrayOr c3))
                 = get "meta" c2).
    { unfold c3. repeat field_ne. reflexivity. }
    rewrite MN, M2. split; [rewrite !isObj_set; exact OM1|].
    rewrite get_set_ne by reflexivity. rewrite get_set_eq by exact OM1.
    split; [exact Tcv|].
    intros Hmo Ht. rewrite M1, (objectLike_obj _ _ Hmo) in Hc.
    rewrite Ht in Hc. unfold ret in Hc. inversion Hc. reflexivity.
  - intros Hcx.
    assert (C0 : get "caixa" (update "vendas" arrayOr
                        (update "estoque" arrayOr
                           (update "settings" (objectLike (JObj []))
                              (update "users" arrayOr c2))))
                 = get "caixa" cur).
    { repeat field_ne. unfold c2, c1. repeat field_ne. reflexivity. }
    set (d := update "vendas" arrayOr _) in *.
    assert (Od : isObj d = true) by (unfold d; rewrite !isObj_update; exact O2).
    set (cx := objectLike Schema.emptyCaixa (get "caixa" cur)).
    assert (Ocx : isObj cx = true).
    { apply isObj_objectLike; [reflexivity | exact Hcx]. }
    assert (CN : get "caixa" (update "auditLog" arrayOr (update "devedores" arrayOr c3))
                 = update "aberturas" arrayOr (update "movimentos" arrayOr cx)).
    { repeat field_ne. unfold c3. fold d.
      field_eq. field_eq. field_eq. rewrite C0. reflexivity. }
    rewrite CN. split; [rewrite !isObj_update; exact Ocx|]. split.
    + field_ne. field_eq. apply isArray_arrayOr.
    + rewrite get_update_eq by (rewrite isObj_update; exact Ocx). apply isArray_arrayOr.
Qed.

Lemma eqb_int (a b : Z) : Num.eqb (int a) (int b) = (a =? b).
Proof.
  unfold Num.eqb, int. cbn [cmp Nat.max Nat.sub]. rewrite pow10_0, !Z.mul_1_r.
  destruct (Z.compare_spec a b) as [H|H|H].
  - subst. symmetry. apply Z.eqb_refl.
  - symmetry. apply Z.eqb_neq. lia.
  - symmetry. apply Z.eqb_neq. lia.
Qed.

Lemma truthy_int (n : Z) : (if Num.truthy (int n) then int n else int 0) = int n.
Proof.
  cbn [Num.truthy int]. destruct (n =? 0) eqn:E; [|reflexivity].
  apply Z.eqb_eq in E. subst. reflexivity.
Qed.

(** Below version 0 a round only counts up. *)
Lemma loop_counts (f : nat) (n : Z) (cur migrations : JValue) (w : World) :
  n < 0 ->
  migrateLoop (S f) (int n) (int 1) cur migrations w
  = migrateLoop f (int (n + 1)) (int 1) cur migrations w.
Proof.
  intros Hn. cbn [migrateLoop]. rewrite ltb_int, add_int, eqb_int.
  destruct (Z.ltb_spec n 1) as [_|H]; [|lia]. cbn [negb].
  destruct (Z.eqb_spec (n + 1) 1) as [H|_]; [lia | reflexivity].
Qed.

(** The round from version 0 runs the step and ends the loop. *)
Lemma loop_migrates (f : nat) (cur : JValue) (l : list JValue) (w : World) :
  isObj cur = true ->
  exists N w1,
    toVersion1 cur w = Ok N w1
    /\ migrateLoop (S f) (int 0) (int 1) cur (JArr l) w
       = Ok (Some (N, JArr (List.app l
                              [migrationEntry (toISOString (clock w1 (ticks w1)))])))
            (with_ticks (S (ticks w1)) w1).
Proof.
  intros Hobj.
  destruct (toVersion1_run cur w Hobj) as (N & w1 & Hrun & _).
  exists N, w1. split; [exact Hrun|].
  cbn [migrateLoop]. rewrite ltb_int, add_int, eqb_int. cbn [Z.ltb Z.compare negb Z.add Z.eqb Pos.eqb].
  eapply bind_step; [exact Hrun|].
  eapply bind_step; [apply nowIso_run|].
  destruct f as [|f]; cbn [migrateLoop]; rewrite ltb_int; reflexivity.
Qed.

Lemma loop_from (k : nat) (fuel : nat) (cur : JValue) (l : list JValue) (w : World) :
  isObj cur = true -> (S k <= fuel)%nat ->
  exists N w1,
    toVersion1 cur w = Ok N w1
    /\ migrateLoop fuel (int (- Z.of_nat k)) (int 1) cur (JArr l) w
       = Ok (Some (N, JArr (List.app l
                              [migrationEntry (toISOString (clock w1 (ticks w1)))])))
            (with_ticks (S (ticks w1)) w1).
Proof.
  intros Hobj. revert fuel. induction k as [|k IH]; intros fuel Hf.
  - destruct fuel as [|f]; [lia|]. apply loop_migrates. exact Hobj.
  - destruct fuel as [|f]; [lia|].
    destruct (IH f ltac:(lia)) as (N & w1 & H1 & H2).
    exists N, w1. split; [exact H1|].
    rewrite loop_counts by lia.
    replace (- Z.of_nat (S k) + 1) with (- Z.of_nat k) by lia. exact H2.
Qed.

(** The whole call from a version that is 0 or a negative integer. *)
Lemma migrate_run (fuel : nat) (db migrations : JValue) (n : Z) (l : list JValue)
    (w : World) :
  isObj (or_else db (JObj [])) = true ->
  n <= 0 -> (Z.to_nat (1 - n) <= fuel)%nat ->
  or_else migrations (JArr []) = JArr l ->
  exists N w1,
    toVersion1 (or_else db (JObj [])) w = Ok N w1
    /\ migrate fuel db (int n) (int 1) migrations w
       = Ok (Some (N, JArr (List.app l
                              [migrationEntry (toISOString (clock w1 (ticks w1)))])))
            (with_ticks (S (ticks w1)) w1).
Proof.
  intros Hobj Hn Hfuel Hm. unfold migrate. cbv zeta. rewrite truthy_int, Hm.
  destruct (loop_from (Z.to_nat (- n)) fuel (or_else db (JObj [])) l w Hobj ltac:(lia))
    as (N & w1 & Hrun & Hloop).
  replace (- Z.of_nat (Z.to_nat (- n))) with n in Hloop by lia.
  exists N, w1. split; [exact Hrun | exact Hloop].
Qed.

(** X13. [migrate] towards version 1.  A database that is already at (or
    above) the target version is returned as it is, without reading the
    clock.  A database at version 0 or at a negative integer version down
    to -10^15 (where adding 1 to the version is exact in the arithmetic of
    the engine, so that the loop counts up to 0) is taken through the step
    to version 1 exactly once, provided the loop is given as many rounds
    as there are versions to count: [schemaVersion]
    becomes 1, every collection that is an array is kept and every other
    one becomes the empty array, the keys the schema does not know are
    left alone, a creation date already there is kept, and the report
    gains one entry [{ from: 0, to: 1, at }]. *)
Theorem migrate_to_version_1 (fuel : nat) (db migrations : JValue) (w : World) :
  (forall fromVersion toVersion,
     Num.ltb (if Num.truthy fromVersion then fromVersion else int 0) toVersion = false ->
     migrate fuel db fromVersion toVersion migrations w
     = Ok (Some (or_else db (JObj []), or_else migrations (JArr []))) w)
  /\ (forall n l,
        isObj (or_else db (JObj [])) = true ->
        n <= 0 -> Exact.modest n -> (Z.to_nat (1 - n) <= fuel)%nat ->
        or_else migrations (JArr []) = JArr l ->
        exists N at_ w',
          migrate fuel db (int n) (int 1) migrations w
          = Ok (Some (N, JArr (List.app l [migrationEntry at_]))) w'
          /\ frame w w' /\ isObj N = true
          /\ get "schemaVersion" N = JInt 1
          /\ (forall k, In k collections ->
                get k N = arrayOr (get k (or_else db (JObj []))))
          /\ (forall k, untouched k = true -> get k N = get k (or_else db (JObj [])))
          /\ (isObj (get "meta" db) = true ->
              truthy (get "createdAt" (get "meta" db)) = true ->
              get "createdAt" (get "meta" N) = get "createdAt" (get "meta" db))).
Proof.
  split.
  - intros fromVersion toVersion Hv. unfold migrate. cbv zeta.
    destruct fuel; cbn [migrateLoop]; rewrite Hv; reflexivity.
  - intros n l Hobj Hn _ Hfuel Hm.
    destruct (migrate_run fuel db migrations n l w Hobj Hn Hfuel Hm)
      as (N & w1 & Hrun & Hmig).
    set (cur := or_else db (JObj [])) in *.
    destruct (toVersion1_run cur w Hobj)
      as (N' & w1' & Hrun' & F & ON & Hv & Hcol & Hun & _ & Hmeta & _).
    rewrite Hrun in Hrun'. inversion Hrun'; subst N' w1'.
    exists N, (toISOString (clock w1 (ticks w1))), (with_ticks (S (ticks w1)) w1).
    split; [exact Hmig|].
    split; [eapply frame_trans; [exact F | apply frame_ticks]|].
    split; [exact ON|]. split; [exact Hv|]. split; [exact Hcol|]. split; [exact Hun|].
    intros Hmo Ht.
    assert (Ec : cur = db).
    { unfold cur, or_else. destruct db; try reflexivity; discriminate. }
    rewrite Ec in Hmeta.
    assert (Hna : isArray (get "meta" db) = false).
    { destruct (get "meta" db); try reflexivity; discriminate. }
    apply (proj2 (proj2 (Hmeta Hna)) Hmo Ht).
Qed.

Lemma migrate_to_version_1_witness :
  let db := JObj [("estoque", JArr [JObj [("cod", JStr "A")]]); ("loja", JStr "x")] in
  exists N at_ w',
    migrate 1 db (int 0) (int 1) JUndefined quietWorld
    = Ok (Some (N, JArr [migrationEntry at_])) w'
    /\ get "schemaVersion" N = JInt 1
    /\ get "estoque" N = JArr [JObj [("cod", JStr "A")]]
    /\ get "vendas" N = JArr []
    /\ get "loja" N = JStr "x".
Proof.
  cbv zeta.
  destruct (proj2 (migrate_to_version_1 1
                     (JObj [("estoque", JArr [JObj [("cod", JStr "A")]]);
                            ("loja", JStr "x")])
                     JUndefined quietWorld) 0 [] eq_refl ltac:(lia)
              ltac:(unfold Exact.modest; cbn; lia) ltac:(cbn; lia) eq_refl)
    as (N & at_ & w' & H & _ & _ & Hv & Hcol & Hun & _).
  exists N, at_, w'. split; [exact H|]. split; [exact Hv|].
  split; [apply (Hcol "estoque"); cbn; auto|].
  split; [apply (Hcol "vendas"); cbn; auto|].
  apply (Hun "loja"). reflexivity.
Defined.

End MigrateFacts.

(* ================================================================== *)
(** * Start-up (db_core.js) *)
(* ================================================================== *)

Module InitFacts.
Import Migration DbInit.

(** The host after the options of init are taken over. *)
Definition configured (key : JValue) (backupCfg : option BackupCfg) (w : World)
  : World := worldOf (configure key backupCfg w).

Lemma configure_run (key : JValue) (backupCfg : option BackupCfg) (w : World) :
  configure key backupCfg w = Ok tt (configured key backupCfg w).
Proof. reflexivity. Qed.

Lemma configured_facts (key : JValue) (backupCfg : option BackupCfg) (w : World) :
  let w0 := configured key backupCfg w in
  ls w0 = ls w /\ quota w0 = quota w /\ recovery w0 = recovery w
  /\ storageKey w0 = (if truthy key then ToString key else storageKey w).
Proof. repeat split. Qed.

Lemma calm_configured (key : JValue) (backupCfg : option BackupCfg) (w : World) :
  calm w -> calm (configured key backupCfg w).
Proof. intros Hc k r. apply Hc. Qed.

Lemma restamp_fresh (c u t : string) :
  NormalFacts.restamped t (Schema.freshDB c u) = Schema.freshDB c t.
Proof. reflexivity. Qed.

(** Saving a fresh default database stores a default database. *)
Lemma save_fresh (c : Z) (u : string) (force : bool) (w : World) :
  calm w ->
  exists t res w',
    DbCore.safeSave (Schema.freshDB (toISOString c) u) force false w = Ok res w'
    /\ ls w' (storageKey w) = Some (Doc (Schema.freshDB (toISOString c) t))
    /\ recovery w' = recovery w /\ sameHost w w'
    /\ (force = true -> (1 <= maxSnapshots w)%nat ->
          exists snap rest,
            StorageFacts.snapshotsAt w' (storageKey w) = snap :: rest
            /\ get "data" snap = Schema.freshDB (toISOString c) t).
Proof.
  intros Hc.
  destruct (StorageFacts.save_calm (Schema.freshDB (toISOString c) u) force w Hc)
    as (N & w1 & w' & HN & F & _ & Hsave & Hmain & _ & _ & Hrec & _ & Hsame & _ & Hyes).
  assert (S0 : NormalFacts.settledDB (Schema.freshDB (toISOString c) u) = true).
  { apply NormalFacts.fresh_settled. apply NormalFacts.iso_truthy. }
  destruct (NormalFacts.db_fixed _ w S0) as (w1' & Hfix).
  rewrite Hfix in HN. inversion HN; subst N w1'. clear HN.
  rewrite restamp_fresh in *.
  eexists. eexists. exists w'. split; [exact Hsave|]. split; [exact Hmain|].
  split; [exact Hrec|]. split; [exact Hsame|].
  intros Hforce Hcap. subst force. destruct (Hyes eq_refl) as (id & snap & _ & Hdata & Hls).
  rewrite (StorageFacts.snapshotsAt_doc _ _ _ Hls).
  destruct (maxSnapshots w) as [|n]; [lia|]. cbn [firstn].
  eexists. eexists. split; [reflexivity | exact Hdata].
Qed.

Lemma loadRaw_cases (w : World) :
  loadRaw w
  = Ok (match ls w (storageKey w) with
        | None => LoadedOk JNull
        | Some r =>
            if rawEmpty r then LoadedOk JNull
            else match parseRaw r with
                 | Some v => LoadedOk v
                 | None => LoadedError SyntaxError r
                 end
        end) w.
Proof.
  unfold loadRaw, bind, gets, getItem, gets, safeParseJSON.
  destruct (ls w (storageKey w)) as [r|]; [|reflexivity].
  destruct (rawEmpty r); [reflexivity|].
  destruct (parseRaw r); reflexivity.
Qed.

(** X14. [init] on a storage without a usable database, with a snapshot
    cap that is a natural number and a key that converts to text.  When the
    storage accepts the writes: with nothing stored under the key, init
    stores a fresh default database, reports versionFrom 0 and
    repaired:false, and leaves the recovery status alone; with a text that
    is not JSON under the key (a text without wide escapes that the reader
    refuses), init overwrites it with a fresh default
    database, forces a snapshot of it, turns recovery mode on with reason
    db_corrompido_json and reports repaired:true with the warning that the
    database was reset.  The key is the one given to init, or else the
    configured one. *)
Theorem init_without_database (fuel : nat) (key : JValue)
    (backupCfg : option BackupCfg) (w : World) :
  calm w ->
  Exact.stringable key = true ->
  let w0 := configured key backupCfg w in
  let k := storageKey w0 in
  k = (if truthy key then ToString key else storageKey w)
  /\ (ls w k = None \/ ls w k = Some (Text EmptyString) ->
        exists t1 t2 w',
          init fuel key backupCfg w
          = Ok (Some {| in_ok := true; in_storageKey := k; versionFrom := JInt 0;
                        versionTo := 1; repaired := false; in_warnings := [] |}) w'
          /\ ls w' k = Some (Doc (Schema.freshDB t1 t2))
          /\ recovery w' = recovery w)
  /\ (forall s, ls w k = Some (Text s) -> isEmpty s = false ->
        Exact.narrow s = true -> JSON.parse s = None ->
        exists t1 t2 w',
          init fuel key backupCfg w
          = Ok (Some {| in_ok := true; in_storageKey := k; versionFrom := JNull;
                        versionTo := 1; repaired := true;
                        in_warnings := [CORRUPTED_WARNING] |}) w'
          /\ ls w' k = Some (Doc (Schema.freshDB t1 t2))
          /\ active (recovery w') = true
          /\ reason (recovery w') = "db_corrompido_json"
          /\ ((1 <= maxSnapshots w0)%nat ->
                exists snap rest,
                  StorageFacts.snapshotsAt w' k = snap :: rest
                  /\ get "data" snap = Schema.freshDB t1 t2)).
Proof.
  intros Hc _ w0 k.
  assert (Hc0 : calm w0) by (apply calm_configured; exact Hc).
  split; [reflexivity|]. split.
  - intros Hraw.
    assert (Hload : loadRaw w0 = Ok (LoadedOk JNull) w0).
    { rewrite loadRaw_cases. fold k. change (ls w0 k) with (ls w k).
      destruct Hraw as [-> | ->]; reflexivity. }
    set (w1 := with_ticks (S (S (ticks w0))) w0).
    assert (Hc1 : calm w1) by (intros x r; apply Hc).
    destruct (save_fresh (clock w0 (ticks w0)) (toISOString (clock w0 (S (ticks w0))))
                false w1 Hc1) as (t & res & w' & Hsave & Hls & Hrec & _).
    exists (toISOString (clock w0 (ticks w0))), t, w'. split.
    { unfold init.
      eapply bind_step; [apply configure_run|]. fold w0.
      eapply bind_step; [reflexivity|]. fold k.
      eapply bind_step; [exact Hload|]. cbn [truthy negb].
      eapply bind_step; [reflexivity|].
      eapply bind_step; [exact Hsave|]. reflexivity. }
    split; [exact Hls | exact Hrec].
  - intros s Hraw Hne _ Hbad.
    assert (Hload : loadRaw w0 = Ok (LoadedError SyntaxError (Text s)) w0).
    { rewrite loadRaw_cases. fold k. change (ls w0 k) with (ls w k).
      rewrite Hraw. cbn [rawEmpty parseRaw]. rewrite Hne, Hbad. reflexivity. }
    destruct (SaveFacts.setRecovery_run true "db_corrompido_json"
                (DbCore.messageObject SyntaxError) w0) as (w1 & H1 & A1 & R1 & _).
    assert (F1 : quota w1 = quota w0 /\ storageKey w1 = storageKey w0
                 /\ maxSnapshots w1 = maxSnapshots w0).
    { unfold DbCore.setRecovery, bind, nowIso, dateNow, bind, ret, modify in H1.
      inversion H1. repeat split. }
    destruct F1 as (Q1 & K1 & M1).
    set (w2 := with_ticks (S (S (ticks w1))) w1).
    assert (Hc2 : calm w2).
    { intros x r. cbn [quota with_ticks w2]. rewrite Q1. apply Hc. }
    destruct (save_fresh (clock w1 (ticks w1)) (toISOString (clock w1 (S (ticks w1))))
                true w2 Hc2) as (t & res & w' & Hsave & Hls & Hrec & _ & Hsnap).
    cbn [storageKey maxSnapshots recovery with_ticks w2] in Hls, Hrec, Hsnap.
    rewrite K1 in Hls, Hsnap. rewrite M1 in Hsnap. fold k in Hls, Hsnap.
    exists (toISOString (clock w1 (ticks w1))), t, w'. split.
    { unfold init.
      eapply bind_step; [apply configure_run|]. fold w0.
      eapply bind_step; [reflexivity|]. fold k.
      eapply bind_step; [exact Hload|].
      eapply bind_step; [exact H1|].
      eapply bind_step; [reflexivity|].
      eapply bind_step; [exact Hsave|]. reflexivity. }
    split; [exact Hls|]. rewrite Hrec. split; [exact A1|]. split; [exact R1|].
    intros Hcap. apply Hsnap; [reflexivity | exact Hcap].
Qed.

(** The sample host with a text that is not JSON under the key. *)
Definition brokenWorld : World :=
  with_ls (fun k => if String.eqb k "erp_db" then Some (Text "{oops") else None)
    quietWorld.

Lemma init_without_database_witness :
  calm quietWorld
  /\ (exists t1 t2 w',
       init 0 JUndefined None quietWorld
       = Ok (Some {| in_ok := true; in_storageKey := "erp_db"; versionFrom := JInt 0;
                     versionTo := 1; repaired := false; in_warnings := [] |}) w'
       /\ ls w' "erp_db" = Some (Doc (Schema.freshDB t1 t2))
       /\ recovery w' = recovery quietWorld)
  /\ (exists t1 t2 w',
       init 0 JUndefined None brokenWorld
       = Ok (Some {| in_ok := true; in_storageKey := "erp_db"; versionFrom := JNull;
                     versionTo := 1; repaired := true;
                     in_warnings := [CORRUPTED_WARNING] |}) w'
       /\ ls w' "erp_db" = Some (Doc (Schema.freshDB t1 t2))
       /\ reason (recovery w') = "db_corrompido_json").
Proof.
  split; [intros k r; reflexivity|]. split.
  - destruct (init_without_database 0 JUndefined None quietWorld
                (fun k r => eq_refl) eq_refl) as (_ & H & _).
    apply H. left. reflexivity.
  - destruct (init_without_database 0 JUndefined None brokenWorld
                (fun k r => eq_refl) eq_refl) as (_ & _ & H).
    destruct (H "{oops" eq_refl eq_refl eq_refl eq_refl)
      as (t1 & t2 & w' & H1 & H2 & _ & H3 & _).
    exists t1, t2, w'. split; [exact H1|]. split; [exact H2 | exact H3].
Defined.

End InitFacts.

(* ================================================================== *)
(** * Start-up on a stored database, import and restore *)
(* ================================================================== *)

Module ReloadFacts.
Import Migration DbInit Restore.






End ReloadFacts.

(* ================================================================== *)
(** * Importing a backup (backup.js) *)
(* ================================================================== *)

Module ImportFacts.
Import Migration Restore.

Lemma restamp_twice (t1 t2 : string) (db : JValue) :
  NormalFacts.restamped t2 (NormalFacts.restamped t1 db) = NormalFacts.restamped t2 db.
Proof.
  unfold NormalFacts.restamped, update. destruct (isObj db) eqn:E.
  - rewrite get_set_eq by exact E. rewrite !NormalFacts.set_set. reflexivity.
  - rewrite !(set_not_obj _ _ db E). reflexivity.
Qed.

Lemma restamp_other (t k : string) (db : JValue) :
  String.eqb k "meta" = false -> get k (NormalFacts.restamped t db) = get k db.
Proof. intros H. unfold NormalFacts.restamped. apply get_update_ne. exact H. Qed.

Lemma restamp_meta (t k : string) (db : JValue) :
  isObj db = true -> String.eqb k "updatedAt" = false ->
  get k (get "meta" (NormalFacts.restamped t db)) = get k (get "meta" db).
Proof.
  intros Hobj H. unfold NormalFacts.restamped.
  rewrite get_update_eq by exact Hobj. apply get_set_ne. exact H.
Qed.

(** A database that normalizeDB returned comes back from normalizeDB with
    the time of normalisation replaced, and is again such a database. *)
Lemma renormalised (x N0 : JValue) (wx wx' w : World) :
  normalizeDB x wx = Ok N0 wx' ->
  exists t w',
    normalizeDB N0 w = Ok (NormalFacts.restamped t N0) w'
    /\ frame w w'
    /\ NormalFacts.settledDB N0 = true
    /\ NormalFacts.settledDB (NormalFacts.restamped t N0) = true.
Proof.
  intros Hx.
  destruct (NormalFacts.db_settles x wx) as (N0' & wx0 & Hx' & S0).
  rewrite Hx in Hx'. inversion Hx'; subst N0' wx0. clear Hx'.
  destruct (NormalFacts.db_fixed N0 w S0) as (w' & Hfix).
  destruct (NormalFacts.db_settles N0 w) as (N1 & w1 & H1 & S1).
  rewrite Hfix in H1. inversion H1; subst N1 w1. clear H1.
  destruct (StorageFacts.normalizeDB_runs N0 w) as (N2 & w2 & H2 & _ & F).
  rewrite Hfix in H2. inversion H2; subst N2 w2.
  eexists. exists w'. split; [exact Hfix|]. split; [exact F|]. split; assumption.
Qed.

Lemma importDB_returns (fuel : nat) (s : string) (merge : JValue) (w : World) :
  exists r w', importDB fuel s merge w = Ok r w'.
Proof.
  unfold importDB. destruct (truthy merge); [eexists; eexists; reflexivity|].
  unfold tryCatch. destruct (importBody fuel s w); eexists; eexists; reflexivity.
Qed.

(** X16. A backup written by [exportDB] is read back by [importDB]: for a
    database that normalizeDB returned, at schema version 1 and made of
    values that JSON text represents exactly, importing the exported text
    (pretty or not) succeeds when the storage accepts the writes, and what
    is stored is that database with nothing but [meta.updatedAt]
    replaced. *)
Theorem export_then_import (x N0 : JValue) (wx wx' : World) (pretty : bool)
    (fuel : nat) (w : World) :
  normalizeDB x wx = Ok N0 wx' ->
  Num.eqb (fromV N0) (int 1) = true ->
  JSON.clone N0 = N0 ->
  calm w ->
  exists text w1 res w' N,
    Backup.exportDB N0 pretty w = Ok text w1
    /\ importDB fuel text JUndefined w1 = Ok (Some res) w'
    /\ rs_ok res = true
    /\ ls w' (storageKey w) = Some (Doc N)
    /\ (forall k, String.eqb k "meta" = false -> get k N = get k N0)
    /\ (forall k, String.eqb k "updatedAt" = false ->
          get k (get "meta" N) = get k (get "meta" N0)).
Proof.
  intros Hx Hv Hplain Hc.
  rewrite BackupFacts.exportDB_run.
  set (t := toISOString (clock w (ticks w))).
  set (sv := BackupFacts.versionOf N0).
  set (c := checksum32 (BackupFacts.reference N0 t)).
  set (w1 := with_ticks (S (ticks w)) w).
  assert (Hc1 : calm w1) by (intros k r; apply Hc).
  destruct (renormalised x N0 wx wx' w1 Hx) as (t1 & w2 & HN1 & F1 & S0 & S1).
  assert (ON0 : isObj N0 = true).
  { unfold NormalFacts.settledDB in S0. rewrite !andb_true_iff in S0. apply S0. }
  assert (Hc2 : calm w2).
  { eapply calm_sameHost; [apply frame_sameHost; exact F1 | exact Hc1]. }
  destruct (StorageFacts.save_calm (NormalFacts.restamped t1 N0) false w2 Hc2)
    as (N & w3 & w' & HN & _ & _ & Hsave & Hmain & _).
  destruct (NormalFacts.db_fixed _ w2 S1) as (w3' & Hfix).
  rewrite Hfix in HN. inversion HN; subst N w3'. clear HN.
  rewrite restamp_twice in Hmain.
  assert (Wsv : JsonFacts.written sv = true).
  { unfold sv, BackupFacts.versionOf, or_else.
    destruct (truthy (Backup.optGet "schemaVersion" N0)) eqn:E; [|reflexivity].
    destruct (Backup.optGet "schemaVersion" N0); try reflexivity. discriminate. }
  assert (Wdb : JsonFacts.written N0 = true).
  { destruct N0; try reflexivity. discriminate. }
  assert (Hparse : JSON.parse
            (JSON.ser (if pretty then 2 else 0) 0
               (BackupFacts.payload sv t (Some c) N0))
            = Some (BackupFacts.payload (JSON.clone sv) t (Some c) N0)).
  { rewrite JsonFacts.parse_ser, (BackupFacts.clone_payload sv t (Some c) N0 Wsv Wdb).
    rewrite Hplain. reflexivity. }
  assert (K2 : storageKey w2 = storageKey w) by apply F1.
  eexists. exists w1. eexists. exists w'. eexists.
  split; [reflexivity|]. split.
  { unfold importDB. cbn [truthy]. unfold tryCatch, importBody.
    rewrite Hparse.
    change (get "db" (BackupFacts.payload (JSON.clone sv) t (Some c) N0)) with N0.
    cbn [truthy typeofObject BackupFacts.payload negb orb].
    rewrite (isObj_truthy N0 ON0). cbn [negb].
    unfold migrateIfNeeded. cbv zeta.
    change (int Schema.SCHEMA_VERSION) with (int 1). rewrite Hv. cbn [negb].
    unfold bind at 1. cbn [ret].
    rewrite (bind_Ok _ _ _ _ _ HN1).
    rewrite (bind_Ok _ _ _ _ _ Hsave).
    reflexivity. }
  split; [reflexivity|]. split; [rewrite <- K2; exact Hmain|]. split.
  - intros k Hk. apply restamp_other. exact Hk.
  - intros k Hk. apply restamp_meta; assumption.
Qed.

(** A database as normalizeDB returns it from the empty object. *)
Definition sampleDb : JValue :=
  Eval vm_compute in
    match result (normalizeDB (JObj []) quietWorld) with
    | Some d => d
    | None => JNull
    end.

Lemma export_then_import_witness :
  normalizeDB (JObj []) quietWorld
  = Ok sampleDb (worldOf (normalizeDB (JObj []) quietWorld))
  /\ Num.eqb (fromV sampleDb) (int 1) = true
  /\ JSON.clone sampleDb = sampleDb
  /\ calm quietWorld
  /\ exists text w1 res w' N,
       Backup.exportDB sampleDb true quietWorld = Ok text w1
       /\ importDB 0 text JUndefined w1 = Ok (Some res) w'
       /\ rs_ok res = true
       /\ ls w' (storageKey quietWorld) = Some (Doc N)
       /\ (forall k, String.eqb k "meta" = false -> get k N = get k sampleDb)
       /\ (forall k, String.eqb k "updatedAt" = false ->
             get k (get "meta" N) = get k (get "meta" sampleDb)).
Proof.
  assert (H : normalizeDB (JObj []) quietWorld
              = Ok sampleDb (worldOf (normalizeDB (JObj []) quietWorld))).
  { apply outcome_eta. vm_compute. reflexivity. }
  split; [exact H|]. split; [vm_compute; reflexivity|].
  split; [vm_compute; reflexivity|]. split; [intros k r; reflexivity|].
  apply (export_then_import (JObj []) sampleDb quietWorld _ true 0 quietWorld H).
  - vm_compute. reflexivity.
  - vm_compute. reflexivity.
  - intros k r. reflexivity.
Defined.

(** X17. [importDB] never throws, and what it refuses it refuses without
    writing: with [merge] set it answers that merging is not implemented;
    a text that is not JSON (a text without wide escapes that the reader
    refuses) gives one warning, the message of the reader; a payload that
    is not an object or has no [db] gives "Backup inválido.".  Each time
    the result is ok:false with that single warning and the host is left
    as it was. *)
Theorem importDB_refusals (fuel : nat) (s : string) (merge : JValue) (w : World) :
  (exists r w', importDB fuel s merge w = Ok r w')
  /\ (truthy merge = true ->
        importDB fuel s merge w
        = Ok (Some {| rs_ok := false; rs_warnings := [MERGE_UNSUPPORTED] |}) w)
  /\ (truthy merge = false -> Exact.narrow s = true -> JSON.parse s = None ->
        exists msg,
          importDB fuel s merge w
          = Ok (Some {| rs_ok := false; rs_warnings := [msg] |}) w)
  /\ (forall obj,
        truthy merge = false -> JSON.parse s = Some obj ->
        truthy obj && typeofObject obj && truthy (get "db" obj) = false ->
        importDB fuel s merge w
        = Ok (Some {| rs_ok := false; rs_warnings := ["Backup inválido."] |}) w).
Proof.
  split; [apply importDB_returns|]. split; [|split].
  - intros Hm. unfold importDB. rewrite Hm. reflexivity.
  - intros Hm _ Hp. exists Backup.syntaxErrorMessage.
    unfold importDB, tryCatch, importBody. rewrite Hm, Hp. reflexivity.
  - intros obj Hm Hp Hbad. unfold importDB, tryCatch, importBody. rewrite Hm, Hp.
    assert (E : negb (truthy obj) || negb (typeofObject obj)
                || negb (truthy (get "db" obj)) = true).
    { destruct (truthy obj), (typeofObject obj), (truthy (get "db" obj));
        try reflexivity; discriminate. }
    rewrite E. reflexivity.
Qed.

Lemma importDB_refusals_witness :
  truthy JUndefined = false /\ JSON.parse "[1,2]" = Some (JArr [JInt 1; JInt 2])
  /\ importDB 0 "[1,2]" JUndefined quietWorld
     = Ok (Some {| rs_ok := false; rs_warnings := ["Backup inválido."] |}) quietWorld
  /\ Exact.narrow "{oops" = true /\ JSON.parse "{oops" = None
  /\ exists msg,
       importDB 0 "{oops" JUndefined quietWorld
       = Ok (Some {| rs_ok := false; rs_warnings := [msg] |}) quietWorld.
Proof.
  split; [reflexivity|]. split; [vm_compute; reflexivity|].
  split.
  { apply (proj2 (proj2 (proj2 (importDB_refusals 0 "[1,2]" JUndefined quietWorld)))
             (JArr [JInt 1; JInt 2])).
    - reflexivity.
    - vm_compute. reflexivity.
    - reflexivity. }
  split; [reflexivity|]. split; [vm_compute; reflexivity|].
  apply (proj1 (proj2 (proj2 (importDB_refusals 0 "{oops" JUndefined quietWorld)))).
  - reflexivity.
  - reflexivity.
  - vm_compute. reflexivity.
Defined.

End ImportFacts.

(* ================================================================== *)
(** * The snapshot history (backup.js) *)
(* ================================================================== *)

Module RestoreFacts.
Import Backup Restore.






End RestoreFacts.

(* ================================================================== *)
(** * Listings (ops_stock_events.js, ops_cashier.js) *)
(* ================================================================== *)

Module ListingFacts.
Import Listing.















End ListingFacts.

(* ================================================================== *)
(** * The fiscal queue (fiscal/queue.js) *)
(* ================================================================== *)

Module FiscalFacts.
Import FiscalQueue.

(** The queue [ensureFiscalQueue] hands out, when it is an array. *)
Definition queueOf (db : JValue) : option (list JValue) :=
  match ensureFiscalQueue db with
  | Some (_, JArr q) => Some q
  | _ => None
  end.

Lemma queueOf_inv (db : JValue) (q : list JValue) :
  queueOf db = Some q ->
  exists db',
    ensureFiscalQueue db = Some (db', JArr q)
    /\ isObj db' = true
    /\ get "fiscalQueue" db' = JArr q
    /\ forall k, k <> "fiscalQueue" -> get k db' = get k db.
Proof.
  unfold queueOf, ensureFiscalQueue.
  destruct db as [| | | | | |fs]; try discriminate. cbv zeta.
  set (db' := update "fiscalQueue" (fun x => or_else x (JArr [])) (JObj fs)).
  destruct (get "fiscalQueue" db') as [| | | | |l|] eqn:E; try discriminate.
  intros H. injection H as <-. exists db'.
  split; [reflexivity|]. split; [unfold db'; rewrite isObj_update; reflexivity|].
  split; [exact E|].
  intros k Hk. unfold db'. apply get_update_ne.
  apply String.eqb_neq. exact Hk.
Qed.

Lemma queueOf_set (o : JValue) (l : list JValue) :
  isObj o = true ->
  ensureFiscalQueue (set "fiscalQueue" (JArr l) o)
  = Some (set "fiscalQueue" (JArr l) o, JArr l).
Proof.
  intros Ho. destruct o as [| | | | | |fs]; try discriminate.
  unfold ensureFiscalQueue. cbn [set]. fold (set "fiscalQueue" (JArr l) (JObj fs)).
  cbv zeta.
  assert (G : get "fiscalQueue" (set "fiscalQueue" (JArr l) (JObj fs)) = JArr l)
    by (apply get_set_eq; reflexivity).
  rewrite NormalFacts.update_fixed; [rewrite G; reflexivity | | rewrite G; reflexivity].
  rewrite NormalFacts.has_set. reflexivity.
Qed.

Lemma removeFirst_cases (key : JValue) (q : list JValue) :
  existsb isNullish q = false ->
  exists q1,
    removeFirst key q = Some q1
    /\ ((existsb (queued key) q = false /\ q1 = q)
        \/ exists before x after,
             q = List.app before (x :: after)
             /\ existsb (queued key) before = false
             /\ queued key x = true
             /\ q1 = List.app before after).
Proof.
  induction q as [|x r IH]; intros Hn.
  - exists []. split; [reflexivity|]. left. split; reflexivity.
  - cbn [existsb] in Hn. apply orb_false_iff in Hn. destruct Hn as [Hx Hr].
    cbn [removeFirst]. rewrite Hx.
    destruct (queued key x) eqn:Q.
    + exists r. split; [reflexivity|]. right. exists [], x, r.
      repeat split. exact Q.
    + destruct (IH Hr) as (q1 & H1 & Hc). rewrite H1. exists (x :: q1).
      split; [reflexivity|].
      destruct Hc as [[Hno ->]|(b & y & a & -> & Hb & Hy & ->)].
      * left. cbn [existsb]. rewrite Q, Hno. split; reflexivity.
      * right. exists (x :: b), y, a. cbn [existsb]. rewrite Q, Hb.
        repeat split. exact Hy.
Qed.

Lemma removeFirst_last (key item : JValue) (q : list JValue) :
  existsb isNullish q = false -> existsb (queued key) q = false ->
  isNullish item = false -> queued key item = true ->
  removeFirst key (List.app q [item]) = Some q.
Proof.
  intros Hn Hq Hz Hi. induction q as [|x r IH]; cbn [List.app removeFirst].
  - rewrite Hz, Hi. reflexivity.
  - cbn [existsb] in Hn, Hq. apply orb_false_iff in Hn, Hq.
    destruct Hn as [Hx Hr], Hq as [Qx Qr]. rewrite Hx, Qx, (IH Hr Qr). reflexivity.
Qed.

(** X21. [enqueueFiscal] puts the item at the end of the queue and touches
    no other field of the database; the summary taken next counts one item
    more, gives the item as the last one (null when the item is falsy) and
    counts it as pending exactly when its status is pending, offline_queue
    or error.  The pending count never exceeds the total. *)
Theorem enqueueFiscal_appends (db item : JValue) (q : list JValue) :
  queueOf db = Some q ->
  exists db1,
    enqueueFiscal db item = Some db1
    /\ queueOf db1 = Some (List.app q [item])
    /\ (forall k, k <> "fiscalQueue" -> get k db1 = get k db)
    /\ (existsb isNullish (List.app q [item]) = false ->
          exists s,
            queueSummary db1 = Some (db1, s)
            /\ total s = S (List.length q)
            /\ last s = or_else item JNull
            /\ pending s
               = (List.length (filter isPending q)
                  + (if isPending item then 1 else 0))%nat
            /\ (pending s <= total s)%nat).
Proof.
  intros Hq. destruct (queueOf_inv db q Hq) as (db' & He & Ho & _ & Hk).
  set (db1 := set "fiscalQueue" (JArr (List.app q [item])) db').
  assert (E1 : ensureFiscalQueue db1 = Some (db1, JArr (List.app q [item])))
    by (apply queueOf_set; exact Ho).
  exists db1. split; [unfold enqueueFiscal; rewrite He; reflexivity|].
  split; [unfold queueOf; rewrite E1; reflexivity|]. split.
  { intros k Hne. unfold db1. rewrite get_set_ne; [apply Hk; exact Hne|].
    apply String.eqb_neq. exact Hne. }
  intros Hn. unfold queueSummary. rewrite E1, Hn. eexists. split; [reflexivity|].
  cbn [total last pending]. rewrite List.length_app, List.last_last, filter_app.
  rewrite List.length_app. cbn [List.length filter].
  split; [lia|]. split; [reflexivity|].
  pose proof (filter_length_le isPending q) as Hle.
  destruct (isPending item); cbn [List.length]; split; first [reflexivity | lia].
Qed.

Lemma enqueueFiscal_appends_witness :
  let item := JObj [("key", JStr "nf-1"); ("status", JStr "pending")] in
  queueOf (JObj [("sales", JArr [])]) = Some []
  /\ exists db1,
       enqueueFiscal (JObj [("sales", JArr [])]) item = Some db1
       /\ queueOf db1 = Some [item].
Proof.
  cbv zeta. split; [reflexivity|].
  destruct (enqueueFiscal_appends (JObj [("sales", JArr [])])
              (JObj [("key", JStr "nf-1"); ("status", JStr "pending")]) []
              eq_refl) as (db1 & H1 & H2 & _).
  exists db1. split; assumption.
Defined.

(** X22. [removeFromQueue], on a queue without null entries, takes out the
    first entry whose [key] or [saleId] is the given text and only that
    one; the other entries keep their order, later entries under the same
    text stay, and no other field of the database changes.  When no entry
    matches, the queue is unchanged; so removing an item just enqueued, by
    a text no earlier entry carries, gives the queue back. *)
Theorem removeFromQueue_first_match (db : JValue) (k : string) (q : list JValue) :
  queueOf db = Some q ->
  existsb isNullish q = false ->
  exists db1 q1,
    removeFromQueue db (JStr k) = Some db1
    /\ queueOf db1 = Some q1
    /\ (forall f, f <> "fiscalQueue" -> get f db1 = get f db)
    /\ ((existsb (queued (JStr k)) q = false /\ q1 = q)
        \/ exists before x after,
             q = List.app before (x :: after)
             /\ existsb (queued (JStr k)) before = false
             /\ queued (JStr k) x = true
             /\ q1 = List.app before after)
    /\ (forall item,
          existsb (queued (JStr k)) q = false -> queued (JStr k) item = true ->
          exists db2 db3,
            enqueueFiscal db item = Some db2
            /\ removeFromQueue db2 (JStr k) = Some db3
            /\ queueOf db3 = Some q).
Proof.
  intros Hq Hn. destruct (queueOf_inv db q Hq) as (db' & He & Ho & _ & Hk).
  destruct (removeFirst_cases (JStr k) q Hn) as (q1 & Hr & Hc).
  exists (set "fiscalQueue" (JArr q1) db'), q1.
  split; [unfold removeFromQueue; rewrite He, Hr; reflexivity|].
  split; [unfold queueOf; rewrite (queueOf_set db' q1 Ho); reflexivity|].
  split.
  { intros f Hne. rewrite get_set_ne; [apply Hk; exact Hne|].
    apply String.eqb_neq. exact Hne. }
  split; [exact Hc|].
  intros item Hno Hi.
  assert (Hz : isNullish item = false) by (destruct item; first [reflexivity | discriminate]).
  set (db2 := set "fiscalQueue" (JArr (List.app q [item])) db').
  assert (O2 : isObj db2 = true) by (unfold db2; rewrite isObj_set; exact Ho).
  exists db2, (set "fiscalQueue" (JArr q) db2).
  split; [unfold enqueueFiscal; rewrite He; reflexivity|].
  split.
  - unfold removeFromQueue, db2. rewrite (queueOf_set db' _ Ho).
    rewrite (removeFirst_last (JStr k) item q Hn Hno Hz Hi). reflexivity.
  - unfold queueOf. rewrite (queueOf_set db2 q O2). reflexivity.
Qed.

Lemma removeFromQueue_first_match_witness :
  let a := JObj [("key", JStr "nf-1")] in
  let b := JObj [("saleId", JStr "v7")] in
  let c := JObj [("key", JStr "v7")] in
  let db := JObj [("fiscalQueue", JArr [a; b; c])] in
  queueOf db = Some [a; b; c]
  /\ exists db1, removeFromQueue db (JStr "v7") = Some db1
                 /\ queueOf db1 = Some [a; c].
Proof.
  cbv zeta.
  split; [reflexivity|].
  destruct (removeFromQueue_first_match
              (JObj [("fiscalQueue",
                      JArr [JObj [("key", JStr "nf-1")];
                            JObj [("saleId", JStr "v7")];
                            JObj [("key", JStr "v7")]])])
              "v7" _ eq_refl eq_refl) as (db1 & q1 & H1 & H2 & _).
  exists db1. split; [exact H1|].
  assert (E : Some db1 = Some (JObj [("fiscalQueue",
                      JArr [JObj [("key", JStr "nf-1")];
                            JObj [("key", JStr "v7")]])])).
  { rewrite <- H1. reflexivity. }
  injection E as ->. reflexivity.
Defined.

End FiscalFacts.

(* ================================================================== *)
(** * Telephone numbers (whatsapp.js) *)
(* ================================================================== *)

Module PhoneFacts.
Import WhatsApp.

Fixpoint digitsText (s : string) : bool :=
  match s with
  | EmptyString => true
  | String c r => isDigit c && digitsText r
  end.

Lemma digitsOnly_digits (s : string) : digitsText (digitsOnly s) = true.
Proof.
  induction s as [|c r IH]; [reflexivity|]. cbn [digitsOnly].
  destruct (isDigit c) eqn:E; [|exact IH]. cbn [digitsText]. rewrite E. exact IH.
Qed.

Lemma digitsOnly_fixed (s : string) : digitsText s = true -> digitsOnly s = s.
Proof.
  induction s as [|c r IH]; [reflexivity|]. cbn [digitsText digitsOnly].
  intros H. apply andb_true_iff in H. destruct H as [-> H]. rewrite (IH H).
  reflexivity.
Qed.

Lemma text_phone (s : string) :
  normalizePhoneE164 (JStr s)
  = if isEmpty (digitsOnly s) then EmptyString
    else if startsWith "55" (digitsOnly s) then digitsOnly s
    else "55" ++ digitsOnly s.
Proof.
  unfold normalizePhoneE164, or_else. cbn [truthy].
  destruct s; reflexivity.
Qed.

(** X23. [normalizePhoneE164] on a text returns digits only: nothing when
    the text holds no digit, and otherwise the digits of the text, with 55
    put in front unless they begin with 55 already.  So a number written
    with the country code comes back as its digits, a national number
    whose area code is 55 is taken to carry the country code and gets
    none, and normalising twice changes nothing.  null and undefined give
    the empty text. *)
Theorem normalizePhoneE164_digits (s : string) :
  let r := normalizePhoneE164 (JStr s) in
  digitsText r = true
  /\ (r = EmptyString <-> digitsOnly s = EmptyString)
  /\ (r = digitsOnly s \/ r = "55" ++ digitsOnly s)
  /\ (r = EmptyString \/ startsWith "55" r = true)
  /\ (forall rest, normalizePhoneE164 (JStr ("55" ++ rest)) = "55" ++ digitsOnly rest)
  /\ normalizePhoneE164 (JStr r) = r
  /\ normalizePhoneE164 JNull = EmptyString
  /\ normalizePhoneE164 JUndefined = EmptyString.
Proof.
  cbv zeta. rewrite (text_phone s).
  pose proof (digitsOnly_digits s) as Hd.
  set (d := digitsOnly s) in *.
  assert (H55 : forall t, startsWith "55" ("55" ++ t) = true).
  { intros t. unfold startsWith. apply String.prefix_correct.
    destruct t; reflexivity. }
  split.
  { destruct d as [|c d']; [reflexivity|]. cbn [isEmpty].
    destruct (startsWith "55" (String c d')); [exact Hd|]. exact Hd. }
  split.
  { destruct d as [|c d']; [split; reflexivity|]. cbn [isEmpty].
    destruct (startsWith "55" (String c d')); split; discriminate. }
  split.
  { destruct d as [|c d']; [left; reflexivity|]. cbn [isEmpty].
    destruct (startsWith "55" (String c d')); [left|right]; reflexivity. }
  split.
  { destruct d as [|c d']; [left; reflexivity|]. cbn [isEmpty]. right.
    destruct (startsWith "55" (String c d')) eqn:E; [exact E | apply H55]. }
  split.
  { intros rest. rewrite text_phone.
    change (digitsOnly ("55" ++ rest)) with ("55" ++ digitsOnly rest).
    rewrite H55. reflexivity. }
  split; [|split; reflexivity].
  rewrite text_phone.
  destruct d as [|c d'] eqn:Ed; [reflexivity|]. cbn [isEmpty].
  destruct (startsWith "55" (String c d')) eqn:E.
  - rewrite (digitsOnly_fixed _ Hd), E. reflexivity.
  - change (digitsOnly ("55" ++ String c d'))
      with ("55" ++ digitsOnly (String c d')).
    rewrite (digitsOnly_fixed _ Hd), H55. reflexivity.
Qed.

End PhoneFacts.

(* ================================================================== *)
(** * Amounts in centavos (utils/money.js) *)
(* ================================================================== *)

Module MoneyFacts.
Import Money.

Lemma round_whole (a b : Z) : mathRound (mul (int a) (int b)) = int (a * b).
Proof.
  unfold mul, mathRound, int, pow10. cbn [Nat.add Z.of_nat Z.pow].
  f_equal. change (10 ^ 0) with 1.
  replace (2 * (a * b) + 1) with (1 + (a * b) * (2 * 1)) by lia.
  rewrite Z.div_add by lia. reflexivity.
Qed.

(** X24. [moneyToCentsBR] on a whole number: up to 999 in absolute value
    it is taken as reais and multiplied by 100; above 999 it is taken as
    centavos already and returned as it is.  Hence 999 gives 99900 and
    1000 gives 1000.  A value that is neither a number nor a text gives
    0. *)
Theorem moneyToCentsBR_whole (n : Z) :
  moneyToCentsBR (JInt n) = int (if Z.abs n <=? 999 then 100 * n else n)
  /\ (forall m, 10 <= n <= 999 -> 999 < m < 100 * n ->
        Num.ltb (moneyToCentsBR (JInt m)) (moneyToCentsBR (JInt n)) = true)
  /\ (forall v, match v with JNum _ | JStr _ => False | _ => True end ->
        moneyToCentsBR v = int 0).
Proof.
  assert (W : forall k, moneyToCentsBR (JInt k)
                        = int (if Z.abs k <=? 999 then 100 * k else k)).
  { intros k. unfold moneyToCentsBR, JInt.
    assert (I : isInteger (int k) = true).
    { unfold isInteger, int, pow10. cbn [Z.of_nat]. change (10 ^ 0) with 1.
      rewrite Z.mod_1_r. reflexivity. }
    rewrite I. cbn [andb].
    assert (G : Num.gtb (Num.abs (int k)) (int 999) = negb (Z.abs k <=? 999)).
    { unfold Num.gtb, Num.ltb, Num.cmp, Num.abs, int, pow10.
      cbn [Nat.max Nat.sub Z.of_nat]. change (10 ^ 0) with 1. rewrite !Z.mul_1_r.
      destruct (Z.compare_spec 999 (Z.abs k)); destruct (Z.leb_spec (Z.abs k) 999);
        first [reflexivity | lia]. }
    rewrite G. destruct (Z.abs k <=? 999); cbn [negb]; [|reflexivity].
    rewrite round_whole. f_equal. lia. }
  split; [apply W|]. split.
  - intros m Hn Hm. rewrite !W.
    destruct (Z.leb_spec (Z.abs n) 999); [|lia].
    destruct (Z.leb_spec (Z.abs m) 999); [lia|].
    unfold Num.ltb, Num.cmp, int, pow10. cbn [Nat.max Nat.sub Z.of_nat].
    change (10 ^ 0) with 1. rewrite !Z.mul_1_r.
    destruct (Z.compare_spec m (100 * n)); first [reflexivity | lia].
  - intros v Hv. destruct v; first [reflexivity | contradiction].
Qed.

(** The whole amount a value stands for in a sum: 0 unless the value
    converts to a finite number. *)
Definition centsOf (v : JValue) : Z :=
  match ToNumber v with Dec m _ => m | _ => 0 end.

Definition wholeOrNone (v : JValue) : bool :=
  match ToNumber v with Dec _ (S _) => false | _ => true end.

Lemma sum_from (l : list JValue) (a : Z) :
  forallb wholeOrNone l = true ->
  fold_left
    (fun acc v =>
       let n := ToNumber v in Num.add acc (if isFinite n then n else int 0))
    l (int a)
  = int (a + fold_right Z.add 0 (map centsOf l)).
Proof.
  set (F := fun (acc : jsnum) (v : JValue) =>
              let n := ToNumber v in Num.add acc (if isFinite n then n else int 0)).
  revert a. induction l as [|v r IH]; intros a Hl.
  - cbn. f_equal. lia.
  - cbn [forallb] in Hl. apply andb_true_iff in Hl. destruct Hl as [Hv Hr].
    cbn [fold_left map fold_right].
    assert (E : F (int a) v = int (a + centsOf v)).
    { unfold F. cbv zeta. unfold wholeOrNone in Hv. unfold centsOf.
      destruct (ToNumber v) as [| b | m [|e]]; try discriminate; cbn [isFinite];
        unfold Num.add, int, pow10; cbn [Nat.max Nat.sub Z.of_nat];
        change (10 ^ 0) with 1; f_equal; lia. }
    rewrite E, (IH (a + centsOf v) Hr). f_equal. lia.
Qed.

(** The sum of the absolute values of the whole amounts of a list. *)
Definition sumBound (l : list JValue) : Z :=
  fold_right Z.add 0 (map (fun v => Z.abs (centsOf v)) l).

(** X25. With values that are whole numbers, or that do not convert to a
    finite number at all (undefined, NaN, a text that is no number, an
    infinity), and whose absolute values add up to 2^53 at most, so that
    every partial sum is a whole number the engine represents exactly,
    [sumCents] is the exact sum of the whole ones, the others counting as
    0, so the order of the values does not matter and the empty sum is 0;
    and [mulCents] of two whole numbers whose product is within 2^53 is
    their product, while a factor that is not a finite number makes it 0.
    The values are ones that convert to a number without throwing. *)
Theorem sumCents_whole (values : list JValue) :
  forallb wholeOrNone values = true ->
  forallb Exact.stringable values = true ->
  sumBound values <= 2 ^ 53 ->
  sumCents values = int (fold_right Z.add 0 (map centsOf values))
  /\ (forall more, forallb wholeOrNone more = true ->
        forallb Exact.stringable more = true ->
        sumBound values + sumBound more <= 2 ^ 53 ->
        sumCents (List.app values more)
        = Num.add (sumCents values) (sumCents more)
        /\ sumCents (List.app more values) = sumCents (List.app values more))
  /\ (forall a b, Z.abs a <= 2 ^ 53 -> Z.abs b <= 2 ^ 53 ->
        Z.abs (a * b) <= 2 ^ 53 ->
        mulCents (JInt a) (JInt b) = int (a * b))
  /\ (forall u v, Exact.stringable u = true -> Exact.stringable v = true ->
        isFinite (ToNumber u) = false ->
        mulCents u v = int 0 /\ mulCents v u = int 0).
Proof.
  intros Hv _ _.
  assert (S : forall l, forallb wholeOrNone l = true ->
                sumCents l = int (fold_right Z.add 0 (map centsOf l))).
  { intros l Hl. exact (sum_from l 0 Hl). }
  assert (A : forall l1 l2,
                fold_right Z.add 0 (map centsOf (List.app l1 l2))
                = fold_right Z.add 0 (map centsOf l1)
                  + fold_right Z.add 0 (map centsOf l2)).
  { intros l1 l2. induction l1 as [|x r IH]; [reflexivity|].
    cbn [List.app map fold_right]. rewrite IH. lia. }
  split; [apply S; exact Hv|]. split.
  - intros more Hm _ _.
    assert (H1 : forallb wholeOrNone (List.app values more) = true)
      by (rewrite forallb_app, Hv, Hm; reflexivity).
    assert (H2 : forallb wholeOrNone (List.app more values) = true)
      by (rewrite forallb_app, Hv, Hm; reflexivity).
    rewrite (S _ H1), (S _ H2), (S _ Hv), (S _ Hm), !A. split.
    + unfold Num.add, int, pow10. cbn [Nat.max Nat.sub Z.of_nat].
      change (10 ^ 0) with 1. f_equal. lia.
    + f_equal. lia.
  - split.
    + intros a b _ _ _. unfold mulCents, JInt. cbn [ToNumber isFinite]. cbv zeta.
      apply round_whole.
    + intros u v _ _ Hu. unfold mulCents. cbv zeta. rewrite Hu.
      assert (Z0 : forall x, isFinite x = true ->
                     mathRound (mul (int 0) x) = int 0
                     /\ mathRound (mul x (int 0)) = int 0).
      { intros x Hx. destruct x as [| |m e]; try discriminate.
        assert (P : forall k, 0 < pow10 k)
          by (intros k; unfold pow10; apply Z.pow_pos_nonneg; lia).
        unfold mul, mathRound, int.
        split; f_equal; apply Z.div_small.
        - specialize (P (0 + e)%nat). lia.
        - specialize (P (e + 0)%nat). lia. }
      destruct (isFinite (ToNumber v)) eqn:Ev.
      * destruct (Z0 (ToNumber v) Ev). split; assumption.
      * destruct (Z0 (int 0) eq_refl). split; assumption.
Qed.

Lemma sumCents_whole_witness :
  forallb wholeOrNone [JInt 1990; JUndefined; JStr "250"; JStr "abc"] = true
  /\ sumBound [JInt 1990; JUndefined; JStr "250"; JStr "abc"] = 2240
  /\ sumCents [JInt 1990; JUndefined; JStr "250"; JStr "abc"] = int 2240
  /\ mulCents (JInt 1990) (JInt 3) = int 5970.
Proof.
  split; [reflexivity|]. split; [reflexivity|].
  destruct (sumCents_whole [JInt 1990; JUndefined; JStr "250"; JStr "abc"]
              eq_refl eq_refl ltac:(vm_compute; discriminate))
    as (H1 & _ & H3 & _).
  split; [exact H1|].
  apply (H3 1990 3); vm_compute; discriminate.
Defined.

End MoneyFacts.

(* ================================================================== *)
(** * Product lookup and HTML escaping (integrations) *)
(* ================================================================== *)

Module IntegracoesFacts.
Import Integracoes.







(** ** escapeHtml *)

Fixpoint occurs (c : ascii) (s : string) : bool :=
  match s with
  | EmptyString => false
  | String c' r => Ascii.eqb c c' || occurs c r
  end.

Lemma occurs_app (c : ascii) (a b : string) :
  occurs c (a ++ b) = occurs c a || occurs c b.
Proof.
  induction a as [|x r IH]; [reflexivity|]. cbn [append occurs].
  rewrite IH, orb_assoc. reflexivity.
Qed.

(** What one character becomes. *)
Definition piece (c : ascii) : string :=
  if special c
  then match entityOf c with Some e => e | None => String c EmptyString end
  else String c EmptyString.

Lemma replaceSpecial_cons (c : ascii) (r : string) :
  replaceSpecial (String c r) = piece c ++ replaceSpecial r.
Proof. reflexivity. Qed.

Lemma piece_cases (c : ascii) :
  (special c = false /\ piece c = String c EmptyString)
  \/ (c = "&"%char /\ piece c = "&amp;")
  \/ (c = "<"%char /\ piece c = "&lt;")
  \/ (c = ">"%char /\ piece c = "&gt;")
  \/ (c = "'"%char /\ piece c = "&#39;")
  \/ (c = JSON.dquote /\ piece c = "&quot;").
Proof.
  unfold piece, special, entityOf.
  destruct (Ascii.eqb_spec c "&") as [->|H1]; [right; left; split; reflexivity|].
  destruct (Ascii.eqb_spec c "<") as [->|H2];
    [right; right; left; split; reflexivity|].
  destruct (Ascii.eqb_spec c ">") as [->|H3];
    [right; right; right; left; split; reflexivity|].
  destruct (Ascii.eqb_spec c "'") as [->|H4];
    [right; right; right; right; left; split; reflexivity|].
  destruct (Ascii.eqb_spec c JSON.dquote) as [->|H5];
    [right; right; right; right; right; split; reflexivity|].
  left. split; reflexivity.
Qed.

Lemma piece_clean (c d : ascii) :
  special d = true -> d <> "&"%char -> occurs d (piece c) = false.
Proof.
  intros Hd Hamp.
  assert (Hd' : d = "<"%char \/ d = ">"%char \/ d = "'"%char \/ d = JSON.dquote).
  { unfold special in Hd. rewrite !orb_true_iff in Hd.
    destruct Hd as [[[[H|H]|H]|H]|H]; apply Ascii.eqb_eq in H; auto.
    contradiction. }
  destruct (piece_cases c) as [[Hs ->]|[[-> ->]|[[-> ->]|[[-> ->]|[[-> ->]|[-> ->]]]]]].
  - cbn [occurs]. rewrite orb_false_r.
    destruct (Ascii.eqb_spec d c) as [->|Hne]; [congruence | reflexivity].
  - destruct Hd' as [-> | [-> | [-> | ->]]]; reflexivity.
  - destruct Hd' as [-> | [-> | [-> | ->]]]; reflexivity.
  - destruct Hd' as [-> | [-> | [-> | ->]]]; reflexivity.
  - destruct Hd' as [-> | [-> | [-> | ->]]]; reflexivity.
  - destruct Hd' as [-> | [-> | [-> | ->]]]; reflexivity.
Qed.

Lemma replaceSpecial_clean (s : string) (d : ascii) :
  special d = true -> d <> "&"%char -> occurs d (replaceSpecial s) = false.
Proof.
  intros Hd Hamp. induction s as [|c r IH]; [reflexivity|].
  rewrite replaceSpecial_cons, occurs_app, IH, (piece_clean c d Hd Hamp).
  reflexivity.
Qed.

Lemma piece_head (c : ascii) :
  exists h t, piece c = String h t /\ (special c = false -> h = c /\ t = EmptyString)
              /\ (special c = true -> h = "&"%char).
Proof.
  destruct (piece_cases c) as [[Hs ->]|[[-> ->]|[[-> ->]|[[-> ->]|[[-> ->]|[-> ->]]]]]];
    eexists; eexists; (split; [reflexivity|]); split; intros H;
    first [split; reflexivity | reflexivity | discriminate H | idtac].
  rewrite Hs in H. discriminate H.
Qed.

Lemma replaceSpecial_injective (s t : string) :
  replaceSpecial s = replaceSpecial t -> s = t.
Proof.
  revert t. induction s as [|c r IH]; intros t H.
  - destruct t as [|c' r']; [reflexivity|]. rewrite replaceSpecial_cons in H.
    destruct (piece_head c') as (h & tl & Hp & _). rewrite Hp in H.
    discriminate H.
  - destruct t as [|c' r'].
    { rewrite replaceSpecial_cons in H.
      destruct (piece_head c) as (h & tl & Hp & _). rewrite Hp in H.
      discriminate H. }
    rewrite !replaceSpecial_cons in H.
    destruct (piece_cases c) as [[Hs Hp]|[[-> Hp]|[[-> Hp]|[[-> Hp]|[[-> Hp]|[-> Hp]]]]]];
      destruct (piece_cases c')
        as [[Hs' Hp']|[[-> Hp']|[[-> Hp']|[[-> Hp']|[[-> Hp']|[-> Hp']]]]]];
      rewrite Hp in H; rewrite ?Hp' in H; cbn [append] in H;
      try discriminate H;
      try (injection H as H; f_equal; apply IH; exact H);
      try (injection H as Hc H; subst; discriminate Hs);
      try (injection H as Hc H; subst; discriminate Hs').
    injection H as Hc H. subst c'. f_equal. apply IH. exact H.
Qed.

Lemma replaceSpecial_longer (s : string) :
  (String.length s <= String.length (replaceSpecial s))%nat.
Proof.
  induction s as [|c r IH]; [apply Nat.le_refl|].
  rewrite replaceSpecial_cons, append_length.
  destruct (piece_head c) as (h & tl & -> & _). cbn [String.length]. lia.
Qed.

Lemma replaceSpecial_plain (s : string) :
  replaceSpecial s = s
  <-> forallb (fun c => negb (special c)) (list_ascii_of_string s) = true.
Proof.
  induction s as [|c r IH]; [split; reflexivity|].
  rewrite replaceSpecial_cons. cbn [list_ascii_of_string forallb].
  pose proof (replaceSpecial_longer r) as L.
  destruct (piece_cases c) as [[Hs ->]|[[-> ->]|[[-> ->]|[[-> ->]|[[-> ->]|[-> ->]]]]]].
  - rewrite Hs. cbn [negb andb append]. rewrite <- IH. split.
    + intros H. injection H as H. exact H.
    + intros ->. reflexivity.
  - split; intros H; [|discriminate H]. cbn [append] in H. injection H as H.
    apply (f_equal String.length) in H. cbn [String.length] in H. lia.
  - split; intros H; [|discriminate H]. cbn [append] in H. discriminate H.
  - split; intros H; [|discriminate H]. cbn [append] in H. discriminate H.
  - split; intros H; [|discriminate H]. cbn [append] in H. discriminate H.
  - split; intros H; [|discriminate H]. cbn [append] in H. discriminate H.
Qed.

(** X27. [escapeHtml] leaves no [<], [>], apostrophe or double quote in
    its result and loses nothing: two texts with the same result are the
    same text.  A text without any of the five characters comes back as it
    is, and only such a text does, so escaping a result again changes it
    whenever the first pass changed anything; the result is never shorter
    than the text.  Any falsy value (null, undefined, 0, false) gives the
    empty text. *)
Theorem escapeHtml_safe (s : string) :
  (forall d, special d = true -> d <> "&"%char ->
             occurs d (escapeHtml (JStr s)) = false)
  /\ (forall t, escapeHtml (JStr t) = escapeHtml (JStr s) -> t = s)
  /\ (escapeHtml (JStr s) = s
      <-> forallb (fun c => negb (special c)) (list_ascii_of_string s) = true)
  /\ (escapeHtml (JStr (escapeHtml (JStr s))) = escapeHtml (JStr s)
      <-> escapeHtml (JStr s) = s)
  /\ (String.length s <= String.length (escapeHtml (JStr s)))%nat
  /\ (forall v, truthy v = false -> escapeHtml v = EmptyString).
Proof.
  assert (T : forall t, escapeHtml (JStr t) = replaceSpecial t).
  { intros t. unfold escapeHtml, or_else. cbn [truthy]. destruct t; reflexivity. }
  rewrite !T.
  split; [intros d Hd Ha; apply replaceSpecial_clean; assumption|].
  split; [intros t; rewrite T; apply replaceSpecial_injective|].
  split; [apply replaceSpecial_plain|].
  split.
  - split.
    + intros H. apply replaceSpecial_injective in H. exact H.
    + intros H. rewrite H. exact H.
  - split; [apply replaceSpecial_longer|].
    intros v Hv. unfold escapeHtml, or_else. rewrite Hv. reflexivity.
Qed.

End IntegracoesFacts.

(* ================================================================== *)
(** * The inventory count (ops_inventory.js) *)
(* ================================================================== *)

Module InventoryFacts.











(** ** Starting *)











(** ** Applying the adjustments *)



































End InventoryFacts.

(* ================================================================== *)
(** * The merge of two colliding estoque items (server_sync.js) *)
(* ================================================================== *)

Module RuleFacts.
Import ServerSync JsonFacts MergeFacts.





(** ** The conflicts only grow, and the merged value does not depend on
    them *)











(** ** The rule for one field *)





(** ** Quantities *)








(** ** The collision *)







End RuleFacts.
